(* ===== verification/_CoqProject ===== *)
-Q . S2P
Prelude.v
Cdt.v
Token.v
Float64.v
SysState.v
Votes.v
Exchange.v
RexPool.v
Bandwidth.v
Rex.v
Solvency.v
RamLedger.v
RexLedger.v
RexReturn.v
RexVault.v
Producers.v
Rotation.v
Election.v
Voting.v
BlockInfo.v
NameBid.v
LimitAuth.v
Pay.v
NameLedger.v
PayLedger.v
Powerup.v
PriceOracle.v
Params.v
Rlp.v
Intx.v
IntxDiv.v
Evm.v
IntxArith.v
IntxBy2.v
IntxLong.v
IntxWide.v
IntxSigned.v
Intx128.v
IntxLoops.v
IntxMul.v
IntxText.v
IntxBytes.v
Admin.v
Books.v
System.v
Ballots.v
Chain.v
Rows.v
Msig.v
MsigSpec.v
Bios.v
