(* ===== verification/Prelude.v ===== *)
(** * The Telos system contracts

    A model of the contracts of the Telos chain (src/contracts) and of the libraries they
    carry (src/libs), with the theorems that make them correct.

    ** How the contracts are modelled

    An action of a contract is a function of the store monad [M S]: it reads and writes a
    store [S], and fails with the message of the [check] that stopped it. A failed action
    has no effect, as the host discards its writes. The store of the system contract is
    the record [sys] of SysState.v, with one field per table: a [multi_index] is a finite
    map from its primary key, a singleton a record, an index over a secondary key the
    sorted list [index_rows]. What an action asks of the host and of other contracts
    (inline transfers, notifications, resource limits, deferred transactions) is appended
    to [effects] in the order it is sent. eosio.token, eosio.msig and the small contracts
    have stores of their own.

    Integers are [Z] with the wrap of their C++ type written where the code can leave its
    range ([i64], [u32], ...). A [double] is an IEEE 754 binary64 number ([spec_float]),
    rounded as the machine rounds.

    Code that is not in the repository is a parameter: the checked operations of [asset],
    [symbol], [name] and of time (class [Cdt], its laws [CdtLaws]), the functions of the C
    library ([Libm], [LibmLaws]), what the chain and other contracts answer ([Host],
    [OracleLaws]), the hash functions, the chain's check of authorizations ([MsigLaws]),
    the streams that write single values ([Streams], [StreamLaws]). Each has a concrete
    instance ([cdt_model], [libm_model], ...) on which the examples evaluate.

    ** The files

    - Prelude.v: results, the monad, record update, machine integers, sums over tables,
      ordered tables, inversion of runs ([minv]) and the rules for relations every run
      respects ([respects], [solve_respects]).
    - Cdt.v, Float64.v: the platform and its numbers. SysState.v: the tables, from
      eosio.system.hpp, exchange_state.hpp, native.hpp, limit_auth_changes.hpp,
      block_info.hpp.
    - Token.v: eosio.token, the six actions of token.cpp.
    - Votes.v (vote weights, [update_votes], proxies), Producers.v (registration and the
      vote order), Voting.v (the voting actions): voting.cpp.
    - Rotation.v: system_kick.cpp and system_rotation.cpp, with the election of the
      schedule from voting.cpp; Election.v: who is elected. Pay.v: producer_pay.cpp,
      [onblock] and the pay snapshot. PayLedger.v: its tokens.
    - Exchange.v: exchange_state.cpp. Bandwidth.v: delegate_bandwidth.cpp. Solvency.v and
      RamLedger.v: the tokens staked, and those of the RAM market.
    - RexPool.v (what the REX actions share) and Rex.v (the actions): rex.cpp.
      RexLedger.v: the pool, the shares and their price; RexReturn.v: the return pool;
      RexVault.v: the tokens of eosio.rex.
    - Powerup.v: powerup.cpp. BlockInfo.v: block_info.cpp and block_info.hpp. LimitAuth.v:
      limit_auth_changes.cpp and native.hpp. NameBid.v: name_bidding.cpp and newaccount;
      NameLedger.v: the tokens of the auctions. Admin.v and Params.v: the privileged
      actions of eosio.system.cpp.
    - Evm.v: the actions of eosio.system.cpp that read votes from the EVM and write to it,
      over Rlp.v (rlp.hpp) and Intx.v (int128.hpp, intx.hpp, div.hpp, base.hpp), whose
      arithmetic is in IntxDiv.v (reciprocals), IntxArith.v, IntxBy2.v and IntxLong.v
      (division by one word, by two and by more).
    - IntxWide.v: the operators of the template uint of intx.hpp, of any width over those
      of half of it, with their laws ([Wide], [WideLaws]); IntxSigned.v: comparisons,
      negation, shifts by wide numbers, signed division; Intx128.v: the division of
      int128.hpp; IntxLoops.v: sums, shifts and products as loops over words; IntxMul.v:
      products, powers and modular arithmetic of every width ([Products], [ProductLaws]);
      IntxText.v and IntxBytes.v: conversions from and to text and bytes, and that the
      byte strings of Rlp.v are those the library makes.
    - Rows.v: rows of the tables of votes as bytes (the stream operators of
      eosio.system.hpp).
    - PriceOracle.v: the part of the price oracle that libs/delphioracle holds.
    - Ballots.v: the tables of votes through every action of the contract.
    - Books.v: which tables each part touches; System.v: all the actions of the system
      contract in one dispatch and the books of all parts together; Chain.v: the system
      contract and the token contract together, by transactions.
    - Msig.v: eosio.msig; MsigSpec.v: the board of motions it implements. Bios.v:
      eosio.wrap, eosio.bios and eosio.boot.

    ** How the parts interact

    [onblock] (Pay.v) is the clock: it counts blocks, calls the kicks and the rotation
    (Rotation.v), which order producers by the votes Votes.v keeps, closes name auctions
    (NameBid.v), whose proceeds REX collects ([channel_namebid_to_rex]), records the block
    (BlockInfo.v) and takes the pay snapshot. Staking (Bandwidth.v) changes a voter's
    stake and calls [update_votes]; so does REX, whose shares count as stake. Fees of the
    RAM market, of PowerUp and of auctions flow to REX by [channel_to_rex]. The shared
    steps have one definition, in the file of the component that owns them, and the
    ledgers (Solvency.v, RamLedger.v, RexVault.v, NameLedger.v, PayLedger.v, Powerup.v)
    follow one account's tokens through all that touch it: [flow a y effects] is what the
    effects move into account [a], and each theorem compares it with what the tables say
    the account owes. Books.v cuts the store into the books of these ledgers and shows for
    each piece of code which it leaves alone; System.v puts the ledgers together for the
    dispatch of all actions, and Chain.v lets the token contract (Token.v) perform what
    the actions ask for, so that the flows of the first become balances of the second.

    ** What the theorems show

    - The whole: with the token contract performing the transfers, the balances of
      eosio.stake, eosio.rex and eosio.names cover what the tables promise (C1), and what
      is promised is paid (C2); over any run of actions the books of all parts stay right
      together (C3). These runs, and those of C6, assume what the code leaves to others:
      that TEDP distributes only the core token, since [distviarex] checks no symbol; that
      the contract's own accounts sign nothing; that the supply of the token, or what its
      accounts hold, has a bound; and that the distributions of the return pool that are
      due stay in 64 bits.
    - Votes: the tables of votes stay in order over any run of any actions (C5); no vote
      stands in the way of a change of stake (C21), but one may stop the blocks (C22).
    - Ledgers, over any run of a component's actions: token balances sum to the supply
      (C4); eosio.rex and eosio.names keep enough for all they owe (C6, C9); stakes and
      refunds change by what eosio.stake receives and pays (C7); the counters of producer
      pay and of the RAM market move in step with the tokens, as numbers of 64 bits (C10,
      C13); what PowerUp rents out and what eosio.reserv keeps are the weight there is
      (C11); the return pool of REX pays out exactly what came in (C17). The bucket of
      producer pay is not always covered: how a snapshot divides it, and when it overdraws
      it, is C40.
    - Authority and fairness: no one's tokens move without them (C16); REX trades never
      pay by themselves (C30, C31); unstaked tokens wait three days (C19); limits on
      authority hold and never lock the owner out (C32, C33).
    - Functions: what transfers, votes, votes of the EVM and donations do, and exactly
      when they are accepted (C18, C14, C20, C29, C23), and what the price oracle votes
      for is accepted (C24).
    - Schedules: who is elected (C12); the rotated schedule has twenty-one different
      members (C26) where there are more candidates than that; where there are not, it may
      name one twice (C39).
    - Termination and bounds: pushing weight along proxies (C25), the decay arithmetic
      (C38).
    - Specifications: eosio.msig refines a board of motions, executes only what was
      approved and can always execute it (C8, C15, C27); the block window answers as the
      log of all blocks (C28); RLP decoding inverts encoding (C35), the host reads the
      parameters that were set (C34); the wide integers compute what their values say, and
      the model's plain numbers are those the contract computes (C37, C36).
    - Two theorems exhibit behaviour the code does not mean (C39, C22); parts of C29 and
      C40 do too.

    ** Bounds and fuel

    [propagate] follows proxies with one step per row of the voters table and one more,
    which C25 shows is enough where proxies form no cycle. The decoder of Rlp.v gets three
    calls per byte and three more, which C35 shows is enough for all that was encoded.
    [process_loans], [process_orders] and [expire_orders] stop after as many rows as the
    action names: the number is an argument of the code. [exp] gets as many steps as its
    exponent has bits. Every other loop is structural.

    ** Not modelled

    The ABI, and serialization but for the two tables of Rows.v; who pays for the RAM of a
    row; the empty actions that show results in traces (rex.results.cpp,
    powerup.results.cpp: sending one is an effect); the header of the TEDP contract
    (libs/eosio.tedp), whose table is read through [Host]; the actions of the price
    oracle, which its header only declares; of intx the overloads that only convert an
    operand; the dispatch of actions, which the host does, has definitions ([system_exec],
    [perform], ...) that translate no code; tests and build files. *)
From stdpp Require Import base gmap strings list sorting fin_maps.
Open Scope Z_scope.

(** ** Results and the contract monad *)

(** The outcome of an action: a value, or the message of the failed [check]. A
    failed action has no effect: the host discards every write it made. *)
Inductive result (A : Type) : Type :=
| Ok (a : A)
| Err (msg : string).
Arguments Ok {A} _.
Arguments Err {A} _.

(** Contract code reads and writes a store [S] and may fail. *)
Definition M (S A : Type) : Type := S -> result (A * S).

#[export] Instance M_ret S : MRet (M S) := fun A a s => Ok (a, s).
#[export] Instance M_bind S : MBind (M S) := fun A B f m s =>
  match m s with
  | Ok (a, s') => f a s'
  | Err e => Err e
  end.

Section monad.
Context {S : Type}.

Definition throw {A} (msg : string) : M S A := fun _ => Err msg.
Definition check (b : bool) (msg : string) : M S unit :=
  fun s => if b then Ok (tt, s) else Err msg.
Definition gets {A} (f : S -> A) : M S A := fun s => Ok (f s, s).
Definition modify (f : S -> S) : M S unit := fun s => Ok (tt, f s).
Definition lift {A} (r : result A) : M S A := fun s =>
  match r with Ok a => Ok (a, s) | Err e => Err e end.
(** [require_found o msg]: [table.get(key, msg)] and [require_find]. *)
Definition require_found {A} (o : option A) (msg : string) : M S A :=
  match o with Some a => mret a | None => throw msg end.
Definition when (b : bool) (m : M S unit) : M S unit := if b then m else mret tt.

Fixpoint for_each {A} (f : A -> M S unit) (l : list A) : M S unit :=
  match l with
  | [] => mret tt
  | x :: l' => f x ;; for_each f l'
  end.

Fixpoint fold_each {A B} (f : B -> A -> M S B) (b : B) (l : list A) : M S B :=
  match l with
  | [] => mret b
  | x :: l' => b' ← f b x; fold_each f b' l'
  end.
End monad.

Definition is_ok {A} (r : result A) : bool := match r with Ok _ => true | Err _ => false end.

(** ** Record update

    [r <| f := v |>] is the record [r] with field [f] replaced. A record type
    declares its eta expansion once, as an instance of [EtaRecord]; the setter of
    a field is then computed from it. *)
Class EtaRecord (R : Type) := eta_record : R -> R.
Class FieldSetter {R E : Type} (p : R -> E) := update_field : (E -> E) -> R -> R.
Arguments update_field {R E} p {_} _ _ /.

Ltac make_setter p :=
  match type of p with
  | ?R -> ?E =>
    let eta0 := constr:(_ : EtaRecord R) in
    let eta := eval cbv beta in eta0 in
    exact (fun (g : E -> E) (r : R) =>
      ltac:(let whole := eval cbv beta delta [eta] in (eta r) in
            lazymatch whole with
            | context C [p r] => let t := context C [g (p r)] in exact t
            end))
  end.

#[export] Hint Extern 0 (@FieldSetter _ _ ?p) => make_setter p : typeclass_instances.

Declare Scope record_scope.
Delimit Scope record_scope with rec.
Open Scope record_scope.
Notation "r <| p := v |>" := (update_field p (fun _ => v) r)
  (at level 8, p constr at level 1, left associativity, format "r <| p  :=  v |>") : record_scope.
Notation "r <| p ::= g |>" := (update_field p g r)
  (at level 8, p constr at level 1, left associativity, format "r <| p  ::=  g |>") : record_scope.

(** ** Machine integers

    A w-bit integer is a [Z] in its range; every operation of the source that can
    leave the range is followed by the wrap of its type. Signed overflow wraps, as
    it does on the WebAssembly machine the contracts run on. *)
Definition uwrap (w z : Z) : Z := z mod 2 ^ w.
Definition iwrap (w z : Z) : Z := (z + 2 ^ (w - 1)) mod 2 ^ w - 2 ^ (w - 1).
Definition u8 (z : Z) : Z := uwrap 8 z.
Definition u16 (z : Z) : Z := uwrap 16 z.
Definition u32 (z : Z) : Z := uwrap 32 z.
Definition u64 (z : Z) : Z := uwrap 64 z.
Definition u128 (z : Z) : Z := uwrap 128 z.
Definition i32 (z : Z) : Z := iwrap 32 z.
Definition i64 (z : Z) : Z := iwrap 64 z.
Definition i128 (z : Z) : Z := iwrap 128 z.
Definition i64_max : Z := 2 ^ 63 - 1.

Definition in_i64 (z : Z) : Prop := - 2 ^ 63 <= z < 2 ^ 63.
Definition in_u64 (z : Z) : Prop := 0 <= z < 2 ^ 64.
Definition in_u32 (z : Z) : Prop := 0 <= z < 2 ^ 32.

(** C++ division truncates toward zero and traps on a zero divisor. *)
Definition cdiv (a b : Z) : result Z :=
  if b =? 0 then Err "integer divide by zero" else Ok (Z.quot a b).
Definition cmod (a b : Z) : result Z :=
  if b =? 0 then Err "integer divide by zero" else Ok (Z.rem a b).

(** ** Sums over a table *)
Definition msum `{Countable K} {V} (f : V -> Z) (m : gmap K V) : Z :=
  map_fold (fun _ v acc => f v + acc) 0 m.

(** The sum of a list. *)
Definition zsum {A} (f : A -> Z) (l : list A) : Z := foldr (fun x z => f x + z) 0 l.
Arguments zsum : simpl never.

(** ** Rows of a table in the order of an index

    [index_rows k m] lists the rows of [m] by the secondary key [k], ties broken by
    the primary key, which is the order of iteration of a table index. *)
Definition index_le {V} (k : V -> Z) (x y : Z * V) : Prop :=
  k x.2 < k y.2 \/ k x.2 = k y.2 /\ x.1 <= y.1.

#[export] Instance index_le_dec {V} (k : V -> Z) : RelDecision (@index_le V k).
Proof. intros x y. unfold index_le. apply _. Defined.

Definition index_rows {V} (k : V -> Z) (m : gmap Z V) : list (Z * V) :=
  merge_sort (index_le k) (map_to_list m).
(** The rows in primary-key order, as a table's own iterator visits them. *)
Definition table_rows {V} (m : gmap Z V) : list (Z * V) := index_rows (fun _ => 0) m.

(** ** Relations every run of a computation respects *)
Definition respects {S A} (R : relation S) (m : M S A) : Prop :=
  forall s a s', m s = Ok (a, s') -> R s s'.
(** [m] leaves the component [f] of the store as it found it. *)
Notation keeps f m := (respects (fun s s' => f s' = f s) m) (only parsing).
(** [m] carries the invariant [I] from its start to its end. *)
Notation preserves I m := (respects (fun s s' => I s -> I s') m) (only parsing).

(** ** Inversion of successful runs *)
Section inversion.
Context {S : Type}.
Implicit Types s : S.

Lemma bind_Ok {A B} (m : M S A) (f : A -> M S B) s b s' :
  (m ≫= f) s = Ok (b, s') <-> exists a s1, m s = Ok (a, s1) /\ f a s1 = Ok (b, s').
Proof.
  unfold mbind, M_bind. destruct (m s) as [[a s1]|e]; [|naive_solver].
  split; [eauto|]. intros (? & ? & [= -> ->] & ?). done.
Qed.

Lemma bind_run_Ok {A B} (m : M S A) (f : A -> M S B) s a s1 :
  m s = Ok (a, s1) -> (m ≫= f) s = f a s1.
Proof. intros Hm. unfold mbind, M_bind. by rewrite Hm. Qed.

Lemma bind_run_Err {A B} (m : M S A) (f : A -> M S B) s e :
  m s = Err e -> (m ≫= f) s = Err e.
Proof. intros Hm. unfold mbind, M_bind. by rewrite Hm. Qed.

Lemma ret_Ok {A} (a b : A) s s' : (mret a : M S A) s = Ok (b, s') <-> b = a /\ s' = s.
Proof. unfold mret, M_ret. naive_solver. Qed.

Lemma check_Ok b msg s u s' : check b msg s = Ok (u, s') <-> b = true /\ s' = s.
Proof. unfold check. destruct b, u; naive_solver. Qed.

Lemma check_run b msg s : b = true -> check b msg s = Ok (tt, s).
Proof. by intros ->. Qed.

Lemma modify_run f s : modify f s = Ok (tt, f s).
Proof. done. Qed.

Lemma throw_Ok {A} msg s (a : A) s' : throw msg s = Ok (a, s') <-> False.
Proof. unfold throw. naive_solver. Qed.

Lemma gets_Ok {A} (f : S -> A) s a s' : gets f s = Ok (a, s') <-> a = f s /\ s' = s.
Proof. unfold gets. naive_solver. Qed.

Lemma modify_Ok f s u s' : modify f s = Ok (u, s') <-> s' = f s.
Proof. unfold modify. destruct u. naive_solver. Qed.

Lemma lift_Ok {A} (r : result A) s a s' : lift r s = Ok (a, s') <-> r = Ok a /\ s' = s.
Proof. unfold lift. destruct r; naive_solver. Qed.

Lemma require_found_Ok {A} (o : option A) msg s a s' :
  require_found o msg s = Ok (a, s') <-> o = Some a /\ s' = s.
Proof. unfold require_found, throw, mret, M_ret. destruct o; naive_solver. Qed.

Lemma when_Ok b (m : M S unit) s u s' :
  when b m s = Ok (u, s') <-> if b then m s = Ok (u, s') else s' = s.
Proof. unfold when, mret, M_ret. destruct b, u; naive_solver. Qed.
End inversion.

Lemma is_ok_run {S A} (m : M S A) s : is_ok (m s) = true -> exists a s', m s = Ok (a, s').
Proof. destruct (m s) as [[a s']|]; [by exists a, s'|done]. Qed.

(** A loop fails only as its body does. *)
Lemma for_each_never {S A} msg (f : A -> M S unit) l :
  (forall x s, f x s <> Err msg) -> forall s, for_each f l s <> Err msg.
Proof.
  intros Hf. induction l as [|x l IH]; intros s; [done|]. cbn. unfold mbind, M_bind.
  destruct (f x s) as [[u s1]|e] eqn:Hx; [apply IH|]. rewrite <- Hx. apply Hf.
Qed.

(** [minv H] opens a successful run [H] into the runs of its steps. *)
(** [subst_eq E] substitutes the variable the equation [E] defines, if it is one. *)
Ltac subst_eq E :=
  lazymatch type of E with
  | ?x = ?x => clear E
  | ?x = ?y => first [is_var x; subst x | is_var y; subst y | idtac]
  end.
Ltac minv_step H :=
  lazymatch type of H with
  | mbind _ _ _ = Ok _ =>
    apply bind_Ok in H;
    let a := fresh "a" in let s := fresh "s" in let H1 := fresh "Hrun" in
    destruct H as (a & s & H1 & H);
    lazymatch type of a with unit => destruct a | _ => idtac end; minv_step H1; minv_step H
  | mret _ _ = Ok _ => let E := fresh "E" in apply ret_Ok in H as [E H]; subst_eq H; subst_eq E
  | check _ _ _ = Ok _ =>
    let Hb := fresh "Hchk" in apply check_Ok in H as [Hb H]; subst_eq H
  | throw _ _ = Ok _ => apply throw_Ok in H; destruct H
  | gets _ _ = Ok _ => let E := fresh "E" in apply gets_Ok in H as [E H]; subst_eq H; subst_eq E
  | modify _ _ = Ok _ => apply modify_Ok in H; subst_eq H
  | lift _ _ = Ok _ => let Hr := fresh "Hres" in apply lift_Ok in H as [Hr H]; subst_eq H
  | require_found _ _ _ = Ok _ =>
    let Hf := fresh "Hfound" in apply require_found_Ok in H as [Hf H]; subst_eq H
  | _ => idtac
  end.
Tactic Notation "minv" hyp(H) := cbv beta in H; minv_step H.

(** [name_row x in H] names the row a lookup [H : t !! k = Some _] found. *)
Tactic Notation "name_row" ident(x) "in" hyp(H) :=
  lazymatch type of H with _ = Some ?r => rename r into x end.

(** [mok] builds a successful run step by step, leaving the conditions of its checks. *)
Ltac mok_step :=
  cbv beta zeta;
  lazymatch goal with
  | |- mbind _ _ _ = Ok _ => apply bind_Ok; eexists _, _; split
  | |- mret _ _ = Ok _ => apply ret_Ok; split; reflexivity
  | |- check _ _ _ = Ok _ => apply check_run
  | |- gets _ _ = Ok _ => apply gets_Ok; split; reflexivity
  | |- modify _ _ = Ok _ => apply modify_run
  | |- lift _ _ = Ok _ => apply lift_Ok; split; [|reflexivity]
  | |- require_found _ _ _ = Ok _ => apply require_found_Ok; split; [|reflexivity]
  end.
Ltac mok := repeat mok_step.

(** ** Compositional rules for [respects] *)
Section respects.
Context {S : Type} (R : relation S) `{!PreOrder R}.

Lemma respects_ret {A} (a : A) : respects R (mret a).
Proof. intros s b s' [-> ->]%ret_Ok. done. Qed.
Lemma respects_throw {A} msg : respects R (throw (A:=A) msg).
Proof. by intros s b s' []%throw_Ok. Qed.
Lemma respects_check b msg : respects R (check b msg).
Proof. by intros s u s' [_ ->]%check_Ok. Qed.
Lemma respects_gets {A} (f : S -> A) : respects R (gets f).
Proof. by intros s u s' [_ ->]%gets_Ok. Qed.
Lemma respects_lift {A} (r : result A) : respects R (lift r).
Proof. by intros s u s' [_ ->]%lift_Ok. Qed.
Lemma respects_require_found {A} (o : option A) msg : respects R (require_found o msg).
Proof. by intros s u s' [_ ->]%require_found_Ok. Qed.
Lemma respects_modify f : (forall s, R s (f s)) -> respects R (modify f).
Proof. intros Hf s u s' ->%modify_Ok. done. Qed.
Lemma respects_bind {A B} (m : M S A) (f : A -> M S B) :
  respects R m -> (forall a, respects R (f a)) -> respects R (m ≫= f).
Proof. intros Hm Hf s b s' (a & s1 & H1 & H2)%bind_Ok. etrans; [eapply Hm|eapply Hf]; done. Qed.
Lemma respects_when b (m : M S unit) : respects R m -> respects R (when b m).
Proof. intros Hm. unfold when. destruct b; [done|apply respects_ret]. Qed.
Lemma respects_for_each {A} (f : A -> M S unit) l :
  (forall x, respects R (f x)) -> respects R (for_each f l).
Proof. intros Hf. induction l; cbn; [apply respects_ret|]. apply respects_bind; auto. Qed.
Lemma respects_fold_each {A B} (f : B -> A -> M S B) l b :
  (forall b x, respects R (f b x)) -> respects R (fold_each f b l).
Proof.
  intros Hf. revert b. induction l; intros b; cbn; [apply respects_ret|].
  apply respects_bind; auto.
Qed.
End respects.

Create HintDb respects discriminated.
#[export] Hint Resolve respects_ret respects_throw respects_check respects_gets respects_lift
  respects_require_found respects_when respects_for_each respects_fold_each : respects.

#[export] Instance keeps_preorder {S B} (f : S -> B) : PreOrder (fun s s' => f s' = f s).
Proof. split; [done|]. intros x y z ? ?. congruence. Qed.
#[export] Instance preserves_preorder {S} (I : S -> Prop) : PreOrder (fun s s' => I s -> I s').
Proof. split; [by intros ?|]. intros x y z ? ?. auto. Qed.

(** [solve_respects] decomposes a computation along its text, leaving the store
    updates that the relation does not hold of by computation. *)
Ltac respects_rule :=
  lazymatch goal with
  | |- respects _ (mbind _ _) => apply respects_bind; [apply _|..]
  | |- respects _ (when _ _) => apply respects_when
  | |- respects _ (for_each _ _) => apply respects_for_each; [apply _|]
  | |- respects _ (fold_each _ _ _) => apply respects_fold_each; [apply _|]
  | |- respects _ (modify _) => apply respects_modify
  | |- _ => first [progress case_match | progress case_decide]
  end.
Ltac solve_respects_with tac :=
  repeat first
  [ progress intros
  | progress cbv beta zeta
  | solve [tac]
  | lazymatch goal with |- respects _ (mbind _ _) => fail | _ => idtac end;
    solve [eauto 3 with respects typeclass_instances]
  | respects_rule ];
  try done.
Ltac solve_respects := solve_respects_with fail.

(** ** Machine-integer lemmas *)
Lemma uwrap_small w z : 0 <= z < 2 ^ w -> uwrap w z = z.
Proof. apply Z.mod_small. Qed.

Lemma uwrap_range w z : 0 <= w -> 0 <= uwrap w z < 2 ^ w.
Proof. intros. unfold uwrap. apply Z.mod_pos_bound. lia. Qed.

Lemma iwrap_small w z : 0 < w -> - 2 ^ (w - 1) <= z < 2 ^ (w - 1) -> iwrap w z = z.
Proof.
  intros Hw Hz. unfold iwrap.
  assert (2 ^ w = 2 * 2 ^ (w - 1)) by (rewrite <- Z.pow_succ_r by lia; f_equal; lia).
  rewrite Z.mod_small; lia.
Qed.

Lemma iwrap_range w z : 0 < w -> - 2 ^ (w - 1) <= iwrap w z < 2 ^ (w - 1).
Proof.
  intros Hw. unfold iwrap.
  assert (2 ^ w = 2 * 2 ^ (w - 1)) by (rewrite <- Z.pow_succ_r by lia; f_equal; lia).
  pose proof (Z.mod_pos_bound (z + 2 ^ (w - 1)) (2 ^ w)). lia.
Qed.

Lemma i64_small z : in_i64 z -> i64 z = z.
Proof. intros. apply iwrap_small; [lia|done]. Qed.
Lemma i64_range z : in_i64 (i64 z).
Proof. apply (iwrap_range 64); lia. Qed.
Lemma u64_small z : in_u64 z -> u64 z = z.
Proof. apply uwrap_small. Qed.
Lemma u32_small z : in_u32 z -> u32 z = z.
Proof. apply uwrap_small. Qed.
Lemma u64_range z : in_u64 (u64 z).
Proof. apply (uwrap_range 64); lia. Qed.
Lemma i64_idem z : i64 (i64 z) = i64 z.
Proof. apply i64_small, i64_range. Qed.
Lemma i64_mod z1 z2 : z1 mod 2 ^ 64 = z2 mod 2 ^ 64 -> i64 z1 = i64 z2.
Proof.
  intros H. unfold i64, iwrap. f_equal.
  rewrite (Z.add_mod z1), (Z.add_mod z2) by lia. by rewrite H.
Qed.
Lemma i64_mod_eq z : i64 z mod 2 ^ 64 = z mod 2 ^ 64.
Proof.
  unfold i64, iwrap. rewrite Zminus_mod_idemp_l. f_equal. lia.
Qed.
(** Wrapping the parts of a sum is wrapping the sum. *)
Lemma i64_add_i64 a b c : i64 (i64 a + i64 (b - c)) = i64 (a - c + b).
Proof.
  apply i64_mod. rewrite Z.add_mod, !i64_mod_eq, <- Z.add_mod by lia. f_equal. lia.
Qed.
Lemma i64_shift z : exists k, i64 z = z + 18446744073709551616 * k.
Proof.
  unfold i64, iwrap. exists (- ((z + 2 ^ 63) / 2 ^ 64)). change (2 ^ (64 - 1)) with (2 ^ 63).
  rewrite Z.mod_eq by lia. lia.
Qed.
Lemma u64_shift z : exists k, u64 z = z + 18446744073709551616 * k.
Proof. unfold u64, uwrap. exists (- (z / 2 ^ 64)). rewrite Z.mod_eq by lia. lia. Qed.

(** [mod64] proves congruences modulo 2^64 between expressions with wraps inside. *)
Ltac mod64 :=
  change (2 ^ 64) with 18446744073709551616 in *;
  repeat match goal with
  | |- context [i64 ?z] => let k := fresh "k" in destruct (i64_shift z) as [k ->]
  | |- context [u64 ?z] => let k := fresh "k" in destruct (u64_shift z) as [k ->]
  | H : context [i64 ?z] |- _ => let k := fresh "k" in let E := fresh "E" in
    destruct (i64_shift z) as [k E]; rewrite !E in *; clear E
  end;
  Z.to_euclidean_division_equations; lia.

Lemma u32_range z : in_u32 (u32 z).
Proof. apply (uwrap_range 32); lia. Qed.

Lemma cdiv_Ok a b q : cdiv a b = Ok q <-> b <> 0 /\ q = Z.quot a b.
Proof. unfold cdiv. destruct (Z.eqb_spec b 0); naive_solver. Qed.

Lemma cdiv_pos a b q : 0 <= a -> 0 <= b -> cdiv a b = Ok q -> 0 < b /\ q = a / b.
Proof. intros ?? [? ->]%cdiv_Ok. split; [lia|]. apply Z.quot_div_nonneg; lia. Qed.

(** ** Strings *)
Lemma string_length_app (a b : string) : String.length (a ++ b) = (String.length a + String.length b)%nat.
Proof. induction a as [|c a IH]; [done|]. exact (f_equal S IH). Qed.

(** ** List sums *)
Lemma zsum_nil {A} (f : A -> Z) : zsum f [] = 0.
Proof. done. Qed.
Lemma zsum_cons {A} (f : A -> Z) x l : zsum f (x :: l) = f x + zsum f l.
Proof. done. Qed.
Lemma zsum_app {A} (f : A -> Z) l1 l2 : zsum f (l1 ++ l2) = zsum f l1 + zsum f l2.
Proof. induction l1 as [|x l1 IH]; [done|]. cbn [app]. rewrite !zsum_cons, IH. lia. Qed.
Lemma zsum_nonneg {A} (f : A -> Z) l : Forall (fun x => 0 <= f x) l -> 0 <= zsum f l.
Proof. induction 1; [done|]. rewrite zsum_cons. lia. Qed.

Lemma zsum_ext {A} (f g : A -> Z) l : (forall x, x ∈ l -> f x = g x) -> zsum f l = zsum g l.
Proof.
  induction l as [|x l IH]; intros H; [done|]. rewrite !zsum_cons, IH; [|intros y Hy; apply H; by right].
  rewrite H; [done|by left].
Qed.

Lemma zsum_perm {A} (f : A -> Z) l l' : l ≡ₚ l' -> zsum f l = zsum f l'.
Proof. induction 1; rewrite ?zsum_cons; lia. Qed.

(** ** Table sums *)
Section msum.
Context `{Countable K} {V : Type} (f : V -> Z).
Implicit Types m : gmap K V.

Lemma msum_empty : msum f (∅ : gmap K V) = 0.
Proof. apply map_fold_empty. Qed.

Lemma msum_insert_new m k v : m !! k = None -> msum f (<[k:=v]> m) = f v + msum f m.
Proof.
  intros Hk. unfold msum. apply (map_fold_insert_L (fun _ v acc => f v + acc)); [|done].
  intros. lia.
Qed.

Lemma msum_delete m k v : m !! k = Some v -> msum f m = f v + msum f (delete k m).
Proof.
  intros Hk. rewrite <- (insert_delete_id m k v) at 1 by done.
  by rewrite msum_insert_new by apply lookup_delete_eq.
Qed.

Lemma msum_insert m k v w :
  m !! k = Some v -> msum f (<[k:=w]> m) = msum f m - f v + f w.
Proof.
  intros Hk. rewrite <- insert_delete_eq, msum_insert_new by apply lookup_delete_eq.
  rewrite (msum_delete m k v) by done. lia.
Qed.

Lemma msum_nonneg m : map_Forall (fun _ v => 0 <= f v) m -> 0 <= msum f m.
Proof.
  induction m as [|k v m Hk IH] using map_ind; intros Hall.
  - by rewrite msum_empty.
  - rewrite msum_insert_new by done.
    apply map_Forall_insert in Hall as [Hv Hm]; [|done]. specialize (IH Hm). lia.
Qed.

Lemma msum_two_le m k1 k2 v1 v2 :
  map_Forall (fun _ v => 0 <= f v) m -> m !! k1 = Some v1 -> m !! k2 = Some v2 -> k1 <> k2 ->
  f v1 + f v2 <= msum f m.
Proof.
  intros Hall H1 H2 Hne. rewrite (msum_delete m k1 v1) by done.
  rewrite (msum_delete (delete k1 m) k2 v2) by (by rewrite lookup_delete_ne).
  pose proof (msum_nonneg (delete k2 (delete k1 m))
    (map_Forall_delete _ _ _ (map_Forall_delete _ _ _ Hall))). lia.
Qed.

Lemma msum_lookup_le m k v :
  map_Forall (fun _ v => 0 <= f v) m -> m !! k = Some v -> f v <= msum f m.
Proof.
  intros Hall Hk. rewrite (msum_delete m k v) by done.
  pose proof (msum_nonneg (delete k m) (map_Forall_delete _ _ _ Hall)). lia.
Qed.
End msum.

(** *** Writing a row, or deleting it when it is written empty *)
Lemma msum_set `{Countable K} {V} (f : V -> Z) (m : gmap K V) k v :
  msum f (<[k:=v]> m) = msum f m - from_option f 0 (m !! k) + f v.
Proof.
  destruct (m !! k) eqn:Hk; cbn; [by apply msum_insert|]. rewrite msum_insert_new by done. lia.
Qed.

Lemma map_Forall_upsert `{Countable K} {V} (P : K -> V -> Prop) (m : gmap K V) k v (b : bool) :
  map_Forall P m -> P k v -> map_Forall P (if b then delete k (<[k:=v]> m) else <[k:=v]> m).
Proof.
  intros Hm Hv. assert (map_Forall P (<[k:=v]> m)) by by apply map_Forall_insert_2.
  destruct b; [by apply map_Forall_delete|done].
Qed.

Lemma msum_upsert `{Countable K} {V} (f : V -> Z) (m : gmap K V) k v (b : bool) :
  (b = true -> f v = 0) ->
  msum f (if b then delete k (<[k:=v]> m) else <[k:=v]> m) = msum f m - from_option f 0 (m !! k) + f v.
Proof.
  intros Hb. pose proof (msum_set f m k v) as Hs. destruct b; [|done]. rewrite (msum_delete f (<[k:=v]> m) k v) in Hs by apply lookup_insert_eq.
  rewrite Hb in * by done. lia.
Qed.

(** ** Index order *)
Section index.
Context {V : Type} (k : V -> Z).

#[export] Instance index_le_total : Total (@index_le V k).
Proof. intros x y. unfold index_le. lia. Qed.
#[export] Instance index_le_trans : Transitive (@index_le V k).
Proof. intros x y z. unfold index_le. lia. Qed.

Lemma index_rows_perm m : index_rows k m ≡ₚ map_to_list m.
Proof. apply merge_sort_Permutation. Qed.

Lemma index_rows_sorted m : Sorted (index_le k) (index_rows k m).
Proof. apply Sorted_merge_sort. apply _. Qed.

Lemma elem_of_index_rows m i v : (i, v) ∈ index_rows k m <-> m !! i = Some v.
Proof. by rewrite index_rows_perm, elem_of_map_to_list. Qed.

Lemma index_rows_nil m : index_rows k m = [] <-> m = ∅.
Proof.
  split; [|by intros ->]. intros Hnil. apply map_to_list_empty_iff.
  apply Permutation_nil_r. by rewrite <- index_rows_perm, Hnil.
Qed.

(** The first row of an index has the least key. *)
Lemma index_rows_head m i v rest j w :
  index_rows k m = (i, v) :: rest -> m !! j = Some w -> index_le k (i, v) (j, w).
Proof.
  intros Hrows Hj. apply elem_of_index_rows in Hj. rewrite Hrows in Hj.
  pose proof (index_rows_sorted m) as Hs. rewrite Hrows in Hs.
  apply Sorted_StronglySorted in Hs; [|apply _]. inversion Hs as [|?? Hs' Hall]; subst.
  apply elem_of_cons in Hj as [->|Hj].
  - unfold index_le; cbn; lia.
  - rewrite Forall_forall in Hall. by apply Hall.
Qed.
End index.
