(* ===== verification/Cdt.v ===== *)
(** * The contract platform: names, assets, time and the action environment

    The contracts are written against the contract development kit (CDT), which is
    not part of the repository. Its data types appear here as records; its checked
    operations are the fields of the class [Cdt], and what the contracts rely on
    is stated by the class [CdtLaws]. [cdt_model] is one instance, on which the
    examples evaluate. [Env] is what the host tells a running action. *)
From S2P Require Import Prelude.
From stdpp Require Import base gmap strings list.
Open Scope Z_scope.

(** ** Data *)

(** A [name] is its 64-bit value. *)
Notation name := Z (only parsing).
Record symbol := Symbol { sym_code : Z; sym_precision : Z }.
Record asset := Asset { amount : Z; asset_symbol : symbol }.
Record permission_level := PermissionLevel { actor : name; permission : name }.

#[export] Instance symbol_eq_dec : EqDecision symbol.
Proof. solve_decision. Defined.
#[export] Instance asset_eq_dec : EqDecision asset.
Proof. solve_decision. Defined.
#[export] Instance permission_level_eq_dec : EqDecision permission_level.
Proof. solve_decision. Defined.

#[export] Instance eta_asset : EtaRecord asset := fun a => Asset (amount a) (asset_symbol a).

Definition symbol_eqb (x y : symbol) : bool :=
  (sym_code x =? sym_code y) && (sym_precision x =? sym_precision y).

(** [asset::max_amount]. *)
Definition max_amount : Z := 2 ^ 62 - 1.
Definition amount_in_range (z : Z) : Prop := - max_amount <= z <= max_amount.

(** ** The platform's operations *)
Class Cdt := {
  symbol_is_valid : symbol -> bool;
  asset_is_valid : asset -> bool;
  (** the constructor [asset(amount, symbol)] *)
  make_asset : Z -> symbol -> result asset;
  (** [operator+] and [operator+=] *)
  asset_plus : asset -> asset -> result asset;
  (** [operator-] and [operator-=] *)
  asset_minus : asset -> asset -> result asset;
  (** unary [operator-] *)
  asset_neg : asset -> asset;
  (** [operator<=], which also decides [>=] *)
  asset_le : asset -> asset -> result bool;
  (** [name::to_string()] *)
  name_to_string : name -> string;
  (** [name::suffix()] *)
  name_suffix : name -> name;
  (** [time_point_sec(time_point)], from microseconds to seconds *)
  sec_of_us : Z -> Z;
  (** [block_timestamp(time_point)] and [block_timestamp::to_time_point()] *)
  slot_of_us : Z -> Z;
  us_of_slot : Z -> Z;
}.

(** Microseconds in one block slot (half a second). *)
Definition slot_us : Z := 500000.

Class CdtLaws (cdt : Cdt) : Prop := {
  asset_is_valid_iff a :
    asset_is_valid a = true <-> amount_in_range (amount a) /\ symbol_is_valid (asset_symbol a) = true;
  make_asset_Ok z y a :
    make_asset z y = Ok a <-> amount_in_range z /\ symbol_is_valid y = true /\ a = Asset z y;
  asset_plus_Ok a b c :
    asset_plus a b = Ok c <->
    asset_symbol a = asset_symbol b /\ amount_in_range (amount a + amount b) /\
    c = Asset (amount a + amount b) (asset_symbol a);
  asset_minus_Ok a b c :
    asset_minus a b = Ok c <->
    asset_symbol a = asset_symbol b /\ amount_in_range (amount a - amount b) /\
    c = Asset (amount a - amount b) (asset_symbol a);
  asset_neg_eq a : asset_neg a = Asset (- amount a) (asset_symbol a);
  asset_le_Ok a b r :
    asset_le a b = Ok r <-> asset_symbol a = asset_symbol b /\ r = (amount a <=? amount b);
  (** a name has at most thirteen characters *)
  name_to_string_length n : (String.length (name_to_string n) <= 13)%nat;
  sec_of_us_eq t : 0 <= t -> sec_of_us t = u32 (t / 1000000);
  slot_of_us_add slot k :
    0 <= slot < 2 ^ 32 -> 0 <= k -> slot_of_us (us_of_slot slot + k * slot_us) = u32 (slot + k);
}.

(** ** The environment of an action *)
Record Env := mkEnv {
  (** [get_self()] *)
  self : name;
  (** the permissions the action carries *)
  auths : list permission_level;
  (** [current_time_point()], in microseconds *)
  now_us : Z;
  (** [is_account] *)
  is_account : name -> bool;
}.

Section env.
Context (e : Env).

Definition has_auth (n : name) : bool := existsb (fun p => actor p =? n) (auths e).
Definition has_permission (p : permission_level) : bool :=
  existsb (fun q => (actor q =? actor p) && (permission q =? permission p)) (auths e).
End env.

Notation require_auth e n := (check (has_auth e n) "missing required authority").
Notation require_permission e p := (check (has_permission e p) "missing required authority").

Definition is_found {A} (o : option A) : bool := match o with Some _ => true | None => false end.

(** ** An instance *)
Definition range_check (z : Z) (msg : string) (r : asset) : result asset :=
  if bool_decide (amount_in_range z) then Ok r else Err msg.

Definition symbol_check {A} (x y : symbol) (msg : string) (r : result A) : result A :=
  if bool_decide (x = y) then r else Err msg.

(** Three 64-bit names with dots have their last part as suffix; the instance
    takes every name to be undotted, which is enough to evaluate the examples. *)
Definition cdt_model : Cdt := {|
  symbol_is_valid y := (0 <? sym_code y) && (sym_precision y <=? 18);
  asset_is_valid a :=
    bool_decide (amount_in_range (amount a)) &&
    ((0 <? sym_code (asset_symbol a)) && (sym_precision (asset_symbol a) <=? 18));
  make_asset z y :=
    if (0 <? sym_code y) && (sym_precision y <=? 18)
    then range_check z "magnitude of asset amount must be less than 2^62" (Asset z y)
    else Err "invalid symbol name";
  asset_plus a b :=
    symbol_check (asset_symbol a) (asset_symbol b) "attempt to add asset with different symbol"
      (range_check (amount a + amount b) "addition overflow"
        (Asset (amount a + amount b) (asset_symbol a)));
  asset_minus a b :=
    symbol_check (asset_symbol a) (asset_symbol b) "attempt to subtract asset with different symbol"
      (range_check (amount a - amount b) "subtraction overflow"
        (Asset (amount a - amount b) (asset_symbol a)));
  asset_neg a := Asset (- amount a) (asset_symbol a);
  asset_le a b :=
    symbol_check (asset_symbol a) (asset_symbol b)
      "comparison of assets with different symbols is not allowed"
      (Ok (amount a <=? amount b));
  name_to_string _ := "account";
  name_suffix n := n;
  sec_of_us t := u32 (t / 1000000);
  slot_of_us t := u32 ((t / 1000 - 946684800000) / 500);
  us_of_slot slot := (slot * 500 + 946684800000) * 1000;
|}.

Lemma range_check_Ok z msg r c : range_check z msg r = Ok c <-> amount_in_range z /\ c = r.
Proof. unfold range_check. case_bool_decide; naive_solver. Qed.

Lemma symbol_check_Ok {A} x y msg (r : result A) c :
  symbol_check x y msg r = Ok c <-> x = y /\ r = Ok c.
Proof. unfold symbol_check. case_bool_decide; naive_solver. Qed.

#[export] Instance cdt_model_laws : CdtLaws cdt_model.
Proof.
  split; cbn.
  - intros a. by rewrite andb_true_iff, bool_decide_eq_true.
  - intros z y a. case_match; [rewrite range_check_Ok|]; naive_solver.
  - intros a b c. by rewrite symbol_check_Ok, range_check_Ok.
  - intros a b c. by rewrite symbol_check_Ok, range_check_Ok.
  - done.
  - intros a b r. rewrite symbol_check_Ok. naive_solver.
  - intros _. vm_compute. lia.
  - done.
  - intros slot k Hs Hk. unfold slot_us. f_equal.
    replace ((slot * 500 + 946684800000) * 1000 + k * 500000)
      with ((slot * 500 + 946684800000 + k * 500) * 1000) by lia.
    rewrite Z.div_mul by lia.
    replace (slot * 500 + 946684800000 + k * 500 - 946684800000) with ((slot + k) * 500) by lia.
    by rewrite Z.div_mul by lia.
Qed.

(** ** Shared lemmas *)
Lemma symbol_eqb_eq x y : symbol_eqb x y = true <-> x = y.
Proof.
  unfold symbol_eqb. rewrite andb_true_iff, !Z.eqb_eq.
  destruct x, y; cbn; naive_solver.
Qed.

Lemma symbol_eqb_refl x : symbol_eqb x x = true.
Proof. by apply symbol_eqb_eq. Qed.

Lemma is_found_true {A} (o : option A) : is_found o = true <-> is_Some o.
Proof. destruct o; cbn; split; intros; eauto; [done|]. by destruct H. Qed.

Lemma is_found_false {A} (o : option A) : is_found o = false <-> o = None.
Proof. destruct o; cbn; naive_solver. Qed.
