(* ===== verification/Token.v ===== *)
(** * The token contract (contracts/eosio.token)

    The state is the two tables [stat] (keyed by symbol code) and [accounts]
    (scoped by owner, keyed by symbol code), and the accounts the running action
    has notified. Each action of token.cpp is one definition; [token_exec]
    dispatches on the action. *)
From S2P Require Import Prelude.
From S2P Require Import Cdt.
From stdpp Require Import base gmap strings list.
Open Scope Z_scope.

(** ** State *)
Record currency_stats := CurrencyStats { supply : asset; max_supply : asset; issuer : name }.
Record account := Account { balance : asset }.
Record token_state := TokenState {
  stats : gmap Z currency_stats;
  (** (owner, symbol code) to balance *)
  accounts : gmap (name * Z) account;
  notified : list name;
}.

#[export] Instance eta_currency_stats : EtaRecord currency_stats :=
  fun c => CurrencyStats (supply c) (max_supply c) (issuer c).
#[export] Instance eta_token_state : EtaRecord token_state :=
  fun s => TokenState (stats s) (accounts s) (notified s).

Definition token_init : token_state := TokenState ∅ ∅ [].

(** ** Actions *)
Section token.
Context `{cdt : Cdt} (e : Env).

Definition require_recipient (n : name) : M token_state unit :=
  modify (fun s => s <| notified ::= fun l => l ++ [n] |>).

Definition create (issuer_ : name) (maximum_supply : asset) : M token_state unit :=
  require_auth e (self e) ;;
  let sym := asset_symbol maximum_supply in
  check (asset_is_valid maximum_supply) "invalid supply" ;;
  check (0 <? amount maximum_supply) "max-supply must be positive" ;;
  existing ← gets (fun s => stats s !! sym_code sym);
  check (negb (is_found existing)) "token with symbol already exists" ;;
  modify (fun s => s <| stats ::= insert (sym_code sym)
    (CurrencyStats (Asset 0 sym) maximum_supply issuer_) |>).

Definition sub_balance (owner : name) (value : asset) : M token_state unit :=
  let key := (owner, sym_code (asset_symbol value)) in
  row ← gets (fun s => accounts s !! key);
  from ← require_found row "no balance object found";
  check (amount value <=? amount (balance from)) "overdrawn balance" ;;
  b ← lift (asset_minus (balance from) value);
  modify (fun s => s <| accounts ::= insert key (Account b) |>).

(** [ram_payer] is billed for a new row; billing is the host's. *)
Definition add_balance (owner : name) (value : asset) (ram_payer : name) : M token_state unit :=
  let key := (owner, sym_code (asset_symbol value)) in
  row ← gets (fun s => accounts s !! key);
  match row with
  | None => modify (fun s => s <| accounts ::= insert key (Account value) |>)
  | Some to =>
    b ← lift (asset_plus (balance to) value);
    modify (fun s => s <| accounts ::= insert key (Account b) |>)
  end.

Definition issue (to : name) (quantity : asset) (memo : string) : M token_state unit :=
  let sym := asset_symbol quantity in
  check (symbol_is_valid sym) "invalid symbol name" ;;
  check (Z.of_nat (String.length memo) <=? 256) "memo has more than 256 bytes" ;;
  existing ← gets (fun s => stats s !! sym_code sym);
  st ← require_found existing "token with symbol does not exist, create token before issue";
  check (to =? issuer st) "tokens can only be issued to issuer account" ;;
  require_auth e (issuer st) ;;
  check (asset_is_valid quantity) "invalid quantity" ;;
  check (0 <? amount quantity) "must issue positive quantity" ;;
  check (symbol_eqb (asset_symbol quantity) (asset_symbol (supply st))) "symbol precision mismatch" ;;
  check (amount quantity <=? i64 (amount (max_supply st) - amount (supply st)))
    "quantity exceeds available supply" ;;
  s' ← lift (asset_plus (supply st) quantity);
  modify (fun s => s <| stats ::= insert (sym_code sym) (st <| supply := s' |>) |>) ;;
  add_balance (issuer st) quantity (issuer st).

Definition retire (quantity : asset) (memo : string) : M token_state unit :=
  let sym := asset_symbol quantity in
  check (symbol_is_valid sym) "invalid symbol name" ;;
  check (Z.of_nat (String.length memo) <=? 256) "memo has more than 256 bytes" ;;
  existing ← gets (fun s => stats s !! sym_code sym);
  st ← require_found existing "token with symbol does not exist";
  require_auth e (issuer st) ;;
  check (asset_is_valid quantity) "invalid quantity" ;;
  check (0 <? amount quantity) "must retire positive quantity" ;;
  check (symbol_eqb (asset_symbol quantity) (asset_symbol (supply st))) "symbol precision mismatch" ;;
  s' ← lift (asset_minus (supply st) quantity);
  modify (fun s => s <| stats ::= insert (sym_code sym) (st <| supply := s' |>) |>) ;;
  sub_balance (issuer st) quantity.

Definition transfer (from to : name) (quantity : asset) (memo : string) : M token_state unit :=
  check (negb (from =? to)) "cannot transfer to self" ;;
  require_auth e from ;;
  check (is_account e to) "to account does not exist" ;;
  let sym := sym_code (asset_symbol quantity) in
  row ← gets (fun s => stats s !! sym);
  st ← require_found row "unable to find key";
  require_recipient from ;;
  require_recipient to ;;
  check (asset_is_valid quantity) "invalid quantity" ;;
  check (0 <? amount quantity) "must transfer positive quantity" ;;
  check (symbol_eqb (asset_symbol quantity) (asset_symbol (supply st))) "symbol precision mismatch" ;;
  check (Z.of_nat (String.length memo) <=? 256) "memo has more than 256 bytes" ;;
  let payer := if has_auth e to then to else from in
  sub_balance from quantity ;;
  add_balance to quantity payer.

Definition open (owner : name) (symbol_ : symbol) (ram_payer : name) : M token_state unit :=
  require_auth e ram_payer ;;
  check (is_account e owner) "owner account does not exist" ;;
  let sym_code_raw := sym_code symbol_ in
  row ← gets (fun s => stats s !! sym_code_raw);
  st ← require_found row "symbol does not exist";
  check (symbol_eqb (asset_symbol (supply st)) symbol_) "symbol precision mismatch" ;;
  it ← gets (fun s => accounts s !! (owner, sym_code_raw));
  match it with
  | None =>
    zero ← lift (make_asset 0 symbol_);
    modify (fun s => s <| accounts ::= insert (owner, sym_code_raw) (Account zero) |>)
  | Some _ => mret tt
  end.

Definition close (owner : name) (symbol_ : symbol) : M token_state unit :=
  require_auth e owner ;;
  it ← gets (fun s => accounts s !! (owner, sym_code symbol_));
  row ← require_found it
    "Balance row already deleted or never existed. Action won't have any effect.";
  check (amount (balance row) =? 0) "Cannot close because the balance is not zero." ;;
  modify (fun s => s <| accounts ::= delete (owner, sym_code symbol_) |>).

(** [token::get_supply] and [token::get_balance], which other contracts read. *)
Definition get_supply (s : token_state) (code : Z) : result asset :=
  match stats s !! code with
  | Some st => Ok (supply st)
  | None => Err "invalid supply symbol code"
  end.
Definition get_balance (s : token_state) (owner : name) (code : Z) : result asset :=
  match accounts s !! (owner, code) with
  | Some ac => Ok (balance ac)
  | None => Err "no balance with specified symbol"
  end.

Inductive token_action : Type :=
| Create (issuer_ : name) (maximum_supply : asset)
| Issue (to : name) (quantity : asset) (memo : string)
| Retire (quantity : asset) (memo : string)
| Transfer (from to : name) (quantity : asset) (memo : string)
| Open (owner : name) (symbol_ : symbol) (ram_payer : name)
| Close (owner : name) (symbol_ : symbol).

Definition token_exec (a : token_action) : M token_state unit :=
  match a with
  | Create i m => create i m
  | Issue to q memo => issue to q memo
  | Retire q memo => retire q memo
  | Transfer from to q memo => transfer from to q memo
  | Open o y p => open o y p
  | Close o y => close o y
  end.
End token.

(** States reached by successful actions, each in an environment of its own. *)
Inductive token_reachable `{Cdt} : token_state -> Prop :=
| reach_init : token_reachable token_init
| reach_step e a s s' :
    token_reachable s -> token_exec e a s = Ok (tt, s') -> token_reachable s'.

(** ** The ledger invariant *)

(** What an account holds of the token with code [c]. *)
Definition holding (s : token_state) (o : name) (c : Z) : Z :=
  match accounts s !! (o, c) with Some a => amount (balance a) | None => 0 end.

Definition in_code (c : Z) (a : account) : Z :=
  if sym_code (asset_symbol (balance a)) =? c then amount (balance a) else 0.
(** The sum of all balances of the token with code [c]. *)
Definition holdings (c : Z) (m : gmap (name * Z) account) : Z := msum (in_code c) m.

Definition stats_ok (c : Z) (st : currency_stats) : Prop :=
  sym_code (asset_symbol (supply st)) = c /\ asset_symbol (max_supply st) = asset_symbol (supply st) /\
  0 <= amount (supply st) <= amount (max_supply st) /\ amount (max_supply st) <= max_amount.

Definition account_ok (m : gmap Z currency_stats) (k : name * Z) (a : account) : Prop :=
  0 <= amount (balance a) /\
  exists st, m !! k.2 = Some st /\ asset_symbol (balance a) = asset_symbol (supply st).

(** The balances of every token add up to its supply, which stays within the
    maximum supply; balances are never negative and carry the token's symbol. *)
Record ledger_ok (s : token_state) : Prop := LedgerOk {
  ledger_stats : map_Forall stats_ok (stats s);
  ledger_accounts : map_Forall (account_ok (stats s)) (accounts s);
  ledger_sum c :
    holdings c (accounts s) =
    match stats s !! c with Some st => amount (supply st) | None => 0 end;
}.

(** The ledger in the middle of an action: the balances of the token [c0] exceed
    its supply by [d]. *)
Record ledger_upto (c0 d : Z) (s : token_state) : Prop := LedgerUpto {
  upto_stats : map_Forall stats_ok (stats s);
  upto_accounts : map_Forall (account_ok (stats s)) (accounts s);
  upto_sum c :
    holdings c (accounts s) =
    match stats s !! c with Some st => amount (supply st) | None => 0 end + (if c =? c0 then d else 0);
}.

(** ** Runs of the helpers *)
Section helpers.
Context `{cdt : Cdt} `{!CdtLaws cdt}.
Implicit Types s : token_state.

Lemma sub_balance_Ok owner v s s' :
  sub_balance owner v s = Ok (tt, s') <->
  exists a, accounts s !! (owner, sym_code (asset_symbol v)) = Some a /\
    amount v <= amount (balance a) /\ asset_symbol (balance a) = asset_symbol v /\
    amount_in_range (amount (balance a) - amount v) /\
    s' = s <| accounts ::= insert (owner, sym_code (asset_symbol v))
               (Account (Asset (amount (balance a) - amount v) (asset_symbol v))) |>.
Proof.
  unfold sub_balance. split.
  - intros H. minv H. apply Z.leb_le in Hchk. apply asset_minus_Ok in Hres as (Hs & Hr & ->).
    rewrite Hs. eauto 10.
  - intros (a & Ha & Hle & Hs & Hr & ->).
    unfold sub_balance. mok; [done|by apply Z.leb_le|].
    apply asset_minus_Ok. rewrite <- Hs. eauto.
Qed.

Lemma add_balance_Ok owner v p s s' :
  let key := (owner, sym_code (asset_symbol v)) in
  add_balance owner v p s = Ok (tt, s') <->
  match accounts s !! key with
  | None => s' = s <| accounts ::= insert key (Account v) |>
  | Some a =>
    asset_symbol (balance a) = asset_symbol v /\ amount_in_range (amount (balance a) + amount v) /\
    s' = s <| accounts ::= insert key
           (Account (Asset (amount (balance a) + amount v) (asset_symbol v))) |>
  end.
Proof.
  unfold add_balance. split.
  - intros H. minv H. case_match; minv H; [|done].
    apply asset_plus_Ok in Hres as (Hs & Hr & ->). by rewrite <- Hs.
  - intros H. eapply bind_Ok. eexists _, _. split; [apply gets_Ok; done|].
    case_match; [|by subst]. destruct H as (Hs & Hr & ->).
    mok. apply asset_plus_Ok. rewrite Hs. eauto.
Qed.
End helpers.

(** ** Ledger lemmas *)
Section ledger.
Context `{cdt : Cdt} `{!CdtLaws cdt}.
Implicit Types s : token_state.

Lemma ledger_upto_zero c s : ledger_ok s <-> ledger_upto c 0 s.
Proof.
  split; intros []; split; try done; intros c'.
  - rewrite ledger_sum0. case_match; destruct (c' =? c); lia.
  - rewrite upto_sum0. destruct (c' =? c); lia.
Qed.

Lemma ledger_notify c d s f : ledger_upto c d s -> ledger_upto c d (s <| notified ::= f |>).
Proof. by intros []. Qed.

Lemma in_code_same c a : sym_code (asset_symbol (balance a)) = c -> in_code c a = amount (balance a).
Proof. intros <-. unfold in_code. by rewrite Z.eqb_refl. Qed.

Lemma in_code_other c a : sym_code (asset_symbol (balance a)) <> c -> in_code c a = 0.
Proof. intros. unfold in_code. by rewrite (proj2 (Z.eqb_neq _ _)). Qed.

(** Writing a row of the token [c] moves the gap by the change of the balance. *)
Lemma ledger_set_row c d s o st b :
  ledger_upto c d s -> stats s !! c = Some st ->
  asset_symbol b = asset_symbol (supply st) -> 0 <= amount b ->
  ledger_upto c (d + amount b - holding s o c) (s <| accounts ::= insert (o, c) (Account b) |>).
Proof.
  intros [Hst Hac Hsum] Hc Hb Hpos.
  assert (sym_code (asset_symbol b) = c) as Hcode by (rewrite Hb; by apply (Hst c)).
  split; cbn; [done|..].
  - apply map_Forall_insert_2; [|done]. split; [done|]. cbn. eauto.
  - intros c'. specialize (Hsum c'). unfold holding, holdings in *.
    destruct (accounts s !! (o, c)) as [a|] eqn:Ha.
    + destruct (Hac _ _ Ha) as (_ & st' & Hst' & Hsym). cbn in Hst'. simplify_eq.
      rewrite (msum_insert _ _ _ a) by done. destruct (Z.eqb_spec c' (sym_code (asset_symbol b))) as [Heq|Hne].
      * rewrite !in_code_same by (cbn; congruence). cbn. lia.
      * rewrite !in_code_other by (cbn; congruence). lia.
    + rewrite msum_insert_new by done. destruct (Z.eqb_spec c' c) as [Heq|Hne].
      * rewrite in_code_same by (cbn; congruence). cbn. lia.
      * rewrite in_code_other by (cbn; congruence). lia.
Qed.

(** Changing the supply moves the gap the other way. *)
Lemma ledger_set_supply c d s st q :
  ledger_upto c d s -> stats s !! c = Some st ->
  asset_symbol q = asset_symbol (supply st) -> 0 <= amount q <= amount (max_supply st) ->
  ledger_upto c (d + amount (supply st) - amount q) (s <| stats ::= insert c (st <| supply := q |>) |>).
Proof.
  intros [Hst Hac Hsum] Hc Hq Hr. destruct (Hst c st Hc) as (Hco & Hm & Hb & Hmax).
  split; cbn.
  - apply map_Forall_insert_2; [|done]. unfold stats_ok. cbn. rewrite Hq. eauto.
  - intros k a Ha. destruct (Hac k a Ha) as (Hpos & st' & Hst' & Hsym). split; [done|].
    destruct (decide (k.2 = c)) as [Hk|Hk].
    + exists (st <| supply := q |>). rewrite Hk, lookup_insert_eq. cbn. rewrite Hk in Hst'.
      split; [done|]. congruence.
    + exists st'. by rewrite lookup_insert_ne.
  - intros c'. rewrite Hsum. destruct (Z.eqb_spec c' c) as [Heq|Hne].
    + rewrite Heq, Hc, lookup_insert_eq. cbn. lia.
    + by rewrite lookup_insert_ne.
Qed.

Lemma add_balance_upto c d s o v p s' st :
  ledger_upto c d s -> sym_code (asset_symbol v) = c -> stats s !! c = Some st ->
  asset_symbol v = asset_symbol (supply st) -> 0 <= amount v ->
  add_balance o v p s = Ok (tt, s') ->
  ledger_upto c (d + amount v) s' /\ stats s' = stats s.
Proof.
  intros Hl Hc Hst Hsym Hpos H. apply add_balance_Ok in H. rewrite Hc, Hsym in H.
  set (old := holding s o c). assert (0 <= old) as Hold.
  { unfold old, holding. case_match eqn:Ha; [|done]. by apply (upto_accounts _ _ _ Hl _ _ Ha). }
  assert (s' = s <| accounts ::= insert (o, c)
    (Account (Asset (old + amount v) (asset_symbol (supply st)))) |>) as ->.
  { subst old. unfold holding. destruct (accounts s !! (o, c)); [by destruct H as (_ & _ & ->)|].
    rewrite H. repeat f_equal. destruct v; cbn in *. by subst. }
  split; [|done]. replace (d + amount v) with (d + (old + amount v) - old) by lia.
  by apply (ledger_set_row c d s o st (Asset (old + amount v) (asset_symbol (supply st)))); cbn; [..|lia].
Qed.

Lemma sub_balance_upto c d s o v s' st :
  ledger_upto c d s -> sym_code (asset_symbol v) = c -> stats s !! c = Some st ->
  asset_symbol v = asset_symbol (supply st) ->
  sub_balance o v s = Ok (tt, s') ->
  ledger_upto c (d - amount v) s' /\ stats s' = stats s.
Proof.
  intros Hl Hc Hst Hsym (a & Ha & Hle & Hs & Hr & ->)%sub_balance_Ok. cbn. split; [|done].
  rewrite Hc in *. rewrite Hsym.
  replace (d - amount v) with (d + (amount (balance a) - amount v) - holding s o c)
    by (unfold holding; rewrite Ha; lia).
  by apply (ledger_set_row c d s o st (Asset (amount (balance a) - amount v) (asset_symbol (supply st)))); cbn; [..|lia].
Qed.
End ledger.

(** ** The actions keep the ledger *)
Section actions.
Context `{cdt : Cdt} `{!CdtLaws cdt} (e : Env).
Implicit Types s : token_state.

Lemma ledger_ok_init : ledger_ok token_init.
Proof. split; cbn; [by intros ? ?|by intros ? ?|]. intros c. by rewrite lookup_empty. Qed.

Lemma create_ledger i m s s' : ledger_ok s -> create e i m s = Ok (tt, s') -> ledger_ok s'.
Proof.
  intros [Hst Hac Hsum] H. unfold create in H. minv H.
  apply negb_true_iff, is_found_false in Hchk2. apply Z.ltb_lt in Hchk1.
  apply asset_is_valid_iff in Hchk0 as [Hr _]. unfold amount_in_range in Hr.
  split; cbn.
  - apply map_Forall_insert_2; [|done]. by repeat split; cbn; lia || done.
  - intros k a Ha. destruct (Hac k a Ha) as (Hpos & st & Hk & Hs). split; [done|].
    exists st. split; [|done]. rewrite lookup_insert_ne; [done|]. congruence.
  - intros c. rewrite Hsum. destruct (decide (c = sym_code (asset_symbol m))) as [->|Hne].
    + by rewrite Hchk2, lookup_insert_eq.
    + by rewrite lookup_insert_ne.
Qed.

Lemma issue_ledger to q memo s s' : ledger_ok s -> issue e to q memo s = Ok (tt, s') -> ledger_ok s'.
Proof.
  intros Hl H. unfold issue in H. minv H.
  apply symbol_eqb_eq in Hchk5. apply Z.ltb_lt in Hchk4. apply Z.leb_le in Hchk6.
  apply asset_plus_Ok in Hres as (Hs & Hr & ->).
  set (c := sym_code (asset_symbol q)) in *. name_row st in Hfound.
  apply (ledger_upto_zero c) in Hl.
  destruct (upto_stats _ _ _ Hl _ _ Hfound) as (Hc & Hm & Hb & Hmax).
  rewrite i64_small in Hchk6 by (unfold in_i64, max_amount in *; lia).
  eapply (ledger_set_supply _ _ _ _ (Asset (amount (supply st) + amount q) (asset_symbol (supply st))))
    in Hl; [|done..|cbn; lia].
  eapply add_balance_upto in H as [H _]; [|exact Hl|done|apply lookup_insert_eq|done|lia].
  apply (ledger_upto_zero c). cbn in H. by replace (0 + _ - _ + _) with 0 in H by lia.
Qed.

Lemma retire_ledger q memo s s' : ledger_ok s -> retire e q memo s = Ok (tt, s') -> ledger_ok s'.
Proof.
  intros Hl H. unfold retire in H. minv H.
  apply symbol_eqb_eq in Hchk4. apply Z.ltb_lt in Hchk3.
  apply asset_minus_Ok in Hres as (Hs & Hr & ->).
  set (c := sym_code (asset_symbol q)) in *. name_row st in Hfound.
  pose proof H as (a & Ha & Hle & _)%sub_balance_Ok. cbn in Ha.
  pose proof (proj1 (ledger_upto_zero c s) Hl) as Hu.
  destruct (upto_stats _ _ _ Hu _ _ Hfound) as (Hc & Hm & Hb & Hmax).
  assert (amount (balance a) <= amount (supply st)) as Hsup.
  { pose proof (ledger_sum _ Hl c) as Hsum. rewrite Hfound in Hsum. rewrite <- Hsum.
    destruct (ledger_accounts _ Hl _ _ Ha) as (Hpos & st' & Hst' & Hsy). cbn in Hst'.
    fold c in Hst'. assert (st' = st) as -> by congruence.
    rewrite <- (in_code_same c a) by congruence. unfold holdings. eapply msum_lookup_le; [|done].
    intros k b Hk. unfold in_code. case_match; [|lia]. by apply (ledger_accounts _ Hl _ _ Hk). }
  eapply (ledger_set_supply _ _ _ _ (Asset (amount (supply st) - amount q) (asset_symbol (supply st))))
    in Hu; [|done..|cbn; lia].
  eapply sub_balance_upto in H as [H _]; [|exact Hu|done|apply lookup_insert_eq|done].
  apply (ledger_upto_zero c). cbn in H. by replace (0 + _ - _ - _) with 0 in H by lia.
Qed.

Lemma transfer_ledger from to q memo s s' :
  ledger_ok s -> transfer e from to q memo s = Ok (tt, s') -> ledger_ok s'.
Proof.
  intros Hl H. unfold transfer, require_recipient in H. minv H.
  apply symbol_eqb_eq in Hchk4. apply Z.ltb_lt in Hchk3.
  set (c := sym_code (asset_symbol q)) in *.
  apply (ledger_upto_zero c) in Hl.
  match goal with Hs : sub_balance _ _ _ = _ |- _ => rename Hs into Hsub end.
  eapply sub_balance_upto in Hsub as [Hmid Heq]; [|by do 2 apply ledger_notify|done..].
  eapply add_balance_upto in H as [H _]; [|exact Hmid|done|by rewrite Heq|done|lia].
  apply (ledger_upto_zero c). by replace (0 - _ + _) with 0 in H by lia.
Qed.

Lemma open_ledger o y p s s' : ledger_ok s -> open e o y p s = Ok (tt, s') -> ledger_ok s'.
Proof.
  intros Hl H. unfold open in H. minv H. apply symbol_eqb_eq in Hchk1. name_row st in Hfound.
  destruct (accounts s !! (o, sym_code y)) as [|] eqn:Ha; minv H; [done|].
  apply make_asset_Ok in Hres as (_ & _ & ->).
  apply (ledger_upto_zero (sym_code y)). apply (ledger_upto_zero (sym_code y)) in Hl.
  eapply (ledger_set_row _ _ _ o st (Asset 0 y)) in Hl; [|done|cbn; congruence|done].
  unfold holding in Hl. by rewrite Ha in Hl.
Qed.

Lemma close_ledger o y s s' : ledger_ok s -> close e o y s = Ok (tt, s') -> ledger_ok s'.
Proof.
  intros [Hst Hac Hsum] H. unfold close in H. minv H. name_row row in Hfound. apply Z.eqb_eq in Hchk0.
  split; cbn; [done|by apply map_Forall_delete|].
  intros c. rewrite <- Hsum. unfold holdings. rewrite (msum_delete _ (accounts s) _ row) by done.
  unfold in_code at 2. case_match; lia.
Qed.

Lemma token_exec_ledger a s s' : ledger_ok s -> token_exec e a s = Ok (tt, s') -> ledger_ok s'.
Proof.
  destruct a; cbn; eauto using create_ledger, issue_ledger, retire_ledger, transfer_ledger,
    open_ledger, close_ledger.
Qed.
End actions.

(** ** Functional behaviour and authority of the actions *)
Section behaviour.
Context `{cdt : Cdt} `{!CdtLaws cdt} (e : Env).
Implicit Types s : token_state.

Lemma ledger_holding_row s o c :
  ledger_ok s -> 0 < holding s o c ->
  exists st, stats s !! c = Some st /\
    accounts s !! (o, c) = Some (Account (Asset (holding s o c) (asset_symbol (supply st)))).
Proof.
  intros Hl Hpos. unfold holding in *. destruct (accounts s !! (o, c)) as [[[z y]]|] eqn:Ha; [|lia].
  destruct (ledger_accounts _ Hl _ _ Ha) as (_ & st & Hst & Hy). cbn in *. subst. eauto.
Qed.

(** No two owners together hold more than the supply. *)
Lemma ledger_two_le s o1 o2 c st :
  ledger_ok s -> o1 <> o2 -> stats s !! c = Some st ->
  holding s o1 c + holding s o2 c <= amount (supply st).
Proof.
  intros Hl Hne Hst. pose proof (ledger_sum _ Hl c) as Hsum. rewrite Hst in Hsum. rewrite <- Hsum.
  assert (map_Forall (fun _ a => 0 <= in_code c a) (accounts s)) as Hall.
  { intros k a Hk. unfold in_code. case_match; [|done]. by apply (ledger_accounts _ Hl _ _ Hk). }
  assert (forall o a, accounts s !! (o, c) = Some a -> in_code c a = amount (balance a)) as Hin.
  { intros o a Ha. apply in_code_same. destruct (ledger_accounts _ Hl _ _ Ha) as (_ & st' & Hst' & ->).
    cbn in Hst'. rewrite Hst in Hst'. simplify_eq. by apply (ledger_stats _ Hl _ _ Hst). }
  unfold holding, holdings.
  destruct (accounts s !! (o1, c)) as [a1|] eqn:H1, (accounts s !! (o2, c)) as [a2|] eqn:H2;
    rewrite <- ?(Hin _ _ H1), <- ?(Hin _ _ H2).
  - eapply msum_two_le; [done..|congruence].
  - rewrite Z.add_0_r. by eapply msum_lookup_le.
  - rewrite Z.add_0_l. by eapply msum_lookup_le.
  - rewrite Z.add_0_l. by apply msum_nonneg.
Qed.

(** What [transfer] asks before it moves anything. *)
Definition transfer_guard (s : token_state) (from to : name) (q : asset) (memo : string) : Prop :=
  from <> to /\ has_auth e from = true /\ is_account e to = true /\
  asset_is_valid q = true /\ 0 < amount q /\ Z.of_nat (String.length memo) <= 256 /\
  amount q <= holding s from (sym_code (asset_symbol q)) /\
  exists st, stats s !! sym_code (asset_symbol q) = Some st /\
    asset_symbol q = asset_symbol (supply st).

(** The state after [q] has moved from [from] to [to] and both were notified. *)
Definition transferred (s : token_state) (from to : name) (q : asset) : token_state :=
  let c := sym_code (asset_symbol q) in
  let row o z := <[(o, c) := Account (Asset z (asset_symbol q))]> in
  TokenState (stats s)
    (row to (holding s to c + amount q) (row from (holding s from c - amount q) (accounts s)))
    ((notified s ++ [from]) ++ [to]).

Lemma ledger_add_row s o q st p :
  ledger_ok s -> stats s !! sym_code (asset_symbol q) = Some st ->
  asset_symbol q = asset_symbol (supply st) -> 0 <= amount q ->
  forall s', stats s' = stats s ->
  accounts s' !! (o, sym_code (asset_symbol q)) = accounts s !! (o, sym_code (asset_symbol q)) ->
  amount_in_range (holding s o (sym_code (asset_symbol q)) + amount q) ->
  add_balance o q p s' = Ok (tt, s' <| accounts ::= insert (o, sym_code (asset_symbol q))
    (Account (Asset (holding s o (sym_code (asset_symbol q)) + amount q) (asset_symbol q))) |>).
Proof.
  intros Hl Hst Hsym Hpos s' Hst' Hacc Hr. apply add_balance_Ok. rewrite Hacc. unfold holding in *.
  destruct (accounts s !! _) as [a|] eqn:Ha; [|by destruct q].
  destruct (ledger_accounts _ Hl _ _ Ha) as (_ & st2 & Hst2 & Hy). cbn in Hst2.
  assert (st2 = st) as -> by congruence. split; [congruence|done].
Qed.

Lemma transfer_moves s from to q st fa p :
  let c := sym_code (asset_symbol q) in
  ledger_ok s -> stats s !! c = Some st -> asset_symbol q = asset_symbol (supply st) ->
  from <> to -> accounts s !! (from, c) = Some fa -> amount q <= amount (balance fa) -> 0 < amount q ->
  exists mid,
    sub_balance from q (TokenState (stats s) (accounts s) ((notified s ++ [from]) ++ [to])) = Ok (tt, mid) /\
    add_balance to q p mid = Ok (tt, transferred s from to q).
Proof.
  intros c Hl Hst Hsym Hne Hfa Hle Hpos.
  destruct (ledger_accounts _ Hl _ _ Hfa) as (Hfa0 & st2 & Hst2 & Hy). cbn in Hst2.
  assert (st2 = st) as -> by (unfold c in *; congruence).
  pose proof (ledger_two_le s from to c st Hl Hne Hst) as Htwo.
  destruct (ledger_stats _ Hl _ _ Hst) as (_ & _ & Hsup & Hmax).
  assert (holding s from c = amount (balance fa)) as Hfrom by (unfold holding; by rewrite Hfa).
  assert (0 <= holding s to c) as Hto.
  { unfold holding. case_match eqn:Ht; [|done]. by apply (ledger_accounts _ Hl _ _ Ht). }
  eexists. split.
  - apply sub_balance_Ok. exists fa. unfold amount_in_range, max_amount in *.
    split_and!; try done; try congruence; lia.
  - rewrite (ledger_add_row s to q st _ Hl Hst Hsym); [|lia|done| |].
    + unfold transferred. fold c. by rewrite Hfrom.
    + cbn. rewrite lookup_insert_ne; [done|]. congruence.
    + fold c. unfold amount_in_range, max_amount in *. lia.
Qed.

Lemma holding_sub o v s s' o' c' :
  sub_balance o v s = Ok (tt, s') -> 0 <= amount v ->
  stats s' = stats s /\ holding s' o' c' <= holding s o' c' /\
  (o' <> o -> holding s' o' c' = holding s o' c').
Proof.
  intros (a & Ha & Hle & _ & _ & ->)%sub_balance_Ok Hpos. unfold holding. cbn.
  rewrite lookup_insert. split; [done|]. case_decide as Heq.
  - injection Heq as <- <-. rewrite Ha. cbn. split; [lia|done].
  - split; [lia|done].
Qed.

Lemma holding_add o v p s s' o' c' :
  add_balance o v p s = Ok (tt, s') -> 0 <= amount v ->
  stats s' = stats s /\ holding s o' c' <= holding s' o' c'.
Proof.
  intros H%add_balance_Ok Hpos. unfold holding.
  destruct (accounts s !! (o, _)) as [a|] eqn:Ha; [destruct H as (_ & _ & ->)|subst s'];
    cbn; rewrite lookup_insert; (split; [done|]); case_decide as Heq; try lia;
    injection Heq as <- <-; rewrite Ha; cbn; lia.
Qed.

Lemma create_holding i m s s' o c :
  create e i m s = Ok (tt, s') -> holding s' o c = holding s o c.
Proof. unfold create. intros H. by minv H. Qed.

Lemma issue_holding to q memo s s' o c :
  issue e to q memo s = Ok (tt, s') -> holding s o c <= holding s' o c.
Proof.
  unfold issue. intros H. minv H. apply Z.ltb_lt in Hchk4.
  eapply holding_add in H as [_ H]; [exact H|lia].
Qed.

Lemma retire_holding q memo s s' o c :
  retire e q memo s = Ok (tt, s') -> holding s' o c < holding s o c -> has_auth e o = true.
Proof.
  unfold retire. intros H. minv H. apply Z.ltb_lt in Hchk3. name_row st in Hfound.
  eapply (holding_sub _ _ _ _ o c) in H as (_ & _ & H); [|lia]. cbn in H.
  destruct (decide (o = issuer st)) as [->|Hne]; [done|]. intros Hlt. rewrite (H Hne) in Hlt.
  unfold holding in Hlt. cbn in Hlt. lia.
Qed.

Lemma transfer_holding from to q memo s s' o c :
  transfer e from to q memo s = Ok (tt, s') -> holding s' o c < holding s o c -> has_auth e o = true.
Proof.
  unfold transfer, require_recipient. intros H. minv H. apply Z.ltb_lt in Hchk3.
  match goal with Hs : sub_balance _ _ _ = _ |- _ => rename Hs into Hsub end.
  eapply (holding_sub _ _ _ _ o c) in Hsub as (_ & _ & Hsub); [|lia].
  eapply (holding_add _ _ _ _ _ o c) in H as [_ H]; [|lia].
  destruct (decide (o = from)) as [->|Hne]; [done|]. rewrite (Hsub Hne) in H.
  unfold holding in *. cbn in *. lia.
Qed.

Lemma open_holding o' y p s s' o c :
  open e o' y p s = Ok (tt, s') -> holding s' o c = holding s o c.
Proof.
  unfold open. intros H. minv H. case_match eqn:Ha; minv H; [done|].
  apply make_asset_Ok in Hres as (_ & _ & ->). unfold holding. cbn. rewrite lookup_insert.
  case_decide as Heq; [|done]. injection Heq as <- <-. by rewrite Ha.
Qed.

Lemma close_holding o' y s s' o c :
  close e o' y s = Ok (tt, s') -> holding s' o c = holding s o c.
Proof.
  unfold close. intros H. minv H. name_row row in Hfound. apply Z.eqb_eq in Hchk0.
  unfold holding. cbn. rewrite lookup_delete. case_decide as Heq; [|done].
  injection Heq as <- <-. by rewrite Hfound.
Qed.

Lemma transfer_accepts s from to q memo :
  ledger_ok s -> transfer_guard s from to q memo -> transfer e from to q memo s = Ok (tt, transferred s from to q).
Proof.
  intros Hl (Hne & Hauth & Hacc & Hval & Hpos & Hmemo & Hle & st & Hst & Hsym). unfold transfer, require_recipient.
  destruct (ledger_holding_row s from (sym_code (asset_symbol q)) Hl) as (st' & Hst' & Hfa); [lia|].
  destruct (transfer_moves s from to q st _ (if has_auth e to then to else from) Hl Hst Hsym Hne Hfa Hle)
    as (mid & Hs & Ha); [done|].
  mok; [by apply negb_true_iff, Z.eqb_neq|done|done|exact Hst|done|by apply Z.ltb_lt
       |by apply symbol_eqb_eq|by apply Z.leb_le|exact Hs|exact Ha].
Qed.

Lemma token_exec_spends a s s' o c :
  token_exec e a s = Ok (tt, s') -> holding s' o c < holding s o c -> has_auth e o = true.
Proof.
  destruct a; cbn; intros H Hlt.
  - rewrite (create_holding _ _ _ _ _ _ H) in Hlt. lia.
  - pose proof (issue_holding _ _ _ _ _ o c H). lia.
  - by eapply retire_holding.
  - by eapply transfer_holding.
  - rewrite (open_holding _ _ _ _ _ _ _ H) in Hlt. lia.
  - rewrite (close_holding _ _ _ _ _ _ H) in Hlt. lia.
Qed.
End behaviour.

(** ** Properties *)
Section properties.
Context `{cdt : Cdt} `{!CdtLaws cdt}.
Implicit Types s : token_state.

(** C4: In every state the token contract can reach, the balances of each token add
    up to its recorded supply, the supply lies between zero and the maximum supply,
    and no balance is negative or carries another token's precision. *)
Theorem token_reachable_ledger s : token_reachable s -> ledger_ok s.
Proof.
  induction 1 as [|e a s s' _ IH Hrun].
  - apply ledger_ok_init.
  - by eapply token_exec_ledger.
Qed.

(** C18: On a consistent ledger [transfer] succeeds exactly when its guard holds, and
    then moves the quantity from one balance to the other and changes nothing else. *)
Theorem transfer_functional e s from to q memo s' :
  ledger_ok s ->
  transfer e from to q memo s = Ok (tt, s') <->
  transfer_guard e s from to q memo /\ s' = transferred s from to q.
Proof.
  intros Hl. unfold transfer, require_recipient, transfer_guard. split.
  - intros H. minv H. apply negb_true_iff, Z.eqb_neq in Hchk. apply symbol_eqb_eq in Hchk4.
    apply Z.ltb_lt in Hchk3. apply Z.leb_le in Hchk5. name_row st in Hfound.
    match goal with Hs : sub_balance _ _ _ = _ |- _ => rename Hs into Hsub end.
    pose proof Hsub as (fa & Hfa & Hle & _)%sub_balance_Ok. cbn in Hfa.
    destruct (transfer_moves s from to q st fa (if has_auth e to then to else from))
      as (mid & Hs & Ha); [done..|].
    pose proof (eq_trans (eq_sym Hs) Hsub) as E. injection E as <-.
    rewrite Ha in H. injection H as <-.
    split; [|done]. split_and!; try done; [|by exists st]. unfold holding. by rewrite Hfa.
  - intros [Hg ->]. by apply transfer_accepts.
Qed.

(** C16: No action lowers an account's balance of any token unless the action carries
    that account's authority. *)
Theorem balance_needs_owner_auth e a s s' o c :
  token_exec e a s = Ok (tt, s') -> holding s' o c < holding s o c -> has_auth e o = true.
Proof.
  apply token_exec_spends.
Qed.
End properties.

(** ** Examples *)

Definition tlos : symbol := Symbol 1397703764 4.
Definition alice : name := 101.
Definition bob : name := 102.
Definition example_env (signers : list name) : Env :=
  mkEnv 100 ((fun n => PermissionLevel n 0) <$> signers) 0 (fun _ => true).

(** The token created, a thousand units issued to alice. *)
Definition example_ledger : token_state := TokenState
  {[ 1397703764 := CurrencyStats (Asset 1000 tlos) (Asset 5000 tlos) alice ]}
  {[ (alice, 1397703764) := Account (Asset 1000 tlos) ]} [].

Definition example_created : token_state := TokenState
  {[ 1397703764 := CurrencyStats (Asset 0 tlos) (Asset 5000 tlos) alice ]} ∅ [].

Lemma example_create :
  token_exec (cdt := cdt_model) (example_env [100]) (Create alice (Asset 5000 tlos)) token_init =
  Ok (tt, example_created).
Proof. vm_compute. reflexivity. Qed.

Lemma example_issue :
  token_exec (cdt := cdt_model) (example_env [alice]) (Issue alice (Asset 1000 tlos) "") example_created =
  Ok (tt, example_ledger).
Proof. vm_compute. reflexivity. Qed.

Lemma example_ledger_ok : ledger_ok example_ledger.
Proof.
  eapply (token_exec_ledger (cdt := cdt_model)); [|apply example_issue].
  eapply (token_exec_ledger (cdt := cdt_model)); [|apply example_create]. apply ledger_ok_init.
Qed.

Lemma token_reachable_ledger_witness : ledger_ok example_ledger.
Proof.
  apply (token_reachable_ledger (cdt := cdt_model)).
  eapply (reach_step (H := cdt_model)); [|apply example_issue].
  eapply (reach_step (H := cdt_model)); [apply reach_init|apply example_create].
Defined.

Lemma transfer_functional_witness :
  transfer (cdt := cdt_model) (example_env [alice]) alice bob (Asset 400 tlos) "rent" example_ledger =
  Ok (tt, transferred example_ledger alice bob (Asset 400 tlos)).
Proof.
  apply (transfer_functional (cdt := cdt_model)).
  - exact example_ledger_ok.
  - split; [|reflexivity]. unfold transfer_guard. split_and!; try done.
    exists (CurrencyStats (Asset 1000 tlos) (Asset 5000 tlos) alice). done.
Defined.

Lemma balance_needs_owner_auth_witness : has_auth (example_env [alice]) alice = true.
Proof.
  apply (balance_needs_owner_auth (cdt := cdt_model) _
    (Transfer alice bob (Asset 400 tlos) "rent") example_ledger
    (transferred example_ledger alice bob (Asset 400 tlos)) _ 1397703764);
    vm_compute; reflexivity.
Defined.
