(* ===== verification/Float64.v ===== *)
(** * IEEE 754 double precision, as the contracts compute with it

    The machine the contracts run on rounds to nearest even and has no other
    floating-point state, so a [double] is a [spec_float] of 53 bits of precision.
    The transcendental functions of the C library are the fields of [Libm]. *)
From Stdlib Require Import ZArith SpecFloat.
From S2P Require Import Prelude.
From stdpp Require Import base strings.
Open Scope Z_scope.

Definition prec : Z := 53.
Definition emax : Z := 1024.
Notation double := SpecFloat.spec_float.

Definition dadd : double -> double -> double := SFadd prec emax.
Definition dsub : double -> double -> double := SFsub prec emax.
Definition dmul : double -> double -> double := SFmul prec emax.
Definition ddiv : double -> double -> double := SFdiv prec emax.
Definition dneg : double -> double := SFopp.
Definition dlt : double -> double -> bool := SFltb.
Definition dle : double -> double -> bool := SFleb.
Definition deq : double -> double -> bool := SFeqb.
(** [std::min(a, b)] is [b] when [b < a], and [a] otherwise. *)
Definition dmin (a b : double) : double := if dlt b a then b else a.

(** The conversion of an integer, rounded to nearest even. *)
Definition dint (z : Z) : double := binary_normalize prec emax z 0 false.
Definition dzero : double := S754_zero false.
(** The literal n/d: the quotient is rounded once, as the literal is. *)
Definition dlit (n d : Z) : double := ddiv (dint n) (dint d).

(** The integral part, for finite values. *)
Definition dtrunc (x : double) : option Z :=
  match x with
  | S754_zero _ => Some 0
  | S754_finite s m e =>
    let v := if 0 <=? e then Z.pos m * 2 ^ e else Z.pos m / 2 ^ (- e) in
    Some (if s then - v else v)
  | _ => None
  end.

(** [int64_t(x)]: the machine traps when the integral part is out of range. *)
Definition dto_i64 (x : double) : result Z :=
  match dtrunc x with
  | Some z => if (- 2 ^ 63 <=? z) && (z <? 2 ^ 63) then Ok z else Err "float to int64 out of range"
  | None => Err "float to int64 unrepresentable"
  end.

(** [uint32_t(x)]. *)
Definition dto_u32 (x : double) : result Z :=
  match dtrunc x with
  | Some z => if (0 <=? z) && (z <? 2 ^ 32) then Ok z else Err "float to uint32 out of range"
  | None => Err "float to uint32 unrepresentable"
  end.

(** [std::ceil], for values that have an integral part. *)
Definition dceil (x : double) : double :=
  match dtrunc x with
  | Some z => if dlt (dint z) x then dint (z + 1) else if deq (dint z) x then dint z else x
  | None => x
  end.

Class Libm := {
  pow : double -> double -> double;
  dexp : double -> double;
  dsin : double -> double;
  log1p : double -> double;
}.

(** [M_PI] and [M_PI_2]. *)
Definition m_pi : double := S754_finite false 7074237752028440 (-51).
Definition m_pi_2 : double := S754_finite false 7074237752028440 (-52).

(** What the contracts rely on of it: a power of a number that is not negative is not
    negative. [dnonneg] holds of the doubles whose sign is clear, and of NaN. *)
Definition dnonneg (x : double) : bool :=
  match x with
  | S754_zero s | S754_infinity s | S754_finite s _ _ => negb s
  | S754_nan => true
  end.
Class LibmLaws (libm : Libm) : Prop := {
  pow_nonneg x y : dnonneg x = true -> dnonneg (pow x y) = true;
}.

(** An instance of the C library for the examples: powers by the integral part of the
    exponent, the rest as truncated power series. *)
Fixpoint series (x term : double) (coeffs : list double) : double :=
  match coeffs with
  | [] => dzero
  | c :: cs => dadd (dmul c term) (series x (dmul term x) cs)
  end.
Fixpoint int_pow (x : double) (n : nat) : double :=
  match n with O => dint 1 | S n' => dmul x (int_pow x n') end.
Definition libm_model : Libm := {|
  pow x y := match dto_i64 y with Ok n => int_pow x (Z.to_nat (Z.min n 64)) | Err _ => dint 1 end;
  dexp x := series x (dint 1) [dint 1; dint 1; dlit 1 2; dlit 1 6; dlit 1 24];
  dsin x := series (dmul x x) x
    [dint 1; dlit (-1) 6; dlit 1 120; dlit (-1) 5040; dlit 1 362880; dlit (-1) 39916800];
  log1p x := series x x [dint 1; dlit (-1) 2; dlit 1 3];
|}.

(** ** Lemmas *)
Lemma dto_i64_range x z : dto_i64 x = Ok z -> in_i64 z.
Proof.
  unfold dto_i64. case_match; [|done]. case_match eqn:Hr; [|done]. intros [= <-].
  apply andb_true_iff in Hr as [?%Z.leb_le ?%Z.ltb_lt]. done.
Qed.

(** *** Signs *)
Lemma binary_round_aux_nonneg m e l : dnonneg (binary_round_aux prec emax false m e l) = true.
Proof.
  unfold binary_round_aux. destruct (shr_fexp prec emax m e l) as [r1 e1].
  destruct (shr_fexp _ _ _ e1 _) as [r2 e2]. destruct (shr_m r2); [done| |done]. by destruct (e2 <=? _).
Qed.
Lemma dint_nonneg z : 0 <= z -> dnonneg (dint z) = true.
Proof.
  intros Hz. unfold dint, binary_normalize. destruct z as [|m|m]; [done| |lia]. unfold binary_round.
  destruct (shl_align _ _ _). apply binary_round_aux_nonneg.
Qed.
Lemma dmul_nonneg x y : dnonneg x = true -> dnonneg y = true -> dnonneg (dmul x y) = true.
Proof.
  unfold dmul. destruct x as [[]|[]| |[]], y as [[]|[]| |[]]; try done. intros _ _. apply binary_round_aux_nonneg.
Qed.
Lemma ddiv_nonneg x y : dnonneg x = true -> dnonneg y = true -> dnonneg (ddiv x y) = true.
Proof.
  unfold ddiv. destruct x as [[]|[]| |[]], y as [[]|[]| |[]]; try done. intros _ _. unfold SFdiv.
  destruct (SFdiv_core_binary _ _ _ _ _ _) as [[? ?] ?]. apply binary_round_aux_nonneg.
Qed.
Lemma dmin_nonneg x y : dnonneg x = true -> dnonneg y = true -> dnonneg (dmin x y) = true.
Proof. unfold dmin. by destruct (dlt y x). Qed.
Lemma dto_i64_nonneg x z : dnonneg x = true -> dto_i64 x = Ok z -> 0 <= z.
Proof.
  intros Hx H. unfold dto_i64 in H. destruct (dtrunc x) as [v|] eqn:Hv; [|done].
  assert (0 <= v).
  { destruct x as [[]|[]| |[]]; try done; cbn in Hv; injection Hv as <-; [lia|].
    destruct (0 <=? _) eqn:?; [apply Z.mul_nonneg_nonneg; [lia|by apply Z.pow_nonneg]|].
    apply Z.div_pos; [lia|]. apply Z.pow_pos_nonneg; lia. }
  case_match; [|done]. by injection H as <-.
Qed.

#[export] Instance libm_model_laws : LibmLaws libm_model.
Proof.
  split. intros x y Hx. cbn. destruct (dto_i64 y) as [n|]; [|done]. induction (Z.to_nat _) as [|k IH]; [done|].
  by apply dmul_nonneg.
Qed.
