(* ===== verification/SysState.v ===== *)
(** * The state of the system contract

    Every table and singleton of eosio.system.hpp, exchange_state.hpp,
    block_info.hpp, limit_auth_changes.hpp and native.hpp is a field of [sys],
    with the rows as records (one Module each, so that fields keep their names of
    the source). A [multi_index] is a finite map from its primary key, a table
    scoped by account a map from scope and key, a table of at most one row an
    option. [limits] is the host's resource-limit table, and [effects] the inline
    actions, deferred transactions and notifications the running action has sent,
    in order: the host performs them after the action returns. *)
From S2P Require Import Prelude.
From S2P Require Import Cdt.
From S2P Require Import Float64.
From stdpp Require Import base gmap strings list.
Open Scope Z_scope.

(** ** Constants of eosio.system.hpp *)
Definition powerup_frac : Z := 1000000000000000.
Definition seconds_per_year : Z := 52 * 7 * 24 * 3600.
Definition seconds_per_day : Z := 24 * 3600.
Definition seconds_per_hour : Z := 3600.
Definition useconds_per_year : Z := seconds_per_year * 1000000.
Definition useconds_per_day : Z := seconds_per_day * 1000000.
Definition blocks_per_day : Z := 2 * seconds_per_day.
Definition ram_gift_bytes : Z := 1400.
Definition refund_delay_sec : Z := 3 * seconds_per_day.
Definition inflation_precision : Z := 100.
Definition default_annual_rate : Z := 500.
Definition pay_factor_precision : Z := 10000.
Definition default_inflation_pay_factor : Z := 50000.
Definition default_votepay_factor : Z := 40000.
Definition block_num_network_activation : Z := 1000.
Definition max_bpay_rate : Z := 6000.
Definition max_worker_monthly_amount : Z := 10000000000.
(** [flags1_fields] *)
Definition ram_managed : Z := 1.
Definition net_managed : Z := 2.
Definition cpu_managed : Z := 4.

(** ** Account names *)
(** [active] *)
Definition active_permission : name := 3617214756542218240.
(** [owner] *)
Definition owner_permission : name := 12044502819693133824.
(** [eosio] *)
Definition eosio_account : name := 6138663577826885632.
(** [eosio.token] *)
Definition token_account : name := 6138663591592764928.
(** [eosio.ram] *)
Definition ram_account : name := 6138663590285017088.
(** [eosio.ramfee] *)
Definition ramfee_account : name := 6138663590285202592.
(** [eosio.stake] *)
Definition stake_account : name := 6138663591134630912.
(** [eosio.bpay] *)
Definition bpay_account : name := 6138663581940940800.
(** [eosio.vpay] *)
Definition vpay_account : name := 6138663592678359040.
(** [eosio.names] *)
Definition names_account : name := 6138663588137709568.
(** [eosio.saving] *)
Definition saving_account : name := 6138663590826845888.
(** [eosio.rex] *)
Definition rex_account : name := 6138663590357893120.
(** [eosio.reserv] *)
Definition reserve_account : name := 6138663590355447728.
(** [eosio.null] *)
Definition null_account : name := 6138663588472832000.
(** [exrsrv.tf] *)
Definition tedp_account : name := 6300408249868353536.
(** [telos.decide] *)
Definition decide_account : name := 14601597984753029792.
(** [works.decide] *)
Definition works_account : name := 16514431557734470304.
(** [eosio.evm] *)
Definition evm_account : name := 6138663583658016768.
(** [b1] *)
Definition b1_account : name := 4053239664633446400.

(** [symbol_code("RAMCORE")], precision 4; [("RAM")], precision 0; [("REX")], precision 4. *)
Definition ramcore_symbol : symbol := Symbol 19512273778065746 4.
Definition ram_symbol : symbol := Symbol 5062994 0.
Definition rex_symbol : symbol := Symbol 5784914 4.

(** ** Rows *)

(** A block signing authority: a threshold and weighted keys. *)
Record block_signing_authority := SigningAuthority { threshold : Z; keys : list (Z * Z) }.


(** [connector]: exchange_state::connector. *)
Module Connector.
Record connector := mk {
  balance : asset;
  weight : double;
}.
#[global] Instance eta : EtaRecord connector := fun r =>
  mk (balance r) (weight r).
End Connector.
Notation connector := Connector.connector.

(** [exchange_state]: the RAM market. *)
Module Market.
Record exchange_state := mk {
  supply : asset;
  base : connector;
  quote : connector;
}.
#[global] Instance eta : EtaRecord exchange_state := fun r =>
  mk (supply r) (base r) (quote r).
End Market.
Notation exchange_state := Market.exchange_state.

(** [voter_info]: a voter; [self_stake_boost] is a binary extension, absent in old rows. *)
Module Voter.
Record voter_info := mk {
  owner : name;
  proxy : name;
  producers : list name;
  staked : Z;
  last_stake : Z;
  last_vote_weight : double;
  proxied_vote_weight : double;
  is_proxy : bool;
  flags1 : Z;
  self_stake_boost : option Z;
}.
#[global] Instance eta : EtaRecord voter_info := fun r =>
  mk (owner r) (proxy r) (producers r) (staked r) (last_stake r) (last_vote_weight r)
    (proxied_vote_weight r) (is_proxy r) (flags1 r) (self_stake_boost r).
End Voter.
Notation voter_info := Voter.voter_info.

(** [producer_info]: a registered producer; keys are opaque numbers, the default key is 0. *)
Module Producer.
Record producer_info := mk {
  owner : name;
  total_votes : double;
  producer_key : Z;
  is_active : bool;
  unreg_reason : string;
  url : string;
  unpaid_blocks : Z;
  lifetime_produced_blocks : Z;
  missed_blocks_per_rotation : Z;
  lifetime_missed_blocks : Z;
  last_claim_time : Z;
  location : Z;
  kick_reason_id : Z;
  kick_reason : string;
  times_kicked : Z;
  kick_penalty_hours : Z;
  last_time_kicked : Z;
  producer_authority : option block_signing_authority;
}.
#[global] Instance eta : EtaRecord producer_info := fun r =>
  mk (owner r) (total_votes r) (producer_key r) (is_active r) (unreg_reason r) (url r)
    (unpaid_blocks r) (lifetime_produced_blocks r) (missed_blocks_per_rotation r)
    (lifetime_missed_blocks r) (last_claim_time r) (location r) (kick_reason_id r) (kick_reason r)
    (times_kicked r) (kick_penalty_hours r) (last_time_kicked r) (producer_authority r).
End Producer.
Notation producer_info := Producer.producer_info.

(** [producer_info2]: the vote-pay row of a producer. *)
Module Producer2.
Record producer_info2 := mk {
  owner : name;
  votepay_share : double;
  last_votepay_share_update : Z;
}.
#[global] Instance eta : EtaRecord producer_info2 := fun r =>
  mk (owner r) (votepay_share r) (last_votepay_share_update r).
End Producer2.
Notation producer_info2 := Producer2.producer_info2.

(** [eosio_global_state]: the [global] singleton, less the chain parameters it inherits. *)
Module Global.
Record eosio_global_state := mk {
  max_ram_size : Z;
  total_ram_bytes_reserved : Z;
  total_ram_stake : Z;
  last_producer_schedule_update : Z;
  last_proposed_schedule_update : Z;
  last_pervote_bucket_fill : Z;
  pervote_bucket : Z;
  perblock_bucket : Z;
  total_unpaid_blocks : Z;
  total_activated_stake : Z;
  thresh_activated_stake_time : Z;
  last_producer_schedule_size : Z;
  total_producer_vote_weight : double;
  last_name_close : Z;
  block_num : Z;
  last_claimrewards : Z;
  next_payment : Z;
}.
#[global] Instance eta : EtaRecord eosio_global_state := fun r =>
  mk (max_ram_size r) (total_ram_bytes_reserved r) (total_ram_stake r)
    (last_producer_schedule_update r) (last_proposed_schedule_update r) (last_pervote_bucket_fill r)
    (pervote_bucket r) (perblock_bucket r) (total_unpaid_blocks r) (total_activated_stake r)
    (thresh_activated_stake_time r) (last_producer_schedule_size r) (total_producer_vote_weight r)
    (last_name_close r) (block_num r) (last_claimrewards r) (next_payment r).
End Global.
Notation eosio_global_state := Global.eosio_global_state.

(** [eosio_global_state2]: the [global2] singleton. *)
Module Global2.
Record eosio_global_state2 := mk {
  new_ram_per_block : Z;
  last_ram_increase : Z;
  last_block_num : Z;
  total_producer_votepay_share : double;
  revision : Z;
}.
#[global] Instance eta : EtaRecord eosio_global_state2 := fun r =>
  mk (new_ram_per_block r) (last_ram_increase r) (last_block_num r) (total_producer_votepay_share r)
    (revision r).
End Global2.
Notation eosio_global_state2 := Global2.eosio_global_state2.

(** [eosio_global_state3]: the [global3] singleton. *)
Module Global3.
Record eosio_global_state3 := mk {
  last_vpay_state_update : Z;
  total_vpay_share_change_rate : double;
}.
#[global] Instance eta : EtaRecord eosio_global_state3 := fun r =>
  mk (last_vpay_state_update r) (total_vpay_share_change_rate r).
End Global3.
Notation eosio_global_state3 := Global3.eosio_global_state3.

(** [eosio_global_state4]: the [global4] singleton. *)
Module Global4.
Record eosio_global_state4 := mk {
  continuous_rate : double;
  inflation_pay_factor : Z;
  votepay_factor : Z;
}.
#[global] Instance eta : EtaRecord eosio_global_state4 := fun r =>
  mk (continuous_rate r) (inflation_pay_factor r) (votepay_factor r).
End Global4.
Notation eosio_global_state4 := Global4.eosio_global_state4.

(** [user_resources]: the resources of an account. *)
Module UserRes.
Record user_resources := mk {
  owner : name;
  net_weight : asset;
  cpu_weight : asset;
  ram_bytes : Z;
}.
#[global] Instance eta : EtaRecord user_resources := fun r =>
  mk (owner r) (net_weight r) (cpu_weight r) (ram_bytes r).
End UserRes.
Notation user_resources := UserRes.user_resources.

(** [delegated_bandwidth]: bandwidth one account delegates to another. *)
Module Delband.
Record delegated_bandwidth := mk {
  from : name;
  to : name;
  net_weight : asset;
  cpu_weight : asset;
}.
#[global] Instance eta : EtaRecord delegated_bandwidth := fun r =>
  mk (from r) (to r) (net_weight r) (cpu_weight r).
End Delband.
Notation delegated_bandwidth := Delband.delegated_bandwidth.

(** [refund_request]: tokens on their way back to an unstaking account. *)
Module Refund.
Record refund_request := mk {
  owner : name;
  request_time : Z;
  net_amount : asset;
  cpu_amount : asset;
}.
#[global] Instance eta : EtaRecord refund_request := fun r =>
  mk (owner r) (request_time r) (net_amount r) (cpu_amount r).
End Refund.
Notation refund_request := Refund.refund_request.

(** [rex_pool]: the REX pool. *)
Module RexPool.
Record rex_pool := mk {
  total_lent : asset;
  total_unlent : asset;
  total_rent : asset;
  total_lendable : asset;
  total_rex : asset;
  namebid_proceeds : asset;
  loan_num : Z;
}.
#[global] Instance eta : EtaRecord rex_pool := fun r =>
  mk (total_lent r) (total_unlent r) (total_rent r) (total_lendable r) (total_rex r)
    (namebid_proceeds r) (loan_num r).
End RexPool.
Notation rex_pool := RexPool.rex_pool.

(** [rex_return_pool]: fees waiting to be distributed to the REX pool. *)
Module RetPool.
Record rex_return_pool := mk {
  last_dist_time : Z;
  pending_bucket_time : Z;
  oldest_bucket_time : Z;
  pending_bucket_proceeds : Z;
  current_rate_of_increase : Z;
  proceeds : Z;
}.
#[global] Instance eta : EtaRecord rex_return_pool := fun r =>
  mk (last_dist_time r) (pending_bucket_time r) (oldest_bucket_time r) (pending_bucket_proceeds r)
    (current_rate_of_increase r) (proceeds r).
End RetPool.
Notation rex_return_pool := RetPool.rex_return_pool.

(** [rex_fund]: the REX fund of an account. *)
Module RexFund.
Record rex_fund := mk {
  owner : name;
  balance : asset;
}.
#[global] Instance eta : EtaRecord rex_fund := fun r =>
  mk (owner r) (balance r).
End RexFund.
Notation rex_fund := RexFund.rex_fund.

(** [rex_balance]: the REX an account holds; the field rex_balance of the source is [rex_bal]. *)
Module RexBal.
Record rex_balance := mk {
  owner : name;
  vote_stake : asset;
  rex_bal : asset;
  matured_rex : Z;
  rex_maturities : list (Z * Z);
}.
#[global] Instance eta : EtaRecord rex_balance := fun r =>
  mk (owner r) (vote_stake r) (rex_bal r) (matured_rex r) (rex_maturities r).
End RexBal.
Notation rex_balance := RexBal.rex_balance.

(** [rex_loan]: a CPU or NET loan. *)
Module Loan.
Record rex_loan := mk {
  from : name;
  receiver : name;
  payment : asset;
  balance : asset;
  total_staked : asset;
  loan_num : Z;
  expiration : Z;
}.
#[global] Instance eta : EtaRecord rex_loan := fun r =>
  mk (from r) (receiver r) (payment r) (balance r) (total_staked r) (loan_num r) (expiration r).
End Loan.
Notation rex_loan := Loan.rex_loan.

(** [rex_order]: a queued sellrex order. *)
Module Order.
Record rex_order := mk {
  owner : name;
  rex_requested : asset;
  proceeds : asset;
  stake_change : asset;
  order_time : Z;
  is_open : bool;
}.
#[global] Instance eta : EtaRecord rex_order := fun r =>
  mk (owner r) (rex_requested r) (proceeds r) (stake_change r) (order_time r) (is_open r).
End Order.
Notation rex_order := Order.rex_order.

(** [payment_info]: pay waiting to be claimed. *)
Module Payment.
Record payment_info := mk {
  bp : name;
  pay : asset;
}.
#[global] Instance eta : EtaRecord payment_info := fun r =>
  mk (bp r) (pay r).
End Payment.
Notation payment_info := Payment.payment_info.

(** [producer_metric]: one producer of the schedule metrics. *)
Module Metric.
Record producer_metric := mk {
  bp_name : name;
  missed_blocks_per_cycle : Z;
}.
#[global] Instance eta : EtaRecord producer_metric := fun r =>
  mk (bp_name r) (missed_blocks_per_cycle r).
End Metric.
Notation producer_metric := Metric.producer_metric.

(** [schedule_metrics_state]: the [schedulemetr] singleton. *)
Module Schedule.
Record schedule_metrics_state := mk {
  last_onblock_caller : name;
  block_counter_correction : Z;
  producers_metric : list producer_metric;
}.
#[global] Instance eta : EtaRecord schedule_metrics_state := fun r =>
  mk (last_onblock_caller r) (block_counter_correction r) (producers_metric r).
End Schedule.
Notation schedule_metrics_state := Schedule.schedule_metrics_state.

(** [rotation_state]: the [rotations] singleton. *)
Module Rotation.
Record rotation_state := mk {
  bp_currently_out : name;
  sbp_currently_in : name;
  bp_out_index : Z;
  sbp_in_index : Z;
  next_rotation_time : Z;
  last_rotation_time : Z;
}.
#[global] Instance eta : EtaRecord rotation_state := fun r =>
  mk (bp_currently_out r) (sbp_currently_in r) (bp_out_index r) (sbp_in_index r)
    (next_rotation_time r) (last_rotation_time r).
End Rotation.
Notation rotation_state := Rotation.rotation_state.

(** [payrates]: the [payrate] singleton. *)
Module PayRates.
Record payrates := mk {
  bpay_rate : Z;
  worker_amount : Z;
}.
#[global] Instance eta : EtaRecord payrates := fun r =>
  mk (bpay_rate r) (worker_amount r).
End PayRates.
Notation payrates := PayRates.payrates.

(** [votingconfig]: the [votingconfig] singleton. *)
Module Voting.
Record votingconfig := mk {
  evm_voting_contract : Z;
  decay_start_epoch : Z;
  decay_increase_yearly : Z;
  self_stake_boost_multiplier : Z;
}.
#[global] Instance eta : EtaRecord votingconfig := fun r =>
  mk (evm_voting_contract r) (decay_start_epoch r) (decay_increase_yearly r)
    (self_stake_boost_multiplier r).
End Voting.
Notation votingconfig := Voting.votingconfig.

(** [name_bid]: an auction; a negative [high_bid] is a closed one. *)
Module Bid.
Record name_bid := mk {
  newname : name;
  high_bidder : name;
  high_bid : Z;
  last_bid_time : Z;
}.
#[global] Instance eta : EtaRecord name_bid := fun r =>
  mk (newname r) (high_bidder r) (high_bid r) (last_bid_time r).
End Bid.
Notation name_bid := Bid.name_bid.

(** [limit_auth_change]: restrictions on authority changes. *)
Module LimitAuth.
Record limit_auth_change := mk {
  account : name;
  allow_perms : list name;
  disallow_perms : list name;
}.
#[global] Instance eta : EtaRecord limit_auth_change := fun r =>
  mk (account r) (allow_perms r) (disallow_perms r).
End LimitAuth.
Notation limit_auth_change := LimitAuth.limit_auth_change.

(** [block_info_record]: one block of the rolling window. *)
Module BlockInfo.
Record block_info_record := mk {
  version : Z;
  block_height : Z;
  block_timestamp : Z;
}.
#[global] Instance eta : EtaRecord block_info_record := fun r =>
  mk (version r) (block_height r) (block_timestamp r).
End BlockInfo.
Notation block_info_record := BlockInfo.block_info_record.

(** [powerup_state_resource]: one resource of the PowerUp market. *)
Module PowRes.
Record powerup_state_resource := mk {
  weight : Z;
  weight_ratio : Z;
  assumed_stake_weight : Z;
  initial_weight_ratio : Z;
  target_weight_ratio : Z;
  initial_timestamp : Z;
  target_timestamp : Z;
  exponent : double;
  decay_secs : Z;
  min_price : asset;
  max_price : asset;
  utilization : Z;
  adjusted_utilization : Z;
  utilization_timestamp : Z;
}.
#[global] Instance eta : EtaRecord powerup_state_resource := fun r =>
  mk (weight r) (weight_ratio r) (assumed_stake_weight r) (initial_weight_ratio r)
    (target_weight_ratio r) (initial_timestamp r) (target_timestamp r) (exponent r) (decay_secs r)
    (min_price r) (max_price r) (utilization r) (adjusted_utilization r) (utilization_timestamp r).
End PowRes.
Notation powerup_state_resource := PowRes.powerup_state_resource.

(** [powerup_state]: the PowerUp market. *)
Module PowState.
Record powerup_state := mk {
  net : powerup_state_resource;
  cpu : powerup_state_resource;
  powerup_days : Z;
  min_powerup_fee : asset;
}.
#[global] Instance eta : EtaRecord powerup_state := fun r =>
  mk (net r) (cpu r) (powerup_days r) (min_powerup_fee r).
End PowState.
Notation powerup_state := PowState.powerup_state.

(** [powerup_order]: a PowerUp order. *)
Module PowOrder.
Record powerup_order := mk {
  id : Z;
  owner : name;
  net_weight : Z;
  cpu_weight : Z;
  expires : Z;
}.
#[global] Instance eta : EtaRecord powerup_order := fun r =>
  mk (id r) (owner r) (net_weight r) (cpu_weight r) (expires r).
End PowOrder.
Notation powerup_order := PowOrder.powerup_order.

(** ** What the contract asks of the host *)
Inductive deferred_action : Type :=
| DeferredRefund (owner : name)
| DeferredBidRefund (bidder newname : name).

Inductive effect : Type :=
| TokenTransfer (auth : list permission_level) (from to : name) (quantity : asset) (memo : string)
| TokenIssue (auth : list permission_level) (to : name) (quantity : asset) (memo : string)
| TokenOpen (auth : list permission_level) (owner : name) (sym : symbol) (ram_payer : name)
| Notify (account : name)
| CancelDeferred (sender_id : Z)
| SendDeferred (sender_id : Z) (payer : name) (delay_sec : Z) (act : deferred_action)
| BuyResult (rex_received : asset)
| SellResult (proceeds : asset)
| OrderResult (owner : name) (proceeds : asset)
| RentResult (rented_tokens : asset)
| PowerupResult (fee : asset) (net_amount cpu_amount : Z)
| TedpPay
| ProposeSchedule (schedule : list (name * block_signing_authority))
| EvmRaw (transaction : list Z) (sender : Z)
| SetPrivileged (account : name) (is_priv : Z)
| PreactivateFeature (digest : Z).

Record sys := mkSys {
  voters : gmap name voter_info;
  producers : gmap name producer_info;
  producers2 : gmap name producer_info2;
  gstate : eosio_global_state;
  gstate2 : eosio_global_state2;
  gstate3 : eosio_global_state3;
  gstate4 : eosio_global_state4;
  rammarket : option exchange_state;
  rexpool : option rex_pool;
  rexretpool : option rex_return_pool;
  rexretbuckets : option (list (Z * Z));
  rexfunds : gmap name rex_fund;
  rexbalances : gmap name rex_balance;
  rexorders : gmap name rex_order;
  cpu_loans : gmap Z rex_loan;
  net_loans : gmap Z rex_loan;
  gschedule_metrics : schedule_metrics_state;
  grotation : rotation_state;
  gpayrate : payrates;
  payments : gmap name payment_info;
  evm_votes : gmap name Z;
  gvoting_config : votingconfig;
  userres : gmap name user_resources;
  delband : gmap (name * name) delegated_bandwidth;
  refunds : gmap name refund_request;
  namebids : gmap name name_bid;
  bidrefunds : gmap (name * name) asset;
  limitauth : gmap name limit_auth_change;
  blockinfo : gmap Z block_info_record;
  powerup_state_sing : option powerup_state;
  powerup_orders : gmap Z powerup_order;
  abihash : gmap name Z;
  limits : gmap name (Z * Z * Z);
  effects : list effect;
}.
#[export] Instance eta_sys : EtaRecord sys := fun r =>
  mkSys (voters r) (producers r) (producers2 r) (gstate r) (gstate2 r) (gstate3 r) (gstate4 r)
    (rammarket r) (rexpool r) (rexretpool r) (rexretbuckets r) (rexfunds r) (rexbalances r)
    (rexorders r) (cpu_loans r) (net_loans r) (gschedule_metrics r) (grotation r) (gpayrate r)
    (payments r) (evm_votes r) (gvoting_config r) (userres r) (delband r) (refunds r) (namebids r)
    (bidrefunds r) (limitauth r) (blockinfo r) (powerup_state_sing r) (powerup_orders r) (abihash r)
    (limits r) (effects r).

(** ** Accessors *)

(** [table.find(key)] and row writes, by the field of [sys] that holds the table. *)
Definition find_row `{Countable K} {V} (t : sys -> gmap K V) (k : K) : M sys (option V) :=
  gets (fun s => t s !! k).

Definition send (x : effect) : M sys unit := modify (fun s => s <| effects ::= fun l => l ++ [x] |>).

Definition token_transfer (auth : list permission_level) (from to : name) (q : asset) (memo : string)
  : M sys unit := send (TokenTransfer auth from to q memo).
Definition active_of (n : name) : permission_level := PermissionLevel n active_permission.

Definition has_field (flags field : Z) : bool := negb (Z.land flags field =? 0).
Definition set_field (flags field : Z) (value : bool) : Z :=
  if value then Z.lor flags field else Z.land flags (u32 (Z.lnot field)).

Definition get_core_symbol : M sys symbol :=
  itr ← gets rammarket;
  rm ← require_found itr "system contract must first be initialized";
  mret (asset_symbol (Connector.balance (Market.quote rm))).
Definition core_symbol : M sys symbol := get_core_symbol.

(** [get_resource_limits(account)]: RAM bytes, NET weight, CPU weight; -1 is unlimited. *)
Definition get_resource_limits (account : name) : M sys (Z * Z * Z) :=
  gets (fun s => default (-1, -1, -1) (limits s !! account)).
Definition set_resource_limits (account : name) (ram net cpu : Z) : M sys unit :=
  modify (fun s => s <| limits ::= insert account (ram, net, cpu) |>).

Definition free_ram (g : eosio_global_state) : Z :=
  u64 (Global.max_ram_size g - Global.total_ram_bytes_reserved g).

Definition user_resources_is_empty (r : user_resources) : bool :=
  (amount (UserRes.net_weight r) =? 0) && (amount (UserRes.cpu_weight r) =? 0) &&
  (UserRes.ram_bytes r =? 0).
Definition delegated_bandwidth_is_empty (d : delegated_bandwidth) : bool :=
  (amount (Delband.net_weight d) =? 0) && (amount (Delband.cpu_weight d) =? 0).
Definition refund_request_is_empty (r : refund_request) : bool :=
  (amount (Refund.net_amount r) =? 0) && (amount (Refund.cpu_amount r) =? 0).

(** The three managed flags of a voter row, all clear for an account with no row. *)
Definition managed_flags (v : option voter_info) : bool * bool * bool :=
  match v with
  | Some v => (has_field (Voter.flags1 v) ram_managed, has_field (Voter.flags1 v) net_managed,
               has_field (Voter.flags1 v) cpu_managed)
  | None => (false, false, false)
  end.

(** A fresh voter row, with the defaults of the source. *)
Definition new_voter (owner : name) : voter_info :=
  Voter.mk owner 0 [] 0 0 dzero dzero false 0 (Some 0).

(** Empty tables and zeroed singletons: the examples start from it. *)
Definition blank_sys : sys :=
  mkSys ∅ ∅ ∅ (Global.mk 0 0 0 0 0 0 0 0 0 0 0 0 dzero 0 0 0 0) (Global2.mk 0 0 0 dzero 0)
    (Global3.mk 0 dzero) (Global4.mk dzero 0 0) None None None None ∅ ∅ ∅ ∅ ∅
    (Schedule.mk 0 0 []) (Rotation.mk 0 0 0 0 0 0) (PayRates.mk 0 0) ∅ ∅ (Voting.mk 0 0 0 0)
    ∅ ∅ ∅ ∅ ∅ ∅ ∅ None ∅ ∅ ∅ [].

(** ** Lemmas *)
Lemma respects_send (R : relation sys) `{!PreOrder R} x :
  (forall s l, R s (s <| effects := l |>)) -> respects R (send x).
Proof. intros HR. apply respects_modify. intros s. apply HR. Qed.

Lemma has_set_field_same flags i value :
  0 <= i < 32 -> 0 <= flags < 2 ^ 32 -> has_field (set_field flags (2 ^ i) value) (2 ^ i) = value.
Proof.
  intros Hi Hf. unfold has_field.
  assert (Z.testbit (set_field flags (2 ^ i) value) i = value) as Hbit.
  { unfold set_field, u32, uwrap. rewrite <- Z.land_ones by lia.
    destruct value; rewrite ?Z.lor_spec, ?Z.land_spec, ?Z.lnot_spec, ?Z.pow2_bits_true by lia;
      [by rewrite orb_true_r|cbn; by rewrite ?andb_false_r]. }
  destruct (Z.eqb_spec (Z.land (set_field flags (2 ^ i) value) (2 ^ i)) 0) as [H0|H0].
  - apply (f_equal (fun z => Z.testbit z i)) in H0.
    rewrite Z.land_spec, Z.pow2_bits_true, Z.bits_0, andb_true_r, Hbit in H0 by lia. by subst.
  - destruct value; [done|]. exfalso. apply H0. apply Z.bits_inj'. intros j Hj.
    rewrite Z.land_spec, Z.bits_0. destruct (decide (i = j)) as [->|Hne].
    + by rewrite Hbit.
    + by rewrite Z.pow2_bits_false, andb_false_r by lia.
Qed.

(** The core symbol is that of the RAM market's quote. *)
Definition core_of (s : sys) : option symbol :=
  (fun m => asset_symbol (Connector.balance (Market.quote m))) <$> rammarket s.

Lemma core_symbol_Ok s c s' : core_symbol s = Ok (c, s') <-> core_of s = Some c /\ s' = s.
Proof.
  unfold core_symbol, get_core_symbol, core_of, gets, require_found, mbind, M_bind, mret, M_ret, throw.
  destruct (rammarket s); naive_solver.
Qed.
