(* ===== verification/Votes.v ===== *)
(** * Vote weights and the vote update (voting.cpp, lines 188-260, 369-504, 531-622)

    [update_votes] moves a voter's weight from the producers (or the proxy) of the
    last vote to those of the new one; [propagate_weight_change] pushes the changed
    weight of a proxy on. The proxy chain is followed with fuel, one unit per row
    of the voters table: a chain without a cycle is never longer. *)
From S2P Require Import Prelude.
From S2P Require Import Cdt.
From S2P Require Import Float64.
From S2P Require Import SysState.
From stdpp Require Import base gmap strings list sorting.
Open Scope Z_scope.

Definition max_vote_producers : Z := 30.

(** A [uint256] is its value; arithmetic is modulo 2^256. *)
Definition u256 (z : Z) : Z := uwrap 256 z.

(** Most significant word first: [d = d * 2^64 + w[i]]. *)
Definition uint256_to_double (x : Z) : double :=
  let word i := dint ((x / 2 ^ (64 * i)) mod 2 ^ 64) in
  let two64 := dint (2 ^ 64) in
  let step d i := dadd (dmul d two64) (word i) in
  fold_left step [3; 2; 1; 0] dzero.

(** The fixed-point multiplier, in units of 1e-18. *)
Definition decay_multiplier_fp (decay_increase_yearly_pct seconds_of_decay : Z) : Z :=
  let seconds_per_year_365 := 31536000 in
  let decay_precision := 1000000000000000000 in
  let yearly_rate_scaled := u256 (decay_increase_yearly_pct * decay_precision) / 100 in
  let increment_fp := u256 (yearly_rate_scaled * seconds_of_decay) / seconds_per_year_365 in
  u256 (decay_precision + increment_fp).

Definition apply_decay_multiplier (weighted_vote : double)
    (sec_since_epoch decay_start_epoch decay_increase_yearly_pct : Z) : double :=
  if (decay_start_epoch =? 0) || (sec_since_epoch <=? decay_start_epoch) then weighted_vote
  else
    let seconds_of_decay := u64 (sec_since_epoch - decay_start_epoch) in
    let multiplier := ddiv
      (uint256_to_double (decay_multiplier_fp decay_increase_yearly_pct seconds_of_decay))
      (uint256_to_double 1000000000000000000) in
    dmul weighted_vote multiplier.

(** The changes to make, by producer: the weight, and whether the producer is one of
    the new vote. *)
Notation deltas := (gmap name (double * bool)).

Section votes.
Context `{cdt : Cdt} `{libm : Libm} (e : Env).

Definition inverse_vote_weight (staked amount_voted_producers : double) : double :=
  if deq amount_voted_producers dzero then dzero
  else
    let percentVoted := ddiv amount_voted_producers (dint max_vote_producers) in
    let voteWeight :=
      ddiv (dadd (dsin (dsub (dmul m_pi percentVoted) m_pi_2)) (dint 1)) (dint 2) in
    dmul voteWeight staked.

Definition decay_vote_weight_multiplier (weighted_vote : double) : M sys double :=
  cfg ← gets gvoting_config;
  mret (apply_decay_multiplier weighted_vote (sec_of_us (now_us e))
          (Voting.decay_start_epoch cfg) (Voting.decay_increase_yearly cfg)).

(** [voter.staked], plus the stake proxied to a proxy. *)
Definition total_stake (v : voter_info) : result Z :=
  if Voter.is_proxy v
  then dto_i64 (dadd (dint (Voter.staked v)) (Voter.proxied_vote_weight v))
  else Ok (Voter.staked v).

Definition find_voter (n : name) : M sys (option voter_info) := gets (fun s => voters s !! n).
Definition get_voter (n : name) (msg : string) : M sys voter_info :=
  v ← find_voter n; require_found v msg.
Definition set_voter (n : name) (v : voter_info) : M sys unit :=
  modify (fun s => s <| voters ::= insert n v |>).
Definition add_activated_stake (delta : Z) : M sys unit :=
  modify (fun s => s <| gstate ::= fun g =>
    g <| Global.total_activated_stake ::= fun z => i64 (z + delta) |> |>).

Definition add_votes (acnt : name) (p : producer_info) (votes delta : double) : M sys unit :=
  modify (fun s => s <| producers ::= insert acnt (p <| Producer.total_votes := votes |>) |>
    <| gstate ::= fun g => g <| Global.total_producer_vote_weight ::= fun w => dadd w delta |> |>).

(** [voter] names the row the reference of the source points to. *)
Fixpoint propagate_weight_change (fuel : nat) (voter : name) : M sys unit :=
  match fuel with
  | O => throw "deadline exceeded"
  | S fuel' =>
    v ← get_voter voter "unable to find key";
    check ((Voter.proxy v =? 0) || negb (Voter.is_proxy v))
      "account registered as a proxy is not allowed to use a proxy" ;;
    totalStake ← lift (total_stake v);
    let new_weight := inverse_vote_weight (dint totalStake) (dint (Z.of_nat (length (Voter.producers v)))) in
    let delta := dsub new_weight (Voter.last_vote_weight v) in
    (if negb (Voter.proxy v =? 0) then
       when (negb (Voter.last_stake v =? totalStake))
         (proxy ← get_voter (Voter.proxy v) "proxy not found";
          set_voter (Voter.proxy v) (proxy <| Voter.proxied_vote_weight ::=
            fun w => dadd w (dint (i64 (totalStake - Voter.last_stake v))) |>) ;;
          propagate_weight_change fuel' (Voter.proxy v))
     else
       for_each (fun acnt =>
         row ← gets (fun s => producers s !! acnt);
         p ← require_found row "producer not found";
         add_votes acnt p (dadd (Producer.total_votes p) delta) delta) (Voter.producers v)) ;;
    v' ← get_voter voter "unable to find key";
    set_voter voter (v' <| Voter.last_vote_weight := new_weight |> <| Voter.last_stake := totalStake |>)
  end.

Definition propagate (voter : name) : M sys unit :=
  n ← gets (fun s => size (voters s));
  propagate_weight_change (S n) voter.

Definition delta_of (m : deltas) (p : name) : double * bool := default (dzero, false) (m !! p).

(** [boost/100.0 * weight]. *)
Definition boosted (boost : Z) (weight : double) : double :=
  dmul (ddiv (dint boost) (dint 100)) weight.

Definition retract_one (voter_name : name) (weight : double) (acc : deltas * Z) (p : name)
  : deltas * Z :=
  let '(m, boost) := acc in
  let d := dsub (delta_of m p).1 weight in
  if p =? voter_name
  then (<[p := (dsub d (boosted boost weight), false)]> m, 0)
  else (<[p := (d, false)]> m, boost).

Definition grant_one (voter_name : name) (weight : double) (multiplier : Z) (acc : deltas * Z) (p : name)
  : deltas * Z :=
  let '(m, boost) := acc in
  let d := dadd (delta_of m p).1 weight in
  if p =? voter_name
  then let boost' := u32 multiplier in (<[p := (dadd d (boosted boost' weight), true)]> m, boost')
  else (<[p := (d, true)]> m, boost).

(** One producer of [producer_deltas]. *)
Definition apply_delta (voting : bool) (pd : name * (double * bool)) : M sys unit :=
  let '(pname, (delta, is_new)) := pd in
  pitr ← gets (fun s => producers s !! pname);
  match pitr with
  | Some p =>
    check (negb (voting && negb (Producer.is_active p) && is_new)) "producer is not currently registered" ;;
    let votes := dadd (Producer.total_votes p) delta in
    add_votes pname p (if dlt votes dzero then dzero else votes) delta
  | None => check (negb is_new) "producer is not registered"
  end.

Fixpoint strictly_sorted (l : list name) : bool :=
  match l with
  | x :: (y :: _) as l' => (x <? y) && strictly_sorted l'
  | _ => true
  end.

Definition validate_vote (voter_name proxy : name) (producers_ : list name) : M sys unit :=
  if negb (proxy =? 0) then
    check (bool_decide (length producers_ = 0%nat)) "cannot vote for producers and proxy at same time" ;;
    check (negb (voter_name =? proxy)) "cannot proxy to self"
  else
    check (bool_decide (length producers_ <= 30)%nat) "attempt to vote for too many producers" ;;
    check (strictly_sorted producers_) "producer votes must be unique and sorted".

(** Taking the last vote back: from its proxy, or into [producer_deltas]. *)
Definition retract_vote (voter_name proxy : name) (totalStaked : Z) (boost : Z) : M sys (deltas * Z) :=
  voter ← get_voter voter_name "user must stake before they can vote";
  if negb (0 <? Voter.last_stake voter) then mret (∅, boost)
  else if negb (Voter.proxy voter =? 0) then
    old_proxy ← get_voter (Voter.proxy voter) "old proxy not found";
    set_voter (Voter.proxy voter) (old_proxy <| Voter.proxied_vote_weight ::=
      fun w => dsub w (dint (Voter.last_stake voter)) |>) ;;
    when (negb (proxy =? Voter.proxy voter))
      (add_activated_stake (i64 (totalStaked - Voter.last_stake voter)) ;;
       propagate (Voter.proxy voter)) ;;
    mret (∅, boost)
  else
    mret (fold_left (retract_one voter_name (Voter.last_vote_weight voter))
            (Voter.producers voter) (∅, boost)).

(** Casting the new vote: to its proxy, or into [producer_deltas]. *)
Definition cast_vote (voter_name proxy : name) (producers_ : list name) (voting : bool)
    (totalStaked : Z) (new_vote_weight : double) (acc : deltas * Z) : M sys (deltas * Z) :=
  if negb (proxy =? 0) then
    voter ← get_voter voter_name "user must stake before they can vote";
    new_proxy ← get_voter proxy "invalid proxy specified";
    check (negb voting || Voter.is_proxy new_proxy) "proxy not found" ;;
    set_voter proxy (new_proxy <| Voter.proxied_vote_weight ::=
      fun w => dadd w (dint (Voter.staked voter)) |>) ;;
    when (dlt dzero (Voter.last_vote_weight new_proxy))
      (add_activated_stake (i64 (totalStaked - Voter.last_stake voter)) ;;
       propagate proxy) ;;
    mret acc
  else if dle dzero new_vote_weight then
    multiplier ← gets (fun s => Voting.self_stake_boost_multiplier (gvoting_config s));
    mret (fold_left (grant_one voter_name new_vote_weight multiplier) producers_ acc)
  else mret acc.

Definition update_votes (voter_name proxy : name) (producers_ : list name) (voting : bool) : M sys unit :=
  validate_vote voter_name proxy producers_ ;;
  voter ← get_voter voter_name "user must stake before they can vote";
  check ((proxy =? 0) || negb (Voter.is_proxy voter))
    "account registered as a proxy is not allowed to use a proxy" ;;
  staked ← lift (total_stake voter);
  let totalStaked :=
    if voting && (proxy =? 0) && bool_decide (length producers_ = 0%nat) then 0 else staked in
  when ((proxy =? 0) && (Voter.proxy voter =? 0))
    (add_activated_stake (i64 (totalStaked - Voter.last_stake voter))) ;;
  let inverse_weighted_vote :=
    inverse_vote_weight (dint totalStaked) (dint (Z.of_nat (length producers_))) in
  new_vote_weight ← decay_vote_weight_multiplier inverse_weighted_vote;
  let boost := u32 (default 0 (Voter.self_stake_boost voter)) in
  retracted ← retract_vote voter_name proxy totalStaked boost;
  cast ← cast_vote voter_name proxy producers_ voting totalStaked new_vote_weight retracted;
  for_each (apply_delta voting) (table_rows cast.1) ;;
  voter' ← get_voter voter_name "user must stake before they can vote";
  set_voter voter_name (voter' <| Voter.last_vote_weight := new_vote_weight |>
    <| Voter.last_stake := totalStaked |> <| Voter.producers := producers_ |>
    <| Voter.proxy := proxy |> <| Voter.self_stake_boost := Some cast.2 |>).

End votes.


(** ** The deltas of a vote *)

(** What one producer gains: the old weight is taken back, then the new one given. *)
Definition retracted_delta (voter_name : name) (weight : double) (boost : Z) (p : name) : double :=
  let d := dsub dzero weight in
  if p =? voter_name then dsub d (boosted boost weight) else d.

Definition granted_delta (voter_name : name) (weight : double) (boost : Z) (start : double) (p : name)
  : double :=
  let d := dadd start weight in
  if p =? voter_name then dadd d (boosted boost weight) else d.

(** The vote weight of a stake spread over [n] producers, at the time of the action. *)
Definition weight_now `{cdt : Cdt} `{libm : Libm} (e : Env) (s : sys) (stake : Z) (n : nat) : double :=
  apply_decay_multiplier (inverse_vote_weight (dint stake) (dint (Z.of_nat n))) (sec_of_us (now_us e))
    (Voting.decay_start_epoch (gvoting_config s)) (Voting.decay_increase_yearly (gvoting_config s)).

(** The stake that counts: an empty vote takes the stake back. *)
Definition counted_stake (v : voter_info) (voting : bool) (new : list name) : Z :=
  if voting && bool_decide (length new = 0%nat) then 0 else Voter.staked v.

(** The change of one producer's total when [v] votes for [new] with weight [nw]: [None]
    leaves the row alone. *)
Definition vote_delta (s : sys) (v : voter_info) (voter_name : name) (nw : double) (new : list name)
    (p : name) : option (double * bool) :=
  let boost := u32 (default 0 (Voter.self_stake_boost v)) in
  let was := (0 <? Voter.last_stake v) && bool_decide (p ∈ Voter.producers v) in
  let old := if was then retracted_delta voter_name (Voter.last_vote_weight v) boost p else dzero in
  let now := dle dzero nw && bool_decide (p ∈ new) in
  if now then
    Some (granted_delta voter_name nw (u32 (Voting.self_stake_boost_multiplier (gvoting_config s))) old p, true)
  else if was then Some (old, false) else None.

(** The clamped sum of the source: small negative totals become zero. *)
Definition add_clamped (t d : double) : double := let v := dadd t d in if dlt v dzero then dzero else v.

(** ** Lemmas *)
Lemma strictly_sorted_cons x l :
  strictly_sorted (x :: l) = true -> Forall (Z.lt x) l /\ strictly_sorted l = true.
Proof.
  revert x. induction l as [|y l IH]; intros x H; [by split|].
  apply andb_true_iff in H as [Hxy%Z.ltb_lt Hl]. split; [|done].
  apply IH in Hl as [Hall _]. constructor; [done|]. eapply Forall_impl; [exact Hall|]. cbn. lia.
Qed.

Lemma strictly_sorted_NoDup l : strictly_sorted l = true -> NoDup l.
Proof.
  induction l as [|x l IH]; intros H; [constructor|].
  apply strictly_sorted_cons in H as [Hall Hl]. constructor; [|by apply IH].
  intros Hin. rewrite Forall_forall in Hall. apply Hall in Hin. lia.
Qed.

Lemma retract_fold n w l : forall m b, NoDup l ->
  let r := fold_left (retract_one n w) l (m, b) in
  (forall p, r.1 !! p = if bool_decide (p ∈ l)
     then Some (if p =? n then dsub (dsub (delta_of m p).1 w) (boosted b w) else dsub (delta_of m p).1 w, false)
     else m !! p) /\
  r.2 = if bool_decide (n ∈ l) then 0 else b.
Proof.
  induction l as [|x l IH]; intros m b Hnd; [split; done|].
  apply NoDup_cons in Hnd as [Hx Hnd]. cbn [fold_left].
  set (m1 := <[x := (if x =? n then dsub (dsub (delta_of m x).1 w) (boosted b w)
                     else dsub (delta_of m x).1 w, false)]> m).
  replace (retract_one n w (m, b) x) with (m1, if x =? n then 0 else b)
    by (unfold retract_one, m1; by destruct (x =? n)).
  destruct (IH m1 (if x =? n then 0 else b) Hnd) as [Hm Hb]. split.
  - intros p. rewrite Hm. destruct (decide (p = x)) as [->|Hne].
    + rewrite bool_decide_eq_false_2, bool_decide_eq_true_2 by set_solver.
      apply lookup_insert_eq.
    + assert (m1 !! p = m !! p) as Hp by (by apply lookup_insert_ne).
      unfold delta_of. rewrite Hp.
      rewrite (bool_decide_ext (p ∈ x :: l) (p ∈ l)) by set_solver. destruct (bool_decide (p ∈ l)); [|done].
      f_equal. f_equal. destruct (Z.eqb_spec p n) as [->|]; [|done]. destruct (Z.eqb_spec x n); [congruence|done].
  - rewrite Hb. destruct (Z.eqb_spec x n) as [->|Hne].
    + by rewrite bool_decide_eq_false_2, bool_decide_eq_true_2 by set_solver.
    + rewrite (bool_decide_ext (n ∈ x :: l) (n ∈ l)) by set_solver. done.
Qed.

Lemma grant_fold n w mult l : forall m b, NoDup l ->
  let r := fold_left (grant_one n w mult) l (m, b) in
  (forall p, r.1 !! p = if bool_decide (p ∈ l)
     then Some (granted_delta n w (u32 mult) (delta_of m p).1 p, true) else m !! p) /\
  r.2 = if bool_decide (n ∈ l) then u32 mult else b.
Proof.
  induction l as [|x l IH]; intros m b Hnd; [split; done|].
  apply NoDup_cons in Hnd as [Hx Hnd]. cbn [fold_left].
  set (m1 := <[x := (granted_delta n w (u32 mult) (delta_of m x).1 x, true)]> m).
  replace (grant_one n w mult (m, b) x) with (m1, if x =? n then u32 mult else b)
    by (unfold m1, grant_one, granted_delta; by destruct (x =? n)).
  destruct (IH m1 (if x =? n then u32 mult else b) Hnd) as [Hm Hb]. split.
  - intros p. rewrite Hm. destruct (decide (p = x)) as [->|Hne].
    + rewrite bool_decide_eq_false_2, bool_decide_eq_true_2 by set_solver.
      apply lookup_insert_eq.
    + assert (m1 !! p = m !! p) as Hp by (by apply lookup_insert_ne).
      unfold delta_of. rewrite Hp.
      rewrite (bool_decide_ext (p ∈ x :: l) (p ∈ l)) by set_solver. done.
  - rewrite Hb. destruct (Z.eqb_spec x n) as [->|Hne].
    + by rewrite bool_decide_eq_false_2, bool_decide_eq_true_2 by set_solver.
    + rewrite (bool_decide_ext (n ∈ x :: l) (n ∈ l)) by set_solver. done.
Qed.

(** ** Applying the deltas *)

(** ** What a vote can change: voters, producers and two totals of the global row *)
Definition votes_only (s s' : sys) : Prop :=
  exists vs ps a w, s' = s <| voters := vs |> <| producers := ps |>
    <| gstate ::= fun g => g <| Global.total_activated_stake := a |>
                             <| Global.total_producer_vote_weight := w |> |>.

#[export] Instance votes_only_preorder : PreOrder votes_only.
Proof.
  split.
  - intros s. exists (voters s), (producers s), (Global.total_activated_stake (gstate s)),
      (Global.total_producer_vote_weight (gstate s)). by destruct s as [? ? ? []].
  - intros s1 s2 s3 (? & ? & ? & ? & ->) (vs & ps & a & w & ->). exists vs, ps, a, w.
    by destruct s1 as [? ? ? []].
Qed.

Lemma set_voter_votes_only n v : respects votes_only (set_voter n v).
Proof. apply respects_modify. intros [? ? ? []]. eexists _, _, _, _. cbn. reflexivity. Qed.
Lemma add_activated_stake_votes_only d : respects votes_only (add_activated_stake d).
Proof. apply respects_modify. intros [? ? ? []]. eexists _, _, _, _. cbn. reflexivity. Qed.
Lemma add_votes_votes_only n p v d : respects votes_only (add_votes n p v d).
Proof. apply respects_modify. intros [? ? ? []]. eexists _, _, _, _. cbn. reflexivity. Qed.
#[export] Hint Resolve set_voter_votes_only add_activated_stake_votes_only add_votes_votes_only : respects.

Lemma propagate_votes_only `{libm : Libm} n : respects votes_only (propagate n).
Proof.
  assert (forall fuel n, respects votes_only (propagate_weight_change fuel n)) as Hp.
  { intros fuel. induction fuel as [|fuel IH]; intros m; [apply respects_throw|].
    cbn [propagate_weight_change]. unfold get_voter, find_voter. solve_respects_with ltac:(apply IH). }
  unfold propagate. solve_respects_with ltac:(apply Hp).
Qed.
#[export] Hint Resolve propagate_votes_only : respects.

Lemma update_votes_votes_only `{cdt : Cdt} `{libm : Libm} (e : Env) n p l b :
  respects votes_only (update_votes e n p l b).
Proof.
  unfold update_votes, validate_vote, retract_vote, cast_vote, apply_delta, get_voter, find_voter,
    decay_vote_weight_multiplier. solve_respects.
Qed.
#[export] Hint Resolve update_votes_votes_only : respects.

(** [s'] is [s] but for the producers' totals and their sum. *)
Definition totals_only (s s' : sys) : Prop :=
  exists ps w, s' = s <| producers := ps |>
    <| gstate ::= fun g => g <| Global.total_producer_vote_weight := w |> |>.

#[export] Instance totals_only_preorder : PreOrder totals_only.
Proof.
  split.
  - intros s. exists (producers s), (Global.total_producer_vote_weight (gstate s)). by destruct s as [? ? ? []].
  - intros s1 s2 s3 (ps1 & w1 & ->) (ps2 & w2 & ->). exists ps2, w2. by destruct s1 as [? ? ? []].
Qed.

Lemma apply_delta_totals voting pd : respects totals_only (apply_delta voting pd).
Proof.
  destruct pd as [p [d b]]. unfold apply_delta, add_votes. solve_respects.
  all: by eexists _, _.
Qed.

Lemma apply_delta_Ok voting p d b s u s' :
  apply_delta voting (p, (d, b)) s = Ok (u, s') ->
  producers s' = alter (fun r => r <| Producer.total_votes ::= fun t => add_clamped t d |>) p (producers s) /\
  (b = true -> exists r, producers s !! p = Some r /\ (voting = true -> Producer.is_active r = true)).
Proof.
  unfold apply_delta, add_votes. intros H. minv H.
  destruct (producers s !! p) as [r|] eqn:Hr; minv H.
  - split.
    + cbn. apply map_eq. intros q. destruct (decide (q = p)) as [->|Hne].
      * by rewrite lookup_insert_eq, lookup_alter_eq, Hr.
      * by rewrite lookup_insert_ne, lookup_alter_ne by done.
    + intros ->. exists r. split; [done|]. intros ->. destruct (Producer.is_active r); [done|].
      by cbn in *.
  - split; [|intros ->; done]. apply map_eq. intros q. destruct (decide (q = p)) as [->|Hne].
    + by rewrite lookup_alter_eq, Hr.
    + by rewrite lookup_alter_ne.
Qed.

Lemma apply_delta_run voting p d b s :
  (b = true -> exists r, producers s !! p = Some r /\ (voting = true -> Producer.is_active r = true)) ->
  exists s', apply_delta voting (p, (d, b)) s = Ok (tt, s').
Proof.
  intros Hb. unfold apply_delta. destruct (producers s !! p) as [r|] eqn:Hr.
  - eexists. unfold add_votes. mok. rewrite Hr. mok. destruct b; [|by rewrite andb_false_r].
    destruct (Hb eq_refl) as (r' & [= <-] & Hact). destruct voting; [|done]. by rewrite Hact.
  - eexists. mok. rewrite Hr. mok. destruct b; [|done]. destruct (Hb eq_refl) as (? & ? & _). done.
Qed.

(** All of them: each producer's row changes by its own delta and no other. *)
Lemma apply_deltas_Ok voting l : forall s u s',
  NoDup l.*1 ->
  for_each (apply_delta voting) l s = Ok (u, s') ->
  (forall p d b, (p, (d, b)) ∈ l -> producers s' !! p =
     (fun r => r <| Producer.total_votes ::= fun t => add_clamped t d |>) <$> producers s !! p) /\
  (forall p, p ∉ l.*1 -> producers s' !! p = producers s !! p) /\
  (forall p d, (p, (d, true)) ∈ l ->
     exists r, producers s !! p = Some r /\ (voting = true -> Producer.is_active r = true)).
Proof.
  induction l as [|[x [dx bx]] l IH]; cbn [for_each fmap list_fmap]; intros s u s' Hnd H.
  - minv H. split_and!; [set_solver|done|set_solver].
  - apply NoDup_cons in Hnd as [Hx Hnd]. cbn [fst] in Hx. minv H.
    apply apply_delta_Ok in Hrun as [Hps Hnew]. destruct (IH _ _ _ Hnd H) as (IH1 & IH2 & IH3).
    split_and!.
    + intros p d b [[= -> -> ->]|Hin]%elem_of_cons.
      * by rewrite (IH2 _ Hx), Hps, lookup_alter_eq.
      * assert (p <> x) by (intros ->; apply Hx; by apply (list_elem_of_fmap_2 fst) in Hin).
        rewrite (IH1 _ _ _ Hin), Hps. by rewrite lookup_alter_ne.
    + intros p Hp. rewrite IH2 by set_solver. rewrite Hps. apply lookup_alter_ne. set_solver.
    + intros p d [[= -> -> <-]|Hin]%elem_of_cons; [by apply Hnew|].
      destruct (IH3 _ _ Hin) as (r & Hr & Hact).
      assert (p <> x) by (intros ->; apply Hx; by apply (list_elem_of_fmap_2 fst) in Hin).
      exists r. split; [|done]. by rewrite Hps, lookup_alter_ne in Hr.
Qed.

Lemma apply_deltas_run voting l : forall s,
  NoDup l.*1 ->
  (forall p d, (p, (d, true)) ∈ l ->
     exists r, producers s !! p = Some r /\ (voting = true -> Producer.is_active r = true)) ->
  exists s', for_each (apply_delta voting) l s = Ok (tt, s').
Proof.
  induction l as [|[x [dx bx]] l IH]; cbn [for_each fmap list_fmap]; intros s Hnd Hall; [by exists s|].
  apply NoDup_cons in Hnd as [Hx Hnd]. cbn [fst] in *.
  destruct (apply_delta_run voting x dx bx s) as [s1 H1].
  { intros ->. apply (Hall x dx). set_solver. }
  destruct (IH s1 Hnd) as [s2 H2].
  - intros p d Hin. destruct (Hall p d) as (r & Hr & Hact); [set_solver|]. exists r. split; [|done].
    apply apply_delta_Ok in H1 as [-> _]. rewrite lookup_alter_ne; [done|].
    intros ->. apply Hx. by apply (list_elem_of_fmap_2 fst) in Hin.
  - exists s2. apply bind_Ok. by eexists _, _.
Qed.

(** ** The invariant of the vote tables

    Proxies are disabled ([regproxy] refuses to make one): no voter row names a proxy or
    is one. Then the activated stake is the sum of the stakes last voted with, modulo
    the width of the counter, and the stored votes are sorted. *)
Definition proxy_free (s : sys) : Prop :=
  map_Forall (fun _ v => Voter.proxy v = 0 /\ Voter.is_proxy v = false) (voters s).
Record vote_inv (s : sys) : Prop := {
  no_proxies : proxy_free s;
  votes_sorted : map_Forall (fun _ v => strictly_sorted (Voter.producers v) = true) (voters s);
  activated_sum : Global.total_activated_stake (gstate s) = i64 (msum Voter.last_stake (voters s));
}.

Section update.
Context `{cdt : Cdt} `{libm : Libm} (e : Env).

(** What remains of [update_votes] once there are no proxies. *)
Definition direct_deltas (s : sys) (v : voter_info) (voter_name : name) (nw : double) (new : list name)
  : deltas * Z :=
  let acc := if 0 <? Voter.last_stake v
    then fold_left (retract_one voter_name (Voter.last_vote_weight v)) (Voter.producers v)
           (∅, u32 (default 0 (Voter.self_stake_boost v)))
    else (∅, u32 (default 0 (Voter.self_stake_boost v))) in
  if dle dzero nw
  then fold_left (grant_one voter_name nw (Voting.self_stake_boost_multiplier (gvoting_config s))) new acc
  else acc.

Definition vote_row (v : voter_info) (nw : double) (stake : Z) (new : list name) (boost : Z) : voter_info :=
  v <| Voter.last_vote_weight := nw |> <| Voter.last_stake := stake |>
    <| Voter.producers := new |> <| Voter.proxy := 0 |> <| Voter.self_stake_boost := Some boost |>.

Definition bump_activated (delta : Z) (s : sys) : sys :=
  s <| gstate ::= fun g => g <| Global.total_activated_stake ::= fun z => i64 (z + delta) |> |>.

Lemma direct_deltas_lookup s v n nw new p :
  NoDup (Voter.producers v) -> NoDup new ->
  (direct_deltas s v n nw new).1 !! p = vote_delta s v n nw new p.
Proof.
  intros Hold Hnew. unfold direct_deltas, vote_delta. set (b := u32 (default 0 _)).
  set (acc := if 0 <? _ then _ else _).
  assert (forall q, acc.1 !! q = if (0 <? Voter.last_stake v) && bool_decide (q ∈ Voter.producers v)
      then Some (retracted_delta n (Voter.last_vote_weight v) b q, false) else None) as Hacc.
  { intros q. subst acc. destruct (0 <? Voter.last_stake v); cbn [andb]; [|done].
    rewrite (proj1 (retract_fold n (Voter.last_vote_weight v) (Voter.producers v) ∅ b Hold)).
    by destruct (bool_decide (q ∈ Voter.producers v)). }
  destruct (dle dzero nw); cbn [andb].
  - destruct acc as [m b'] eqn:Ea. cbn in Hacc.
    rewrite (proj1 (grant_fold n nw (Voting.self_stake_boost_multiplier (gvoting_config s)) new m b' Hnew)).
    unfold delta_of. rewrite Hacc. destruct (bool_decide (p ∈ new)); [|by destruct (_ && _)].
    by destruct (_ && _).
  - rewrite Hacc. by destruct (_ && _).
Qed.

Lemma direct_deltas_rows s v n nw new :
  NoDup (table_rows (direct_deltas s v n nw new).1).*1.
Proof.
  unfold table_rows. rewrite index_rows_perm. apply NoDup_fst_map_to_list.
Qed.

Lemma validate_vote_Ok n proxy new s u s' :
  validate_vote n proxy new s = Ok (u, s') ->
  s' = s /\ (proxy = 0 -> (length new <= 30)%nat /\ strictly_sorted new = true).
Proof.
  unfold validate_vote. destruct (Z.eqb_spec proxy 0) as [->|Hp]; intros H; cbn [negb] in H; minv H.
  - split; [done|]. intros _. split; [by apply bool_decide_eq_true in Hchk|done].
  - by split.
Qed.

Lemma retract_vote_direct n proxy stake b s v :
  voters s !! n = Some v -> Voter.proxy v = 0 ->
  retract_vote n proxy stake b s =
  Ok (if 0 <? Voter.last_stake v
      then fold_left (retract_one n (Voter.last_vote_weight v)) (Voter.producers v) (∅, b) else (∅, b), s).
Proof.
  intros Hv Hp. unfold retract_vote, get_voter, find_voter. mok; [done|].
  rewrite Hp. destruct (0 <? Voter.last_stake v); cbn [negb Z.eqb]; mok.
Qed.

Lemma cast_vote_direct n new voting stake nw acc s :
  cast_vote n 0 new voting stake nw acc s =
  Ok (if dle dzero nw
      then fold_left (grant_one n nw (Voting.self_stake_boost_multiplier (gvoting_config s))) new acc
      else acc, s).
Proof. unfold cast_vote. cbn [negb Z.eqb]. destruct (dle dzero nw); mok. Qed.

Lemma cast_vote_needs_proxy n proxy new stake nw acc s r :
  map_Forall (fun _ v => Voter.proxy v = 0 /\ Voter.is_proxy v = false) (voters s) ->
  cast_vote n proxy new true stake nw acc s = Ok r -> proxy = 0.
Proof.
  intros Hnp H. destruct (Z.eqb_spec proxy 0) as [|Hp]; [done|]. exfalso. destruct r as [r s'].
  unfold cast_vote in H. rewrite (proj2 (Z.eqb_neq _ _) Hp) in H. cbn [negb] in H.
  unfold get_voter, find_voter in H. minv H. destruct (Hnp _ _ Hfound0) as [_ Hip].
  rewrite Hip in Hchk. done.
Qed.

Lemma decay_vote_weight_run s stake k :
  decay_vote_weight_multiplier e (inverse_vote_weight (dint stake) (dint (Z.of_nat k))) s =
  Ok (weight_now e s stake k, s).
Proof. done. Qed.

(** With no proxies a successful [update_votes] is these steps. *)
Lemma update_votes_direct n proxy new voting s u s' :
  proxy_free s -> (voting = true \/ proxy = 0) ->
  update_votes e n proxy new voting s = Ok (u, s') ->
  exists v s1,
    let stake := counted_stake v voting new in
    let nw := weight_now e s stake (length new) in
    let dd := direct_deltas s v n nw new in
    proxy = 0 /\ (length new <= 30)%nat /\ strictly_sorted new = true /\ voters s !! n = Some v /\
    for_each (apply_delta voting) (table_rows dd.1)
      (bump_activated (i64 (stake - Voter.last_stake v)) s) = Ok (tt, s1) /\
    s' = s1 <| voters ::= insert n (vote_row v nw stake new dd.2) |>.
Proof.
  intros Hnp Hvp H. unfold update_votes, get_voter, find_voter in H. minv H.
  apply validate_vote_Ok in Hrun as [-> Hval].
  rename a into w. destruct (Hnp n w Hfound) as [Hpx Hip].
  unfold total_stake in Hres. rewrite Hip in Hres. injection Hres as <-.
  rewrite Hpx in Hrun0. set (st := if voting && _ && _ then _ else _) in *.
  assert (forall s0, voters s0 = voters s -> voters s1 = voters s0 -> voters s1 !! n = Some w) as Hv1
    by (intros ? E1 E2; by rewrite E2, E1).
  assert (voters s1 = voters s) as Hvs.
  { destruct (proxy =? 0); cbn in Hrun0; unfold add_activated_stake in Hrun0; minv Hrun0; done. }
  rewrite decay_vote_weight_run in Hrun1. injection Hrun1 as <- <-.
  rewrite (retract_vote_direct n proxy st _ s1 w) in Hrun2 by (done || by rewrite Hvs).
  injection Hrun2 as <- <-.
  assert (proxy = 0) as ->.
  { destruct Hvp as [->|]; [|done]. eapply cast_vote_needs_proxy; [|exact Hrun3]. by rewrite Hvs. }
  cbn in Hrun0. unfold add_activated_stake in Hrun0. minv Hrun0.
  rewrite cast_vote_direct in Hrun3. injection Hrun3 as <- <-.
  destruct (Hval eq_refl). unfold set_voter in H. minv H.
  assert (st = counted_stake w voting new) as -> by (unfold st, counted_stake; by rewrite andb_true_r).
  exists w, s5. split_and!; [done..|exact Hrun4|].
  assert (voters s5 !! n = Some w) as Hw5.
  { eapply (respects_for_each totals_only) in Hrun4 as (ps & tw & ->); [done|]. apply apply_delta_totals. }
  rewrite Hw5 in Hfound0. injection Hfound0 as <-. done.
Qed.

(** The converse: these steps make [update_votes] succeed. *)
Lemma update_votes_run n new voting s v s1 :
  proxy_free s -> (length new <= 30)%nat -> strictly_sorted new = true -> voters s !! n = Some v ->
  let stake := counted_stake v voting new in
  let nw := weight_now e s stake (length new) in
  let dd := direct_deltas s v n nw new in
  for_each (apply_delta voting) (table_rows dd.1)
    (bump_activated (i64 (stake - Voter.last_stake v)) s) = Ok (tt, s1) ->
  update_votes e n 0 new voting s =
    Ok (tt, s1 <| voters ::= insert n (vote_row v nw stake new dd.2) |>).
Proof.
  intros Hnp Hlen Hsort Hv stake nw dd Hrun. destruct (Hnp n v Hv) as [Hpx Hip].
  unfold update_votes, validate_vote, get_voter, find_voter. cbn [Z.eqb negb].
  apply bind_Ok. exists tt, s. split; [mok; [by apply bool_decide_eq_true|done]|].
  apply bind_Ok. exists v, s. split; [mok; done|]. apply bind_Ok. exists tt, s. split; [done|].
  apply bind_Ok. exists (Voter.staked v), s. split; [unfold total_stake; by rewrite Hip|].
  rewrite Hpx, andb_true_r.
  apply bind_Ok. exists tt, (bump_activated (i64 (stake - Voter.last_stake v)) s). split; [done|].
  apply bind_Ok. exists nw, (bump_activated (i64 (stake - Voter.last_stake v)) s). split; [done|].
  apply bind_Ok. eexists _, _. split; [by apply retract_vote_direct|].
  apply bind_Ok. eexists _, _. split; [apply cast_vote_direct|].
  apply bind_Ok. exists tt, s1. split; [exact Hrun|].
  assert (voters s1 !! n = Some v) as Hv1.
  { eapply (respects_for_each totals_only) in Hrun as (ps & tw & ->); [done|]. apply apply_delta_totals. }
  apply bind_Ok. exists v, s1. split; [mok; done|]. done.
Qed.

Lemma vote_delta_true s v n nw new p d :
  vote_delta s v n nw new p = Some (d, true) <->
  dle dzero nw = true /\ p ∈ new /\
  d = granted_delta n nw (u32 (Voting.self_stake_boost_multiplier (gvoting_config s)))
        (if (0 <? Voter.last_stake v) && bool_decide (p ∈ Voter.producers v)
         then retracted_delta n (Voter.last_vote_weight v) (u32 (default 0 (Voter.self_stake_boost v))) p
         else dzero) p.
Proof.
  unfold vote_delta. destruct (dle dzero nw); cbn [andb].
  - case_bool_decide; [naive_solver|]. destruct (_ && _); naive_solver.
  - destruct (_ && _); naive_solver.
Qed.

(** While no account is or uses a proxy, [update_votes] keeps the vote tables
    consistent: no row names a proxy, stored votes are sorted, and the total activated
    stake is the sum of the stakes last voted with (as a 64-bit counter). *)
Lemma update_votes_keeps_vote_inv n proxy new voting s u s' :
  vote_inv s -> (voting = true \/ proxy = 0) ->
  update_votes e n proxy new voting s = Ok (u, s') -> vote_inv s'.
Proof.
  intros Hinv Hvp H. destruct (update_votes_direct _ _ _ _ _ _ _ (no_proxies _ Hinv) Hvp H)
    as (v & s1 & -> & Hlen & Hsort & Hv & Hrun & ->).
  eapply (respects_for_each totals_only) in Hrun as (ps & tw & ->); [|by apply apply_delta_totals].
  destruct Hinv as [Hnp Hs Hsum]. destruct (Hnp n v Hv) as [_ Hip]. split; cbn.
  - apply map_Forall_insert_2; [|done]. by cbn.
  - by apply map_Forall_insert_2.
  - rewrite (msum_insert _ _ _ v) by done. cbn. rewrite Hsum. apply i64_add_i64.
Qed.

(** C14: a vote that succeeds moves exactly its weight: every producer's row changes by the
    delta of the two votes (the old weight taken back, the new one given, the self-stake
    boost applied to the voter's own row) and in nothing but its total; a producer in
    neither vote keeps its row; the voter's row records the new vote, weight and stake, and
    no other voter, and nothing else but the activated stake and the vote-weight sum,
    changes. *)
Theorem update_votes_moves_weight n proxy new voting s u s' :
  vote_inv s -> (voting = true \/ proxy = 0) ->
  update_votes e n proxy new voting s = Ok (u, s') ->
  exists v boost w,
    let stake := counted_stake v voting new in
    let nw := weight_now e s stake (length new) in
    voters s !! n = Some v /\
    (forall p, producers s' !! p = match vote_delta s v n nw new p with
       | Some (d, _) => (fun r => r <| Producer.total_votes ::= fun t => add_clamped t d |>) <$> producers s !! p
       | None => producers s !! p end) /\
    voters s' = <[n := vote_row v nw stake new boost]> (voters s) /\
    s' = s <| producers := producers s' |> <| voters := voters s' |> <| gstate ::= fun g => g
           <| Global.total_activated_stake := i64 (Global.total_activated_stake g + i64 (stake - Voter.last_stake v)) |>
           <| Global.total_producer_vote_weight := w |> |>.
Proof.
  intros Hinv Hvp H. destruct (update_votes_direct _ _ _ _ _ _ _ (no_proxies _ Hinv) Hvp H)
    as (v & s1 & -> & Hlen & Hsort & Hv & Hrun & ->).
  pose proof Hrun as Htot.
  apply (respects_for_each totals_only) in Htot as (ps & tw & ->); [|by apply apply_delta_totals].
  apply apply_deltas_Ok in Hrun as (Hin & Hout & _); [|apply direct_deltas_rows].
  eexists v, _, tw. split_and!; [done| |reflexivity|destruct s as [? ? ? []]; reflexivity].
  intros p. pose proof (votes_sorted s Hinv n v Hv) as Hold%strictly_sorted_NoDup.
  rewrite <- (direct_deltas_lookup s v n _ new p Hold) by by apply strictly_sorted_NoDup.
  destruct ((direct_deltas _ _ _ _ _).1 !! p) as [[d b]|] eqn:Hp.
  - by apply (Hin p d b), elem_of_index_rows.
  - apply Hout. intros ([? ?] & -> & Hrow)%list_elem_of_fmap. apply elem_of_index_rows in Hrow.
    cbn in Hp. congruence.
Qed.

(** A vote that is accepted is for registered producers, active ones if it is being cast. *)
Lemma update_votes_checks n new voting s u s' :
  proxy_free s -> map_Forall (fun _ v => strictly_sorted (Voter.producers v) = true) (voters s) ->
  update_votes e n 0 new voting s = Ok (u, s') ->
  (length new <= 30)%nat /\ strictly_sorted new = true /\
  exists v, voters s !! n = Some v /\
    (dle dzero (weight_now e s (counted_stake v voting new) (length new)) = true ->
     forall p, p ∈ new -> exists r, producers s !! p = Some r /\ (voting = true -> Producer.is_active r = true)).
Proof.
  intros Hnp Hsorted H. destruct (update_votes_direct _ _ _ _ _ _ _ Hnp (or_intror eq_refl) H)
    as (v & s1 & _ & Hlen & Hsort & Hv & Hrun & _).
  split_and!; [done..|]. exists v. split; [done|]. intros Hpos p Hp.
  apply apply_deltas_Ok in Hrun as (_ & _ & Hnew); [|apply direct_deltas_rows].
  pose proof (Hsorted n v Hv) as Hold%strictly_sorted_NoDup.
  eapply (Hnew p), elem_of_index_rows.
  rewrite (direct_deltas_lookup s v n _ new p Hold) by by apply strictly_sorted_NoDup.
  apply vote_delta_true. by split_and!.
Qed.

Lemma update_votes_succeeds n new voting s v :
  proxy_free s -> map_Forall (fun _ v => strictly_sorted (Voter.producers v) = true) (voters s) ->
  (length new <= 30)%nat -> strictly_sorted new = true -> voters s !! n = Some v ->
  (dle dzero (weight_now e s (counted_stake v voting new) (length new)) = true ->
   forall p, p ∈ new -> exists r, producers s !! p = Some r /\ (voting = true -> Producer.is_active r = true)) ->
  exists s', update_votes e n 0 new voting s = Ok (tt, s').
Proof.
  intros Hnp Hsorted Hlen Hsort Hv Hall. pose proof (Hsorted n v Hv) as Hold%strictly_sorted_NoDup.
  edestruct (apply_deltas_run voting) as [s1 Hrun]; [apply direct_deltas_rows| |].
  2: { eexists. exact (update_votes_run n new voting s v s1 Hnp Hlen Hsort Hv Hrun). }
  intros p d Hrow. apply elem_of_index_rows in Hrow.
  rewrite (direct_deltas_lookup s v n _ new p Hold) in Hrow by by apply strictly_sorted_NoDup.
  apply vote_delta_true in Hrow as (Hpos & Hp & _). by apply Hall.
Qed.

(** C20: with no proxies, casting or refreshing a direct vote succeeds exactly when the
    voter has a row, the list has at most 30 names, strictly increasing, and - unless the
    weight is negative or not a number - every one of them is a registered producer, an
    active one when the vote is being cast. *)
Theorem update_votes_accepts n new voting s :
  vote_inv s ->
  is_ok (update_votes e n 0 new voting s) = true <->
  (length new <= 30)%nat /\ strictly_sorted new = true /\
  exists v, voters s !! n = Some v /\
    (dle dzero (weight_now e s (counted_stake v voting new) (length new)) = true ->
     forall p, p ∈ new -> exists r, producers s !! p = Some r /\ (voting = true -> Producer.is_active r = true)).
Proof.
  intros Hinv. split.
  - destruct (update_votes e n 0 new voting s) as [[u s']|] eqn:H; [|done]. intros _.
    destruct Hinv. by eapply update_votes_checks.
  - intros (Hlen & Hsort & v & Hv & Hall). destruct Hinv.
    by edestruct update_votes_succeeds as (s' & ->).
Qed.

(** ** Propagation along proxies terminates *)

(** Following proxies strictly lowers the rank: the chains have no cycle. *)
Definition proxies_ranked (rank : name -> nat) (s : sys) : Prop :=
  forall n v, voters s !! n = Some v -> Voter.proxy v <> 0 -> (rank (Voter.proxy v) < rank n)%nat.

Lemma proxies_ranked_set rank s n v v' :
  proxies_ranked rank s -> voters s !! n = Some v -> Voter.proxy v' = Voter.proxy v ->
  proxies_ranked rank (s <| voters ::= insert n v' |>).
Proof.
  intros Hr Hv Hp m w Hw Hne. cbn in Hw. apply lookup_insert_Some in Hw as [[<- <-]|[? Hw]]; [|by apply Hr].
  rewrite Hp in *. by apply Hr.
Qed.

Lemma propagate_fuel_irrelevant rank f1 : forall f2 n s,
  proxies_ranked rank s -> (rank n < f1)%nat -> (rank n < f2)%nat ->
  propagate_weight_change f1 n s = propagate_weight_change f2 n s.
Proof.
  induction f1 as [|f1 IH]; intros [|f2] n s Hr H1 H2; [lia..|].
  cbn [propagate_weight_change]. unfold get_voter, find_voter, set_voter.
  unfold mbind, M_bind, gets, require_found.
  destruct (voters s !! n) as [v|] eqn:Hv; [|done]. unfold mret, M_ret, check.
  destruct (_ || _); [|done]. unfold lift. destruct (total_stake v) as [st|]; [|done].
  destruct (Z.eqb_spec (Voter.proxy v) 0) as [|Hp]; cbn [negb]; [done|].
  destruct (Voter.last_stake v =? st); cbn [negb when]; [done|].
  destruct (voters s !! Voter.proxy v) as [p|] eqn:Hvp; [|done]. cbn [modify].
  pose proof (Hr n v Hv Hp). unfold modify.
  rewrite (IH f2 (Voter.proxy v)); [done| |lia|lia]. eapply proxies_ranked_set; [done|exact Hvp|done].
Qed.

Lemma propagate_not_stuck rank f : forall n s,
  proxies_ranked rank s -> (rank n < f)%nat ->
  propagate_weight_change f n s <> Err "deadline exceeded".
Proof.
  induction f as [|f IH]; intros n s Hr Hf; [lia|].
  cbn [propagate_weight_change]. unfold get_voter, find_voter, set_voter.
  unfold mbind, M_bind, gets, require_found, throw.
  destruct (voters s !! n) as [v|] eqn:Hv; [|done]. unfold mret, M_ret, check.
  destruct (_ || _); [|done]. unfold lift.
  destruct (total_stake v) as [st|m] eqn:Hst; cycle 1.
  { unfold total_stake, dto_i64 in Hst. repeat case_match; naive_solver. }
  destruct (Z.eqb_spec (Voter.proxy v) 0) as [|Hp]; cbn [negb].
  - set (body := for_each _ (Voter.producers v)).
    assert (body s <> Err "deadline exceeded") as Hb.
    { subst body. apply for_each_never. intros x s1. unfold add_votes, modify.
      by destruct (producers s1 !! x). }
    destruct (body s) as [[u s1]|m]; [|congruence]. by destruct (voters s1 !! n).
  - destruct (Voter.last_stake v =? st); cbn [negb when].
    + unfold mret, M_ret; by rewrite Hv.
    + destruct (voters s !! Voter.proxy v) as [p|] eqn:Hvp; [|done]. unfold modify.
      pose proof (Hr n v Hv Hp).
      match goal with |- context [propagate_weight_change f ?m ?s1] =>
        assert (propagate_weight_change f m s1 <> Err "deadline exceeded") as Hn;
        [|destruct (propagate_weight_change f m s1) as [[u s2]|m']; [by destruct (voters s2 !! n)|congruence]] end.
      apply IH; [|lia]. eapply proxies_ranked_set; [done|exact Hvp|done].
Qed.

(** C25: where following proxies has no cycle, pushing a changed weight along them
    terminates: the fuel [propagate] gives it, one step per voter, is never exhausted, and
    more fuel gives the same result. *)
Theorem propagate_terminates rank n s more :
  proxies_ranked rank s -> (forall m, (rank m <= size (voters s))%nat) ->
  propagate n s <> Err "deadline exceeded" /\
  propagate_weight_change (S (size (voters s)) + more) n s = propagate n s.
Proof.
  intros Hr Hb. unfold propagate. rewrite (bind_run_Ok _ _ s (size (voters s)) s) by done.
  specialize (Hb n). split.
  - eapply propagate_not_stuck; [done|lia].
  - eapply propagate_fuel_irrelevant; [done|lia..].
Qed.
End update.

(** ** Decay *)

(** C38: the fixed-point arithmetic of the vote decay never wraps, whatever the configured
    start and rate: after the start the weight is multiplied by the double nearest to
    one plus the yearly percentage times the elapsed share of a year, in units of 1e-18. *)
Theorem decay_multiplier_exact weight sec start pct :
  in_u32 sec -> in_u64 start -> in_u64 pct ->
  apply_decay_multiplier weight sec start pct =
  if (start =? 0) || (sec <=? start) then weight
  else dmul weight (ddiv
    (uint256_to_double (10 ^ 18 + (pct * 10 ^ 18 / 100) * (sec - start) / 31536000))
    (uint256_to_double (10 ^ 18))).
Proof.
  unfold in_u32, in_u64. intros Hs Ht Hp. unfold apply_decay_multiplier, decay_multiplier_fp.
  destruct (Z.eqb_spec start 0); [done|]. destruct (Z.leb_spec sec start); [done|]. cbn [orb].
  change 1000000000000000000 with (10 ^ 18). rewrite (u64_small (sec - start)) by (unfold in_u64; lia).
  set (r := pct * 10 ^ 18 / 100).
  assert (0 <= r < 2 ^ 124) as Hr.
  { subst r. split; [apply Z.div_pos; lia|]. apply Z.div_lt_upper_bound; lia. }
  unfold u256. rewrite (uwrap_small 256 (pct * 10 ^ 18)) by lia. fold r.
  assert (0 <= r * (sec - start) < 2 ^ 156) as Hrs by nia.
  rewrite (uwrap_small 256 (r * (sec - start))) by lia.
  assert (0 <= r * (sec - start) / 31536000 < 2 ^ 156) as Hq.
  { split; [apply Z.div_pos; lia|]. apply Z.div_lt_upper_bound; lia. }
  by rewrite (uwrap_small 256 (10 ^ 18 + _)) by lia.
Qed.

(** ** Examples *)
Definition ex_producer (n : name) (active : bool) : producer_info :=
  Producer.mk n dzero 0 active "" "" 0 0 0 0 0 0 0 "" 0 0 0 None.
Definition ex_votes : sys :=
  blank_sys <| voters := {[ 101 := (new_voter 101) <| Voter.staked := 1000000 |> ]} |>
    <| producers := {[ 101 := ex_producer 101 true; 202 := ex_producer 202 true;
                       303 := ex_producer 303 false ]} |>
    <| gvoting_config := Voting.mk 0 0 0 50 |>.
Definition ex_env : Env := mkEnv eosio_account [] 1700000000000000 (fun _ => true).
Definition ex_vote : M sys unit :=
  update_votes (cdt := cdt_model) (libm := libm_model) ex_env 101 0 [101; 202] true.

Lemma ex_votes_inv : vote_inv ex_votes.
Proof. split; [by apply map_Forall_singleton..|reflexivity]. Qed.

Lemma update_votes_keeps_vote_inv_witness :
  exists s', ex_vote ex_votes = Ok (tt, s') /\ vote_inv s'.
Proof.
  destruct (is_ok_run ex_vote ex_votes) as ([] & s' & H); [vm_compute; reflexivity|].
  exists s'. split; [done|]. exact (update_votes_keeps_vote_inv (cdt := cdt_model) (libm := libm_model) ex_env 101 0 [101; 202]
    true ex_votes tt s' ex_votes_inv (or_introl eq_refl) H).
Defined.

Lemma update_votes_moves_weight_witness :
  exists s', ex_vote ex_votes = Ok (tt, s') /\ producers s' !! 303 = Some (ex_producer 303 false).
Proof.
  destruct (is_ok_run ex_vote ex_votes) as ([] & s' & H); [vm_compute; reflexivity|].
  exists s'. split; [done|].
  destruct (update_votes_moves_weight (cdt := cdt_model) (libm := libm_model) ex_env 101 0 [101; 202]
    true ex_votes tt s' ex_votes_inv (or_introl eq_refl) H)
    as (v & boost & w & Hv & Hp & _). injection Hv as <-. rewrite Hp. vm_compute. reflexivity.
Defined.

Lemma update_votes_accepts_witness : is_ok (ex_vote ex_votes) = true.
Proof.
  apply update_votes_accepts; [exact ex_votes_inv|]. split_and!; [cbn; lia|reflexivity|].
  eexists. split; [reflexivity|]. intros _ p Hp.
  apply elem_of_cons in Hp as [->|Hp]; [by exists (ex_producer 101 true)|].
  apply list_elem_of_singleton in Hp as ->. by exists (ex_producer 202 true).
Defined.

Definition ex_chain : sys :=
  blank_sys <| voters := {[ 1 := (new_voter 1) <| Voter.proxy := 2 |>; 2 := new_voter 2 ]} |>.

Lemma propagate_terminates_witness :
  propagate (libm := libm_model) 1 ex_chain <> Err "deadline exceeded".
Proof.
  apply (propagate_terminates (fun n => if n =? 1 then 1%nat else 0%nat) 1 ex_chain 0).
  - intros n v Hv Hp. cbn in Hv. apply lookup_insert_Some in Hv as [[<- <-]|[? Hv]].
    + cbn. lia.
    + apply lookup_singleton_Some in Hv as [<- <-]. by cbn in Hp.
  - intros m. vm_compute (size _). case_match; lia.
Defined.

Lemma decay_multiplier_exact_witness :
  apply_decay_multiplier (dint 8) 1050000000 1000000000 50 =
  dmul (dint 8) (ddiv (uint256_to_double (10 ^ 18 + (50 * 10 ^ 18 / 100) * 50000000 / 31536000))
    (uint256_to_double (10 ^ 18))).
Proof. rewrite decay_multiplier_exact by (unfold in_u32, in_u64; lia). reflexivity. Defined.
