(* ===== verification/Exchange.v ===== *)
(** * The RAM market (exchange_state.cpp)

    A Bancor market of a base and a quote connector. Prices are computed in double
    precision and truncated to integers; the reserves and the supply are assets, so
    their updates are checked. *)
From S2P Require Import Prelude.
From S2P Require Import Cdt.
From S2P Require Import Float64.
From S2P Require Import SysState.
From stdpp Require Import base gmap strings list.
Open Scope Z_scope.

#[export] Instance result_ret : MRet result := fun A a => Ok a.
#[export] Instance result_bind : MBind result := fun A B f m =>
  match m with Ok a => f a | Err msg => Err msg end.

Section exchange.
Context `{cdt : Cdt} `{libm : Libm}.

(** [reserve] is one of the market's two connectors; the caller stores the new one. *)
Definition convert_to_exchange (m : exchange_state) (reserve : connector) (payment : asset)
  : result (asset * connector * exchange_state) :=
  let S0 := dint (amount (Market.supply m)) in
  let R0 := dint (amount (Connector.balance reserve)) in
  let dR := dint (amount payment) in
  let F := Connector.weight reserve in
  let dS := dmul S0 (dsub (pow (dadd (dint 1) (ddiv dR R0)) F) (dint 1)) in
  let dS := if dlt dS dzero then dzero else dS in
  balance' ← asset_plus (Connector.balance reserve) payment;
  ds ← dto_i64 dS;
  out ← make_asset ds (asset_symbol (Market.supply m));
  mret (out, reserve <| Connector.balance := balance' |>,
        m <| Market.supply ::= fun y => y <| amount ::= fun z => i64 (z + ds) |> |>).

Definition convert_from_exchange (m : exchange_state) (reserve : connector) (tokens : asset)
  : result (asset * connector * exchange_state) :=
  let R0 := dint (amount (Connector.balance reserve)) in
  let S0 := dint (amount (Market.supply m)) in
  let dS := dint (i64 (- amount tokens)) in
  let Fi := ddiv (dint 1) (Connector.weight reserve) in
  let dR := dmul R0 (dsub (pow (dadd (dint 1) (ddiv dS S0)) Fi) (dint 1)) in
  let dR := if dlt dzero dR then dzero else dR in
  r ← dto_i64 (dneg dR);
  supply' ← asset_minus (Market.supply m) tokens;
  out ← make_asset r (asset_symbol (Connector.balance reserve));
  mret (out, reserve <| Connector.balance ::= fun b => b <| amount ::= fun z => i64 (z - r) |> |>,
        m <| Market.supply := supply' |>).

Definition base_symbol (m : exchange_state) : symbol := asset_symbol (Connector.balance (Market.base m)).
Definition quote_symbol (m : exchange_state) : symbol := asset_symbol (Connector.balance (Market.quote m)).

Definition convert (m : exchange_state) (from : asset) (to : symbol) : result (asset * exchange_state) :=
  let sell_symbol := asset_symbol from in
  if symbol_eqb sell_symbol to then Err "cannot convert to the same symbol"
  else
    _ ← make_asset 0 to;
    if symbol_eqb sell_symbol (base_symbol m) && symbol_eqb to (quote_symbol m) then
      '(tmp, base', m1) ← convert_to_exchange m (Market.base m) from;
      let m1 := m1 <| Market.base := base' |> in
      '(out, quote', m2) ← convert_from_exchange m1 (Market.quote m1) tmp;
      mret (out, m2 <| Market.quote := quote' |>)
    else if symbol_eqb sell_symbol (quote_symbol m) && symbol_eqb to (base_symbol m) then
      '(tmp, quote', m1) ← convert_to_exchange m (Market.quote m) from;
      let m1 := m1 <| Market.quote := quote' |> in
      '(out, base', m2) ← convert_from_exchange m1 (Market.base m1) tmp;
      mret (out, m2 <| Market.base := base' |>)
    else Err "invalid conversion".

Definition get_bancor_output (inp_reserve out_reserve inp : Z) : result Z :=
  let ib := dint inp_reserve in
  let ob := dint out_reserve in
  let in_ := dint inp in
  out ← dto_i64 (ddiv (dmul in_ ob) (dadd ib in_));
  mret (if out <? 0 then 0 else out).

Definition get_bancor_input (out_reserve inp_reserve out : Z) : result Z :=
  let ob := dint out_reserve in
  let ib := dint inp_reserve in
  inp ← dto_i64 (ddiv (dmul ib (dint out)) (dsub ob (dint out)));
  mret (if inp <? 0 then 0 else inp).

Definition add_balance_of (c : connector) (x : asset) : result connector :=
  b ← asset_plus (Connector.balance c) x; mret (c <| Connector.balance := b |>).
Definition sub_balance_of (c : connector) (x : asset) : result connector :=
  b ← asset_minus (Connector.balance c) x; mret (c <| Connector.balance := b |>).

Definition direct_convert (m : exchange_state) (from : asset) (to : symbol) : result (asset * exchange_state) :=
  let sell_symbol := asset_symbol from in
  if symbol_eqb sell_symbol to then Err "cannot convert to the same symbol"
  else
    out0 ← make_asset 0 to;
    if symbol_eqb sell_symbol (base_symbol m) && symbol_eqb to (quote_symbol m) then
      z ← get_bancor_output (amount (Connector.balance (Market.base m)))
            (amount (Connector.balance (Market.quote m))) (amount from);
      let out := out0 <| amount := z |> in
      base' ← add_balance_of (Market.base m) from;
      quote' ← sub_balance_of (Market.quote m) out;
      mret (out, m <| Market.base := base' |> <| Market.quote := quote' |>)
    else if symbol_eqb sell_symbol (quote_symbol m) && symbol_eqb to (base_symbol m) then
      z ← get_bancor_output (amount (Connector.balance (Market.quote m)))
            (amount (Connector.balance (Market.base m))) (amount from);
      let out := out0 <| amount := z |> in
      quote' ← add_balance_of (Market.quote m) from;
      base' ← sub_balance_of (Market.base m) out;
      mret (out, m <| Market.quote := quote' |> <| Market.base := base' |>)
    else Err "invalid conversion".

(** [_rammarket.modify(itr, same_payer, es => out = es.direct_convert(from, to))]. *)
Definition rammarket_convert (from : asset) (to : symbol) : M sys asset :=
  itr ← gets rammarket;
  m ← require_found itr "ram market does not exist";
  '(out, m') ← lift (direct_convert m from to);
  modify (fun s => s <| rammarket := Some m' |>) ;;
  mret out.
End exchange.

(** ** Lemmas *)
Section laws.
Context `{cdt : Cdt} `{laws : !CdtLaws cdt} `{libm : Libm}.

Lemma result_bind_Ok {A B} (m : result A) (f : A -> result B) b :
  (m ≫= f) = Ok b <-> exists a, m = Ok a /\ f a = Ok b.
Proof. destruct m; cbn; naive_solver. Qed.

Lemma bancor_output_nonneg i o x z : get_bancor_output i o x = Ok z -> 0 <= z.
Proof.
  unfold get_bancor_output. intros (out & _ & [= <-])%result_bind_Ok. destruct (Z.ltb_spec out 0); lia.
Qed.

Lemma add_balance_of_Ok c x c' :
  add_balance_of c x = Ok c' <->
  asset_symbol (Connector.balance c) = asset_symbol x /\
  amount_in_range (amount (Connector.balance c) + amount x) /\
  c' = c <| Connector.balance := Asset (amount (Connector.balance c) + amount x) (asset_symbol x) |>.
Proof.
  unfold add_balance_of. rewrite result_bind_Ok. setoid_rewrite asset_plus_Ok. split.
  - intros (b & (Hs & Hr & ->) & [= <-]). by rewrite Hs.
  - intros (Hs & Hr & ->). eexists. split; [by split_and!|]. by rewrite Hs.
Qed.

Lemma sub_balance_of_Ok c x c' :
  sub_balance_of c x = Ok c' <->
  asset_symbol (Connector.balance c) = asset_symbol x /\
  amount_in_range (amount (Connector.balance c) - amount x) /\
  c' = c <| Connector.balance := Asset (amount (Connector.balance c) - amount x) (asset_symbol x) |>.
Proof.
  unfold sub_balance_of. rewrite result_bind_Ok. setoid_rewrite asset_minus_Ok. split.
  - intros (b & (Hs & Hr & ->) & [= <-]). by rewrite Hs.
  - intros (Hs & Hr & ->). eexists. split; [by split_and!|]. by rewrite Hs.
Qed.

Definition with_reserves (m : exchange_state) (b q : Z) : exchange_state :=
  m <| Market.base ::= fun c => c <| Connector.balance := Asset b (base_symbol m) |> |>
    <| Market.quote ::= fun c => c <| Connector.balance := Asset q (quote_symbol m) |> |>.
Definition base_reserve (m : exchange_state) : Z := amount (Connector.balance (Market.base m)).
Definition quote_reserve (m : exchange_state) : Z := amount (Connector.balance (Market.quote m)).

(** The two shapes of a direct conversion. *)
Lemma direct_convert_inv m from to out m' :
  direct_convert m from to = Ok (out, m') ->
  exists z, out = Asset z to /\ 0 <= z /\
    (asset_symbol from = base_symbol m /\ to = quote_symbol m /\
     get_bancor_output (base_reserve m) (quote_reserve m) (amount from) = Ok z /\
     amount_in_range (base_reserve m + amount from) /\ amount_in_range (quote_reserve m - z) /\
     m' = with_reserves m (base_reserve m + amount from) (quote_reserve m - z)
     \/ asset_symbol from = quote_symbol m /\ to = base_symbol m /\
     get_bancor_output (quote_reserve m) (base_reserve m) (amount from) = Ok z /\
     amount_in_range (base_reserve m - z) /\ amount_in_range (quote_reserve m + amount from) /\
     m' = with_reserves m (base_reserve m - z) (quote_reserve m + amount from)).
Proof.
  unfold direct_convert. destruct (symbol_eqb (asset_symbol from) to); [done|].
  intros (out0 & (_ & _ & ->)%make_asset_Ok & H)%result_bind_Ok.
  destruct (symbol_eqb (asset_symbol from) (base_symbol m) && symbol_eqb to (quote_symbol m)) eqn:Hb;
    [|destruct (symbol_eqb (asset_symbol from) (quote_symbol m) && symbol_eqb to (base_symbol m)) eqn:Hq; [|done]].
  1: apply andb_true_iff in Hb as [Hf%symbol_eqb_eq Hto%symbol_eqb_eq].
  2: apply andb_true_iff in Hq as [Hf%symbol_eqb_eq Hto%symbol_eqb_eq].
  all: apply result_bind_Ok in H as (z & Hz & H); pose proof (bancor_output_nonneg _ _ _ _ Hz).
  all: apply result_bind_Ok in H as (c1 & (Hs1 & Hr1 & ->)%add_balance_of_Ok & H).
  all: apply result_bind_Ok in H as (c2 & (Hs2 & Hr2 & ->)%sub_balance_of_Ok & [= <- <-]).
  all: exists z; (split; [by subst|]); (split; [done|]).
  1: left. 2: right.
  all: split_and!; try done; unfold with_reserves; cbn in *; by rewrite Hf, Hto.
Qed.

(** The reserve an asset is held in, by its symbol. *)
Definition reserve_of (m : exchange_state) (y : symbol) : Z :=
  if symbol_eqb y (base_symbol m) then amount (Connector.balance (Market.base m))
  else amount (Connector.balance (Market.quote m)).

(** A direct conversion is a swap against the reserves: what is sold is added to its
    reserve, what is paid out - never negative, and priced by the Bancor formula - is taken
    from the other, both stay in the asset range, and the market's supply, weights and
    symbols are untouched. *)
Theorem direct_convert_swaps m from to out m' :
  base_symbol m <> quote_symbol m ->
  direct_convert m from to = Ok (out, m') ->
  asset_symbol out = to /\ 0 <= amount out /\
  get_bancor_output (reserve_of m (asset_symbol from)) (reserve_of m to) (amount from) = Ok (amount out) /\
  reserve_of m' (asset_symbol from) = reserve_of m (asset_symbol from) + amount from /\
  reserve_of m' to = reserve_of m to - amount out /\
  amount_in_range (reserve_of m' (asset_symbol from)) /\ amount_in_range (reserve_of m' to) /\
  base_symbol m' = base_symbol m /\ quote_symbol m' = quote_symbol m /\ Market.supply m' = Market.supply m /\
  Connector.weight (Market.base m') = Connector.weight (Market.base m) /\
  Connector.weight (Market.quote m') = Connector.weight (Market.quote m).
Proof.
  intros Hne (z & -> & ? & [(Hf & -> & Hz & ? & ? & ->)|(Hf & -> & Hz & ? & ? & ->)])%direct_convert_inv.
  all: unfold reserve_of; change (base_symbol (with_reserves _ _ _)) with (base_symbol m).
  all: assert (symbol_eqb (quote_symbol m) (base_symbol m) = false) as Hqb
    by (apply not_true_is_false; by intros ?%symbol_eqb_eq).
  all: rewrite Hf, Hqb, symbol_eqb_refl; by split_and!.
Qed.
End laws.

Definition core : symbol := Symbol 1397703940 4.
Definition ex_market : exchange_state :=
  Market.mk (Asset 100000000000000 ramcore_symbol)
    (Connector.mk (Asset 68719476736 ram_symbol) (dlit 1 2))
    (Connector.mk (Asset 10000000000 core) (dlit 1 2)).

Lemma direct_convert_swaps_witness :
  exists out m', direct_convert (cdt := cdt_model) ex_market (Asset 10000 core) ram_symbol = Ok (out, m') /\
    asset_symbol out = ram_symbol /\ 0 <= amount out.
Proof.
  destruct (direct_convert (cdt := cdt_model) ex_market (Asset 10000 core) ram_symbol) as [[out m']|] eqn:H;
    [|vm_compute in H; discriminate].
  exists out, m'. split; [done|].
  destruct (direct_convert_swaps (cdt := cdt_model) ex_market (Asset 10000 core) ram_symbol out m'
    ltac:(discriminate) H) as (Hs & Hn & _).
  by split.
Defined.
