(* ===== verification/RexPool.v ===== *)
(** * The REX pool, funds and balances (rex.cpp, the operations the actions share)

    The pool lends its tokens and issues REX shares of them; fees wait in the return
    pool and enter the pool ten minutes by ten minutes over thirty days. The actions,
    and the maintenance [runrex], are in Rex.v. *)
From S2P Require Import Prelude.
From S2P Require Import Cdt.
From S2P Require Import Float64.
From S2P Require Import SysState.
From S2P Require Import Exchange.
From stdpp Require Import base gmap strings list.
Open Scope Z_scope.

(** [rex_return_pool::total_intervals], [dist_interval], [hours_per_bucket]. *)
Definition total_intervals : Z := 30 * 144.
Definition dist_interval : Z := 10 * 60.
Definition hours_per_bucket : Z := 12.
(** [time_point_sec::maximum()]: the savings bucket, and no pending bucket. *)
Definition end_of_days : Z := 2 ^ 32 - 1.

(** [int64_t((uint128_t(a) * b) / c)]. *)
Definition muldiv (a b c : Z) : result Z :=
  if u128 c =? 0 then Err "integer divide by zero" else Ok (i64 (u128 (u128 a * u128 b) / u128 c)).

Definition get_elapsed_intervals (t1 t0 : Z) : Z := u32 (t1 - t0) / dist_interval.

(** [std::lower_bound] on the sorted buckets, then replacement or insertion. *)
Fixpoint insert_bucket (t rate : Z) (l : list (Z * Z)) : list (Z * Z) :=
  match l with
  | (t0, r0) :: l' =>
    if t0 <? t then (t0, r0) :: insert_bucket t rate l'
    else if t0 =? t then (t0, rate) :: l' else (t, rate) :: l
  | [] => [(t, rate)]
  end.

(** The buckets older than the threshold: their surplus and rate, and what stays. *)
Fixpoint expire_buckets (effective threshold : Z) (acc : Z * Z) (l : list (Z * Z))
  : Z * Z * list (Z * Z) :=
  match l with
  | (t, r) :: l' =>
    if t <=? threshold then
      let overtime := get_elapsed_intervals effective (u32 (t + total_intervals * dist_interval)) in
      expire_buckets effective threshold (i64 (acc.1 + i64 (r * overtime)), i64 (acc.2 + r)) l'
    else (acc, l)
  | [] => (acc, [])
  end.

(** ** Maturity buckets *)

(** [get_rex_maturity]: the end of the day, four days on. *)
Definition get_rex_maturity `{cdt : Cdt} (e : Env) : Z :=
  let now := sec_of_us (now_us e) in u32 (now - now mod seconds_per_day + 5 * seconds_per_day).

(** The loop of [process_rex_maturities]. *)
Fixpoint mature (now matured : Z) (l : list (Z * Z)) : Z * list (Z * Z) :=
  match l with
  | (t, r) :: l' => if t <=? now then mature now (i64 (matured + r)) l' else (matured, l)
  | [] => (matured, [])
  end.

(** The last bucket grows when it has the time asked for; otherwise one is added. *)
Definition add_to_back (t rex : Z) (l : list (Z * Z)) : list (Z * Z) :=
  match last l with
  | Some (t', r) => if t' =? t then removelast l ++ [(t', i64 (r + rex))] else l ++ [(t, rex)]
  | None => [(t, rex)]
  end.

Definition savings_of (l : list (Z * Z)) : Z * list (Z * Z) :=
  match last l with
  | Some (t, r) => if t =? end_of_days then (r, removelast l) else (0, l)
  | None => (0, l)
  end.

(** The loop of [mvtosavings], on the buckets from the last to the first. *)
Fixpoint move_from_back (want moved : Z) (l : list (Z * Z)) : Z * list (Z * Z) :=
  match l with
  | (t, r) :: l' =>
    if moved <? want then
      let d_rex := Z.min (i64 (want - moved)) r in
      let r' := i64 (r - d_rex) in
      if r' =? 0 then move_from_back want (i64 (moved + d_rex)) l' else (i64 (moved + d_rex), (t, r') :: l')
    else (moved, l)
  | [] => (moved, [])
  end.

Section rex_pool.
Context `{cdt : Cdt} `{libm : Libm} (e : Env).

Definition rex_system_initialized (s : sys) : bool := is_found (rexpool s).
Definition rex_available (s : sys) : bool :=
  match rexpool s with Some p => 0 <? amount (RexPool.total_rex p) | None => false end.

(** Dereferencing or modifying [_rexpool.begin()]. *)
Definition get_pool : M sys rex_pool := p ← gets rexpool; require_found p "cannot pass end iterator to modify".
Definition set_pool (p : rex_pool) : M sys unit := modify (fun s => s <| rexpool := Some p |>).

Definition get_ret_pool : M sys rex_return_pool :=
  p ← gets rexretpool; require_found p "cannot pass end iterator to modify".
Definition set_ret_pool (p : rex_return_pool) : M sys unit := modify (fun s => s <| rexretpool := Some p |>).
Definition get_buckets : M sys (list (Z * Z)) :=
  p ← gets rexretbuckets; require_found p "cannot pass end iterator to modify".
Definition set_buckets (l : list (Z * Z)) : M sys unit := modify (fun s => s <| rexretbuckets := Some l |>).

(** The first [modify] of [update_rex_pool]: the change estimate, and the bucket that
    closes, with its rate. *)
Definition close_pending (effective : Z) (rp : rex_return_pool) (change_estimate : Z)
  : rex_return_pool * Z * option (Z * Z) :=
  if RetPool.pending_bucket_time rp <=? effective then
    let remainder := Z.rem (RetPool.pending_bucket_proceeds rp) total_intervals in
    let new_bucket_rate := Z.quot (i64 (RetPool.pending_bucket_proceeds rp - remainder)) total_intervals in
    let new_bucket_time := RetPool.pending_bucket_time rp in
    let change := i64 (change_estimate + i64 (remainder +
      i64 (new_bucket_rate * get_elapsed_intervals effective new_bucket_time))) in
    (rp <| RetPool.current_rate_of_increase ::= fun z => i64 (z + new_bucket_rate) |>
        <| RetPool.pending_bucket_proceeds := 0 |>
        <| RetPool.pending_bucket_time := end_of_days |>
        <| RetPool.oldest_bucket_time ::= fun t => if new_bucket_time <? t then new_bucket_time else t |>
        <| RetPool.proceeds ::= fun z => i64 (z - change) |>
        <| RetPool.last_dist_time := effective |>,
     change, Some (new_bucket_time, new_bucket_rate))
  else
    (rp <| RetPool.proceeds ::= fun z => i64 (z - change_estimate) |>
        <| RetPool.last_dist_time := effective |>, change_estimate, None).

(** The second: the buckets older than thirty days stop paying. *)
Definition expire_old (effective : Z) (rp : rex_return_pool) (buckets : list (Z * Z)) (change_estimate : Z)
  : rex_return_pool * list (Z * Z) * Z :=
  let time_threshold := u32 (effective - total_intervals * dist_interval) in
  let '(surplus, expired_rate, rest) := expire_buckets effective time_threshold (0, 0) buckets in
  let rp := rp <| RetPool.oldest_bucket_time := match rest with (t, _) :: _ => t | [] => 0 end |> in
  let rp := if 0 <? expired_rate
    then rp <| RetPool.current_rate_of_increase ::= fun z => i64 (z - expired_rate) |> else rp in
  if 0 <? surplus
  then (rp <| RetPool.proceeds ::= fun z => i64 (z + surplus) |>, rest, i64 (change_estimate - surplus))
  else (rp, rest, change_estimate).

Definition update_rex_pool : M sys unit :=
  let cts := sec_of_us (now_us e) in
  let effective_time := u32 (cts - cts mod dist_interval) in
  rp0 ← gets rexretpool;
  match rp0 with
  | None => mret tt
  | Some rp =>
    if effective_time <=? RetPool.last_dist_time rp then mret tt
    else
      let elapsed := get_elapsed_intervals effective_time (RetPool.last_dist_time rp) in
      let change0 := i64 (RetPool.current_rate_of_increase rp * elapsed) in
      let '(rp1, change1, new_bucket) := close_pending effective_time rp change0 in
      set_ret_pool rp1 ;;
      match new_bucket with
      | Some (t, rate) => b ← get_buckets; set_buckets (insert_bucket t rate b)
      | None => mret tt
      end ;;
      let time_threshold := u32 (effective_time - total_intervals * dist_interval) in
      '(rp2, change2) ← (if RetPool.oldest_bucket_time rp1 <=? time_threshold then
          b ← get_buckets;
          let '(rp2, rest, change2) := expire_old effective_time rp1 b change1 in
          set_buckets rest ;; set_ret_pool rp2 ;; mret (rp2, change2)
        else mret (rp1, change1));
      change3 ← (if (0 <? change2) && (RetPool.proceeds rp2 <? 0) then
          set_ret_pool (rp2 <| RetPool.proceeds := 0 |>) ;; mret (i64 (change2 + RetPool.proceeds rp2))
        else mret change2);
      when (0 <? change3)
        (p ← get_pool;
         let p1 := p <| RexPool.total_unlent ::= fun a => a <| amount ::= fun z => i64 (z + change3) |> |> in
         lendable ← lift (asset_plus (RexPool.total_unlent p1) (RexPool.total_lent p1));
         set_pool (p1 <| RexPool.total_lendable := lendable |>))
  end.

Definition add_to_rex_return_pool (fee : asset) : M sys unit :=
  update_rex_pool ;;
  if amount fee <=? 0 then mret tt
  else
    let cts := sec_of_us (now_us e) in
    let bucket_interval := hours_per_bucket * seconds_per_hour in
    let effective_time := u32 (cts - cts mod bucket_interval + bucket_interval) in
    rp0 ← gets rexretpool;
    match rp0 with
    | None =>
      set_ret_pool (RetPool.mk effective_time effective_time 0 (amount fee) 0 (amount fee)) ;;
      set_buckets []
    | Some rp =>
      set_ret_pool (rp <| RetPool.pending_bucket_proceeds ::= fun z => i64 (z + amount fee) |>
        <| RetPool.proceeds ::= fun z => i64 (z + amount fee) |>
        <| RetPool.pending_bucket_time ::= fun t => if t =? end_of_days then effective_time else t |>)
    end.

Definition channel_to_rex (from : name) (amount : asset) (required : bool) : M sys unit :=
  available ← gets rex_available;
  if available : bool then
    add_to_rex_return_pool amount ;;
    token_transfer [active_of from] from rex_account amount
      ("transfer from " ++ name_to_string from ++ " to eosio.rex")
  else check (negb required) "can't channel fees to rex".

Definition channel_namebid_to_rex (highest_bid : Z) : M sys unit :=
  available ← gets rex_available;
  when available
    (p ← get_pool;
     set_pool (p <| RexPool.namebid_proceeds ::= fun a => a <| amount ::= fun z => i64 (z + highest_bid) |> |>)).

(** *** Buying and selling *)

Definition rex_ratio : Z := 10000.
Definition init_total_rent : Z := 200000000.

Definition add_to_rex_pool (payment : asset) : M sys asset :=
  core ← core_symbol;
  itr ← gets rexpool;
  match itr with
  | None =>
    let rex_received := Asset (i64 (amount payment * rex_ratio)) rex_symbol in
    lent ← lift (make_asset 0 core);
    unlent ← lift (asset_minus payment lent);
    set_pool (RexPool.mk lent unlent (Asset init_total_rent core) payment rex_received lent 0) ;;
    mret rex_received
  | Some p =>
    available ← gets rex_available;
    if negb available then
      let rex_received := Asset (i64 (amount payment * rex_ratio)) rex_symbol in
      set_pool (p <| RexPool.total_lendable ::= fun a => a <| amount := amount payment |> |>
        <| RexPool.total_lent ::= fun a => a <| amount := 0 |> |>
        <| RexPool.total_unlent ::= fun a => a <| amount := amount payment |> |>
        <| RexPool.total_rent ::= fun a => a <| amount := init_total_rent |> |>
        <| RexPool.total_rex ::= fun a => a <| amount := amount rex_received |> |>) ;;
      mret rex_received
    else
      check (0 <? amount (RexPool.total_lendable p)) "lendable REX pool is empty" ;;
      let S0 := amount (RexPool.total_lendable p) in
      let S1 := i64 (S0 + amount payment) in
      let R0 := amount (RexPool.total_rex p) in
      R1 ← lift (muldiv S1 R0 S0);
      let unlent := i64 (S1 - amount (RexPool.total_lent p)) in
      check (0 <=? unlent) "programmer error, this should never go negative" ;;
      set_pool (p <| RexPool.total_lendable ::= fun a => a <| amount := S1 |> |>
        <| RexPool.total_rex ::= fun a => a <| amount := R1 |> |>
        <| RexPool.total_unlent ::= fun a => a <| amount := unlent |> |>) ;;
      mret (Asset (i64 (R1 - R0)) rex_symbol)
  end.

(** *** REX balances *)

Definition get_rex_balance (owner : name) (msg : string) : M sys rex_balance :=
  b ← find_row rexbalances owner; require_found b msg.
Definition set_rex_balance (owner : name) (b : rex_balance) : M sys unit :=
  modify (fun s => s <| rexbalances ::= insert owner b |>).
(** [_rexbalance.modify(bitr, ...)]. *)
Definition modify_rex_balance (owner : name) (f : rex_balance -> rex_balance) : M sys unit :=
  b ← get_rex_balance owner "cannot pass end iterator to modify"; set_rex_balance owner (f b).

Definition process_rex_maturities (owner : name) : M sys unit :=
  modify_rex_balance owner (fun rb =>
    let '(m, l) := mature (sec_of_us (now_us e)) (RexBal.matured_rex rb) (RexBal.rex_maturities rb) in
    rb <| RexBal.matured_rex := m |> <| RexBal.rex_maturities := l |>).

Definition read_rex_savings (owner : name) : M sys Z :=
  b ← get_rex_balance owner "cannot pass end iterator to modify";
  let '(rex_in_savings, l) := savings_of (RexBal.rex_maturities b) in
  set_rex_balance owner (b <| RexBal.rex_maturities := l |>) ;;
  mret rex_in_savings.

Definition put_rex_savings (owner : name) (rex : Z) : M sys unit :=
  if rex =? 0 then mret tt
  else modify_rex_balance owner (fun rb => rb <| RexBal.rex_maturities ::= add_to_back end_of_days rex |>).

Definition consolidate_rex_balance (owner : name) (rex_in_sell_order : asset) : M sys unit :=
  rex_in_savings ← read_rex_savings owner;
  modify_rex_balance owner (fun rb =>
    let total := fold_left (fun t b => i64 (t + b.2)) (RexBal.rex_maturities rb)
                   (i64 (RexBal.matured_rex rb - amount rex_in_sell_order)) in
    rb <| RexBal.matured_rex := amount rex_in_sell_order |>
       <| RexBal.rex_maturities := if 0 <? total then [(get_rex_maturity e, total)] else [] |>) ;;
  put_rex_savings owner rex_in_savings.

Definition add_to_rex_balance (owner : name) (payment rex_received : asset) : M sys asset :=
  core ← core_symbol;
  bitr ← find_row rexbalances owner;
  '(init, current) ← match bitr with
    | None =>
      set_rex_balance owner (RexBal.mk owner payment rex_received 0 []) ;; mret (0, amount payment)
    | Some b =>
      let bal := i64 (amount (RexBal.rex_bal b) + amount rex_received) in
      p ← get_pool;
      stake ← lift (muldiv bal (amount (RexPool.total_lendable p)) (amount (RexPool.total_rex p)));
      set_rex_balance owner (b <| RexBal.rex_bal ::= fun a => a <| amount := bal |> |>
        <| RexBal.vote_stake ::= fun a => a <| amount := stake |> |>) ;;
      mret (amount (RexBal.vote_stake b), stake)
    end;
  rex_in_savings ← read_rex_savings owner;
  process_rex_maturities owner ;;
  modify_rex_balance owner (fun rb => rb <| RexBal.rex_maturities ::=
    add_to_back (get_rex_maturity e) (amount rex_received) |>) ;;
  put_rex_savings owner rex_in_savings ;;
  lift (asset_minus (Asset current core) (Asset init core)).

(** [rex_order_outcome]. *)
Record rex_order_outcome := Outcome { success : bool; order_proceeds : asset; order_stake_change : asset }.

Definition fill_rex_order (owner : name) (rex : asset) : M sys rex_order_outcome :=
  p ← get_pool;
  let S0 := amount (RexPool.total_lendable p) in
  let R0 := amount (RexPool.total_rex p) in
  pz ← lift (muldiv (amount rex) S0 R0);
  let R1 := i64 (R0 - amount rex) in
  let S1 := i64 (S0 - pz) in
  core ← core_symbol;
  proceeds ← lift (make_asset pz core);
  let unlent_lower_bound := Z.quot (amount (RexPool.total_lent p)) 10 in
  let available_unlent := i64 (amount (RexPool.total_unlent p) - unlent_lower_bound) in
  if amount proceeds <=? available_unlent then
    b ← get_rex_balance owner "cannot pass end iterator to modify";
    current_stake_value ← lift (muldiv (amount (RexBal.rex_bal b)) S0 R0);
    set_pool (p <| RexPool.total_rex ::= fun a => a <| amount := R1 |> |>
      <| RexPool.total_lendable ::= fun a => a <| amount := S1 |> |>
      <| RexPool.total_unlent ::= fun a => a <| amount := i64 (S1 - amount (RexPool.total_lent p)) |> |>) ;;
    let stake := i64 (current_stake_value - amount proceeds) in
    set_rex_balance owner (b <| RexBal.vote_stake ::= fun a => a <| amount := stake |> |>
      <| RexBal.rex_bal ::= fun a => a <| amount ::= fun z => i64 (z - amount rex) |> |>
      <| RexBal.matured_rex ::= fun z => i64 (z - amount rex) |>) ;;
    mret (Outcome true proceeds (Asset (i64 (stake - amount (RexBal.vote_stake b))) core))
  else mret (Outcome false (Asset 0 core) (Asset 0 core)).

(** *** Loans and the pool *)

(** The orders by the [bytime] index: open ones by age, closed ones last. *)
Definition order_rows (s : sys) : list (name * rex_order) :=
  index_rows (fun o => if Order.is_open o then u64 (Order.order_time o) else 2 ^ 64 - 1) (rexorders s).

Definition rex_loans_available (s : sys) : bool :=
  rex_available s &&
  match order_rows s with
  | [] => true
  | (_, o) :: _ => negb (Order.is_open o)
  end.

Definition add_loan_to_rex_pool (payment : asset) (rented_tokens : Z) (new_loan : bool) : M sys unit :=
  add_to_rex_return_pool payment ;;
  p ← get_pool;
  set_pool (p <| RexPool.total_rent ::= fun a => a <| amount ::= fun z => i64 (z + amount payment) |> |>
    <| RexPool.total_unlent ::= fun a => a <| amount ::= fun z => i64 (z - rented_tokens) |> |>
    <| RexPool.total_lent ::= fun a => a <| amount ::= fun z => i64 (z + rented_tokens) |> |>
    <| RexPool.loan_num ::= fun n => if new_loan then u64 (n + 1) else n |>).

Definition remove_loan_from_rex_pool (loan : rex_loan) : M sys unit :=
  p ← get_pool;
  let staked := amount (Loan.total_staked loan) in
  delta_total_rent ← lift (get_bancor_output (amount (RexPool.total_unlent p))
                             (amount (RexPool.total_rent p)) staked);
  let unlent := i64 (amount (RexPool.total_unlent p) + staked) in
  let lent := i64 (amount (RexPool.total_lent p) - staked) in
  set_pool (p <| RexPool.total_rent ::= fun a => a <| amount ::= fun z => i64 (z - delta_total_rent) |> |>
    <| RexPool.total_unlent ::= fun a => a <| amount := unlent |> |>
    <| RexPool.total_lent ::= fun a => a <| amount := lent |> |>
    <| RexPool.total_lendable ::= fun a => a <| amount := i64 (unlent + lent) |> |>).

(** *** REX funds *)

Definition transfer_from_fund (owner : name) (q : asset) : M sys unit :=
  core ← core_symbol;
  check ((0 <? amount q) && symbol_eqb (asset_symbol q) core) "must transfer positive amount from REX fund" ;;
  itr ← find_row rexfunds owner;
  f ← require_found itr "must deposit to REX fund first";
  ok ← lift (asset_le q (RexFund.balance f));
  check ok "insufficient funds" ;;
  modify (fun s => s <| rexfunds ::= insert owner
    (f <| RexFund.balance ::= fun b => b <| amount ::= fun z => i64 (z - amount q) |> |>) |>).

Definition transfer_to_fund (owner : name) (q : asset) : M sys unit :=
  core ← core_symbol;
  check ((0 <? amount q) && symbol_eqb (asset_symbol q) core) "must transfer positive amount to REX fund" ;;
  itr ← find_row rexfunds owner;
  match itr with
  | None => modify (fun s => s <| rexfunds ::= insert owner (RexFund.mk owner q) |>)
  | Some f => modify (fun s => s <| rexfunds ::= insert owner
      (f <| RexFund.balance ::= fun b => b <| amount ::= fun z => i64 (z + amount q) |> |>) |>)
  end.

(** *** Stake and limits *)

Definition update_rex_stake (voter : name) : M sys unit :=
  bitr ← find_row rexbalances voter;
  available ← gets rex_available;
  delta_stake ← match bitr with
    | Some b =>
      if available : bool then
        core ← core_symbol;
        p ← get_pool;
        stake ← lift (muldiv (amount (RexBal.rex_bal b)) (amount (RexPool.total_lendable p))
                        (amount (RexPool.total_rex p)));
        set_rex_balance voter (b <| RexBal.vote_stake ::= fun a => a <| amount := stake |> |>) ;;
        mret (i64 (stake - amount (RexBal.vote_stake b)))
      else mret 0
    | None => mret 0
    end;
  when (negb (delta_stake =? 0))
    (vitr ← find_row voters voter;
     match vitr with
     | Some v => modify (fun s => s <| voters ::= insert voter
         (v <| Voter.staked ::= fun z => i64 (z + delta_stake) |>) |>)
     | None => mret tt
     end).

(** [from] pays for the row; the model does not charge RAM. *)
Definition update_resource_limits (from receiver : name) (delta_net delta_cpu : Z) : M sys unit :=
  if (delta_cpu =? 0) && (delta_net =? 0) then mret tt
  else
    tot_itr ← find_row userres receiver;
    tot ← match tot_itr with
      | None =>
        check ((0 <=? delta_net) && (0 <=? delta_cpu)) "logic error, should not occur" ;;
        core ← core_symbol;
        net ← lift (make_asset delta_net core);
        cpu ← lift (make_asset delta_cpu core);
        mret (UserRes.mk receiver net cpu 0)
      | Some t => mret (t <| UserRes.net_weight ::= fun a => a <| amount ::= fun z => i64 (z + delta_net) |> |>
          <| UserRes.cpu_weight ::= fun a => a <| amount ::= fun z => i64 (z + delta_cpu) |> |>)
      end;
    modify (fun s => s <| userres ::= insert receiver tot |>) ;;
    check (0 <=? amount (UserRes.net_weight tot)) "insufficient staked total net bandwidth" ;;
    check (0 <=? amount (UserRes.cpu_weight tot)) "insufficient staked total cpu bandwidth" ;;
    vitr ← find_row voters receiver;
    let '(_, net_managed, cpu_managed) := managed_flags vitr in
    when (negb (net_managed && cpu_managed))
      ('(ram_bytes, net, cpu) ← get_resource_limits receiver;
       set_resource_limits receiver ram_bytes
         (if net_managed : bool then net else amount (UserRes.net_weight tot))
         (if cpu_managed : bool then cpu else amount (UserRes.cpu_weight tot))) ;;
    when (user_resources_is_empty tot) (modify (fun s => s <| userres ::= delete receiver |>)).

Definition check_voting_requirement (owner : name) (error_msg : string) : M sys unit :=
  vitr ← find_row voters owner;
  check (match vitr with
         | Some v => negb (Voter.proxy v =? 0) || bool_decide (21 <= length (Voter.producers v))%nat
         | None => false end) error_msg.
End rex_pool.
