(* ===== verification/Bandwidth.v ===== *)
(** * RAM trading and bandwidth staking (delegate_bandwidth.cpp, eosio.system.cpp lines 112-155)

    Staking moves tokens to [eosio.stake] and raises the receiver's limits; unstaking
    queues a refund, paid three days later. [changebw] does both. RAM is bought from and
    sold to the RAM market for a half-percent fee. *)
From S2P Require Import Prelude.
From S2P Require Import Cdt.
From S2P Require Import Float64.
From S2P Require Import SysState.
From S2P Require Import Votes.
From S2P Require Import Exchange.
From S2P Require Import RexPool.
From stdpp Require Import base gmap strings list.
Open Scope Z_scope.

Section bandwidth.
Context `{cdt : Cdt} `{libm : Libm} (e : Env).

(** ** RAM supply *)

Definition get_market : M sys exchange_state :=
  itr ← gets rammarket; require_found itr "cannot pass end iterator to modify".

(** [m.base.balance.amount += delta]. *)
Definition grow_ram_base (delta : Z) : M sys unit :=
  m ← get_market;
  modify (fun s => s <| rammarket := Some (m <| Market.base ::= fun c => c <| Connector.balance ::= fun b =>
    b <| amount ::= fun z => i64 (z + delta) |> |> |>) |>).

Definition setram (max_ram_size : Z) : M sys unit :=
  require_auth e (self e) ;;
  g ← gets gstate;
  check (Global.max_ram_size g <? max_ram_size) "ram may only be increased" ;;
  check (max_ram_size <? 1024 * 1024 * 1024 * 1024 * 1024) "ram size is unrealistic" ;;
  check (Global.total_ram_bytes_reserved g <? max_ram_size) "attempt to set max below reserved" ;;
  grow_ram_base (i64 (i64 max_ram_size - i64 (Global.max_ram_size g))) ;;
  modify (fun s => s <| gstate ::= fun g => g <| Global.max_ram_size := max_ram_size |> |>).

(** The growth is computed in 32 bits: a [uint32_t] of slots times a [uint16_t] rate. *)
Definition update_ram_supply : M sys unit :=
  let cbt := slot_of_us (now_us e) in
  g2 ← gets gstate2;
  if cbt <=? Global2.last_ram_increase g2 then mret tt
  else
    let new_ram := u32 (u32 (cbt - Global2.last_ram_increase g2) * Global2.new_ram_per_block g2) in
    modify (fun s => s <| gstate ::= fun g => g <| Global.max_ram_size ::= fun z => u64 (z + new_ram) |> |>) ;;
    grow_ram_base new_ram ;;
    modify (fun s => s <| gstate2 ::= fun g => g <| Global2.last_ram_increase := cbt |> |>).

Definition setramrate (bytes_per_block : Z) : M sys unit :=
  require_auth e (self e) ;;
  update_ram_supply ;;
  modify (fun s => s <| gstate2 ::= fun g => g <| Global2.new_ram_per_block := bytes_per_block |> |>).

(** ** Buying and selling RAM *)

(** The half-percent fee, rounded up. *)
Definition ram_fee (z : Z) : Z := Z.quot (i64 (z + 199)) 200.

(** The RAM limit of an account follows its row unless it is managed. *)
Definition set_ram_limit (owner : name) (ram : Z) : M sys unit :=
  vitr ← find_row voters owner;
  let '(ram_managed, _, _) := managed_flags vitr in
  when (negb ram_managed)
    ('(_, net, cpu) ← get_resource_limits owner;
     set_resource_limits owner (i64 (ram + ram_gift_bytes)) net cpu).

Definition buyram (payer receiver : name) (quant : asset) : M sys unit :=
  require_auth e payer ;;
  update_ram_supply ;;
  core ← core_symbol;
  check (symbol_eqb (asset_symbol quant) core) "must buy ram with core token" ;;
  check (0 <? amount quant) "must purchase a positive amount" ;;
  let fee := quant <| amount := ram_fee (amount quant) |> in
  let quant_after_fee := quant <| amount := i64 (amount quant - amount fee) |> in
  token_transfer [active_of payer; active_of ram_account] payer ram_account quant_after_fee "buy ram" ;;
  when (0 <? amount fee)
    (token_transfer [active_of payer] payer ramfee_account fee "ram fee" ;;
     channel_to_rex e ramfee_account fee false) ;;
  out ← rammarket_convert quant_after_fee ram_symbol;
  let bytes_out := amount out in
  check (0 <? bytes_out) "must reserve a positive amount" ;;
  modify (fun s => s <| gstate ::= fun g =>
    g <| Global.total_ram_bytes_reserved ::= fun z => u64 (z + u64 bytes_out) |>
      <| Global.total_ram_stake ::= fun z => i64 (z + amount quant_after_fee) |> |>) ;;
  itr ← find_row userres receiver;
  res ← match itr with
    | None => zero ← lift (make_asset 0 core); mret (UserRes.mk receiver zero zero bytes_out)
    | Some r => mret (r <| UserRes.ram_bytes ::= fun z => i64 (z + bytes_out) |>)
    end;
  modify (fun s => s <| userres ::= insert receiver res |>) ;;
  set_ram_limit receiver (UserRes.ram_bytes res).

Definition buyrambytes (payer receiver : name) (bytes : Z) : M sys unit :=
  m ← get_market;
  let ram_reserve := amount (Connector.balance (Market.base m)) in
  let eos_reserve := amount (Connector.balance (Market.quote m)) in
  cost ← lift (get_bancor_input ram_reserve eos_reserve bytes);
  cost_plus_fee ← lift (dto_i64 (ddiv (dint cost) (dlit 995 1000)));
  core ← core_symbol;
  quant ← lift (make_asset cost_plus_fee core);
  buyram payer receiver quant.

Definition sellram (account : name) (bytes : Z) : M sys unit :=
  require_auth e account ;;
  update_ram_supply ;;
  check (0 <? bytes) "cannot sell negative byte" ;;
  itr ← find_row userres account;
  res ← require_found itr "no resource row";
  check (bytes <=? UserRes.ram_bytes res) "insufficient quota" ;;
  core ← core_symbol;
  ram ← lift (make_asset bytes ram_symbol);
  tokens_out ← rammarket_convert ram core;
  check (1 <? amount tokens_out) "token amount received from selling ram is too low" ;;
  modify (fun s => s <| gstate ::= fun g =>
    g <| Global.total_ram_bytes_reserved ::= fun z => u64 (z - u64 bytes) |>
      <| Global.total_ram_stake ::= fun z => i64 (z - amount tokens_out) |> |>) ;;
  g ← gets gstate;
  check (0 <=? Global.total_ram_stake g) "error, attempt to unstake more tokens than previously staked" ;;
  let res' := res <| UserRes.ram_bytes ::= fun z => i64 (z - bytes) |> in
  modify (fun s => s <| userres ::= insert account res' |>) ;;
  set_ram_limit account (UserRes.ram_bytes res') ;;
  token_transfer [active_of ram_account; active_of account] ram_account account tokens_out "sell ram" ;;
  let fee := ram_fee (amount tokens_out) in
  when (0 <? fee)
    (f ← lift (make_asset fee core);
     token_transfer [active_of account] account ramfee_account f "sell ram fee" ;;
     channel_to_rex e ramfee_account f false).

(** ** Staking *)

Definition update_voting_power (voter : name) (total_update : asset) : M sys unit :=
  itr ← find_row voters voter;
  let v := match itr with
    | None => (new_voter voter) <| Voter.staked := amount total_update |>
    | Some v => v <| Voter.staked ::= fun z => i64 (z + amount total_update) |>
    end in
  modify (fun s => s <| voters ::= insert voter v |>) ;;
  check (0 <=? Voter.staked v) "stake for voting cannot be negative" ;;
  when (negb (bool_decide (length (Voter.producers v) = 0%nat)) || negb (Voter.proxy v =? 0))
    (update_votes e voter (Voter.proxy v) (Voter.producers v) false).

(** One resource of a refund: what is left to refund, and what is still to be staked. *)
Definition settle (refunding balance : asset) : result (asset * asset) :=
  r ← asset_minus refunding balance;
  mret (if amount r <? 0 then (r <| amount := 0 |>, asset_neg r) else (r, balance <| amount := 0 |>)).

(** One resource of a new refund request. *)
Definition start_refund (core : symbol) (balance : asset) : result (asset * asset) :=
  if amount balance <? 0 then Ok (asset_neg balance, balance <| amount := 0 |>)
  else zero ← make_asset 0 core; mret (zero, balance).

(** The stake [from] delegates to [receiver]. *)
Definition change_delegated (from receiver : name) (net cpu : asset) : M sys unit :=
  itr ← find_row delband (from, receiver);
  d ← match itr with
    | None => mret (Delband.mk from receiver net cpu)
    | Some d =>
      n ← lift (asset_plus (Delband.net_weight d) net);
      c ← lift (asset_plus (Delband.cpu_weight d) cpu);
      mret (d <| Delband.net_weight := n |> <| Delband.cpu_weight := c |>)
    end;
  modify (fun s => s <| delband ::= insert (from, receiver) d |>) ;;
  check (0 <=? amount (Delband.net_weight d)) "insufficient staked net bandwidth" ;;
  check (0 <=? amount (Delband.cpu_weight d)) "insufficient staked cpu bandwidth" ;;
  when (delegated_bandwidth_is_empty d) (modify (fun s => s <| delband ::= delete (from, receiver) |>)).

(** The totals and limits of [receiver]. *)
Definition change_totals (receiver : name) (net cpu : asset) : M sys unit :=
  itr ← find_row userres receiver;
  tot ← match itr with
    | None => mret (UserRes.mk receiver net cpu 0)
    | Some t =>
      n ← lift (asset_plus (UserRes.net_weight t) net);
      c ← lift (asset_plus (UserRes.cpu_weight t) cpu);
      mret (t <| UserRes.net_weight := n |> <| UserRes.cpu_weight := c |>)
    end;
  modify (fun s => s <| userres ::= insert receiver tot |>) ;;
  check (0 <=? amount (UserRes.net_weight tot)) "insufficient staked total net bandwidth" ;;
  check (0 <=? amount (UserRes.cpu_weight tot)) "insufficient staked total cpu bandwidth" ;;
  vitr ← find_row voters receiver;
  let '(ram_managed, net_managed, cpu_managed) := managed_flags vitr in
  when (negb (net_managed && cpu_managed))
    ('(ram_bytes, n, c) ← get_resource_limits receiver;
     set_resource_limits receiver
       (if ram_managed : bool then ram_bytes
        else Z.max (i64 (UserRes.ram_bytes tot + ram_gift_bytes)) ram_bytes)
       (if net_managed : bool then n else amount (UserRes.net_weight tot))
       (if cpu_managed : bool then c else amount (UserRes.cpu_weight tot))) ;;
  when (user_resources_is_empty tot) (modify (fun s => s <| userres ::= delete receiver |>)).

(** The refund of [from]: the balances still to be moved, and whether a refund is due. *)
Definition change_refund (from : name) (net cpu : asset) : M sys (asset * asset * bool) :=
  req ← find_row refunds from;
  match req with
  | Some r =>
    let t := if (amount net <? 0) || (amount cpu <? 0) then sec_of_us (now_us e) else Refund.request_time r in
    '(rn, net') ← lift (settle (Refund.net_amount r) net);
    '(rc, cpu') ← lift (settle (Refund.cpu_amount r) cpu);
    let r' := r <| Refund.request_time := t |> <| Refund.net_amount := rn |> <| Refund.cpu_amount := rc |> in
    modify (fun s => s <| refunds ::= insert from r' |>) ;;
    check (0 <=? amount rn) "negative net refund amount" ;;
    check (0 <=? amount rc) "negative cpu refund amount" ;;
    if refund_request_is_empty r' then
      modify (fun s => s <| refunds ::= delete from |>) ;; mret (net', cpu', false)
    else mret (net', cpu', true)
  | None =>
    if (amount net <? 0) || (amount cpu <? 0) then
      core ← core_symbol;
      '(rn, net') ← lift (start_refund core net);
      '(rc, cpu') ← lift (start_refund core cpu);
      modify (fun s => s <| refunds ::= insert from (Refund.mk from (sec_of_us (now_us e)) rn rc) |>) ;;
      mret (net', cpu', true)
    else mret (net, cpu, false)
  end.

Definition schedule_refund (from : name) (need_deferred_trx : bool) : M sys unit :=
  send (CancelDeferred from) ;;
  when need_deferred_trx (send (SendDeferred from from refund_delay_sec (DeferredRefund from))).

Definition changebw (from0 receiver : name) (stake_net_delta stake_cpu_delta : asset) (transfer : bool)
  : M sys unit :=
  require_auth e from0 ;;
  check (negb (amount stake_net_delta =? 0) || negb (amount stake_cpu_delta =? 0))
    "should stake non-zero amount" ;;
  total ← lift (asset_plus stake_net_delta stake_cpu_delta);
  check (Z.max (Z.abs (amount stake_net_delta)) (Z.abs (amount stake_cpu_delta)) <=? Z.abs (amount total))
    "net and cpu deltas cannot be opposite signs" ;;
  let source_stake_from := from0 in
  let from := if transfer then receiver else from0 in
  change_delegated from receiver stake_net_delta stake_cpu_delta ;;
  change_totals receiver stake_net_delta stake_cpu_delta ;;
  when (negb (stake_account =? source_stake_from))
    (let is_undelegating := i64 (amount stake_net_delta + amount stake_cpu_delta) <? 0 in
     let is_delegating_to_self := negb transfer && (from =? receiver) in
     '(net_balance, cpu_balance, need_deferred_trx) ←
       (if is_delegating_to_self || is_undelegating
        then change_refund from stake_net_delta stake_cpu_delta
        else mret (stake_net_delta, stake_cpu_delta, false));
     schedule_refund from need_deferred_trx ;;
     transfer_amount ← lift (asset_plus net_balance cpu_balance);
     when (0 <? amount transfer_amount)
       (token_transfer [active_of source_stake_from] source_stake_from stake_account transfer_amount
          "stake bandwidth")) ;;
  update_rex_stake from ;;
  total' ← lift (asset_plus stake_net_delta stake_cpu_delta);
  update_voting_power from total'.

Definition asset_ge (a b : asset) : result bool := asset_le b a.

Definition delegatebw (from receiver : name) (stake_net_quantity stake_cpu_quantity : asset) (transfer : bool)
  : M sys unit :=
  core ← core_symbol;
  zero_asset ← lift (make_asset 0 core);
  okc ← lift (asset_ge stake_cpu_quantity zero_asset);
  check okc "must stake a positive amount" ;;
  okn ← lift (asset_ge stake_net_quantity zero_asset);
  check okn "must stake a positive amount" ;;
  check (0 <? i64 (amount stake_net_quantity + amount stake_cpu_quantity)) "must stake a positive amount" ;;
  check (negb transfer || negb (from =? receiver)) "cannot use transfer flag if delegating to self" ;;
  changebw from receiver stake_net_quantity stake_cpu_quantity transfer ;;
  when (from =? receiver) (send (Notify decide_account)).

Definition undelegatebw (from receiver : name) (unstake_net_quantity unstake_cpu_quantity : asset) : M sys unit :=
  core ← core_symbol;
  zero_asset ← lift (make_asset 0 core);
  okc ← lift (asset_ge unstake_cpu_quantity zero_asset);
  check okc "must unstake a positive amount" ;;
  okn ← lift (asset_ge unstake_net_quantity zero_asset);
  check okn "must unstake a positive amount" ;;
  check (0 <? i64 (amount unstake_cpu_quantity + amount unstake_net_quantity)) "must unstake a positive amount" ;;
  g ← gets gstate;
  check ((block_num_network_activation <? Global.block_num g) || (0 <? Global.thresh_activated_stake_time g))
    "cannot undelegate bandwidth until the chain is activated (1,000,000 blocks produced)" ;;
  changebw from receiver (asset_neg unstake_net_quantity) (asset_neg unstake_cpu_quantity) false ;;
  when (from =? receiver) (send (Notify decide_account)).

Definition refund (owner : name) : M sys unit :=
  require_auth e owner ;;
  itr ← find_row refunds owner;
  req ← require_found itr "refund request not found";
  check ((Refund.request_time req + refund_delay_sec) * 1000000 <=? now_us e) "refund is not available yet" ;;
  total ← lift (asset_plus (Refund.net_amount req) (Refund.cpu_amount req));
  token_transfer [active_of stake_account; active_of (Refund.owner req)] stake_account (Refund.owner req)
    total "unstake" ;;
  modify (fun s => s <| refunds ::= delete owner |>).
End bandwidth.
