(* ===== verification/Rex.v ===== *)
(** * REX actions and maintenance (rex.cpp)

    [runrex] closes or renews expired loans and fills queued sell orders;
    [update_rex_account] settles what a filled order owes its owner. The actions are
    the handlers of rex.cpp, in its order. *)
From S2P Require Import Prelude.
From S2P Require Import Cdt.
From S2P Require Import Float64.
From S2P Require Import SysState.
From S2P Require Import Votes.
From S2P Require Import Exchange.
From S2P Require Import RexPool.
From S2P Require Import Bandwidth.
From stdpp Require Import base gmap strings list.
Open Scope Z_scope.

(** The two loan tables have the same rows; [T& table] of the templates. *)
Inductive loan_kind := CpuLoan | NetLoan.

Definition loans_of (k : loan_kind) (s : sys) : gmap Z rex_loan :=
  match k with CpuLoan => cpu_loans s | NetLoan => net_loans s end.
Definition set_loans (k : loan_kind) (f : gmap Z rex_loan -> gmap Z rex_loan) : M sys unit :=
  modify (fun s => match k with CpuLoan => s <| cpu_loans ::= f |> | NetLoan => s <| net_loans ::= f |> end).

(** [eosio::days(30)] in microseconds. *)
Definition days_30_us : Z := 30 * useconds_per_day.

Section rex.
Context `{cdt : Cdt} `{libm : Libm} (e : Env).

Definition update_limits_of (k : loan_kind) (from receiver : name) (delta : Z) : M sys unit :=
  match k with
  | CpuLoan => update_resource_limits from receiver 0 delta
  | NetLoan => update_resource_limits from receiver delta 0
  end.

(** ** Maintenance *)

Definition update_renewed_loan (k : loan_kind) (num : Z) (loan : rex_loan) (rented_tokens : Z) : M sys Z :=
  set_loans k (insert num (loan <| Loan.total_staked ::= fun a => a <| amount := rented_tokens |> |>
    <| Loan.expiration ::= fun t => i64 (t + days_30_us) |>
    <| Loan.balance ::= fun a => a <| amount ::= fun z => i64 (z - amount (Loan.payment loan)) |> |>)) ;;
  mret (i64 (rented_tokens - amount (Loan.total_staked loan))).

Definition process_expired_loan (k : loan_kind) (num : Z) (loan : rex_loan) : M sys (bool * Z) :=
  remove_loan_from_rex_pool loan ;;
  pool ← get_pool;
  rented_tokens ← lift (get_bancor_output (amount (RexPool.total_rent pool))
    (amount (RexPool.total_unlent pool)) (amount (Loan.payment loan)));
  has_balance ← lift (asset_le (Loan.payment loan) (Loan.balance loan));
  available ← gets rex_loans_available;
  if has_balance && (amount (Loan.payment loan) <? rented_tokens) && available then
    add_loan_to_rex_pool e (Loan.payment loan) rented_tokens false ;;
    delta_stake ← update_renewed_loan k num loan rented_tokens;
    mret (false, delta_stake)
  else
    when (0 <? amount (Loan.balance loan)) (transfer_to_fund (Loan.from loan) (Loan.balance loan)) ;;
    mret (true, i64 (- amount (Loan.total_staked loan))).

Fixpoint process_loans (k : loan_kind) (max : nat) : M sys unit :=
  match max with
  | O => mret tt
  | S max' =>
    rows ← gets (fun s => index_rows (fun l => u64 (Loan.expiration l)) (loans_of k s));
    match rows with
    | [] => mret tt
    | (num, loan) :: _ =>
      if now_us e <? Loan.expiration loan then mret tt
      else
        '(delete_loan, delta) ← process_expired_loan k num loan;
        when (negb (delta =? 0)) (update_limits_of k (Loan.from loan) (Loan.receiver loan) delta) ;;
        when delete_loan (set_loans k (delete num)) ;;
        process_loans k max'
    end
  end.

(** The orders in the order of the [bytime] index; a closed one ends the loop. *)
Fixpoint process_orders (max : nat) (rows : list (name * rex_order)) : M sys unit :=
  match max, rows with
  | S max', (owner, order) :: rows' =>
    if negb (Order.is_open order) then mret tt
    else
      bitr ← find_row rexbalances owner;
      match bitr with
      | Some _ =>
        result ← fill_rex_order owner (Order.rex_requested order);
        when (success result)
          (modify (fun s => s <| rexorders ::= insert owner
             (order <| Order.proceeds ::= fun a => a <| amount := amount (order_proceeds result) |> |>
                <| Order.stake_change ::= fun a => a <| amount := amount (order_stake_change result) |> |>
                <| Order.is_open := false |>) |>) ;;
           send (OrderResult owner (order_proceeds result)))
      | None => mret tt
      end ;;
      process_orders max' rows'
  | _, _ => mret tt
  end.

Definition runrex (max : Z) : M sys unit :=
  initialized ← gets rex_system_initialized;
  check initialized "rex system not initialized yet" ;;
  update_rex_pool e ;;
  pool ← get_pool;
  when (0 <? amount (RexPool.namebid_proceeds pool))
    (channel_to_rex e names_account (RexPool.namebid_proceeds pool) false ;;
     p ← get_pool;
     set_pool (p <| RexPool.namebid_proceeds ::= fun a => a <| amount := 0 |> |>)) ;;
  process_loans CpuLoan (Z.to_nat max) ;;
  process_loans NetLoan (Z.to_nat max) ;;
  rows ← gets order_rows;
  process_orders (Z.to_nat max) rows.

Definition update_rex_account (owner : name) (proceeds delta_stake : asset) (force_vote_update : bool)
  : M sys asset :=
  itr ← find_row rexorders owner;
  '(to_fund, to_stake, rex_in_sell_order) ← match itr with
    | None => mret (proceeds, delta_stake, Asset 0 rex_symbol)
    | Some o =>
      if Order.is_open o then mret (proceeds, delta_stake, Asset (amount (Order.rex_requested o)) rex_symbol)
      else
        modify (fun s => s <| rexorders ::= delete owner |>) ;;
        mret (proceeds <| amount ::= fun z => i64 (z + amount (Order.proceeds o)) |>,
              delta_stake <| amount ::= fun z => i64 (z + amount (Order.stake_change o)) |>,
              Asset 0 rex_symbol)
    end;
  when (0 <? amount to_fund) (transfer_to_fund owner to_fund) ;;
  when (force_vote_update || negb (amount to_stake =? 0)) (update_voting_power e owner to_stake) ;;
  mret rex_in_sell_order.

(** [asset( 0, core_symbol() )] *)
Definition zero_core : M sys asset := core ← core_symbol; lift (make_asset 0 core).

(** ** Funds *)

Definition deposit (owner : name) (q : asset) : M sys unit :=
  require_auth e owner ;;
  core ← core_symbol;
  check (symbol_eqb (asset_symbol q) core) "must deposit core token" ;;
  check (0 <? amount q) "must deposit a positive amount" ;;
  token_transfer [active_of owner] owner rex_account q "deposit to REX fund" ;;
  transfer_to_fund owner q.

Definition withdraw (owner : name) (q : asset) : M sys unit :=
  require_auth e owner ;;
  core ← core_symbol;
  check (symbol_eqb (asset_symbol q) core) "must withdraw core token" ;;
  check (0 <? amount q) "must withdraw a positive amount" ;;
  zero ← zero_core;
  update_rex_account owner zero zero false ;;
  transfer_from_fund owner q ;;
  token_transfer [active_of rex_account] rex_account owner q "withdraw from REX fund".

(** ** Buying and selling *)

Definition buyrex (from : name) (q : asset) : M sys unit :=
  require_auth e from ;;
  core ← core_symbol;
  check (symbol_eqb (asset_symbol q) core) "asset must be core token" ;;
  check (0 <? amount q) "must use positive amount" ;;
  transfer_from_fund from q ;;
  rex_received ← add_to_rex_pool q;
  delta_rex_stake ← add_to_rex_balance e from q rex_received;
  runrex 2 ;;
  zero ← zero_core;
  update_rex_account from zero delta_rex_stake false ;;
  send (BuyResult rex_received).

Definition unstaketorex (owner receiver : name) (from_net from_cpu : asset) : M sys unit :=
  require_auth e owner ;;
  core ← core_symbol;
  check (symbol_eqb (asset_symbol from_net) core && symbol_eqb (asset_symbol from_cpu) core)
    "asset must be core token" ;;
  check ((0 <=? amount from_net) && (0 <=? amount from_cpu) && ((0 <? amount from_net) || (0 <? amount from_cpu)))
    "must unstake a positive amount to buy rex" ;;
  itr ← find_row delband (owner, receiver);
  d ← require_found itr "delegated bandwidth record does not exist";
  check (amount from_net <=? amount (Delband.net_weight d)) "amount exceeds tokens staked for net" ;;
  check (amount from_cpu <=? amount (Delband.cpu_weight d)) "amount exceeds tokens staked for cpu" ;;
  let d' := d <| Delband.net_weight ::= fun a => a <| amount ::= fun z => i64 (z - amount from_net) |> |>
              <| Delband.cpu_weight ::= fun a => a <| amount ::= fun z => i64 (z - amount from_cpu) |> |> in
  modify (fun s => s <| delband ::= insert (owner, receiver) d' |>) ;;
  when (delegated_bandwidth_is_empty d') (modify (fun s => s <| delband ::= delete (owner, receiver) |>)) ;;
  update_resource_limits 0 receiver (i64 (- amount from_net)) (i64 (- amount from_cpu)) ;;
  payment ← lift (asset_plus from_net from_cpu);
  token_transfer [active_of stake_account] stake_account rex_account payment "buy REX with staked tokens" ;;
  rex_received ← add_to_rex_pool payment;
  rex_stake_delta ← add_to_rex_balance e owner payment rex_received;
  runrex 2 ;;
  zero ← zero_core;
  delta ← lift (asset_minus rex_stake_delta payment);
  update_rex_account owner zero delta true ;;
  send (BuyResult rex_received).

(** A sell order that could not be filled waits in the queue, or joins the waiting one. *)
Definition queue_order (from : name) (rex : asset) : M sys Z :=
  check (negb (from =? b1_account)) "b1 sellrex orders should not be queued" ;;
  oitr ← find_row rexorders from;
  order ← match oitr with
    | None => zero ← zero_core; mret (Order.mk from rex zero zero (now_us e) true)
    | Some o => mret (o <| Order.rex_requested ::= fun a => a <| amount ::= fun z => i64 (z + amount rex) |> |>)
    end;
  modify (fun s => s <| rexorders ::= insert from order |>) ;;
  mret (amount (Order.rex_requested order)).

Definition sellrex (from : name) (rex : asset) : M sys unit :=
  require_auth e from ;;
  runrex 2 ;;
  b ← get_rex_balance from "user must first buyrex";
  check ((0 <? amount rex) && symbol_eqb (asset_symbol rex) (asset_symbol (RexBal.rex_bal b)))
    "asset must be a positive amount of (REX, 4)" ;;
  process_rex_maturities e from ;;
  b1 ← get_rex_balance from "user must first buyrex";
  check (amount rex <=? RexBal.matured_rex b1) "insufficient available rex" ;;
  current_order ← fill_rex_order from rex;
  check (negb (success current_order && (amount (order_proceeds current_order) =? 0))) "proceeds are negligible" ;;
  pending_sell_order ← update_rex_account from (order_proceeds current_order)
                         (order_stake_change current_order) false;
  pending ← (if success current_order then mret (amount pending_sell_order) else queue_order from rex);
  b2 ← get_rex_balance from "user must first buyrex";
  check (pending <=? RexBal.matured_rex b2) "insufficient funds for current and scheduled orders" ;;
  when (success current_order) (send (SellResult (order_proceeds current_order))).

Definition cnclrexorder (owner : name) : M sys unit :=
  require_auth e owner ;;
  itr ← find_row rexorders owner;
  o ← require_found itr "no sellrex order is scheduled";
  check (Order.is_open o) "sellrex order has been filled and cannot be canceled" ;;
  modify (fun s => s <| rexorders ::= delete owner |>).

(** ** Loans *)

Definition rent_rex (k : loan_kind) (from receiver : name) (payment fund : asset) : M sys Z :=
  runrex 2 ;;
  available ← gets rex_loans_available;
  check available "rex loans are currently not available" ;;
  core ← core_symbol;
  check (symbol_eqb (asset_symbol payment) core && symbol_eqb (asset_symbol fund) core) "must use core token" ;;
  check ((0 <? amount payment) && (0 <=? amount fund)) "must use positive asset amount" ;;
  total ← lift (asset_plus payment fund);
  transfer_from_fund from total ;;
  pool ← get_pool;
  rented_tokens ← lift (get_bancor_output (amount (RexPool.total_rent pool))
    (amount (RexPool.total_unlent pool)) (amount payment));
  check (amount payment <? rented_tokens) "loan price does not favor renting" ;;
  add_loan_to_rex_pool e payment rented_tokens true ;;
  staked ← lift (make_asset rented_tokens core);
  pool' ← get_pool;
  let num := RexPool.loan_num pool' in
  loan ← gets (fun s => loans_of k s !! num);
  check (negb (is_found loan)) "could not insert object, most likely a uniqueness constraint was violated" ;;
  set_loans k (insert num (Loan.mk from receiver payment fund staked num (now_us e + days_30_us))) ;;
  send (RentResult staked) ;;
  mret rented_tokens.

Definition rentcpu (from receiver : name) (loan_payment loan_fund : asset) : M sys unit :=
  require_auth e from ;;
  rented_tokens ← rent_rex CpuLoan from receiver loan_payment loan_fund;
  update_resource_limits from receiver 0 rented_tokens.

Definition rentnet (from receiver : name) (loan_payment loan_fund : asset) : M sys unit :=
  require_auth e from ;;
  rented_tokens ← rent_rex NetLoan from receiver loan_payment loan_fund;
  update_resource_limits from receiver rented_tokens 0.

Definition fund_rex_loan (k : loan_kind) (from : name) (loan_num : Z) (payment : asset) : M sys unit :=
  core ← core_symbol;
  check (symbol_eqb (asset_symbol payment) core) "must use core token" ;;
  transfer_from_fund from payment ;;
  itr ← find_row (loans_of k) loan_num;
  loan ← require_found itr "loan not found";
  check (Loan.from loan =? from) "user must be loan creator" ;;
  check (now_us e <? Loan.expiration loan) "loan has already expired" ;;
  set_loans k (insert loan_num (loan <| Loan.balance ::= fun a =>
    a <| amount ::= fun z => i64 (z + amount payment) |> |>)).

Definition defund_rex_loan (k : loan_kind) (from : name) (loan_num : Z) (q : asset) : M sys unit :=
  core ← core_symbol;
  check (symbol_eqb (asset_symbol q) core) "must use core token" ;;
  itr ← find_row (loans_of k) loan_num;
  loan ← require_found itr "loan not found";
  check (Loan.from loan =? from) "user must be loan creator" ;;
  check (now_us e <? Loan.expiration loan) "loan has already expired" ;;
  ok ← lift (asset_ge (Loan.balance loan) q);
  check ok "insufficent loan balance" ;;
  set_loans k (insert loan_num (loan <| Loan.balance ::= fun a =>
    a <| amount ::= fun z => i64 (z - amount q) |> |>)) ;;
  transfer_to_fund from q.

Definition fundcpuloan (from : name) (loan_num : Z) (payment : asset) : M sys unit :=
  require_auth e from ;; fund_rex_loan CpuLoan from loan_num payment.
Definition fundnetloan (from : name) (loan_num : Z) (payment : asset) : M sys unit :=
  require_auth e from ;; fund_rex_loan NetLoan from loan_num payment.
Definition defcpuloan (from : name) (loan_num : Z) (q : asset) : M sys unit :=
  require_auth e from ;; defund_rex_loan CpuLoan from loan_num q.
Definition defnetloan (from : name) (loan_num : Z) (q : asset) : M sys unit :=
  require_auth e from ;; defund_rex_loan NetLoan from loan_num q.

(** ** Upkeep *)

Definition updaterex (owner : name) : M sys unit :=
  require_auth e owner ;;
  runrex 2 ;;
  b ← get_rex_balance owner "account has no REX balance";
  pool ← get_pool;
  zero ← zero_core;
  stake ← (if 0 <? amount (RexPool.total_rex pool)
           then lift (muldiv (amount (RexBal.rex_bal b)) (amount (RexPool.total_lendable pool))
                        (amount (RexPool.total_rex pool)))
           else mret 0);
  let current_stake := zero <| amount := stake |> in
  set_rex_balance owner (b <| RexBal.vote_stake := current_stake |>) ;;
  delta ← lift (asset_minus current_stake (RexBal.vote_stake b));
  update_rex_account owner zero delta true ;;
  process_rex_maturities e owner.

Definition setrex (balance : asset) : M sys unit :=
  require_auth e eosio_account ;;
  check (0 <? amount balance) "balance must be set to have a positive amount" ;;
  core ← core_symbol;
  check (symbol_eqb (asset_symbol balance) core) "balance symbol must be core symbol" ;;
  initialized ← gets rex_system_initialized;
  check initialized "rex system is not initialized" ;;
  pool ← get_pool;
  set_pool (pool <| RexPool.total_rent := balance |>).

Definition rexexec (user : name) (max : Z) : M sys unit := require_auth e user ;; runrex max.

Definition consolidate (owner : name) : M sys unit :=
  require_auth e owner ;;
  runrex 2 ;;
  _ ← get_rex_balance owner "account has no REX balance";
  zero ← zero_core;
  rex_in_sell_order ← update_rex_account owner zero zero false;
  consolidate_rex_balance e owner rex_in_sell_order.

(** The [modify] of [mvtosavings]: [want] tokens leave the buckets, last first, and then
    the matured REX. *)
Definition take_for_savings (want in_sell_order : Z) (rb : rex_balance) : result rex_balance :=
  let '(moved, l) := move_from_back want 0 (rev (RexBal.rex_maturities rb)) in
  let rb := rb <| RexBal.rex_maturities := rev l |> in
  if moved <? want then
    let d_rex := i64 (want - moved) in
    let m := i64 (RexBal.matured_rex rb - d_rex) in
    if in_sell_order <=? m then Ok (rb <| RexBal.matured_rex := m |>) else Err "logic error in mvtosavings"
  else if moved =? want then Ok rb else Err "programmer error in mvtosavings".

Definition mvtosavings (owner : name) (rex : asset) : M sys unit :=
  require_auth e owner ;;
  runrex 2 ;;
  b ← get_rex_balance owner "account has no REX balance";
  check ((0 <? amount rex) && symbol_eqb (asset_symbol rex) (asset_symbol (RexBal.rex_bal b)))
    "asset must be a positive amount of (REX, 4)" ;;
  zero ← zero_core;
  rex_in_sell_order ← update_rex_account owner zero zero false;
  rex_in_savings ← read_rex_savings owner;
  b1 ← get_rex_balance owner "account has no REX balance";
  check (i64 (i64 (amount rex + amount rex_in_sell_order) + rex_in_savings) <=? amount (RexBal.rex_bal b1))
    "insufficient REX balance" ;;
  process_rex_maturities e owner ;;
  b2 ← get_rex_balance owner "account has no REX balance";
  b3 ← lift (take_for_savings (amount rex) (amount rex_in_sell_order) b2);
  set_rex_balance owner b3 ;;
  put_rex_savings owner (i64 (rex_in_savings + amount rex)).

Definition mvfrsavings (owner : name) (rex : asset) : M sys unit :=
  require_auth e owner ;;
  runrex 2 ;;
  b ← get_rex_balance owner "account has no REX balance";
  check ((0 <? amount rex) && symbol_eqb (asset_symbol rex) (asset_symbol (RexBal.rex_bal b)))
    "asset must be a positive amount of (REX, 4)" ;;
  rex_in_savings ← read_rex_savings owner;
  check (amount rex <=? rex_in_savings) "insufficient REX in savings" ;;
  process_rex_maturities e owner ;;
  modify_rex_balance owner (fun rb => rb <| RexBal.rex_maturities ::=
    add_to_back (get_rex_maturity e) (amount rex) |>) ;;
  put_rex_savings owner (i64 (rex_in_savings - amount rex)) ;;
  zero ← zero_core;
  update_rex_account owner zero zero false ;; mret tt.

(** Loans of an owner, as the [byowner] index finds them. *)
Definition has_loan (k : loan_kind) (owner : name) (s : sys) : bool :=
  existsb (fun r => Loan.from r.2 =? owner) (map_to_list (loans_of k s)).

Definition closerex (owner : name) : M sys unit :=
  require_auth e owner ;;
  initialized ← gets rex_system_initialized;
  when initialized (runrex 2) ;;
  zero ← zero_core;
  update_rex_account owner zero zero false ;;
  cpu ← gets (has_loan CpuLoan owner);
  net ← gets (has_loan NetLoan owner);
  fund_itr ← find_row rexfunds owner;
  let no_outstanding_rex_fund :=
    match fund_itr with Some f => amount (RexFund.balance f) =? 0 | None => false end in
  when (negb cpu && negb net && no_outstanding_rex_fund)
    (modify (fun s => s <| rexfunds ::= delete owner |>)) ;;
  rex_itr ← find_row rexbalances owner;
  match rex_itr with
  | Some b =>
    check (amount (RexBal.rex_bal b) =? 0) "account has remaining REX balance, must sell first" ;;
    modify (fun s => s <| rexbalances ::= delete owner |>)
  | None => mret tt
  end.
End rex.
