(* ===== verification/Solvency.v ===== *)
(** * What the contract owes and what it was sent

    The staking code never holds tokens itself: it asks the token contract to move them
    to and from [eosio.stake] and [eosio.ram], and keeps rows that say whose they are.
    The theorems here relate the two: the transfers an action asks for are exactly the
    change of what the rows promise. *)
From S2P Require Import Prelude.
From S2P Require Import Cdt.
From S2P Require Import Float64.
From S2P Require Import SysState.
From S2P Require Import Votes.
From S2P Require Import Exchange.
From S2P Require Import RexPool.
From S2P Require Import Bandwidth.
From S2P Require Import Rex.
From stdpp Require Import base gmap strings list relations.
Open Scope Z_scope.

(** ** The flow of a token into an account *)
Definition flow_of (a : name) (y : symbol) (x : effect) : Z :=
  match x with
  | TokenTransfer _ from to q _ =>
    if symbol_eqb (asset_symbol q) y
    then (if to =? a then amount q else 0) - (if from =? a then amount q else 0) else 0
  | _ => 0
  end.
Definition flow (a : name) (y : symbol) (l : list effect) : Z :=
  foldr (fun x z => flow_of a y x + z) 0 l.

Lemma flow_snoc a y l x : flow a y (l ++ [x]) = flow a y l + flow_of a y x.
Proof. induction l as [|z l IH]; cbn; [lia|]. unfold flow in IH. rewrite IH. lia. Qed.
Arguments flow : simpl never.

(** ** Staked tokens *)

(** What the rows promise: the stakes, and the refunds under way. *)
Definition delband_sum (d : delegated_bandwidth) : Z := amount (Delband.net_weight d) + amount (Delband.cpu_weight d).
Definition refund_sum (r : refund_request) : Z := amount (Refund.net_amount r) + amount (Refund.cpu_amount r).
Definition stake_due (s : sys) : Z := msum delband_sum (delband s) + msum refund_sum (refunds s).

(** An amount of the core token that a row may hold. *)
Definition holds (y : symbol) (a : asset) : Prop :=
  0 <= amount a /\ amount_in_range (amount a) /\ asset_symbol a = y.

Record stake_ok (y : symbol) (s : sys) : Prop := {
  core_ok : core_of s = Some y;
  delband_ok : map_Forall (fun _ d => holds y (Delband.net_weight d) /\ holds y (Delband.cpu_weight d)) (delband s);
  refunds_ok : map_Forall (fun k r => holds y (Refund.net_amount r) /\ holds y (Refund.cpu_amount r) /\
    Refund.owner r = k /\ k <> stake_account) (refunds s);
}.

(** The actions that move stakes, and their dispatch. An amount is a 64-bit integer; the
    stake account itself pays nothing for what it delegates, and is left out. *)
Inductive stake_action :=
| Delegatebw (from receiver : name) (net cpu : asset) (transfer : bool)
| Undelegatebw (from receiver : name) (net cpu : asset)
| RefundStake (owner : name)
| Unstaketorex (owner receiver : name) (net cpu : asset).

Definition stake_exec `{cdt : Cdt} `{libm : Libm} (e : Env) (a : stake_action) : M sys unit :=
  match a with
  | Delegatebw f r n c b => delegatebw e f r n c b
  | Undelegatebw f r n c => undelegatebw e f r n c
  | RefundStake o => refund e o
  | Unstaketorex o r n c => unstaketorex e o r n c
  end.

Definition stake_args (a : stake_action) : Prop :=
  match a with
  | Delegatebw f _ n c _ | Undelegatebw f _ n c =>
    f <> stake_account /\ in_i64 (amount n) /\ in_i64 (amount c)
  | _ => True
  end.

Inductive stake_step `{cdt : Cdt} `{libm : Libm} : relation sys :=
| stake_step_intro e a s u s' :
    stake_args a -> stake_exec e a s = Ok (u, s') -> stake_step s s'.

(** What the theorem speaks of; code that leaves it alone changes nothing of the claim. *)
Definition staking (y : symbol) (s : sys) :=
  (delband s, refunds s, core_of s, flow stake_account y (effects s)).

Section solvency.
Context `{cdt : Cdt} `{!CdtLaws cdt} `{libm : Libm} (e : Env) (y : symbol).
Implicit Types s : sys.

Lemma votes_only_staking s s' : votes_only s s' -> staking y s' = staking y s.
Proof. by intros (? & ? & ? & ? & ->). Qed.

Lemma update_votes_staking n p l b : keeps (staking y) (update_votes e n p l b).
Proof. intros s u s' H. eapply votes_only_staking, update_votes_votes_only, H. Qed.
Hint Resolve update_votes_staking : respects.

Lemma send_staking x : flow_of stake_account y x = 0 -> keeps (staking y) (send x).
Proof.
  intros Hx s u s' H. unfold send in H. minv H. unfold staking. cbn. rewrite flow_snoc, Hx. f_equal. lia.
Qed.

Lemma update_voting_power_staking n t : keeps (staking y) (update_voting_power e n t).
Proof. unfold update_voting_power, find_row. solve_respects. Qed.
Lemma update_rex_stake_staking n : keeps (staking y) (update_rex_stake n).
Proof. unfold update_rex_stake, get_pool, set_rex_balance, find_row, core_symbol, get_core_symbol. solve_respects. Qed.
Lemma update_resource_limits_staking a b n c : keeps (staking y) (update_resource_limits a b n c).
Proof.
  unfold update_resource_limits, find_row, get_resource_limits, set_resource_limits, core_symbol, get_core_symbol.
  solve_respects.
Qed.
Lemma change_totals_staking r n c : keeps (staking y) (change_totals r n c).
Proof. unfold change_totals, find_row, get_resource_limits, set_resource_limits. solve_respects. Qed.
Hint Resolve update_voting_power_staking update_rex_stake_staking update_resource_limits_staking
  change_totals_staking : respects.

(** *** REX leaves the stakes alone *)
Ltac rex_frame :=
  unfold get_pool, set_pool, get_ret_pool, set_ret_pool, get_buckets, set_buckets, get_rex_balance,
    set_rex_balance, set_loans, find_row, core_symbol, get_core_symbol; solve_respects.

Lemma update_rex_pool_staking : keeps (staking y) (update_rex_pool e).
Proof. unfold update_rex_pool. rex_frame. Qed.
Hint Resolve update_rex_pool_staking : respects.
Lemma add_to_rex_return_pool_staking fee : keeps (staking y) (add_to_rex_return_pool e fee).
Proof. unfold add_to_rex_return_pool. rex_frame. Qed.
Hint Resolve add_to_rex_return_pool_staking : respects.
Lemma channel_to_rex_staking n q b : n <> stake_account -> keeps (staking y) (channel_to_rex e n q b).
Proof.
  intros Hn. unfold channel_to_rex, token_transfer.
  assert (keeps (staking y) (send (TokenTransfer [active_of n] n rex_account q
    ("transfer from " ++ name_to_string n ++ " to eosio.rex")))).
  { apply send_staking. cbn. rewrite (proj2 (Z.eqb_neq _ _) Hn). by case_match. }
  rex_frame.
Qed.
Lemma add_to_rex_pool_staking q : keeps (staking y) (add_to_rex_pool q).
Proof. unfold add_to_rex_pool. rex_frame. Qed.
Lemma read_rex_savings_staking n : keeps (staking y) (read_rex_savings n).
Proof. unfold read_rex_savings. rex_frame. Qed.
Lemma modify_rex_balance_staking n f : keeps (staking y) (modify_rex_balance n f).
Proof. unfold modify_rex_balance. rex_frame. Qed.
Hint Resolve add_to_rex_pool_staking read_rex_savings_staking modify_rex_balance_staking : respects.
Lemma add_to_rex_balance_staking n p r : keeps (staking y) (add_to_rex_balance e n p r).
Proof. unfold add_to_rex_balance, process_rex_maturities, put_rex_savings. rex_frame. Qed.
Lemma transfer_to_fund_staking n q : keeps (staking y) (transfer_to_fund n q).
Proof. unfold transfer_to_fund. rex_frame. Qed.
Hint Resolve add_to_rex_balance_staking transfer_to_fund_staking : respects.
Lemma fill_rex_order_staking n q : keeps (staking y) (fill_rex_order n q).
Proof. unfold fill_rex_order. rex_frame. Qed.
Lemma process_expired_loan_staking k n l : keeps (staking y) (process_expired_loan e k n l).
Proof.
  unfold process_expired_loan, remove_loan_from_rex_pool, add_loan_to_rex_pool, update_renewed_loan.
  rex_frame; by destruct k.
Qed.
Hint Resolve fill_rex_order_staking process_expired_loan_staking : respects.
Lemma process_loans_staking k n : keeps (staking y) (process_loans e k n).
Proof.
  induction n as [|n IH]; cbn; [apply respects_ret; apply _|].
  unfold update_limits_of. rex_frame; by destruct k.
Qed.
Lemma process_orders_staking n l : keeps (staking y) (process_orders n l).
Proof.
  revert l. induction n as [|n IH]; intros l; cbn; [apply respects_ret; apply _|].
  destruct l as [|[o r] l]; [apply respects_ret; apply _|].
  rex_frame. by apply send_staking.
Qed.
Hint Resolve process_loans_staking process_orders_staking : respects.
Lemma runrex_staking n : keeps (staking y) (runrex e n).
Proof.
  unfold runrex. assert (forall q b, keeps (staking y) (channel_to_rex e names_account q b))
    by (intros; by apply channel_to_rex_staking).
  rex_frame.
Qed.
Lemma update_rex_account_staking n p d b : keeps (staking y) (update_rex_account e n p d b).
Proof. unfold update_rex_account. rex_frame. Qed.
Hint Resolve runrex_staking update_rex_account_staking : respects.

(** *** The rows an action changes *)
Lemma change_delegated_due f r n c s u s' :
  stake_ok y s -> asset_symbol n = y -> asset_symbol c = y ->
  amount_in_range (amount n) -> amount_in_range (amount c) ->
  change_delegated f r n c s = Ok (u, s') ->
  exists m, s' = s <| delband := m |> /\ stake_ok y s' /\
    msum delband_sum m = msum delband_sum (delband s) + (amount n + amount c).
Proof.
  intros [Hcore Hd Hr] Hn Hc Hrn Hrc H. unfold change_delegated, find_row in H. minv H.
  rename a into d, s0 into s1. apply Z.leb_le in Hchk, Hchk0.
  assert (s1 = s /\ holds y (Delband.net_weight d) /\ holds y (Delband.cpu_weight d) /\
    delband_sum d = from_option delband_sum 0 (delband s !! (f, r)) + (amount n + amount c)) as (-> & Ha & Hb & Hs).
  { destruct (delband s !! (f, r)) as [d0|] eqn:Hk; minv Hrun.
    - apply asset_plus_Ok in Hres as (_ & ? & ->), Hres0 as (_ & ? & ->).
      destruct (Hd _ _ Hk) as [(? & ? & ?) (? & ? & ?)]. unfold holds, delband_sum, amount_in_range in *. cbn in *. repeat split; try done; lia.
    - unfold holds, delband_sum, amount_in_range in *. cbn in *. repeat split; try done; lia. }
  exists (if delegated_bandwidth_is_empty d then delete (f, r) (<[(f, r):=d]> (delband s)) else <[(f, r):=d]> (delband s)).
  assert (s' = s <| delband := if delegated_bandwidth_is_empty d then delete (f, r) (<[(f, r):=d]> (delband s))
      else <[(f, r):=d]> (delband s) |>) as ->.
  { apply when_Ok in H. destruct (delegated_bandwidth_is_empty d); [by minv H|done]. }
  split; [done|]. split.
  - by split; cbn; [|apply map_Forall_upsert|].
  - rewrite msum_upsert, Hs; [lia|]. unfold delegated_bandwidth_is_empty, delband_sum. intros [H1 H2]%andb_true_iff. lia.
Qed.

Lemma settle_Ok r b r' b' :
  holds y r -> asset_symbol b = y -> settle r b = Ok (r', b') ->
  holds y r' /\ 0 <= amount b' /\ asset_symbol b' = y /\ amount r' - amount r = amount b' - amount b.
Proof.
  intros (Hr0 & Hr1 & Hr2) Hb H. unfold settle in H. apply result_bind_Ok in H as (x & Hx & H).
  apply asset_minus_Ok in Hx as (_ & Hr & ->). unfold mret, result_ret in H. cbn in H.
  rewrite asset_neg_eq in H. unfold holds, amount_in_range, max_amount in *.
  destruct (Z.ltb_spec (amount r - amount b) 0); injection H as <- <-; cbn; repeat split; try done; lia.
Qed.

Lemma start_refund_Ok b r b' :
  asset_symbol b = y -> amount_in_range (amount b) -> start_refund y b = Ok (r, b') ->
  holds y r /\ 0 <= amount b' /\ asset_symbol b' = y /\ amount r = amount b' - amount b.
Proof.
  intros Hb Hr H. unfold start_refund in H. unfold holds, amount_in_range, max_amount in *.
  destruct (Z.ltb_spec (amount b) 0).
  - rewrite asset_neg_eq in H. injection H as <- <-. cbn. repeat split; try done; lia.
  - apply result_bind_Ok in H as (x & Hx & H). apply make_asset_Ok in Hx as (? & _ & ->).
    injection H as <- <-. cbn. repeat split; try done; lia.
Qed.

Lemma stake_ok_refunds s m :
  stake_ok y s ->
  map_Forall (fun k r => holds y (Refund.net_amount r) /\ holds y (Refund.cpu_amount r) /\
    Refund.owner r = k /\ k <> stake_account) m ->
  stake_ok y (s <| refunds := m |>).
Proof. by intros [Hcore Hd Hr] Hm. Qed.

Lemma change_refund_due f n c s n' c' b s' :
  stake_ok y s -> f <> stake_account -> asset_symbol n = y -> asset_symbol c = y ->
  amount_in_range (amount n) -> amount_in_range (amount c) ->
  change_refund e f n c s = Ok ((n', c', b), s') ->
  (exists m, s' = s <| refunds := m |> /\ stake_ok y s' /\
    msum refund_sum m = msum refund_sum (refunds s) + (amount n' + amount c') - (amount n + amount c)) /\
  0 <= amount n' /\ 0 <= amount c' /\ asset_symbol n' = y /\ asset_symbol c' = y.
Proof.
  intros Hok Hf Hn Hc Hrn Hrc H. pose proof Hok as [Hcore Hd Hr]. unfold change_refund, find_row in H. minv H.
  destruct (refunds s !! f) as [r|] eqn:Hk.
  - destruct (Hr _ _ Hk) as (Hh1 & Hh2 & Hown & _). minv H. destruct a as [rn n1]. minv H. destruct a as [rc c1]. minv H.
    apply settle_Ok in Hres as (Hrn' & ? & ? & ?), Hres0 as (Hrc' & ? & ? & ?); [|done..].
    match type of H with context [refund_request_is_empty ?x] => set (r' := x) in * end.
    assert (refund_request_is_empty r' = true -> refund_sum r' = 0) as Hempty.
    { unfold refund_request_is_empty, refund_sum. intros [? ?]%andb_true_iff. lia. }
    pose proof (msum_upsert refund_sum (refunds s) f r' (refund_request_is_empty r') Hempty) as Hsum.
    rewrite Hk in Hsum. cbn in Hsum.
    assert (map_Forall (fun k r => holds y (Refund.net_amount r) /\ holds y (Refund.cpu_amount r) /\
      Refund.owner r = k /\ k <> stake_account)
      (if refund_request_is_empty r' then delete f (<[f:=r']> (refunds s)) else <[f:=r']> (refunds s))) as Hall
      by by apply map_Forall_upsert.
    unfold refund_sum in Hsum at 3 4. cbn in Hsum.
    destruct (refund_request_is_empty r'); minv H; injection E as ? ? ?; subst n' c' b; (split; [|done]).
    all: eexists; (split; [reflexivity|]); split; [exact (stake_ok_refunds _ _ Hok Hall)|cbn; lia].
  - destruct ((amount n <? 0) || (amount c <? 0)) eqn:Hneg; minv H.
    + apply core_symbol_Ok in Hrun as [Hy ->]. rewrite Hcore in Hy. injection Hy as <-.
      destruct a0 as [rn n1]. minv H. destruct a as [rc c1]. minv H. injection E as ? ? ?; subst n' c' b.
      apply start_refund_Ok in Hres as (Hrn' & ? & ? & ?), Hres0 as (Hrc' & ? & ? & ?); [|done..].
      split; [|done]. eexists; (split; [reflexivity|]). split.
      * apply stake_ok_refunds; [done|]. by apply map_Forall_insert_2.
      * rewrite msum_insert_new by done. unfold refund_sum at 1. cbn. lia.
    + injection E as -> -> ->. apply orb_false_iff in Hneg as [? ?].
      split; [|repeat split; try done; lia]. exists (refunds s). split; [by destruct s|]. split; [done|]. lia.
Qed.

(** *** The balance of rows and transfers *)
Definition backed (s s' : sys) : Prop :=
  stake_ok y s ->
  stake_ok y s' /\
  stake_due s' - flow stake_account y (effects s') = stake_due s - flow stake_account y (effects s).

#[export] Instance backed_preorder : PreOrder backed.
Proof.
  split; [done|]. intros s1 s2 s3 H12 H23 H1. destruct (H12 H1) as [H2 ?]. destruct (H23 H2). split; [done|lia].
Qed.

Lemma staking_backed s s' : staking y s' = staking y s -> backed s s'.
Proof.
  unfold staking, backed, stake_due. intros [= Hd Hr Hm Hf] [Hc ??].
  rewrite Hd, Hr, Hf. split; [|done]. split; rewrite ?Hd, ?Hr, ?Hm; done.
Qed.

Lemma keeps_backed {A} (m : M sys A) : keeps (staking y) m -> respects backed m.
Proof. intros Hm s a s' H. apply staking_backed. by eapply Hm. Qed.

(** The part of [changebw] that pays for a stake already recorded in the rows. *)
Lemma pay_stake_backed (on_refund : bool) a f n c s u s' :
  stake_ok y s -> f <> stake_account -> (on_refund = true -> a <> stake_account) ->
  asset_symbol n = y -> asset_symbol c = y -> amount_in_range (amount n) -> amount_in_range (amount c) ->
  (on_refund = false -> 0 <= amount n /\ 0 <= amount c) ->
  ('(net_balance, cpu_balance, need_deferred_trx) ←
       (if on_refund then change_refund e a n c else mret (n, c, false));
     schedule_refund a need_deferred_trx ;;
     transfer_amount ← lift (asset_plus net_balance cpu_balance);
     when (0 <? amount transfer_amount)
       (token_transfer [active_of f] f stake_account transfer_amount "stake bandwidth")) s = Ok (u, s') ->
  stake_ok y s' /\
  stake_due s' - flow stake_account y (effects s') =
    stake_due s - flow stake_account y (effects s) - (amount n + amount c).
Proof.
  intros Hok Hf Ha Hn Hc Hrn Hrc Hpos H. apply bind_Ok in H as ([[n' c'] b] & s1 & Hcr & H).
  assert (stake_ok y s1 /\ stake_due s1 - flow stake_account y (effects s1) =
      stake_due s - flow stake_account y (effects s) - (amount n + amount c) + (amount n' + amount c') /\
    0 <= amount n' /\ 0 <= amount c' /\ asset_symbol n' = y) as (Hok1 & Hdue & ? & ? & Hn').
  { destruct on_refund.
    - apply change_refund_due in Hcr as ((m & -> & Hok1 & Hm) & ? & ? & ? & ?); [|auto..].
      split; [done|]. unfold stake_due. cbn. rewrite Hm. repeat split; try done; lia.
    - apply ret_Ok in Hcr as [[= -> -> ->] ->]. destruct Hpos; [done|]. split; [done|]. split_and!; [lia|done..]. }
  apply bind_Ok in H as ([] & s2 & Hsched & H).
  assert (backed s1 s2) as Hb.
  { revert Hsched. apply (keeps_backed (schedule_refund a b)). unfold schedule_refund.
    assert (forall x, flow_of stake_account y x = 0 -> keeps (staking y) (send x)) as Hs by apply send_staking.
    solve_respects_with ltac:(by apply Hs). }
  destruct (Hb Hok1) as [Hok2 ?]. minv H. apply asset_plus_Ok in Hres as (? & ? & ->). cbn in H.
  destruct (Z.ltb_spec 0 (amount n' + amount c')) as [Hlt|Hge]; cbn in H.
  - unfold token_transfer, send in H. minv H. split; [by destruct Hok2|]. cbn. rewrite flow_snoc.
    unfold stake_due in *. cbn. rewrite Hn', symbol_eqb_refl.
    rewrite (proj2 (Z.eqb_neq f stake_account) Hf). change (stake_account =? stake_account) with true. cbn. lia.
  - minv H. split; [done|]. lia.
Qed.

Lemma changebw_backed f r n c transfer s u s' :
  f <> stake_account -> asset_symbol n = y -> asset_symbol c = y ->
  in_i64 (amount n) -> in_i64 (amount c) -> (transfer = true -> 0 <= amount n /\ 0 <= amount c) ->
  changebw e f r n c transfer s = Ok (u, s') -> backed s s'.
Proof.
  intros Hf Hn Hc Hin Hic Ht H Hok. unfold changebw in H. minv H. apply Z.leb_le in Hchk1.
  pose proof Hres as (_ & Hrange & ->)%asset_plus_Ok. cbn in Hchk1.
  assert (amount_in_range (amount n) /\ amount_in_range (amount c)) as [Hrn Hrc]
    by (unfold amount_in_range, max_amount in *; lia).
  apply change_delegated_due in Hrun as (m & -> & Hok0 & Hm); [|done..].
  destruct (keeps_backed _ (change_totals_staking r n c) _ _ _ Hrun0 Hok0) as [Hok1 Hdue1].
  rewrite (proj2 (Z.eqb_neq stake_account f)) in Hrun1 by done. cbn [negb when] in Hrun1.
  rewrite i64_small in Hrun1 by (unfold in_i64, amount_in_range, max_amount in *; lia).
  apply pay_stake_backed in Hrun1 as [Hok2 Hdue2]; try done.
  - destruct (keeps_backed _ (update_rex_stake_staking _) _ _ _ Hrun2 Hok2) as [Hok3 Hdue3].
    destruct (keeps_backed _ (update_voting_power_staking _ _) _ _ _ H Hok3) as [Hok4 Hdue4].
    split; [done|]. unfold stake_due in *. cbn in *. lia.
  - intros Hor. destruct transfer; [|done]. destruct Ht; [done|]. cbn in Hor. lia.
  - intros [_ Hlt]%orb_false_iff. lia.
Qed.

Lemma send_backed x : flow_of stake_account y x = 0 -> respects backed (send x).
Proof. intros Hx. by apply keeps_backed, send_staking. Qed.

Lemma core_stake_ok s c s' : stake_ok y s -> core_symbol s = Ok (c, s') -> c = y /\ s' = s.
Proof. intros [Hc _ _] [Hc' ->]%core_symbol_Ok. split; congruence. Qed.

Lemma asset_ge_zero q z b : make_asset 0 y = Ok z -> asset_ge q z = Ok b -> b = true ->
  asset_symbol q = y /\ 0 <= amount q.
Proof.
  intros (_ & _ & ->)%make_asset_Ok [Hs ->]%asset_le_Ok Hle. cbn in *. split; [done|]. by apply Z.leb_le.
Qed.

Lemma delegatebw_backed f r n c b s u s' :
  f <> stake_account -> in_i64 (amount n) -> in_i64 (amount c) ->
  delegatebw e f r n c b s = Ok (u, s') -> backed s s'.
Proof.
  intros Hf Hn Hc H Hok. unfold delegatebw in H. apply bind_Ok in H as (core & s1 & Hcore & H).
  apply core_stake_ok in Hcore as [-> ->]; [|done]. minv H. apply when_Ok in H.
  destruct (asset_ge_zero c a a0) as [??]; [done..|]. destruct (asset_ge_zero n a a1) as [??]; [done..|].
  apply changebw_backed in Hrun; [|done..]. destruct (Hrun Hok) as [Hok1 ?].
  destruct (f =? r); [|by subst]. destruct (send_backed (Notify decide_account) eq_refl _ _ _ H Hok1). split; [done|lia].
Qed.

Lemma undelegatebw_backed f r n c s u s' :
  f <> stake_account -> in_i64 (amount n) -> in_i64 (amount c) ->
  undelegatebw e f r n c s = Ok (u, s') -> backed s s'.
Proof.
  intros Hf Hn Hc H Hok. unfold undelegatebw in H. apply bind_Ok in H as (core & s1 & Hcore & H).
  apply core_stake_ok in Hcore as [-> ->]; [|done]. minv H. apply when_Ok in H.
  destruct (asset_ge_zero c a a0) as [??]; [done..|]. destruct (asset_ge_zero n a a1) as [??]; [done..|].
  unfold in_i64 in *. apply changebw_backed in Hrun; rewrite ?asset_neg_eq; unfold in_i64; cbn; [|done || lia..].
  destruct (Hrun Hok) as [Hok1 ?]. destruct (f =? r); [|by subst].
  destruct (send_backed (Notify decide_account) eq_refl _ _ _ H Hok1). split; [done|lia].
Qed.

Lemma refund_backed f s u s' : refund e f s = Ok (u, s') -> backed s s'.
Proof.
  intros H Hok. pose proof Hok as [Hcore Hd Hr]. unfold refund, find_row in H. minv H.
  destruct (Hr _ _ Hfound) as ((? & ? & Hy) & (? & ? & ?) & Hown & Hne).
  apply asset_plus_Ok in Hres as (_ & _ & ->). unfold token_transfer, send in Hrun. minv Hrun.
  split.
  - split; cbn; [done..|]. by apply map_Forall_delete.
  - cbn. rewrite flow_snoc. unfold stake_due. cbn. rewrite (msum_delete refund_sum _ _ _ Hfound).
    rewrite Hown, Hy, symbol_eqb_refl, (proj2 (Z.eqb_neq f stake_account) Hne).
    change (stake_account =? stake_account) with true. change (refund_sum a) with (amount (Refund.net_amount a) + amount (Refund.cpu_amount a)). lia.
Qed.

Lemma unstake_row_backed f r n c d s u s1 :
  stake_ok y s -> delband s !! (f, r) = Some d ->
  0 <= amount n <= amount (Delband.net_weight d) -> 0 <= amount c <= amount (Delband.cpu_weight d) ->
  let d' := d <| Delband.net_weight ::= fun a => a <| amount ::= fun z => i64 (z - amount n) |> |>
              <| Delband.cpu_weight ::= fun a => a <| amount ::= fun z => i64 (z - amount c) |> |> in
  (modify (fun s => s <| delband ::= insert (f, r) d' |>) ;;
   when (delegated_bandwidth_is_empty d') (modify (fun s => s <| delband ::= delete (f, r) |>))) s = Ok (u, s1) ->
  stake_ok y s1 /\ stake_due s1 = stake_due s - (amount n + amount c) /\ effects s1 = effects s.
Proof.
  intros [Hcore Hd Hr] Hk Hn Hc d' H. apply bind_Ok in H as ([] & s0 & ->%modify_Ok & H%when_Ok).
  destruct (Hd _ _ Hk) as [(? & ? & ?) (? & ? & ?)].
  assert (holds y (Delband.net_weight d') /\ holds y (Delband.cpu_weight d') /\
    delband_sum d' = delband_sum d - (amount n + amount c)) as (? & ? & Hsum).
  { unfold d', holds, delband_sum, amount_in_range, max_amount in *. cbn.
    rewrite !i64_small by (unfold in_i64; lia). repeat split; try done; lia. }
  pose proof (msum_upsert delband_sum (delband s) (f, r) d' (delegated_bandwidth_is_empty d')) as Hm.
  assert (map_Forall (fun _ d => holds y (Delband.net_weight d) /\ holds y (Delband.cpu_weight d))
    (if delegated_bandwidth_is_empty d' then delete (f, r) (<[(f, r):=d']> (delband s)) else <[(f, r):=d']> (delband s)))
    as Hall by by apply map_Forall_upsert.
  rewrite Hk, Hsum in Hm. cbn in Hm. unfold stake_due.
  destruct (delegated_bandwidth_is_empty d') eqn:Hemp; [apply modify_Ok in H|]; subst s1; cbn; (rewrite Hm; [|done || idtac]).
  all: try (intros _; unfold delegated_bandwidth_is_empty, delband_sum in *; apply andb_true_iff in Hemp; lia).
  all: split; [by split|split; [lia|done]].
Qed.

Lemma unstaketorex_backed f r n c s u s' :
  unstaketorex e f r n c s = Ok (u, s') -> backed s s'.
Proof.
  intros H Hok. unfold unstaketorex, find_row in H. apply bind_Ok in H as ([] & s1 & [_ ->]%check_Ok & H).
  apply bind_Ok in H as (core & s1 & Hcore & H). apply core_stake_ok in Hcore as [-> ->]; [|done].
  minv H. apply andb_true_iff in Hchk as [Hyn%symbol_eqb_eq Hyc%symbol_eqb_eq].
  edestruct unstake_row_backed as (Hok0 & Hdue0 & Heff); [done|done|..|by apply bind_Ok; eauto|]; [lia..|].
  destruct (keeps_backed _ (update_resource_limits_staking _ _ _ _) _ _ _ Hrun0 Hok0) as [Hok1 Hdue1].
  apply asset_plus_Ok in Hres as (_ & _ & ->).
  unfold token_transfer, send in Hrun1. minv Hrun1.
  match type of Hrun2 with _ ?x = _ => set (s2 := x) in * end.
  assert (stake_ok y s2 /\ stake_due s2 - flow stake_account y (effects s2) =
    stake_due s - flow stake_account y (effects s)) as [Hok2 Hdue2].
  { split; [by destruct Hok1|]. unfold s2. cbn. rewrite flow_snoc. unfold flow_of. cbn [asset_symbol amount]. rewrite Hyn, symbol_eqb_refl. unfold stake_due in *.
    cbn. change (rex_account =? stake_account) with false. change (stake_account =? stake_account) with true.
    rewrite Heff in Hdue1. cbn. lia. }
  assert (keeps (staking y) zero_core) as Hz by (unfold zero_core, core_symbol, get_core_symbol; solve_respects).
  destruct (keeps_backed _ (add_to_rex_pool_staking _) _ _ _ Hrun2 Hok2) as [Hok3 Hdue3].
  destruct (keeps_backed _ (add_to_rex_balance_staking _ _ _) _ _ _ Hrun3 Hok3) as [Hok4 Hdue4].
  destruct (keeps_backed _ (runrex_staking _) _ _ _ Hrun4 Hok4) as [Hok5 Hdue5].
  destruct (keeps_backed _ Hz _ _ _ Hrun5 Hok5) as [Hok6 Hdue6].
  destruct (keeps_backed _ (update_rex_account_staking _ _ _ _) _ _ _ Hrun6 Hok6) as [Hok7 Hdue7].
  destruct (send_backed (BuyResult a1) eq_refl _ _ _ H Hok7). split; [done|lia].
Qed.

(** *** Unstaking starts the wait *)
Lemma staking_refunds s s' : staking y s' = staking y s -> refunds s' = refunds s.
Proof. by intros [= _ ->]. Qed.

Lemma settle_back r b r' b' : 0 <= amount r -> amount b <= 0 -> settle r b = Ok (r', b') ->
  amount r' = amount r - amount b.
Proof.
  intros Hr Hb H. unfold settle in H. apply result_bind_Ok in H as (x & (_ & _ & ->)%asset_minus_Ok & H).
  rewrite (proj2 (Z.ltb_ge _ 0)) in H by (cbn; lia). by injection H as <- _.
Qed.

Lemma start_refund_back b r b' : amount b <= 0 -> start_refund y b = Ok (r, b') -> amount r = - amount b.
Proof.
  intros Hb H. unfold start_refund in H. destruct (Z.ltb_spec (amount b) 0).
  - rewrite asset_neg_eq in H. by injection H as <- _.
  - apply result_bind_Ok in H as (x & (_ & _ & ->)%make_asset_Ok & H). injection H as <- _. cbn. lia.
Qed.

(** What is being refunded to an account. *)
Definition refunding (f : name) (s : sys) : Z := from_option refund_sum 0 (refunds s !! f).

Lemma change_refund_starts f n c s n' c' b s' :
  stake_ok y s -> amount n <= 0 -> amount c <= 0 -> amount n + amount c < 0 ->
  asset_symbol n = y -> asset_symbol c = y ->
  change_refund e f n c s = Ok ((n', c', b), s') ->
  b = true /\ exists r, refunds s' !! f = Some r /\ Refund.request_time r = sec_of_us (now_us e) /\
    refund_sum r = refunding f s - amount n - amount c.
Proof.
  intros [Hcore Hd Hr] Hn Hc Hsum Hyn Hyc H. unfold change_refund, find_row in H. minv H.
  assert ((amount n <? 0) || (amount c <? 0) = true) as Hneg
    by (apply orb_true_iff; rewrite !Z.ltb_lt; lia).
  rewrite Hneg in H. unfold refunding. destruct (refunds s !! f) as [r|] eqn:Hk.
  - destruct (Hr _ _ Hk) as ((Hn0 & _) & (Hc0 & _) & _). minv H. destruct a as [rn n1]. minv H. destruct a as [rc c1]. minv H.
    apply settle_back in Hres as E1, Hres0 as E2; [|done..].
    assert (refund_request_is_empty (r <| Refund.request_time := sec_of_us (now_us e) |>
      <| Refund.net_amount := rn |> <| Refund.cpu_amount := rc |>) = false) as Hemp.
    { unfold refund_request_is_empty. cbn. apply andb_false_iff. rewrite !Z.eqb_neq. lia. }
    rewrite Hemp in H. minv H. injection E as _ _ ->. split; [done|]. eexists. cbn. split; [apply lookup_insert_eq|].
    split; [done|]. unfold refund_sum. cbn. lia.
  - minv H. destruct a0 as [rn n1]. minv H. destruct a0 as [rc c1]. minv H. injection E as _ _ ->.
    apply core_symbol_Ok in Hrun as [Hy ->]. rewrite Hcore in Hy. injection Hy as <-.
    apply start_refund_back in Hres as E1, Hres0 as E2; [|done..].
    split; [done|]. eexists. cbn. split; [apply lookup_insert_eq|]. split; [done|]. unfold refund_sum. cbn. lia.
Qed.

Lemma undelegatebw_starts f r n c s u s' :
  stake_ok y s -> f <> stake_account -> in_i64 (amount n) -> in_i64 (amount c) ->
  undelegatebw e f r n c s = Ok (u, s') ->
  exists q, refunds s' !! f = Some q /\ Refund.request_time q = sec_of_us (now_us e) /\
    refund_sum q = refunding f s + amount n + amount c.
Proof.
  intros Hok Hf Hn Hc H. unfold undelegatebw in H. apply bind_Ok in H as (core & s1 & Hcore & H).
  apply core_stake_ok in Hcore as [-> ->]; [|done]. minv H. apply when_Ok in H.
  destruct (asset_ge_zero c a a0) as [Hyc ?]; [done..|]. destruct (asset_ge_zero n a a1) as [Hyn ?]; [done..|].
  unfold changebw in Hrun. rewrite !asset_neg_eq in Hrun. minv Hrun. cbn [amount asset_symbol] in *.
  match goal with Hx : asset_plus _ _ = Ok _ |- _ => pose proof (proj1 (asset_plus_Ok _ _ _) Hx) as (_ & Hrange & _) end. unfold in_i64, amount_in_range, max_amount in *. cbn [amount asset_symbol] in *.
  apply change_delegated_due in Hrun0 as (m & -> & Hok0 & _); [|unfold amount_in_range, max_amount; cbn; done || lia..].
  destruct (keeps_backed _ (change_totals_staking _ _ _) _ _ _ Hrun1 Hok0) as [Hok1 _].
  rewrite (proj2 (Z.eqb_neq stake_account f)) in Hrun2 by done. cbn [negb when] in Hrun2.
  rewrite (proj2 (Z.ltb_lt (i64 (- amount n + - amount c)) 0)), orb_true_r in Hrun2
    by (rewrite i64_small; unfold in_i64; lia).
  apply bind_Ok in Hrun2 as ([[n' c'] b] & s5 & Hcr & Hpay).
  eapply change_refund_starts in Hcr as (_ & q & Hq & Ht & Hsum); [|done|cbn; (done || lia)..].
  apply change_totals_staking, staking_refunds in Hrun1. unfold refunding in Hsum. rewrite Hrun1 in Hsum. cbn in Hsum.
  exists q. split; [|split; [done|unfold refunding; lia]]. rewrite <- Hq.
  apply update_voting_power_staking, staking_refunds in Hrun.
  apply update_rex_stake_staking, staking_refunds in Hrun3.
  assert (refunds s3 = refunds s5) as Hpaid.
  { unfold schedule_refund, token_transfer, send in Hpay. minv Hpay.
    apply when_Ok in Hpay, Hrun0. trans (refunds s1).
    - destruct (0 <? amount a4); [by minv Hpay|by subst s3].
    - destruct b; [by minv Hrun0|by subst s1]. }
  replace (refunds s') with (refunds s0) by (destruct (f =? r); [unfold send in H; by minv H|by subst]).
  by rewrite Hrun, Hrun3, Hpaid.
Qed.
End solvency.

Section staking_runs.
Context `{cdt : Cdt} `{!CdtLaws cdt} `{libm : Libm} (y : symbol).
Implicit Types s : sys.


(** C19: no stake leaves in less than three days: after an account unstakes, its refund
    request carries the time of the unstaking, and [refund] fails until the delay is over. *)
Theorem unstaked_tokens_wait (e1 e2 : Env) f r n c s u s' :
  stake_ok y s -> f <> stake_account -> in_i64 (amount n) -> in_i64 (amount c) ->
  undelegatebw e1 f r n c s = Ok (u, s') ->
  now_us e2 < (sec_of_us (now_us e1) + refund_delay_sec) * 1000000 ->
  is_ok (refund e2 f s') = false /\
  exists q, refunds s' !! f = Some q /\ Refund.request_time q = sec_of_us (now_us e1).
Proof.
  intros Hok Hf Hn Hc H Hearly. destruct (undelegatebw_starts e1 y f r n c s u s' Hok Hf Hn Hc H) as (q & Hq & Ht & _).
  split; [|by exists q]. destruct (refund e2 f s') as [[v s2]|] eqn:Hr; [|done]. exfalso.
  unfold refund, find_row in Hr. minv Hr. rewrite Hq in Hfound. injection Hfound as <-.
  apply Z.leb_le in Hchk0. rewrite Ht in Hchk0. lia.
Qed.

(** One request is part of what is owed. *)
Lemma refund_within f q s : stake_ok y s -> refunds s !! f = Some q -> refund_sum q <= stake_due s.
Proof.
  intros [_ Hd Hr] Hq. unfold stake_due. assert (0 <= msum delband_sum (delband s)).
  { apply msum_nonneg. intros k d ((? & _) & (? & _))%Hd. unfold delband_sum. lia. }
  enough (refund_sum q <= msum refund_sum (refunds s)) by lia. apply (msum_lookup_le _ _ f); [|done].
  intros k x ((? & _) & (? & _) & _)%Hr. unfold refund_sum. lia.
Qed.

(** A refund that is due is paid, and its request is gone. *)
Lemma refund_runs (e : Env) f q s :
  stake_ok y s -> stake_due s <= max_amount -> refunds s !! f = Some q -> has_auth e f = true ->
  (Refund.request_time q + refund_delay_sec) * 1000000 <= now_us e ->
  refund e f s = Ok (tt, s
    <| effects ::= fun l => l ++ [TokenTransfer [active_of stake_account; active_of f] stake_account f
         (Asset (refund_sum q) y) "unstake"] |>
    <| refunds ::= delete f |>).
Proof.
  intros Hok Hcap Hq Hauth Hlate. pose proof (refund_within f q s Hok Hq) as Hle.
  destruct Hok as [_ _ Hr]. pose proof (Hr _ _ Hq) as ((Hqn & _ & Hy1) & (Hqc & _ & Hy2) & Hown & _).
  assert (asset_plus (Refund.net_amount q) (Refund.cpu_amount q) = Ok (Asset (refund_sum q) y)) as Hplus.
  { apply asset_plus_Ok. unfold amount_in_range, refund_sum in *. rewrite Hy1, Hy2. split; [done|]. split; [lia|done]. }
  unfold refund, find_row, require_auth, check, gets, mbind, M_bind, mret, M_ret. rewrite Hauth, Hq.
  cbn [require_found mret M_ret]. rewrite (proj2 (Z.leb_le _ _) Hlate), Hplus, Hown. reflexivity.
Qed.

(** And they do come back: once the delay is over, [refund] succeeds, pays the account
    what was already being refunded and what it unstaked, and the request is gone. *)
Theorem unstaked_tokens_return (e1 e2 : Env) f r n c s u s1 :
  stake_ok y s -> f <> stake_account -> in_i64 (amount n) -> in_i64 (amount c) ->
  undelegatebw e1 f r n c s = Ok (u, s1) -> stake_due s1 <= max_amount ->
  has_auth e2 f = true -> (sec_of_us (now_us e1) + refund_delay_sec) * 1000000 <= now_us e2 ->
  refund e2 f s1 = Ok (tt, s1
    <| effects ::= fun l => l ++ [TokenTransfer [active_of stake_account; active_of f] stake_account f
         (Asset (refunding f s + amount n + amount c) y) "unstake"] |>
    <| refunds ::= delete f |>).
Proof.
  intros Hok Hf Hn Hc H Hcap Hauth Hlate.
  destruct (undelegatebw_starts e1 y f r n c s u s1 Hok Hf Hn Hc H) as (q & Hq & Ht & Hsum).
  destruct (undelegatebw_backed e1 y f r n c s u s1 Hf Hn Hc H Hok) as [Hok1 _].
  rewrite <- Hsum, <- Ht in *. eapply refund_runs; [done..].
Qed.
End staking_runs.

(** ** Examples *)
Definition ex_chain_sys : sys :=
  blank_sys <| rammarket := Some ex_market |> <| gstate ::= fun g => g <| Global.block_num := 2000 |> |>.
Definition ex_env_of (n : name) (t : Z) : Env := mkEnv eosio_account [active_of n] t (fun _ => true).
Definition tlos (z : Z) : asset := Asset z core.

Lemma ex_chain_sys_ok : stake_ok core ex_chain_sys.
Proof. by split. Qed.


Definition ex_staked_sys : sys :=
  ex_chain_sys <| delband := {[ (5, 6) := Delband.mk 5 6 (tlos 30000) (tlos 70000) ]} |>
    <| userres := {[ 6 := UserRes.mk 6 (tlos 30000) (tlos 70000) 0 ]} |>
    <| voters := {[ 5 := (new_voter 5) <| Voter.staked := 100000 |> ]} |>.

Lemma ex_staked_sys_ok : stake_ok core ex_staked_sys.
Proof.
  split; [done| |done]. apply map_Forall_singleton. unfold holds, amount_in_range, max_amount. cbn. split_and!; (done || lia).
Qed.

Lemma unstaked_tokens_wait_witness :
  exists s', is_ok (undelegatebw (cdt := cdt_model) (libm := libm_model) (ex_env_of 5 1700000000000000) 5 6
      (tlos 0) (tlos 20000) ex_staked_sys) = true /\
    is_ok (refund (cdt := cdt_model) (ex_env_of 5 1700172800000000) 5 s') = false /\
    is_ok (refund (cdt := cdt_model) (ex_env_of 5 1700259200000000) 5 s') = true.
Proof.
  set (e1 := ex_env_of 5 1700000000000000). set (e2 := ex_env_of 5 1700172800000000).
  assert (match undelegatebw (cdt := cdt_model) (libm := libm_model) e1 5 6 (tlos 0) (tlos 20000) ex_staked_sys with
          | Ok (_, s') => is_ok (refund (cdt := cdt_model) (ex_env_of 5 1700259200000000) 5 s')
          | Err _ => false end = true) as Hlate by (vm_compute; reflexivity).
  destruct (undelegatebw (cdt := cdt_model) (libm := libm_model) e1 5 6 (tlos 0) (tlos 20000) ex_staked_sys)
    as [[u s']|] eqn:H; [|discriminate].
  exists s'. split; [reflexivity|]. split; [|exact Hlate].
  refine (proj1 (unstaked_tokens_wait (cdt := cdt_model) (libm := libm_model) core e1 e2 5 6 (tlos 0) (tlos 20000)
    ex_staked_sys u s' ex_staked_sys_ok _ _ _ H _)); [discriminate|split; cbn; lia|split; cbn; lia|].
  vm_compute. reflexivity.
Defined.

Lemma unstaked_tokens_return_witness :
  exists s' s2, is_ok (undelegatebw (cdt := cdt_model) (libm := libm_model) (ex_env_of 5 1700000000000000) 5 6
      (tlos 0) (tlos 20000) ex_staked_sys) = true /\
    refund (cdt := cdt_model) (ex_env_of 5 1700259200000000) 5 s' = Ok (tt, s2) /\
    last (effects s2) = Some (TokenTransfer [active_of stake_account; active_of 5] stake_account 5 (tlos 20000) "unstake") /\
    refunds s2 = ∅.
Proof.
  set (e1 := ex_env_of 5 1700000000000000). set (e2 := ex_env_of 5 1700259200000000).
  assert (match undelegatebw (cdt := cdt_model) (libm := libm_model) e1 5 6 (tlos 0) (tlos 20000) ex_staked_sys with
          | Ok (_, s') => (stake_due s' <=? max_amount) && bool_decide (delete 5 (refunds s') = ∅)
          | Err _ => false end = true) as Hb by (vm_compute; reflexivity).
  destruct (undelegatebw (cdt := cdt_model) (libm := libm_model) e1 5 6 (tlos 0) (tlos 20000) ex_staked_sys)
    as [[u s']|] eqn:H; [|discriminate].
  apply andb_true_iff in Hb as [Hcap%Z.leb_le Hgone%bool_decide_eq_true].
  exists s'. eexists. split; [reflexivity|]. split.
  - refine (unstaked_tokens_return (cdt := cdt_model) (libm := libm_model) core e1 e2 5 6 (tlos 0) (tlos 20000)
      ex_staked_sys u s' ex_staked_sys_ok _ _ _ H Hcap _ _);
      [discriminate|split; cbn; lia|split; cbn; lia|reflexivity|vm_compute; discriminate].
  - split; [apply last_snoc|exact Hgone].
Defined.
