(* ===== verification/RamLedger.v ===== *)
(** * The accounts of the RAM market

    RAM is bought from and sold to one market row; the global row counts what is
    reserved and what was paid, the resource rows who owns it, and [eosio.ram] holds the
    tokens. The theorem here says that the four never drift apart. *)
From S2P Require Import Prelude.
From S2P Require Import Cdt.
From S2P Require Import Float64.
From S2P Require Import SysState.
From S2P Require Import Votes.
From S2P Require Import Exchange.
From S2P Require Import RexPool.
From S2P Require Import Bandwidth.
From S2P Require Import Solvency.
From stdpp Require Import base gmap strings list relations.
Open Scope Z_scope.

(** ** The actions on RAM *)
Inductive ram_action :=
| Setram (max_ram_size : Z)
| Setramrate (bytes_per_block : Z)
| Buyram (payer receiver : name) (quant : asset)
| Buyrambytes (payer receiver : name) (bytes : Z)
| Sellram (account : name) (bytes : Z).

Definition ram_exec `{cdt : Cdt} `{libm : Libm} (e : Env) (a : ram_action) : M sys unit :=
  match a with
  | Setram z => setram e z
  | Setramrate z => setramrate e z
  | Buyram p r q => buyram e p r q
  | Buyrambytes p r b => buyrambytes e p r b
  | Sellram a b => sellram e a b
  end.

(** The market's own account does not trade. *)
Definition ram_trader (a : ram_action) : Prop :=
  match a with
  | Buyram p _ _ | Buyrambytes p _ _ | Sellram p _ => p <> ram_account
  | _ => True
  end.

Inductive ram_step `{cdt : Cdt} `{libm : Libm} : relation sys :=
| ram_step_intro e a s u s' : ram_trader a -> ram_exec e a s = Ok (u, s') -> ram_step s s'.

(** ** What stays the same

    All four are differences of 64-bit counters, so they are read modulo 2^64. *)
Definition mod64 (z : Z) : Z := z mod 2 ^ 64.
Definition market_base (s : sys) : Z := from_option base_reserve 0 (rammarket s).
Definition market_quote (s : sys) : Z := from_option quote_reserve 0 (rammarket s).

Definition ram_accounts (y : symbol) (s : sys) : Z * Z * Z * Z :=
  let g := gstate s in
  (* the market's RAM and the reserved RAM make up the RAM there is *)
  (mod64 (market_base s + Global.total_ram_bytes_reserved g - Global.max_ram_size g),
  (* what was paid for RAM is in the market *)
   mod64 (market_quote s - Global.total_ram_stake g),
  (* the RAM reserved is the RAM owned *)
   mod64 (Global.total_ram_bytes_reserved g - msum UserRes.ram_bytes (userres s)),
  (* and what was paid is in eosio.ram *)
   mod64 (Global.total_ram_stake g - flow ram_account y (effects s))).

(** The market trades RAM for the core token. *)
Definition ram_market_ok (y : symbol) (s : sys) : Prop :=
  y <> ram_symbol /\ exists m, rammarket s = Some m /\ base_symbol m = ram_symbol /\ quote_symbol m = y.

Definition ram_kept (y : symbol) (s s' : sys) : Prop :=
  ram_market_ok y s -> ram_market_ok y s' /\ ram_accounts y s' = ram_accounts y s.

Lemma same_quad {A} (a b c d a' b' c' d' : A) :
  a = a' -> b = b' -> c = c' -> d = d' -> (a, b, c, d) = (a', b', c', d').
Proof. congruence. Qed.
Ltac same_accounts := unfold ram_accounts, mod64; cbn; apply same_quad; mod64.

Section ram.
Context `{cdt : Cdt} `{!CdtLaws cdt} `{libm : Libm} (e : Env) (y : symbol).
Implicit Types s : sys.

#[export] Instance ram_kept_preorder : PreOrder (ram_kept y).
Proof.
  split; [done|]. intros s1 s2 s3 H12 H23 H1. destruct (H12 H1) as [H2 ?]. destruct (H23 H2). split; congruence.
Qed.

Lemma grow_ram_base_Ok d s u s' :
  ram_market_ok y s -> grow_ram_base d s = Ok (u, s') ->
  ram_market_ok y s' /\ market_base s' = i64 (market_base s + d) /\ market_quote s' = market_quote s /\
  exists m, s' = s <| rammarket := m |>.
Proof.
  intros (Hy & m & Hm & Hb & Hq) H. unfold grow_ram_base, get_market in H. minv H.
  rewrite Hm in Hfound. injection Hfound as <-.
  unfold ram_market_ok, market_base, market_quote, base_reserve, quote_reserve. cbn. rewrite Hm. cbn.
  split_and!; [done|by eexists|done..|by eexists].
Qed.

Lemma update_ram_supply_kept : respects (ram_kept y) (update_ram_supply e).
Proof.
  intros s u s' H Hok. unfold update_ram_supply in H. minv H. destruct (_ <=? _); minv H; [done|].
  eapply grow_ram_base_Ok in Hrun as (Hok' & Hb & Hq & m & ->); [|by destruct Hok].
  split; [by destruct Hok'|]. unfold ram_accounts. cbn in *. unfold market_base, market_quote in *. cbn in *.
  rewrite Hb, Hq. same_accounts.
Qed.

(** What the accounts are made of; code that leaves it alone keeps them. *)
Definition ram_view s := (rammarket s, gstate s, userres s, flow ram_account y (effects s)).

Lemma ram_view_eq s s' : ram_view s' = ram_view s -> ram_kept y s s'.
Proof.
  intros H Hok. injection H as H1 H2 H3 H4.
  unfold ram_market_ok, ram_accounts, market_base, market_quote in *. rewrite H1, H2, H3, H4. done.
Qed.

Lemma send_ram_view x : flow_of ram_account y x = 0 -> keeps ram_view (send x).
Proof.
  intros Hx s u s' H. unfold send in H. minv H. unfold ram_view. cbn. rewrite flow_snoc, Hx. f_equal. lia.
Qed.

Lemma set_ram_limit_view n z : keeps ram_view (set_ram_limit n z).
Proof. unfold set_ram_limit, find_row, get_resource_limits, set_resource_limits. solve_respects. Qed.

Lemma channel_ramfee_view q b : keeps ram_view (channel_to_rex e ramfee_account q b).
Proof.
  unfold channel_to_rex, token_transfer.
  assert (keeps ram_view (send (TokenTransfer [active_of ramfee_account] ramfee_account rex_account q
    ("transfer from " ++ name_to_string ramfee_account ++ " to eosio.rex")))).
  { apply send_ram_view. cbn. by case_match. }
  unfold add_to_rex_return_pool, update_rex_pool, get_pool, set_pool, get_ret_pool, set_ret_pool, get_buckets,
    set_buckets. solve_respects.
Qed.

Lemma rammarket_convert_buy q s out s' :
  ram_market_ok y s -> asset_symbol q = y -> rammarket_convert q ram_symbol s = Ok (out, s') ->
  ram_market_ok y s' /\ asset_symbol out = ram_symbol /\ 0 <= amount out /\
  market_base s' = market_base s - amount out /\ market_quote s' = market_quote s + amount q /\
  exists m, s' = s <| rammarket := m |>.
Proof.
  intros (Hy & m & Hm & Hb & Hq) Hqy H. unfold rammarket_convert in H. minv H.
  rewrite Hm in Hfound. injection Hfound as <-. destruct a0 as [out1 m']. minv H.
  apply direct_convert_inv in Hres as (z & -> & ? & [(Hf & _)|(Hf & _ & _ & _ & _ & ->)]); [congruence|].
  split_and!; try done; [by split; [|eexists]| | |by eexists];
    unfold market_base, market_quote; cbn; by rewrite Hm.
Qed.

Lemma rammarket_convert_sell q s out s' :
  ram_market_ok y s -> asset_symbol q = ram_symbol -> rammarket_convert q y s = Ok (out, s') ->
  ram_market_ok y s' /\ asset_symbol out = y /\ 0 <= amount out /\
  market_base s' = market_base s + amount q /\ market_quote s' = market_quote s - amount out /\
  exists m, s' = s <| rammarket := m |>.
Proof.
  intros (Hy & m & Hm & Hb & Hq) Hqy H. unfold rammarket_convert in H. minv H.
  rewrite Hm in Hfound. injection Hfound as <-. destruct a0 as [out1 m']. minv H.
  apply direct_convert_inv in Hres as (z & -> & ? & [(Hf & _ & _ & _ & _ & ->)|(Hf & _)]); [|congruence].
  split_and!; try done; [by split; [|eexists]| | |by eexists];
    unfold market_base, market_quote; cbn; by rewrite Hm.
Qed.

(** The half-percent fee goes past [eosio.ram]. *)
Lemma ram_fee_view p q memo : p <> ram_account ->
  keeps ram_view (token_transfer [active_of p] p ramfee_account q memo ;; channel_to_rex e ramfee_account q false).
Proof.
  intros Hp. apply respects_bind; [apply _| |intros _; apply channel_ramfee_view].
  apply send_ram_view. cbn. rewrite (proj2 (Z.eqb_neq _ _) Hp). by case_match.
Qed.

Lemma sell_fee_view p z c : p <> ram_account ->
  keeps ram_view (when (0 <? z) (f ← lift (make_asset z c);
    token_transfer [active_of p] p ramfee_account f "sell ram fee" ;; channel_to_rex e ramfee_account f false)).
Proof.
  intros Hp. apply respects_when; [apply _|]. apply respects_bind; [apply _|apply respects_lift; apply _|].
  intros f. by apply ram_fee_view.
Qed.

Lemma core_ram_market s c s'  : ram_market_ok y s -> core_symbol s = Ok (c, s') -> c = y /\ s' = s.
Proof.
  intros (_ & m & Hm & _ & Hq) [Hc ->]%core_symbol_Ok. unfold core_of in Hc. rewrite Hm in Hc. by injection Hc as <-.
Qed.

Lemma buyram_kept p r q s u s' : p <> ram_account -> buyram e p r q s = Ok (u, s') -> ram_kept y s s'.
Proof.
  intros Hp H Hok. unfold buyram, find_row in H. apply bind_Ok in H as ([] & s_ & [_ ->]%check_Ok & H).
  apply bind_Ok in H as ([] & s0 & Hsup & H).
  destruct (update_ram_supply_kept _ _ _ Hsup Hok) as [Hok0 Hacc]. rewrite <- Hacc. clear Hacc Hsup Hok.
  apply bind_Ok in H as (y' & s_ & Hcore & H). apply core_ram_market in Hcore as [-> ->]; [|done].
  set (paid := i64 (amount q - ram_fee (amount q))) in *.
  apply bind_Ok in H as ([] & s_ & [Hq%symbol_eqb_eq ->]%check_Ok & H).
  apply bind_Ok in H as ([] & s_ & [Hpos ->]%check_Ok & H).
  apply bind_Ok in H as ([] & s2 & Hpay & H). apply bind_Ok in H as ([] & s3 & Hfee & H).
  assert (ram_view s3 = ram_view s2) as Hv3.
  { revert Hfee. apply (respects_when _ _ _ (ram_fee_view p _ "ram fee" Hp)). }
  unfold token_transfer, send in Hpay. minv Hpay.
  assert (ram_market_ok y s3) as Hok3 by (injection Hv3 as Hm _ _ _; unfold ram_market_ok; by rewrite Hm).
  apply bind_Ok in H as (out & s4 & Hconv & H).
  apply rammarket_convert_buy in Hconv as (Hok4 & _ & Hout & Hb & Hqt & m & ->); [|done..].
  apply bind_Ok in H as ([] & s_ & [_ ->]%check_Ok & H). apply bind_Ok in H as ([] & s_ & ->%modify_Ok & H).
  minv H. rename a into res.
  match type of Hrun with _ ?x = _ => set (s5 := x) in * end.
  assert (s1 = s5 /\ exists k, UserRes.ram_bytes res =
    from_option UserRes.ram_bytes 0 (userres s5 !! r) + amount out + 18446744073709551616 * k) as (-> & k & Hres).
  { destruct (userres s5 !! r) as [r0|]; minv Hrun; (split; [done|]); cbn; [apply i64_shift|exists 0; lia]. }
  clear Hrun. apply set_ram_limit_view in H. injection H as H1 H2 H3 H4. injection Hv3 as V1 V2 V3 V4.
  split; [destruct Hok4 as (? & Hm); split; [done|]; by rewrite H1|].
  unfold ram_accounts. rewrite H2, H3, H4. change (userres (s5 <| userres ::= _ |>)) with (<[r:=res]> (userres s5)).
  rewrite msum_set, Hres. unfold market_base, market_quote in *. rewrite H1. cbn in Hb, Hqt, V1, V2, V3, V4 |- *.
  rewrite Hb, Hqt, V1, V2, V3, V4, flow_snoc. cbn. rewrite Hq, symbol_eqb_refl, (proj2 (Z.eqb_neq _ _) Hp).
  fold paid. same_accounts.
Qed.

Lemma sellram_kept a b s u s' : a <> ram_account -> sellram e a b s = Ok (u, s') -> ram_kept y s s'.
Proof.
  intros Hp H Hok. unfold sellram, find_row in H. apply bind_Ok in H as ([] & s_ & [_ ->]%check_Ok & H).
  apply bind_Ok in H as ([] & s0 & Hsup & H).
  destruct (update_ram_supply_kept _ _ _ Hsup Hok) as [Hok0 Hacc]. rewrite <- Hacc. clear Hacc Hsup Hok.
  apply bind_Ok in H as ([] & s_ & [_ ->]%check_Ok & H).
  apply bind_Ok in H as (itr & s_ & [-> ->]%gets_Ok & H).
  apply bind_Ok in H as (res & s_ & [Hres ->]%require_found_Ok & H).
  apply bind_Ok in H as ([] & s_ & [_ ->]%check_Ok & H).
  apply bind_Ok in H as (y' & s_ & Hcore & H). apply core_ram_market in Hcore as [-> ->]; [|done].
  apply bind_Ok in H as (ram & s_ & [(_ & _ & ->)%make_asset_Ok ->]%lift_Ok & H).
  apply bind_Ok in H as (out & s3 & Hconv & H).
  apply rammarket_convert_sell in Hconv as (Hok3 & Hq & Hout & Hb & Hqt & m & ->); [|done..].
  apply bind_Ok in H as ([] & s_ & [_ ->]%check_Ok & H). apply bind_Ok in H as ([] & s_ & ->%modify_Ok & H).
  apply bind_Ok in H as (g & s_ & [-> ->]%gets_Ok & H). apply bind_Ok in H as ([] & s_ & [_ ->]%check_Ok & H).
  apply bind_Ok in H as ([] & s_ & ->%modify_Ok & H). apply bind_Ok in H as ([] & s4 & Hlim & H).
  apply set_ram_limit_view in Hlim. apply bind_Ok in H as ([] & s5 & Hpay & H).
  unfold token_transfer at 1, send in Hpay. minv Hpay.
  assert (ram_view s' = ram_view (s4 <| effects ::= fun l => l ++ [TokenTransfer [active_of ram_account; active_of a]
    ram_account a out "sell ram"] |>)) as Hv.
  { by apply (sell_fee_view a (ram_fee (amount out)) y Hp) in H. }
  injection Hlim as H1 H2 H3 H4. injection Hv as V1 V2 V3 V4. cbn in V1, V2, V3, V4.
  rewrite H1 in V1. rewrite H2 in V2. rewrite H3 in V3. rewrite flow_snoc, H4 in V4. clear H1 H2 H3 H4 H.
  split; [destruct Hok3 as (? & Hm); split; [done|]; by rewrite V1|].
  unfold ram_accounts, market_base, market_quote in *. rewrite V1, V2, V3, V4. cbn in Hb, Hqt |- *.
  rewrite msum_set, Hres, Hb, Hqt, Hq, symbol_eqb_refl, (proj2 (Z.eqb_neq a ram_account) Hp). cbn. same_accounts.
Qed.

Lemma setram_kept z s u s' : setram e z s = Ok (u, s') -> ram_kept y s s'.
Proof.
  intros H Hok. unfold setram in H. minv H.
  eapply grow_ram_base_Ok in Hrun as (Hok' & Hb & Hq & m & ->); [|done].
  split; [by destruct Hok'|]. unfold ram_accounts. cbn in *. unfold market_base, market_quote in *. cbn in *.
  rewrite Hb, Hq. same_accounts.
Qed.

Lemma setramrate_kept z s u s' : setramrate e z s = Ok (u, s') -> ram_kept y s s'.
Proof.
  intros H Hok. unfold setramrate in H. minv H.
  destruct (update_ram_supply_kept _ _ _ Hrun Hok) as [Hok0 Hacc]. by split.
Qed.

Lemma buyrambytes_kept p r b s u s' : p <> ram_account -> buyrambytes e p r b s = Ok (u, s') -> ram_kept y s s'.
Proof.
  intros Hp H. unfold buyrambytes, get_market in H.
  apply bind_Ok in H as (m & s1 & Hm & H). minv Hm. minv H.
  unfold core_symbol, get_core_symbol in Hrun. minv Hrun. by eapply buyram_kept.
Qed.

Lemma ram_exec_kept s u s' a :
  ram_trader a -> ram_market_ok y s -> ram_exec e a s = Ok (u, s') ->
  ram_market_ok y s' /\ ram_accounts y s' = ram_accounts y s.
Proof.
  intros Ha Hok H. revert Hok. change (ram_kept y s s'). destruct a; cbn in Ha, H.
  - by eapply setram_kept.
  - by eapply setramrate_kept.
  - by eapply buyram_kept.
  - by eapply buyrambytes_kept.
  - by eapply sellram_kept.
Qed.
End ram.

Section ram_runs.
Context `{cdt : Cdt} `{!CdtLaws cdt} `{libm : Libm} (y : symbol).

(** C13: whatever runs of RAM actions, four accounts stay in step with each other (as 64-bit
    counters): the market's RAM and the RAM reserved grow with the RAM there is; what the
    market holds in tokens, what was paid for RAM, and what [eosio.ram] was sent move
    together; and the RAM reserved is the RAM the resource rows own. *)
Theorem ram_accounts_agree s s' :
  ram_market_ok y s -> rtc ram_step s s' -> ram_market_ok y s' /\ ram_accounts y s' = ram_accounts y s.
Proof.
  intros Hok Hsteps. revert Hok. change (ram_kept y s s').
  induction Hsteps as [s|s s1 s2 Hstep _ IH]; [done|]. etrans; [|exact IH].
  destruct Hstep as [e a s u s1 Ha Hrun].
  intros Hok. exact (ram_exec_kept e y s u s1 a Ha Hok Hrun).
Qed.
End ram_runs.

(** ** An example *)
Definition ex_ram_sys : sys := ex_chain_sys <| gstate ::= fun g => g <| Global.max_ram_size := 68719476736 |> |>.

Lemma ram_accounts_agree_witness :
  exists s', rtc (ram_step (cdt := cdt_model) (libm := libm_model)) ex_ram_sys s' /\
    ram_accounts core s' = ram_accounts core ex_ram_sys /\
    (0 <? Global.total_ram_bytes_reserved (gstate s')) = true /\
    flow ram_account core (effects s') = Global.total_ram_stake (gstate s').
Proof.
  set (e := ex_env_of 5 1700000000000000).
  set (run := fun s => (ram_exec (cdt := cdt_model) (libm := libm_model) e (Buyram 5 5 (tlos 1000000)) ;;
                        ram_exec (cdt := cdt_model) (libm := libm_model) e (Sellram 5 1000)) s).
  assert (match run ex_ram_sys with
          | Ok (_, s') => (0 <? Global.total_ram_bytes_reserved (gstate s')) &&
                          (flow ram_account core (effects s') =? Global.total_ram_stake (gstate s'))
          | Err _ => false end = true) as Hrun by (vm_compute; reflexivity).
  destruct (run ex_ram_sys) as [[u s2]|] eqn:H; [|discriminate]. apply andb_true_iff in Hrun as [Hres Hflow%Z.eqb_eq].
  unfold run in H. apply bind_Ok in H as (u1 & s1 & H1 & H2). exists s2.
  assert (rtc (ram_step (cdt := cdt_model) (libm := libm_model)) ex_ram_sys s2) as Hrtc.
  { eapply rtc_l; [|apply rtc_once].
    - apply (ram_step_intro e (Buyram 5 5 (tlos 1000000)) _ u1); [discriminate|exact H1].
    - apply (ram_step_intro e (Sellram 5 1000) _ u); [discriminate|exact H2]. }
  assert (ram_market_ok core ex_ram_sys) as Hok.
  { split; [discriminate|]. exists ex_market. split; [reflexivity|split; reflexivity]. }
  destruct (ram_accounts_agree (cdt := cdt_model) (libm := libm_model) core ex_ram_sys s2 Hok Hrtc) as [_ Hacc].
  split; [exact Hrtc|]. split; [exact Hacc|]. by split.
Defined.
