(* ===== verification/RexLedger.v ===== *)
(** * The books of REX

    The pool says how many tokens it has to lend, in three numbers, and how many REX it
    issued; the balance rows say who holds the REX. The first part shows that no REX
    action makes the two disagree; the second that the exchange of tokens for REX never
    favours the one who trades. *)
From S2P Require Import Prelude.
From S2P Require Import Cdt.
From S2P Require Import Float64.
From S2P Require Import SysState.
From S2P Require Import Votes.
From S2P Require Import Exchange.
From S2P Require Import RexPool.
From S2P Require Import Bandwidth.
From S2P Require Import Rex.
From S2P Require Import Solvency.
From stdpp Require Import base gmap strings list.
Open Scope Z_scope.

(** ** The actions of REX *)
Inductive rex_action :=
| Deposit (owner : name) (q : asset)
| Withdraw (owner : name) (q : asset)
| Buyrex (from : name) (q : asset)
| Unstake_to_rex (owner receiver : name) (from_net from_cpu : asset)
| Sellrex (from : name) (rex : asset)
| Cnclrexorder (owner : name)
| Rentcpu (from receiver : name) (loan_payment loan_fund : asset)
| Rentnet (from receiver : name) (loan_payment loan_fund : asset)
| Fundcpuloan (from : name) (loan_num : Z) (payment : asset)
| Fundnetloan (from : name) (loan_num : Z) (payment : asset)
| Defcpuloan (from : name) (loan_num : Z) (q : asset)
| Defnetloan (from : name) (loan_num : Z) (q : asset)
| Updaterex (owner : name)
| Setrex (balance : asset)
| Rexexec (user : name) (max : Z)
| Consolidate (owner : name)
| Mvtosavings (owner : name) (rex : asset)
| Mvfrsavings (owner : name) (rex : asset)
| Closerex (owner : name).

Definition rex_exec `{cdt : Cdt} `{libm : Libm} (e : Env) (a : rex_action) : M sys unit :=
  match a with
  | Deposit o q => deposit e o q
  | Withdraw o q => withdraw e o q
  | Buyrex f q => buyrex e f q
  | Unstake_to_rex o r n c => unstaketorex e o r n c
  | Sellrex f q => sellrex e f q
  | Cnclrexorder o => cnclrexorder e o
  | Rentcpu f r p q => rentcpu e f r p q
  | Rentnet f r p q => rentnet e f r p q
  | Fundcpuloan f n q => fundcpuloan e f n q
  | Fundnetloan f n q => fundnetloan e f n q
  | Defcpuloan f n q => defcpuloan e f n q
  | Defnetloan f n q => defnetloan e f n q
  | Updaterex o => updaterex e o
  | Setrex b => setrex e b
  | Rexexec u m => rexexec e u m
  | Consolidate o => consolidate e o
  | Mvtosavings o q => mvtosavings e o q
  | Mvfrsavings o q => mvfrsavings e o q
  | Closerex o => closerex e o
  end.

(** ** What has to agree *)

(** The tokens to lend are those not lent and those lent, as 64-bit counters. *)
Definition pool_balanced (p : rex_pool) : Prop :=
  amount (RexPool.total_lendable p) mod 2 ^ 64 =
  (amount (RexPool.total_unlent p) + amount (RexPool.total_lent p)) mod 2 ^ 64.
Definition pool_ok (s : sys) : Prop := forall p, rexpool s = Some p -> pool_balanced p.

Definition total_rex_of (s : sys) : Z := from_option (fun p => amount (RexPool.total_rex p)) 0 (rexpool s).
Definition rex_held (b : rex_balance) : Z := amount (RexBal.rex_bal b).
(** The REX the rows hold less the REX the pool issued. *)
Definition rex_gap (s : sys) : Z := (msum rex_held (rexbalances s) - total_rex_of s) mod 2 ^ 64.

Definition books_kept (s s' : sys) : Prop := (pool_ok s -> pool_ok s') /\ rex_gap s' = rex_gap s.

#[export] Instance books_kept_preorder : PreOrder books_kept.
Proof. split; [done|]. intros s1 s2 s3 [H1 E1] [H2 E2]. split; [auto|congruence]. Qed.

Lemma books_kept_view s s' : rexpool s' = rexpool s -> rexbalances s' = rexbalances s -> books_kept s s'.
Proof. intros Hp Hb. unfold books_kept, pool_ok, rex_gap, total_rex_of. by rewrite Hp, Hb. Qed.

(** A pool whose total REX is unchanged, balanced if it was. *)
Lemma books_kept_pool s p p' :
  rexpool s = Some p -> (pool_balanced p -> pool_balanced p') ->
  amount (RexPool.total_rex p') = amount (RexPool.total_rex p) ->
  books_kept s (s <| rexpool := Some p' |>).
Proof.
  intros Hp Hb Hr. split.
  - intros Hok q [= <-]. cbn in *. by apply Hb, Hok.
  - unfold rex_gap, total_rex_of. cbn. by rewrite Hp, Hr.
Qed.

(** A row that holds as much REX as it did. *)
Lemma books_kept_row s o b b' :
  rexbalances s !! o = Some b -> rex_held b' = rex_held b ->
  books_kept s (s <| rexbalances ::= insert o b' |>).
Proof.
  intros Hb Hh. split; [done|]. unfold rex_gap, total_rex_of. cbn.
  rewrite (msum_insert rex_held _ _ _ _ Hb), Hh. f_equal. lia.
Qed.

Section books.
Context `{cdt : Cdt} `{!CdtLaws cdt} `{libm : Libm} (e : Env).
Implicit Types s : sys.

Ltac books_with tac :=
  unfold token_transfer, send, set_ret_pool, get_ret_pool, get_buckets, set_buckets, set_loans, find_row,
    zero_core, core_symbol, get_core_symbol, get_resource_limits, set_resource_limits;
  solve_respects_with tac; try (by apply books_kept_view).
Ltac books := books_with fail.

Lemma update_votes_books n p l b : respects books_kept (update_votes e n p l b).
Proof. intros s u s' H%update_votes_votes_only. destruct H as (? & ? & ? & ? & ->). by apply books_kept_view. Qed.
Hint Resolve update_votes_books : respects.

Lemma update_voting_power_books n t : respects books_kept (update_voting_power e n t).
Proof. unfold update_voting_power. books. Qed.
Lemma update_resource_limits_books a b n c : respects books_kept (update_resource_limits a b n c).
Proof. unfold update_resource_limits. books. Qed.
Lemma transfer_to_fund_books n q : respects books_kept (transfer_to_fund n q).
Proof. unfold transfer_to_fund. books. Qed.
Lemma transfer_from_fund_books n q : respects books_kept (transfer_from_fund n q).
Proof. unfold transfer_from_fund. books. Qed.
Hint Resolve update_voting_power_books update_resource_limits_books transfer_to_fund_books
  transfer_from_fund_books : respects.
Lemma update_rex_account_books n p d b : respects books_kept (update_rex_account e n p d b).
Proof. unfold update_rex_account. books. Qed.
Hint Resolve update_rex_account_books : respects.

(** *** The pool *)
Lemma get_pool_Ok s p s' : get_pool s = Ok (p, s') <-> rexpool s = Some p /\ s' = s.
Proof.
  unfold get_pool, gets, require_found, mbind, M_bind, mret, M_ret, throw. destruct (rexpool s); naive_solver.
Qed.

Lemma with_pool (R : relation sys) {A} (k : rex_pool -> M sys A) :
  (forall p s a s', rexpool s = Some p -> k p s = Ok (a, s') -> R s s') ->
  respects R (p ← get_pool; k p).
Proof. intros Hk s a s' (p & s1 & [Hp ->]%get_pool_Ok & H)%bind_Ok. by eapply Hk. Qed.

Lemma set_pool_books p p' s u s' :
  rexpool s = Some p -> (pool_balanced p -> pool_balanced p') ->
  amount (RexPool.total_rex p') = amount (RexPool.total_rex p) ->
  set_pool p' s = Ok (u, s') -> books_kept s s'.
Proof. intros Hp Hb Hr H. unfold set_pool in H. minv H. by eapply books_kept_pool. Qed.

Lemma grow_unlent_books change : respects books_kept
  (p ← get_pool;
   let p1 := p <| RexPool.total_unlent ::= fun a => a <| amount ::= fun z => i64 (z + change) |> |> in
   lendable ← lift (asset_plus (RexPool.total_unlent p1) (RexPool.total_lent p1));
   set_pool (p1 <| RexPool.total_lendable := lendable |>)).
Proof.
  apply with_pool. intros p s u s' Hp H. cbv zeta in H.
  apply bind_Ok in H as (l & s1 & [(_ & _ & ->)%asset_plus_Ok ->]%lift_Ok & H).
  by eapply set_pool_books in H.
Qed.
Hint Resolve grow_unlent_books : respects.

Lemma update_rex_pool_books : respects books_kept (update_rex_pool e).
Proof. unfold update_rex_pool. books_with ltac:(apply grow_unlent_books). Qed.
Hint Resolve update_rex_pool_books : respects.
Lemma add_to_rex_return_pool_books fee : respects books_kept (add_to_rex_return_pool e fee).
Proof. unfold add_to_rex_return_pool. books. Qed.
Hint Resolve add_to_rex_return_pool_books : respects.
Lemma channel_to_rex_books n q b : respects books_kept (channel_to_rex e n q b).
Proof. unfold channel_to_rex. books. Qed.
Hint Resolve channel_to_rex_books : respects.

Lemma add_loan_books q z b : respects books_kept (add_loan_to_rex_pool e q z b).
Proof.
  unfold add_loan_to_rex_pool. apply respects_bind; [apply _|apply add_to_rex_return_pool_books|intros _].
  apply with_pool. intros p s u s' Hp H. eapply set_pool_books in H; [done..| |done].
  unfold pool_balanced. cbn. intros Hb. revert Hb. mod64.
Qed.
Lemma remove_loan_books l : respects books_kept (remove_loan_from_rex_pool l).
Proof.
  unfold remove_loan_from_rex_pool. apply with_pool. intros p s u s' Hp H. minv H.
  eapply set_pool_books in H; [done..| |done]. unfold pool_balanced. cbn. intros _. mod64.
Qed.
Hint Resolve add_loan_books remove_loan_books : respects.

(** *** The balance rows *)
Lemma get_rex_balance_Ok o msg s b s' :
  get_rex_balance o msg s = Ok (b, s') <-> rexbalances s !! o = Some b /\ s' = s.
Proof.
  unfold get_rex_balance, find_row. rewrite bind_Ok. setoid_rewrite gets_Ok. setoid_rewrite require_found_Ok. naive_solver.
Qed.

Lemma with_row_books {A} o msg (k : rex_balance -> M sys A) :
  (forall b s a s', rexbalances s !! o = Some b -> k b s = Ok (a, s') -> books_kept s s') ->
  respects books_kept (b ← get_rex_balance o msg; k b).
Proof. intros Hk s a s' (b & s1 & [Hb ->]%get_rex_balance_Ok & H)%bind_Ok. by eapply Hk. Qed.

Lemma set_row_books o b b' s u s' :
  rexbalances s !! o = Some b -> rex_held b' = rex_held b -> set_rex_balance o b' s = Ok (u, s') -> books_kept s s'.
Proof. intros Hb Hh H. unfold set_rex_balance in H. minv H. by eapply books_kept_row. Qed.

Lemma modify_rex_balance_books o f :
  (forall b, rex_held (f b) = rex_held b) -> respects books_kept (modify_rex_balance o f).
Proof. intros Hf. apply with_row_books. intros b s u s' Hb H. by eapply set_row_books in H. Qed.

Lemma process_rex_maturities_books o : respects books_kept (process_rex_maturities e o).
Proof. apply modify_rex_balance_books. intros b. by destruct (mature _ _ _). Qed.
Lemma put_rex_savings_books o z : respects books_kept (put_rex_savings o z).
Proof. unfold put_rex_savings. case_match; [apply respects_ret; apply _|]. by apply modify_rex_balance_books. Qed.
Lemma read_rex_savings_books o : respects books_kept (read_rex_savings o).
Proof.
  apply with_row_books. intros b s a s' Hb H. destruct (savings_of _) as [z l]. minv H.
  by eapply set_row_books in Hrun.
Qed.
Hint Resolve process_rex_maturities_books put_rex_savings_books read_rex_savings_books : respects.
Lemma consolidate_rex_balance_books o q : respects books_kept (consolidate_rex_balance e o q).
Proof. unfold consolidate_rex_balance. books_with ltac:(by apply modify_rex_balance_books). Qed.
Lemma update_rex_stake_books o : respects books_kept (update_rex_stake o).
Proof.
  intros s u s' H. unfold update_rex_stake, find_row in H.
  apply bind_Ok in H as (b & s1 & [-> ->]%gets_Ok & H). apply bind_Ok in H as (av & s1 & [-> ->]%gets_Ok & H).
  apply bind_Ok in H as (d & s1 & Hd & H). trans s1.
  - destruct (rexbalances s !! o) as [b|] eqn:Hb; [|by minv Hd]. destruct (rex_available s); [|by minv Hd].
    unfold core_symbol, get_core_symbol in Hd. minv Hd. apply get_pool_Ok in Hrun as [_ ->].
    by eapply set_row_books in Hrun0.
  - revert H. match goal with |- ?m s1 = _ -> _ => assert (respects books_kept m) as Hm by books end. apply Hm.
Qed.
Hint Resolve consolidate_rex_balance_books update_rex_stake_books : respects.

(** Selling takes the same REX from the pool and from the row. *)
Lemma fill_rex_order_books o q : respects books_kept (fill_rex_order o q).
Proof.
  apply with_pool. intros p s a s' Hp H. apply bind_Ok in H as (pz & s1 & [Hpz ->]%lift_Ok & H).
  apply bind_Ok in H as (c & s1 & [_ ->]%core_symbol_Ok & H). apply bind_Ok in H as (pr & s1 & [_ ->]%lift_Ok & H).
  cbv zeta in H. destruct (_ <=? _) in H; [|by minv H].
  apply bind_Ok in H as (b & s1 & [Hb ->]%get_rex_balance_Ok & H). apply bind_Ok in H as (cs & s1 & [_ ->]%lift_Ok & H).
  unfold set_pool, set_rex_balance in H. minv H. split.
  - intros _ p' [= <-]. unfold pool_balanced. cbn. mod64.
  - unfold rex_gap, total_rex_of. cbn. rewrite (msum_insert rex_held _ _ _ _ Hb), Hp. unfold rex_held. cbn. mod64.
Qed.
Hint Resolve fill_rex_order_books : respects.

(** *** Maintenance *)
Lemma process_expired_loan_books k n l : respects books_kept (process_expired_loan e k n l).
Proof.
  unfold process_expired_loan, update_renewed_loan. apply respects_bind; [apply _|apply remove_loan_books|intros _].
  apply with_pool. intros p s a s' _.
  match goal with |- ?m s = _ -> _ => assert (respects books_kept m) as Hm end; [|apply Hm].
  books; destruct k; by apply books_kept_view.
Qed.
Lemma process_loans_books k n : respects books_kept (process_loans e k n).
Proof.
  induction n as [|n IH]; cbn; [apply respects_ret; apply _|]. unfold update_limits_of.
  books_with ltac:(apply process_expired_loan_books); destruct k; by apply books_kept_view.
Qed.
Lemma process_orders_books n l : respects books_kept (process_orders n l).
Proof.
  revert l. induction n as [|n IH]; intros l; cbn; [apply respects_ret; apply _|].
  destruct l as [|[o r] l]; [apply respects_ret; apply _|]. books.
Qed.
Hint Resolve process_loans_books process_orders_books : respects.

Lemma get_pool_books : respects books_kept get_pool.
Proof. intros s p s' [_ ->]%get_pool_Ok. done. Qed.
Lemma get_rex_balance_books o msg : respects books_kept (get_rex_balance o msg).
Proof. intros s p s' [_ ->]%get_rex_balance_Ok. done. Qed.
Lemma set_rex_pool_books f :
  (forall p, pool_balanced p -> pool_balanced (f p)) ->
  (forall p, amount (RexPool.total_rex (f p)) = amount (RexPool.total_rex p)) ->
  respects books_kept (p ← get_pool; set_pool (f p)).
Proof. intros Hb Hr. apply with_pool. intros p s u s' Hp H. eapply set_pool_books in H; eauto. Qed.
Hint Resolve get_pool_books get_rex_balance_books : respects.

Lemma runrex_books n : respects books_kept (runrex e n).
Proof. unfold runrex. books_with ltac:(by apply set_rex_pool_books). Qed.
Hint Resolve runrex_books : respects.

(** *** Buying: the pool issues what the row receives *)
Definition books_gap (r : Z) (s s' : sys) : Prop :=
  (pool_ok s -> pool_ok s') /\ rex_gap s' = (rex_gap s + r) mod 2 ^ 64.

Lemma add_to_rex_pool_issues q s r s' :
  0 <= total_rex_of s -> add_to_rex_pool q s = Ok (r, s') ->
  (pool_ok s -> pool_ok s') /\ rexbalances s' = rexbalances s /\
  total_rex_of s' mod 2 ^ 64 = (total_rex_of s + amount r) mod 2 ^ 64.
Proof.
  intros Hpos H. unfold add_to_rex_pool in H. apply bind_Ok in H as (c & s1 & [_ ->]%core_symbol_Ok & H).
  apply bind_Ok in H as (itr & s1 & [-> ->]%gets_Ok & H). unfold total_rex_of in *. cbv zeta in H.
  destruct (rexpool s) as [p|] eqn:Hp; cbn in Hpos.
  2:{ minv H. apply make_asset_Ok in Hres as (_ & _ & ->). apply asset_minus_Ok in Hres0 as (_ & _ & ->).
      unfold set_pool in Hrun. minv Hrun. split; [|by split].
      intros _ p [= <-]. unfold pool_balanced. cbn. f_equal. lia. }
  apply bind_Ok in H as (av & s1 & [-> ->]%gets_Ok & H). unfold rex_available in H. rewrite Hp in H.
  destruct (Z.ltb_spec 0 (amount (RexPool.total_rex p))) as [Hlt|Hle]; cbn [negb] in H.
  - unfold set_pool in H. minv H. split; [|split; [done|]].
    + intros _ p' [= <-]. unfold pool_balanced. cbn. mod64.
    + cbn. mod64.
  - unfold set_pool in H. minv H. split; [|split; [done|]].
    + intros _ p' [= <-]. unfold pool_balanced. cbn. f_equal. lia.
    + cbn. f_equal. lia.
Qed.

Lemma add_to_rex_balance_receives o q r s d s' :
  add_to_rex_balance e o q r s = Ok (d, s') -> books_gap (amount r) s s'.
Proof.
  intros H. unfold add_to_rex_balance, find_row in H. apply bind_Ok in H as (c & s1 & [_ ->]%core_symbol_Ok & H).
  apply bind_Ok in H as (itr & s1 & [-> ->]%gets_Ok & H). apply bind_Ok in H as ([z1 z2] & s1 & Hrow & H).
  assert (books_gap (amount r) s s1) as [Hok Hgap].
  { destruct (rexbalances s !! o) as [b|] eqn:Hb.
    - minv Hrow. apply get_pool_Ok in Hrun as [_ ->]. unfold set_rex_balance in Hrun0. minv Hrun0. split; [done|].
      unfold rex_gap, total_rex_of. cbn. rewrite (msum_insert rex_held _ _ _ _ Hb). unfold rex_held. cbn. mod64.
    - unfold set_rex_balance in Hrow. minv Hrow. split; [done|].
      unfold rex_gap, total_rex_of. cbn. rewrite (msum_insert_new rex_held) by done. unfold rex_held. cbn. mod64. }
  assert (books_kept s1 s') as [Hok' Hgap'].
  { revert H. match goal with |- ?m s1 = _ -> _ => assert (respects books_kept m) as Hm end; [|apply Hm].
    books_with ltac:(by apply modify_rex_balance_books). }
  split; [auto|congruence].
Qed.

(** The two together leave the books in agreement. *)
Lemma buy_books o q s r s1 d s2 :
  0 <= total_rex_of s -> add_to_rex_pool q s = Ok (r, s1) -> add_to_rex_balance e o q r s1 = Ok (d, s2) ->
  books_kept s s2.
Proof.
  intros Hpos Hp Hb. apply add_to_rex_pool_issues in Hp as (Hok1 & Hrow & Hrex); [|done].
  apply add_to_rex_balance_receives in Hb as [Hok2 Hgap]. split; [auto|].
  rewrite Hgap. unfold rex_gap. rewrite Hrow. revert Hrex.
  generalize (total_rex_of s1) (total_rex_of s) (msum rex_held (rexbalances s)). intros. mod64.
Qed.

(** *** The actions *)
Lemma buyrex_books f q s u s' : 0 <= total_rex_of s -> buyrex e f q s = Ok (u, s') -> books_kept s s'.
Proof.
  intros Hpos H. unfold buyrex in H. apply bind_Ok in H as ([] & s1 & [_ ->]%check_Ok & H).
  apply bind_Ok in H as (c & s1 & [_ ->]%core_symbol_Ok & H). apply bind_Ok in H as ([] & s1 & [_ ->]%check_Ok & H).
  apply bind_Ok in H as ([] & s1 & [_ ->]%check_Ok & H). apply bind_Ok in H as ([] & s1 & Hfund & H).
  assert (rexpool s1 = rexpool s) as Hpool.
  { revert Hfund. unfold transfer_from_fund, find_row, core_symbol, get_core_symbol.
    match goal with |- ?m s = _ -> _ => assert (keeps rexpool m) as Hm by solve_respects end. apply Hm. }
  trans s1; [by apply transfer_from_fund_books in Hfund|].
  apply bind_Ok in H as (r & s2 & Hp & H). apply bind_Ok in H as (d & s3 & Hb & H).
  trans s3; [eapply buy_books; [|exact Hp|exact Hb]; unfold total_rex_of; by rewrite Hpool|].
  revert H. match goal with |- ?m s3 = _ -> _ => assert (respects books_kept m) as Hm by books end. apply Hm.
Qed.

Lemma update_resource_limits_rex a b n c :
  keeps (fun s => (rexpool s, rexbalances s)) (update_resource_limits a b n c).
Proof.
  unfold update_resource_limits, find_row, core_symbol, get_core_symbol, get_resource_limits, set_resource_limits.
  solve_respects.
Qed.

Lemma unstaketorex_books o r n c s u s' :
  0 <= total_rex_of s -> unstaketorex e o r n c s = Ok (u, s') -> books_kept s s'.
Proof.
  intros Hpos H. unfold unstaketorex, find_row in H. minv H. apply core_symbol_Ok in Hrun as [_ ->].
  assert (rexpool s1 = rexpool s /\ rexbalances s1 = rexbalances s) as [Hp1 Hb1].
  { apply when_Ok in Hrun0. destruct (delegated_bandwidth_is_empty _); [by minv Hrun0|by subst s1]. }
  apply update_resource_limits_rex in Hrun1. injection Hrun1 as Hp2 Hb2.
  unfold token_transfer, send in Hrun2. minv Hrun2.
  match type of Hrun3 with _ ?x = _ => set (s3 := x) in * end.
  trans s3; [apply books_kept_view; cbn; congruence|].
  assert (respects books_kept zero_core) as Hz by (unfold zero_core; books).
  trans s5; [eapply buy_books; [|exact Hrun3|exact Hrun4]; unfold total_rex_of; cbn; by rewrite Hp2, Hp1|].
  apply runrex_books in Hrun5. apply Hz in Hrun6. apply update_rex_account_books in Hrun7.
  unfold send in H. minv H. etrans; [exact Hrun5|]. etrans; [exact Hrun6|]. etrans; [exact Hrun7|]. by apply books_kept_view.
Qed.

Lemma rent_rex_books k f r p q : respects books_kept (rent_rex e k f r p q).
Proof. unfold rent_rex. books; destruct k; by apply books_kept_view. Qed.
Hint Resolve rent_rex_books : respects.
Lemma fund_rex_loan_books k f n q : respects books_kept (fund_rex_loan e k f n q).
Proof. unfold fund_rex_loan. books; destruct k; by apply books_kept_view. Qed.
Lemma defund_rex_loan_books k f n q : respects books_kept (defund_rex_loan e k f n q).
Proof. unfold defund_rex_loan. books; destruct k; by apply books_kept_view. Qed.
Hint Resolve fund_rex_loan_books defund_rex_loan_books : respects.

Lemma updaterex_books o : respects books_kept (updaterex e o).
Proof.
  unfold updaterex. apply respects_bind; [apply _|apply respects_check; apply _|intros _].
  apply respects_bind; [apply _|apply runrex_books|intros _].
  apply with_row_books. intros b s u s' Hb H. unfold zero_core in H. minv H.
  apply get_pool_Ok in Hrun as [_ ->]. apply core_symbol_Ok in Hrun1 as [_ ->].
  assert (s1 = s) as -> by (destruct (0 <? _); by minv Hrun0).
  apply update_rex_account_books in Hrun3. apply process_rex_maturities_books in H.
  etrans; [by eapply set_row_books in Hrun2|]. by etrans.
Qed.

Lemma take_for_savings_held want in_order b b' : take_for_savings want in_order b = Ok b' -> rex_held b' = rex_held b.
Proof.
  unfold take_for_savings. destruct (move_from_back _ _ _) as [moved l]. cbv zeta.
  destruct (_ <? _); [destruct (_ <=? _)|destruct (_ =? _)]; by intros [= <-].
Qed.

Lemma take_row_books {A} o msg want in_order (k : M sys A) : respects books_kept k ->
  respects books_kept (b2 ← get_rex_balance o msg; b3 ← lift (take_for_savings want in_order b2);
                       set_rex_balance o b3 ;; k).
Proof.
  intros Hk. apply with_row_books. intros b s a s' Hb H. minv H.
  apply take_for_savings_held in Hres. etrans; [by eapply set_row_books in Hrun|]. by apply Hk in H.
Qed.

Lemma mvtosavings_books o q : respects books_kept (mvtosavings e o q).
Proof. unfold mvtosavings. books_with ltac:(apply take_row_books; auto with respects). Qed.
Lemma mvfrsavings_books o q : respects books_kept (mvfrsavings e o q).
Proof. unfold mvfrsavings. books_with ltac:(by apply modify_rex_balance_books). Qed.
Lemma sellrex_books o q : respects books_kept (sellrex e o q).
Proof. unfold sellrex, queue_order. books. Qed.
Lemma setrex_books q : respects books_kept (setrex e q).
Proof. unfold setrex. books_with ltac:(by apply set_rex_pool_books). Qed.

Lemma closerex_books o : respects books_kept (closerex e o).
Proof.
  unfold closerex. do 8 (apply respects_bind; [apply _|books|intros ?]).
  apply respects_bind; [apply _|books|intros _]. intros s u s' H. unfold find_row in H.
  apply bind_Ok in H as (b & s1 & [-> ->]%gets_Ok & H). destruct (rexbalances s !! o) as [b|] eqn:Hb; minv H; [|done].
  split; [done|]. unfold rex_gap, total_rex_of. cbn. rewrite (msum_delete rex_held _ _ _ Hb). unfold rex_held at 2.
  apply Z.eqb_eq in Hchk. f_equal. lia.
Qed.

(** Every action keeps the books. *)
Lemma rex_exec_books a s u s' : 0 <= total_rex_of s -> rex_exec e a s = Ok (u, s') -> books_kept s s'.
Proof.
  intros Hpos H. destruct a; cbn [rex_exec] in H.
  3: by eapply buyrex_books. 3: by eapply unstaketorex_books.
  3: by apply sellrex_books in H. 10: by apply updaterex_books in H. 10: by apply setrex_books in H.
  12: by apply mvtosavings_books in H. 12: by apply mvfrsavings_books in H. 12: by apply closerex_books in H.
  all: revert H; unfold deposit, withdraw, cnclrexorder, rentcpu, rentnet, fundcpuloan, fundnetloan, defcpuloan,
    defnetloan, rexexec, consolidate.
  all: match goal with |- ?m _ = _ -> _ => assert (respects books_kept m) as Hm by books; apply Hm end.
Qed.
End books.

Section book_actions.
Context `{cdt : Cdt} `{!CdtLaws cdt} `{libm : Libm} (e : Env).

(** No REX action lets the books drift apart: the pool's tokens to lend stay those not
    lent and those lent, and the REX in the balance rows stays the REX the pool issued (as
    64-bit counters), provided the pool has not issued a negative amount. *)
Theorem rex_books_agree a s u s' :
  0 <= total_rex_of s -> rex_exec e a s = Ok (u, s') ->
  (pool_ok s -> pool_ok s') /\ rex_gap s' = rex_gap s.
Proof. apply rex_exec_books. Qed.
End book_actions.

(** ** Prices *)

(** A pool with tokens and REX in it, its three numbers in agreement. *)
Record pool_wf (p : rex_pool) : Prop := {
  wf_unlent : 0 <= amount (RexPool.total_unlent p);
  wf_lent : 0 <= amount (RexPool.total_lent p);
  wf_lendable : amount (RexPool.total_lendable p) = amount (RexPool.total_unlent p) + amount (RexPool.total_lent p);
  wf_range : 0 < amount (RexPool.total_lendable p) < 2 ^ 63;
  wf_rex : 0 < amount (RexPool.total_rex p) < 2 ^ 63;
}.

Lemma muldiv_exact a b c z :
  0 <= a < 2 ^ 63 -> 0 <= b < 2 ^ 63 -> 0 < c < 2 ^ 63 -> a * b / c < 2 ^ 63 ->
  muldiv a b c = Ok z -> z = a * b / c.
Proof.
  intros Ha Hb Hc Hr. unfold muldiv, u128. rewrite (uwrap_small 128 a), (uwrap_small 128 b), (uwrap_small 128 c) by lia.
  rewrite (uwrap_small 128 (a * b)) by nia.
  destruct (c =? 0) eqn:?; [lia|]. intros [= <-]. apply i64_small. unfold in_i64.
  pose proof (Z.div_pos (a * b) c). nia.
Qed.

(** The share of [x] parts in [r] of a sum [s], rounded down. *)
Lemma share_le x s r : 0 <= x <= r -> 0 <= s -> 0 < r -> 0 <= x * s / r <= s.
Proof.
  intros Hx Hs Hr. split; [apply Z.div_pos; nia|].
  apply Z.div_le_upper_bound; nia.
Qed.

Section prices.
Context `{cdt : Cdt} `{!CdtLaws cdt} `{libm : Libm}.

(** What selling does to the pool. *)
Lemma fill_rex_order_cases o rex p s out s' :
  rexpool s = Some p -> pool_wf p -> 0 <= amount rex <= amount (RexPool.total_rex p) ->
  fill_rex_order o rex s = Ok (out, s') ->
  let S0 := amount (RexPool.total_lendable p) in
  let R0 := amount (RexPool.total_rex p) in
  let pz := amount rex * S0 / R0 in
  let spare := amount (RexPool.total_unlent p) - amount (RexPool.total_lent p) / 10 in
  (pz <= spare /\ success out = true /\ amount (order_proceeds out) = pz /\
   exists p', rexpool s' = Some p' /\ amount (RexPool.total_lendable p') = S0 - pz /\
     amount (RexPool.total_rex p') = R0 - amount rex /\ amount (RexPool.total_unlent p') = amount (RexPool.total_unlent p) - pz /\
     amount (RexPool.total_lent p') = amount (RexPool.total_lent p))
  \/ (spare < pz /\ success out = false /\ s' = s /\ amount (order_proceeds out) = 0).
Proof.
  intros Hp [Hu Hl Hsum HS HR] Hrex H S0 R0 pz spare. unfold fill_rex_order in H.
  apply bind_Ok in H as (p0 & s1 & [Hp0 ->]%get_pool_Ok & H). rewrite Hp in Hp0. injection Hp0 as <-.
  apply bind_Ok in H as (z & s1 & [Hz ->]%lift_Ok & H).
  pose proof (share_le (amount rex) S0 R0 Hrex ltac:(unfold S0; lia) ltac:(unfold R0; lia)) as Hpz.
  apply muldiv_exact in Hz; [|unfold S0, R0 in *; lia..]. fold S0 R0 in Hz. fold pz in Hz, Hpz. subst z.
  apply bind_Ok in H as (c & s1 & [_ ->]%core_symbol_Ok & H).
  apply bind_Ok in H as (pr & s1 & [(_ & _ & ->)%make_asset_Ok ->]%lift_Ok & H). cbv zeta in H.
  rewrite Z.quot_div_nonneg in H by lia. pose proof (Z.div_pos (amount (RexPool.total_lent p)) 10).
  assert (amount (RexPool.total_lent p) / 10 <= amount (RexPool.total_lent p)) by (apply Z.div_le_upper_bound; lia).
  rewrite i64_small in H by (unfold in_i64, spare in *; lia). fold spare in H. cbn [amount] in H.
  destruct (Z.leb_spec pz spare); [left|right; by minv H].
  apply bind_Ok in H as (b & s1 & [Hb ->]%get_rex_balance_Ok & H). apply bind_Ok in H as (cs & s1 & [_ ->]%lift_Ok & H).
  unfold set_pool, set_rex_balance in H. minv H. split; [done|]. split; [done|]. split; [done|].
  eexists. split; [done|]. cbn. rewrite !i64_small by (unfold in_i64; fold S0 R0; lia). fold S0 R0. lia.
Qed.

(** C30: a sell order is filled exactly when the pool has its worth to spare above a tenth
    of what is lent; otherwise nothing changes. The seller gets the worth of the REX
    rounded down, so that what each remaining REX is worth does not fall, and the pool
    keeps that tenth. *)
Theorem fill_rex_order_fair o rex p s out s' :
  rexpool s = Some p -> pool_wf p -> 0 <= amount rex <= amount (RexPool.total_rex p) ->
  fill_rex_order o rex s = Ok (out, s') ->
  let S0 := amount (RexPool.total_lendable p) in
  let R0 := amount (RexPool.total_rex p) in
  (success out = true <->
   amount rex * S0 / R0 <= amount (RexPool.total_unlent p) - amount (RexPool.total_lent p) / 10) /\
  (success out = false -> s' = s) /\
  (success out = true -> exists p', rexpool s' = Some p' /\
     amount (order_proceeds out) = amount rex * S0 / R0 /\
     amount (RexPool.total_rex p') = R0 - amount rex /\
     amount (RexPool.total_lendable p') = S0 - amount (order_proceeds out) /\
     S0 * amount (RexPool.total_rex p') <= amount (RexPool.total_lendable p') * R0 /\
     amount (RexPool.total_lent p') / 10 <= amount (RexPool.total_unlent p')).
Proof.
  intros Hp Hwf Hrex H. cbv zeta. pose proof Hwf as [Hu Hl Hsum HS HR].
  destruct (fill_rex_order_cases o rex p s out s' Hp Hwf Hrex H)
    as [(Hle & -> & Hpr & p' & Hp' & HS1 & HR1 & Hu1 & Hl1)|(Hlt & -> & -> & _)].
  - split; [done|]. split; [done|]. intros _. exists p'. rewrite Hpr, HS1, HR1, Hu1, Hl1.
    split; [done|]. split; [done|]. split; [done|]. split; [done|]. split; [|lia].
    pose proof (Z.mul_div_le (amount rex * amount (RexPool.total_lendable p)) (amount (RexPool.total_rex p)) ltac:(lia)). nia.
  - split; [|split; [done|discriminate]]. split; [discriminate|]. lia.
Qed.

Lemma add_to_rex_pool_price q p s r s' :
  rexpool s = Some p -> pool_wf p -> 0 < amount q -> amount (RexPool.total_lendable p) + amount q < 2 ^ 63 ->
  (amount (RexPool.total_lendable p) + amount q) * amount (RexPool.total_rex p) / amount (RexPool.total_lendable p) < 2 ^ 63 ->
  add_to_rex_pool q s = Ok (r, s') ->
  exists p', rexpool s' = Some p' /\ pool_wf p' /\
    amount (RexPool.total_lendable p') = amount (RexPool.total_lendable p) + amount q /\
    amount (RexPool.total_rex p') =
      (amount (RexPool.total_lendable p) + amount q) * amount (RexPool.total_rex p) / amount (RexPool.total_lendable p) /\
    amount r = amount (RexPool.total_rex p') - amount (RexPool.total_rex p) /\ 0 <= amount r.
Proof.
  intros Hp [Hu Hl Hsum HS HR] Hq Hcap Hcap2 H. set (S0 := amount (RexPool.total_lendable p)) in *.
  set (R0 := amount (RexPool.total_rex p)) in *.
  unfold add_to_rex_pool in H. apply bind_Ok in H as (c & s1 & [_ ->]%core_symbol_Ok & H).
  apply bind_Ok in H as (itr & s1 & [-> ->]%gets_Ok & H). rewrite Hp in H.
  apply bind_Ok in H as (av & s1 & [-> ->]%gets_Ok & H). unfold rex_available in H. rewrite Hp in H.
  fold R0 in H. rewrite (proj2 (Z.ltb_lt 0 R0)) in H by lia. cbn [negb] in H.
  apply bind_Ok in H as ([] & s1 & [_ ->]%check_Ok & H). cbv zeta in H. fold S0 in H.
  apply bind_Ok in H as (R1 & s1 & [HR1 ->]%lift_Ok & H). rewrite (i64_small (S0 + amount q)) in HR1, H by (unfold in_i64; lia).
  apply muldiv_exact in HR1; [|lia..].
  assert (R0 <= R1) by (rewrite HR1; apply Z.div_le_lower_bound; nia).
  apply bind_Ok in H as ([] & s1 & [_ ->]%check_Ok & H). unfold set_pool in H. minv H.
  rewrite (i64_small (_ - amount (RexPool.total_lent p))) in * by (unfold in_i64; lia).
  eexists. split; [done|]. cbn. rewrite i64_small by (unfold in_i64; lia). split; [split; cbn; lia|].
  split_and!; try done; lia.
Qed.

(** C31: buying REX and selling it at once never pays: with the pool's numbers in agreement
    and in range, what the sale of all the REX just bought yields is at most what was paid. *)
Theorem buy_then_sell_never_pays o q p s r s1 out s2 :
  rexpool s = Some p -> pool_wf p -> 0 < amount q -> amount (RexPool.total_lendable p) + amount q < 2 ^ 63 ->
  (amount (RexPool.total_lendable p) + amount q) * amount (RexPool.total_rex p) / amount (RexPool.total_lendable p) < 2 ^ 63 ->
  add_to_rex_pool q s = Ok (r, s1) -> fill_rex_order o r s1 = Ok (out, s2) ->
  amount (order_proceeds out) <= amount q.
Proof.
  intros Hp Hwf Hq Hcap Hcap2 Hbuy Hsell.
  destruct (add_to_rex_pool_price q p s r s1 Hp Hwf Hq Hcap Hcap2 Hbuy) as (p1 & Hp1 & Hwf1 & HS1 & HR1 & Hr & Hr0).
  pose proof Hwf as [_ _ _ HS HR]. pose proof Hwf1 as [_ _ _ HS' HR'].
  destruct (fill_rex_order_cases o r p1 s1 out s2 Hp1 Hwf1 ltac:(lia) Hsell)
    as [(_ & _ & -> & _)|(_ & _ & _ & ->)]; [|lia].
  rewrite HS1, Hr. clear - Hq HS HR HR' HR1. revert HR1 HS HR HR' Hq.
  generalize (amount (RexPool.total_lendable p)), (amount (RexPool.total_rex p)), (amount (RexPool.total_rex p1)), (amount q).
  intros S0 R0 R1 d HR1 HS HR HR' Hd. pose proof (Z.mul_div_le ((S0 + d) * R0) S0 ltac:(lia)) as Hle.
  rewrite <- HR1 in Hle. apply Z.div_le_upper_bound; nia.
Qed.
End prices.

(** ** Examples *)
Definition rex_coin (z : Z) : asset := Asset z rex_symbol.
Definition ex_pool : rex_pool :=
  RexPool.mk (tlos 1000000) (tlos 9000000) (tlos 200000000) (tlos 10000000) (rex_coin 100000000000) (tlos 0) 0.
Definition ex_rex_sys : sys :=
  ex_chain_sys <| rexpool := Some ex_pool |>
    <| rexbalances := {[ 5 := RexBal.mk 5 (tlos 10000000) (rex_coin 100000000000) 100000000000 [] ]} |>
    <| rexfunds := {[ 5 := RexFund.mk 5 (tlos 500000) ]} |>
    <| voters := {[ 5 := new_voter 5 ]} |>.

Lemma ex_pool_wf : pool_wf ex_pool.
Proof. split; cbn; lia. Qed.

Lemma rex_books_agree_witness :
  exists s', is_ok (rex_exec (cdt := cdt_model) (libm := libm_model) (ex_env_of 5 1700000000000000)
      (Buyrex 5 (tlos 100001)) ex_rex_sys) = true /\
    total_rex_of s' = 100000000000 + 1000010000 /\ pool_ok s' /\ rex_gap s' = 0.
Proof.
  set (e := ex_env_of 5 1700000000000000). set (a := Buyrex 5 (tlos 100001)).
  assert (match rex_exec (cdt := cdt_model) (libm := libm_model) e a ex_rex_sys with
          | Ok (_, s') => total_rex_of s' =? 100000000000 + 1000010000
          | Err _ => false end = true) as Hnum by (vm_compute; reflexivity).
  destruct (rex_exec (cdt := cdt_model) (libm := libm_model) e a ex_rex_sys) as [[u s']|] eqn:H; [|discriminate].
  assert (0 <= total_rex_of ex_rex_sys) as Hpos by (vm_compute; discriminate).
  destruct (rex_books_agree (cdt := cdt_model) (libm := libm_model) e a ex_rex_sys u s' Hpos H) as [Hok Hgap].
  exists s'. split; [reflexivity|]. split; [by apply Z.eqb_eq|]. split.
  - apply Hok. intros p [= <-]. vm_compute. reflexivity.
  - rewrite Hgap. vm_compute. reflexivity.
Defined.

Lemma fill_rex_order_fair_witness :
  exists out s' p', fill_rex_order (cdt := cdt_model) 5 (rex_coin 1000000001) ex_rex_sys = Ok (out, s') /\
    success out = true /\ rexpool s' = Some p' /\ amount (order_proceeds out) = 100000 /\
    amount (RexPool.total_rex p') = 98999999999.
Proof.
  assert (match fill_rex_order (cdt := cdt_model) 5 (rex_coin 1000000001) ex_rex_sys with
          | Ok (out, _) => success out | Err _ => false end = true) as Hs by (vm_compute; reflexivity).
  destruct (fill_rex_order (cdt := cdt_model) 5 (rex_coin 1000000001) ex_rex_sys) as [[out s']|] eqn:H; [|discriminate].
  assert (0 <= 1000000001 <= 100000000000) as Hrange by lia.
  destruct (fill_rex_order_fair (cdt := cdt_model) 5 (rex_coin 1000000001) ex_pool ex_rex_sys out s' eq_refl ex_pool_wf
    Hrange H) as (_ & _ & Hok).
  destruct (Hok Hs) as (p' & Hp' & Hpr & Hr & _). exists out, s', p'.
  split; [reflexivity|]. split; [exact Hs|]. split; [exact Hp'|]. split; [exact Hpr|exact Hr].
Defined.

Lemma buy_then_sell_never_pays_witness :
  exists r s1 out s2, add_to_rex_pool (cdt := cdt_model) (tlos 100001) ex_rex_sys = Ok (r, s1) /\
    fill_rex_order (cdt := cdt_model) 5 r s1 = Ok (out, s2) /\ amount (order_proceeds out) <= 100001.
Proof.
  destruct (add_to_rex_pool (cdt := cdt_model) (tlos 100001) ex_rex_sys) as [[r s1]|] eqn:Hbuy;
    [|vm_compute in Hbuy; discriminate].
  assert (is_ok (match add_to_rex_pool (cdt := cdt_model) (tlos 100001) ex_rex_sys with
          | Ok (r, s1) => fill_rex_order (cdt := cdt_model) 5 r s1 | Err m => Err m end) = true) as Hs
    by (vm_compute; reflexivity).
  rewrite Hbuy in Hs. destruct (fill_rex_order (cdt := cdt_model) 5 r s1) as [[out s2]|] eqn:Hsell; [|discriminate].
  exists r, s1, out, s2. split; [reflexivity|]. split; [exact Hsell|].
  apply (buy_then_sell_never_pays (cdt := cdt_model) 5 (tlos 100001) ex_pool ex_rex_sys r s1 out s2 eq_refl ex_pool_wf).
  - reflexivity.
  - vm_compute. reflexivity.
  - vm_compute. reflexivity.
  - exact Hbuy.
  - exact Hsell.
Defined.
