(* ===== verification/RexReturn.v ===== *)
(** * The return pool of REX

    Fees sent to REX wait in a pending bucket of at most twelve hours, then pay out every
    ten minutes for thirty days. [rex_return_pool] keeps only rates and a total; the
    invariant here says that the total is exactly what the buckets have yet to pay, and
    the theorem that updating the pool moves into the REX pool exactly what fell due. *)
From S2P Require Import Prelude.
From S2P Require Import Cdt.
From S2P Require Import Float64.
From S2P Require Import SysState.
From S2P Require Import Exchange.
From S2P Require Import RexPool.
From S2P Require Import Bandwidth.
From S2P Require Import Rex.
From S2P Require Import Solvency.
From S2P Require Import RexLedger.
From stdpp Require Import base gmap strings list sorting.
Open Scope Z_scope.

(** The thirty days a bucket pays for, in seconds. *)
Definition span : Z := total_intervals * dist_interval.
Lemma span_eq : span = 2592000.
Proof. done. Qed.
Definition aligned (t : Z) : Prop := t mod dist_interval = 0.

(** What a bucket has yet to pay after [last], and what was overpaid to one past its end. *)
Definition to_pay (last : Z) (b : Z * Z) : Z := b.2 * (b.1 `div` dist_interval + total_intervals - last `div` dist_interval).
Definition overpaid (now : Z) (b : Z * Z) : Z :=
  b.2 * Z.max 0 (now `div` dist_interval - b.1 `div` dist_interval - total_intervals).
Definition before (a b : Z * Z) : Prop := a.1 < b.1.

(** The books of the return pool at the end of a distribution, whose buckets may be past
    their end; [ret_ok] is when those are gone. *)
Definition bucket_ok (rp : rex_return_pool) (b : Z * Z) : Prop :=
  aligned b.1 /\ 0 <= b.1 <= RetPool.last_dist_time rp /\ b.1 < RetPool.pending_bucket_time rp /\
  RetPool.oldest_bucket_time rp <= b.1 /\ 0 <= b.2.

Record ret_books (now : Z) (rp : rex_return_pool) (bs : list (Z * Z)) : Prop := {
  ret_last : aligned (RetPool.last_dist_time rp) /\ 0 <= RetPool.last_dist_time rp < 2 ^ 32;
  ret_pending : 0 <= RetPool.pending_bucket_proceeds rp;
  ret_pending_time :
    RetPool.pending_bucket_time rp = end_of_days /\ RetPool.pending_bucket_proceeds rp = 0 /\
      RetPool.last_dist_time rp <= now \/
    aligned (RetPool.pending_bucket_time rp) /\
      RetPool.last_dist_time rp <= RetPool.pending_bucket_time rp < end_of_days;
  ret_buckets : Forall (bucket_ok rp) bs;
  ret_sorted : StronglySorted before bs;
  ret_rate : RetPool.current_rate_of_increase rp = zsum snd bs;
  ret_proceeds : RetPool.proceeds rp =
    RetPool.pending_bucket_proceeds rp + zsum (to_pay (RetPool.last_dist_time rp)) bs;
}.

Definition unexpired (last : Z) (b : Z * Z) : Prop := last < b.1 + span.
Record ret_ok (now : Z) (rp : rex_return_pool) (bs : list (Z * Z)) : Prop := {
  ret_books_ok : ret_books now rp bs;
  ret_current : Forall (unexpired (RetPool.last_dist_time rp)) bs;
}.

(** The clock: thirty days after 1970, and before the last of the 32-bit seconds. *)
Definition now_sec (e : Env) : Z := now_us e / 1000000.
Definition clock_ok (e : Env) : Prop :=
  0 <= now_us e /\ span + dist_interval <= now_sec e /\ now_sec e + span + 43200 < 2 ^ 32 - 1.
(** The last ten minutes that have passed. *)
Definition effective (e : Env) : Z := now_sec e - now_sec e mod dist_interval.
(** The tokens to distribute, times the intervals since the last distribution, fit in 63 bits. *)
Definition payable (e : Env) (rp : rex_return_pool) : Prop :=
  effective e <= RetPool.last_dist_time rp \/
  RetPool.proceeds rp * (effective e / dist_interval - RetPool.last_dist_time rp / dist_interval + 1) < 2 ^ 63.

(** ** Intervals *)
Ltac intervals := unfold aligned, span, total_intervals, dist_interval in *; Z.to_euclidean_division_equations; lia.

Lemma past_end now t : aligned now -> aligned t -> 0 <= t <= now - span ->
  now / dist_interval - (t + span) / dist_interval = now / dist_interval - t / dist_interval - total_intervals /\
  0 <= now / dist_interval - t / dist_interval - total_intervals /\ aligned (t + span).
Proof. intros. split_and!; intervals. Qed.
Lemma before_end now t : aligned now -> aligned t -> 0 <= t -> now < t + span ->
  now / dist_interval - t / dist_interval - total_intervals <= 0.
Proof. intros. intervals. Qed.

Lemma elapsed_aligned a b : aligned a -> aligned b -> 0 <= b <= a -> a < 2 ^ 32 ->
  get_elapsed_intervals a b = a / dist_interval - b / dist_interval.
Proof. intros Ha Hb Hle Hr. unfold get_elapsed_intervals. rewrite u32_small by (unfold in_u32; lia). intervals. Qed.

Lemma effective_facts e : clock_ok e ->
  aligned (effective e) /\ span <= effective e <= now_sec e /\ effective e + span + 43200 < 2 ^ 32 - 1 /\
  now_sec e < effective e + dist_interval.
Proof. intros (? & ? & ?). unfold effective. repeat split; intervals. Qed.

(** ** Sums over buckets *)
Lemma to_pay_later bs last last' :
  zsum (to_pay last') bs = zsum (to_pay last) bs - zsum snd bs * (last' / dist_interval - last / dist_interval).
Proof. induction bs as [|b bs IH]; [done|]. rewrite !zsum_cons, IH. unfold to_pay. lia. Qed.

Lemma rates_due last bs : aligned last -> Forall (fun b => aligned b.1 /\ 0 <= b.1 /\ 0 <= b.2) bs ->
  Forall (unexpired last) bs -> 0 <= zsum snd bs <= zsum (to_pay last) bs.
Proof.
  intros Hal Hall Hun. induction Hun as [|b bs Hb _ IH]; [done|].
  apply Forall_cons in Hall as [(Ha & Ht & Hr) Hall]. specialize (IH Hall). rewrite !zsum_cons.
  assert (1 <= b.1 / dist_interval + total_intervals - last / dist_interval).
  { unfold unexpired in Hb. clear IH. intervals. }
  unfold to_pay at 1. nia.
Qed.

(** What was overpaid is part of what was paid since [last]. *)
Lemma overpaid_le last now bs : aligned last -> aligned now -> last <= now ->
  Forall (fun b => aligned b.1 /\ 0 <= b.1 /\ 0 <= b.2) bs -> Forall (unexpired last) bs ->
  0 <= zsum (overpaid now) bs <= zsum snd bs * (now / dist_interval - last / dist_interval).
Proof.
  intros Hal Han Hle Hall Hun. induction Hun as [|b bs Hb _ IH]; [done|].
  apply Forall_cons in Hall as [(Ha & Ht & Hr) Hall]. specialize (IH Hall). rewrite !zsum_cons.
  assert (0 <= Z.max 0 (now / dist_interval - b.1 / dist_interval - total_intervals) <=
    now / dist_interval - last / dist_interval) as Hm.
  { unfold unexpired in Hb. clear IH. intervals. }
  unfold overpaid at 1 3. nia.
Qed.

Lemma overpaid_nonneg now b : 0 <= b.2 -> 0 <= overpaid now b.
Proof. unfold overpaid. nia. Qed.

Lemma insert_bucket_last t r bs : Forall (fun b => b.1 < t) bs -> insert_bucket t r bs = bs ++ [(t, r)].
Proof.
  induction 1 as [|[t0 r0] bs Hb Hall IH]; [done|]. cbn in *. by rewrite (proj2 (Z.ltb_lt _ _) Hb), IH.
Qed.

(** ** Buckets past their thirty days *)
Definition expiry_ok (now : Z) (b : Z * Z) : Prop := aligned b.1 /\ 0 <= b.1 <= now /\ 0 <= b.2.

Lemma expire_buckets_spec now bs : aligned now -> span <= now -> now + span < 2 ^ 32 ->
  StronglySorted before bs -> Forall (expiry_ok now) bs ->
  forall acc, 0 <= acc.1 -> acc.1 + zsum (overpaid now) bs < 2 ^ 63 -> 0 <= acc.2 -> acc.2 + zsum snd bs < 2 ^ 63 ->
  exists gone rest, bs = gone ++ rest /\
    expire_buckets now (now - span) acc bs = ((acc.1 + zsum (overpaid now) bs, acc.2 + zsum snd gone), rest) /\
    Forall (fun b => now < b.1 + span) rest /\ zsum (to_pay now) gone = - zsum (overpaid now) bs.
Proof.
  intros Hal Hn Hn2. induction 1 as [|[t r] bs Hs IH Hlt]; intros Hall acc H1 H1' H2 H2'.
  - exists [], []. destruct acc as [a1 a2]. cbn [expire_buckets fst snd]. rewrite !zsum_nil, !Z.add_0_r. done.
  - apply Forall_cons in Hall as [(Ha & Ht & Hr) Hall]. cbn [fst snd] in Ha, Ht, Hr.
    assert (0 <= zsum (overpaid now) bs /\ 0 <= zsum snd bs) as [Hp1 Hp2].
    { split; apply zsum_nonneg; eapply Forall_impl; try exact Hall; cbn; intros b (_ & _ & Hb); [by apply overpaid_nonneg|done]. }
    pose proof (overpaid_nonneg now (t, r) Hr) as Hp0. rewrite !zsum_cons in *. cbn [snd] in H2'.
    cbn [expire_buckets]. destruct (Z.leb_spec t (now - span)) as [Hle|Hgt].
    + change (total_intervals * dist_interval) with span.
      rewrite (u32_small (t + span)) by (unfold in_u32; pose proof span_eq; lia).
      destruct (past_end now t Hal Ha) as (Heq & Hover & Hal'); [lia|].
      rewrite elapsed_aligned by (try done; pose proof span_eq; lia).
      rewrite Heq, <- (Z.max_r 0 (now / dist_interval - t / dist_interval - total_intervals)) by done.
      change (r * Z.max 0 _) with (overpaid now (t, r)).
      rewrite (i64_small (overpaid now (t, r))) by (unfold in_i64; lia).
      rewrite (i64_small (acc.1 + _)), (i64_small (acc.2 + r)) by (unfold in_i64; lia).
      destruct (IH Hall (acc.1 + overpaid now (t, r), acc.2 + r)) as (gone & rest & -> & -> & Hrest & Hgone); cbn [fst snd]; try lia.
      exists ((t, r) :: gone), rest. cbn [app fst snd]. rewrite !zsum_cons, !Z.add_assoc. cbn [snd].
      split_and!; [done..|]. rewrite Hgone. unfold to_pay, overpaid. cbn [fst snd]. rewrite Z.max_r by done. lia.
    + assert (Forall (fun b => now < b.1 + span) ((t, r) :: bs)) as Hrest.
      { constructor; [cbn; lia|]. eapply Forall_impl; [exact Hlt|]. intros b Hb. unfold before in Hb. cbn in *. lia. }
      assert (zsum (overpaid now) ((t, r) :: bs) = 0) as Hz.
      { assert (Forall (expiry_ok now) ((t, r) :: bs)) as Hok by by constructor. clear - Hrest Hok Hal.
        induction Hrest as [|b l Hb _ IHl]; [done|]. apply Forall_cons in Hok as [(Hba & ? & _) Hl].
        rewrite zsum_cons, IHl by done. unfold overpaid. rewrite Z.max_l by (apply before_end; tauto). lia. }
      rewrite zsum_cons in Hz. exists [], ((t, r) :: bs). destruct acc as [a1 a2]. cbn [fst snd].
      rewrite Hz, !zsum_nil, !Z.add_0_r. done.
Qed.

Lemma StronglySorted_snoc bs b :
  StronglySorted before bs -> Forall (fun a => before a b) bs -> StronglySorted before (bs ++ [b]).
Proof.
  intros Hs Hall. apply StronglySorted_app_2; [|done|by repeat constructor].
  intros a b' Ha ->%list_elem_of_singleton. by apply (proj1 (Forall_forall _ _) Hall).
Qed.

(** ** Closing the pending bucket *)
Lemma remainder_of pp : 0 <= pp ->
  let remainder := Z.rem pp total_intervals in
  0 <= remainder /\ pp = total_intervals * Z.quot (pp - remainder) total_intervals + remainder /\
  0 <= Z.quot (pp - remainder) total_intervals <= pp.
Proof. intros Hpp. cbv zeta. unfold total_intervals. Z.to_euclidean_division_equations. lia. Qed.

Lemma close_pending_spec now t rp bs :
  ret_ok now rp bs -> aligned t -> RetPool.last_dist_time rp < t <= now -> now + span < end_of_days ->
  RetPool.proceeds rp * (t / dist_interval - RetPool.last_dist_time rp / dist_interval + 1) < 2 ^ 63 ->
  exists rp1 c nb,
    close_pending t rp (i64 (RetPool.current_rate_of_increase rp * get_elapsed_intervals t (RetPool.last_dist_time rp))) = (rp1, c, nb) /\
    let bs1 := from_option (fun b => insert_bucket b.1 b.2 bs) bs nb in
    ret_books now rp1 bs1 /\ RetPool.last_dist_time rp1 = t /\
    RetPool.proceeds rp1 = RetPool.proceeds rp - c /\ 0 <= zsum (overpaid t) bs1 <= c /\ c < 2 ^ 63 /\
    zsum snd bs1 < 2 ^ 63.
Proof.
  intros [[[Hal Hl] Hpp Hpt Hbs Hs Hrate Hproc] Hcur] Hat Ht Hnow Hcap.
  pose proof span_eq as Hspan. change end_of_days with 4294967295 in *.
  set (last := RetPool.last_dist_time rp) in *. set (k := t / dist_interval - last / dist_interval) in *.
  assert (0 < k) as Hk by (subst k; clear - Hal Hat Ht; intervals).
  assert (Forall (fun b => aligned b.1 /\ 0 <= b.1 /\ 0 <= b.2) bs) as Hall.
  { eapply Forall_impl; [exact Hbs|]. intros b (? & ? & _ & _ & ?). split_and!; [done|lia|done]. }
  destruct (rates_due last bs Hal Hall Hcur) as [Hr0 Hr1].
  destruct (overpaid_le last t bs Hal Hat ltac:(lia) Hall Hcur) as [Ho0 Ho1]. fold k in Ho1.
  pose proof (to_pay_later bs last t) as Hlater. fold k in Hlater.
  rewrite elapsed_aligned by (done || lia). fold last k. rewrite Hrate.
  set (R := zsum snd bs) in *. set (D := zsum (to_pay last) bs) in *. set (pp := RetPool.pending_bucket_proceeds rp) in *.
  assert (R * k <= D * k) as HRD by nia.
  assert (D * k + pp * k + D + pp < 2 ^ 63) as Hcap' by (rewrite Hproc in Hcap; lia).
  assert (0 <= R * k /\ 0 <= pp * k /\ 0 <= D * k) as (HRk & Hppk & HDk) by nia.
  rewrite (i64_small (R * k)) by (unfold in_i64; lia).
  assert (forall f, Forall (bucket_ok rp) bs -> (forall b, bucket_ok rp b -> bucket_ok f b) -> Forall (bucket_ok f) bs) as Himpl
    by (intros f Hf ?; eapply Forall_impl; eauto).
  unfold close_pending. fold last pp. destruct (Z.leb_spec (RetPool.pending_bucket_time rp) t) as [Hle|Hgt].
  - destruct Hpt as [(Hpt & _)|[Hap Hpt]]; [lia|]. set (P := RetPool.pending_bucket_time rp) in *.
    destruct (remainder_of pp Hpp) as (Hrem & Hsplit & Hnr). set (rem := Z.rem pp total_intervals) in *.
    set (k' := t / dist_interval - P / dist_interval).
    assert (0 <= k' <= k) as Hk' by (subst k k'; clear - Hal Hat Hap Hpt Hle; intervals).
    rewrite elapsed_aligned by (done || lia). fold k'.
    rewrite (i64_small (pp - rem)) by (unfold in_i64; change total_intervals with 4320 in *; lia).
    set (nr := Z.quot (pp - rem) total_intervals) in *.
    assert (0 <= nr * k' /\ nr * k' <= pp * k) as [Hn0 Hn1] by nia. assert (rem <= pp) by (change total_intervals with 4320 in *; lia).
    rewrite (i64_small (nr * k')), (i64_small (rem + nr * k')), (i64_small (R * k + (rem + nr * k'))) by (unfold in_i64; lia).
    do 3 eexists. split; [reflexivity|]. cbn [from_option fst snd]. cbv zeta.
    rewrite insert_bucket_last by (eapply Forall_impl; [exact Hbs|]; intros b (_ & _ & ? & _); done).
    assert (zsum (overpaid t) (bs ++ [(P, nr)]) = zsum (overpaid t) bs + overpaid t (P, nr)) as Hov
      by (rewrite zsum_app, zsum_cons, zsum_nil; lia).
    assert (0 <= overpaid t (P, nr) <= nr * k') as Hovn.
    { unfold overpaid. cbn [fst snd]. assert (0 <= Z.max 0 (t / dist_interval - P / dist_interval - total_intervals) <= k')
        by (subst k'; change total_intervals with 4320; lia). nia. }
    rewrite Hov, zsum_app, zsum_cons, zsum_nil. cbn [snd]. fold R.
    split; [|cbn; rewrite i64_small by (unfold in_i64; lia); split_and!; lia].
    split; cbn [RetPool.last_dist_time RetPool.pending_bucket_proceeds RetPool.pending_bucket_time
      RetPool.current_rate_of_increase RetPool.proceeds update_field].
    + split; [done|lia].
    + done.
    + left. split_and!; [done..|lia].
    + apply Forall_app. split; [|constructor; [|done]].
      * apply Himpl; [done|]. intros b (Hba & Hbt & Hbp & Hbo & Hbr). unfold bucket_ok. cbn. fold last P in Hbt, Hbp |- *.
        unfold end_of_days. split_and!; try done; try lia. destruct (Z.ltb_spec P (RetPool.oldest_bucket_time rp)); lia.
      * unfold bucket_ok. cbn. fold P. unfold end_of_days. split_and!; try done; try lia.
        destruct (Z.ltb_spec P (RetPool.oldest_bucket_time rp)); lia.
    + apply StronglySorted_snoc; [done|]. eapply Forall_impl; [exact Hbs|]. intros b (_ & _ & ? & _). done.
    + rewrite Hrate, i64_small by (unfold in_i64; fold R; lia). rewrite zsum_app, zsum_cons, zsum_nil. fold R. cbn. lia.
    + rewrite i64_small by (unfold in_i64; lia). rewrite zsum_app, zsum_cons, zsum_nil, Hlater.
      change (to_pay t (P, nr)) with (nr * (P / dist_interval + total_intervals - t / dist_interval)).
      rewrite Hproc. fold D. subst k'. change total_intervals with 4320 in *. lia.
  - do 3 eexists. split; [reflexivity|]. cbn [from_option]. cbv zeta.
    split; [|cbn; rewrite i64_small by (unfold in_i64; lia); split_and!; lia].
    split; cbn [RetPool.last_dist_time RetPool.pending_bucket_proceeds RetPool.pending_bucket_time
      RetPool.current_rate_of_increase RetPool.proceeds update_field]; try done.
    + split; [done|lia].
    + unfold end_of_days. destruct Hpt as [(-> & ? & _)|[? ?]]; [left; split_and!; [done..|lia]|right; split; [done|lia]].
    + apply Himpl; [done|]. intros b (Hba & Hbt & Hbp & Hbo & Hbr). unfold bucket_ok. cbn. fold last in Hbt.
      split_and!; try done; lia.
    + rewrite i64_small by (unfold in_i64; lia). rewrite Hlater, Hproc. fold D. lia.
Qed.

(** ** Dropping the buckets that have paid *)
Lemma expire_old_spec now rp bs c :
  let t := RetPool.last_dist_time rp in
  ret_books now rp bs -> span <= t -> t + span < 2 ^ 32 ->
  0 <= zsum (overpaid t) bs <= c -> c < 2 ^ 63 -> zsum snd bs < 2 ^ 63 ->
  - 2 ^ 63 <= RetPool.proceeds rp -> RetPool.proceeds rp + c < 2 ^ 63 ->
  exists rp2 rest,
    expire_old t rp bs c = (rp2, rest, c - zsum (overpaid t) bs) /\ ret_ok now rp2 rest /\
    RetPool.last_dist_time rp2 = t /\ RetPool.proceeds rp2 = RetPool.proceeds rp + zsum (overpaid t) bs.
Proof.
  intros t [[Hal Hl] Hpp Hpt Hbs Hs Hrate Hproc] Hspan Hcap Hov Hc Hr Hlow Hhigh. fold t in Hal, Hl, Hproc.
  unfold expire_old. change (total_intervals * dist_interval) with span.
  rewrite u32_small by (unfold in_u32; pose proof span_eq; lia).
  destruct (expire_buckets_spec t bs Hal Hspan Hcap Hs) with (acc := (0, 0)) as (gone & rest & Hsplit & -> & Hrest & Hgone);
    cbn [fst snd]; try lia.
  { eapply Forall_impl; [exact Hbs|]. intros b (? & [? ?] & _ & _ & ?). by split_and!. }
  rewrite !Z.add_0_l. set (ov := zsum (overpaid t) bs) in *.
  assert (0 <= zsum snd gone /\ 0 <= zsum snd rest) as [Hg0 Hr0].
  { rewrite Hsplit in Hbs. apply Forall_app in Hbs as [Hbg Hbr].
    split; apply zsum_nonneg; [eapply Forall_impl; [exact Hbg|]|eapply Forall_impl; [exact Hbr|]];
      by intros b (_ & _ & _ & _ & ?). }
  assert (zsum snd bs = zsum snd gone + zsum snd rest) as Hsum by (by rewrite Hsplit, zsum_app).
  assert (zsum (to_pay t) bs = zsum (to_pay t) rest - ov) as Hpay by (rewrite Hsplit, zsum_app; lia).
  set (oldest := match rest with (t0, _) :: _ => t0 | [] => 0 end).
  assert (forall rp2, RetPool.last_dist_time rp2 = t -> RetPool.pending_bucket_time rp2 = RetPool.pending_bucket_time rp ->
    RetPool.pending_bucket_proceeds rp2 = RetPool.pending_bucket_proceeds rp -> RetPool.oldest_bucket_time rp2 = oldest ->
    RetPool.current_rate_of_increase rp2 = zsum snd rest -> RetPool.proceeds rp2 = RetPool.proceeds rp + ov ->
    ret_ok now rp2 rest) as Hok.
  { intros rp2 E1 E2 E3 E4 E5 E6. split; [split; rewrite ?E1, ?E2, ?E3, ?E5, ?E6; try done; [| |lia]|].
    - rewrite Hsplit in Hbs, Hs. apply Forall_app in Hbs as [_ Hbr]. apply Forall_forall. intros b Hb.
      pose proof (proj1 (Forall_forall _ _) Hbr b Hb) as (Hba & Hbt & Hbp & _ & Hbn). unfold bucket_ok. rewrite E1, E2, E4.
      split_and!; try done; try (fold t in Hbt; lia). apply StronglySorted_app_1_r in Hs. subst oldest.
      destruct rest as [|[t0 r0] rest]; [by apply not_elem_of_nil in Hb|].
      apply elem_of_cons in Hb as [->|Hb]; [done|]. inversion Hs as [|? ? _ Hlt]; subst.
      pose proof (proj1 (Forall_forall _ _) Hlt b Hb) as Hb'. unfold before in Hb'. cbn in Hb'. lia.
    - rewrite Hsplit in Hs. by apply StronglySorted_app_1_r in Hs.
    - by rewrite E1. }
  rewrite Hsum in Hrate, Hr. clearbody ov oldest.
  destruct (Z.ltb_spec 0 (zsum snd gone)); destruct (Z.ltb_spec 0 ov); cbv beta iota zeta;
    [rewrite (i64_small (c - ov)) by (unfold in_i64; lia)|replace (c - ov) with c by lia
    |rewrite (i64_small (c - ov)) by (unfold in_i64; lia)|replace (c - ov) with c by lia];
    eexists _, rest; (split; [reflexivity|split; [apply Hok|split]]); cbn; fold t; try done; rewrite ?Hrate;
    rewrite ?i64_small by (unfold in_i64; lia); lia.
Qed.

Lemma ret_proceeds_nonneg now rp bs : ret_ok now rp bs -> 0 <= RetPool.proceeds rp.
Proof.
  intros [[[Hal Hl] Hpp _ Hbs _ _ ->] Hcur].
  assert (Forall (fun b => aligned b.1 /\ 0 <= b.1 /\ 0 <= b.2) bs) as Hall.
  { eapply Forall_impl; [exact Hbs|]. intros b (? & [? _] & _ & _ & ?). by split_and!. }
  pose proof (rates_due _ bs Hal Hall Hcur). lia.
Qed.

(** Both steps of the update. *)
Lemma settle_spec now t rp bs :
  ret_ok now rp bs -> aligned t -> RetPool.last_dist_time rp < t <= now -> span <= t -> now + span < end_of_days ->
  RetPool.proceeds rp * (t / dist_interval - RetPool.last_dist_time rp / dist_interval + 1) < 2 ^ 63 ->
  exists rp1 c1 nb, close_pending t rp
      (i64 (RetPool.current_rate_of_increase rp * get_elapsed_intervals t (RetPool.last_dist_time rp))) = (rp1, c1, nb) /\
    let bs1 := from_option (fun b => insert_bucket b.1 b.2 bs) bs nb in
    exists rp2 c2 bs2, (if RetPool.oldest_bucket_time rp1 <=? t - span then expire_old t rp1 bs1 c1 else (rp1, bs1, c1)) = (rp2, bs2, c2) /\
    ret_ok now rp2 bs2 /\ RetPool.last_dist_time rp2 = t /\ RetPool.proceeds rp2 = RetPool.proceeds rp - c2 /\ 0 <= c2.
Proof.
  intros Hok Hat Ht Hst Hnow Hcap. pose proof (ret_proceeds_nonneg _ _ _ Hok) as Hpos. pose proof span_eq as Hspan.
  assert (RetPool.proceeds rp < 2 ^ 63) as Hp63.
  { assert (0 < t / dist_interval - RetPool.last_dist_time rp / dist_interval); [|nia].
    destruct Hok as [[[Hal Hl] _ _ _ _ _ _] _]. clear Hcap. intervals. }
  destruct (close_pending_spec now t rp bs Hok Hat Ht Hnow Hcap) as (rp1 & c1 & nb & Heq & Hb1 & Hl1 & Hp1 & Hov & Hc1 & Hr1).
  exists rp1, c1, nb. split; [done|]. cbv zeta in *. set (bs1 := from_option _ bs nb) in *. clearbody bs1.
  change end_of_days with 4294967295 in *.
  destruct (expire_old_spec now rp1 bs1 c1) as (rp2 & rest & Hexp & Hok2 & Hl2 & Hp2); rewrite ?Hl1; try done; try lia.
  rewrite Hl1 in *. destruct (Z.leb_spec (RetPool.oldest_bucket_time rp1) (t - span)) as [Hle|Hgt].
  - exists rp2, (c1 - zsum (overpaid t) bs1), rest. split; [done|]. split; [done|]. split; [done|]. lia.
  - exists rp1, c1, bs1. split; [done|]. split; [|split; [done|lia]]. split; [done|]. rewrite Hl1.
    eapply Forall_impl; [apply Hb1|]. intros b (_ & _ & _ & ? & _). unfold unexpired. lia.
Qed.

(** ** The update of the pool *)

(** What [update_rex_pool] does with the tokens that fell due. *)
Definition grow_unlent `{cdt : Cdt} (change : Z) : M sys unit :=
  p ← get_pool;
  let p1 := p <| RexPool.total_unlent ::= fun a => a <| amount ::= fun z => i64 (z + change) |> |> in
  lendable ← lift (asset_plus (RexPool.total_unlent p1) (RexPool.total_lent p1));
  set_pool (p1 <| RexPool.total_lendable := lendable |>).

Definition with_returns (rp : rex_return_pool) (bs : list (Z * Z)) (s : sys) : sys :=
  s <| rexretpool := Some rp |> <| rexretbuckets := Some bs |>.

Lemma with_same_returns rp bs s :
  rexretpool s = Some rp -> rexretbuckets s = Some bs -> with_returns rp bs s = s.
Proof. destruct s. cbn. by intros -> ->. Qed.

Section update.
Context `{cdt : Cdt} `{!CdtLaws cdt} (e : Env).
Implicit Types s : sys.

Lemma now_sec_eq : clock_ok e -> sec_of_us (now_us e) = now_sec e.
Proof.
  intros (H0 & H1 & H2). rewrite sec_of_us_eq by done. apply u32_small. unfold in_u32, now_sec in *.
  pose proof span_eq. change dist_interval with 600 in *. lia.
Qed.

Lemma update_rex_pool_settles s rp bs :
  clock_ok e -> rexretpool s = Some rp -> rexretbuckets s = Some bs -> ret_ok (now_sec e) rp bs -> payable e rp ->
  exists rp' bs' change, 0 <= change /\ ret_ok (now_sec e) rp' bs' /\ effective e <= RetPool.last_dist_time rp' /\
    RetPool.proceeds rp' = RetPool.proceeds rp - change /\
    update_rex_pool e s = when (0 <? change) (grow_unlent change) (with_returns rp' bs' s).
Proof.
  intros Hclock Hrp Hbs Hok Hpay. destruct (effective_facts e Hclock) as (Hae & Hse & Hce & Hne). pose proof span_eq as Hspan.
  unfold update_rex_pool. rewrite (now_sec_eq Hclock). fold (effective e).
  rewrite (u32_small (effective e)) by (unfold in_u32; lia).
  change (total_intervals * dist_interval) with span.
  rewrite (u32_small (effective e - span)) by (unfold in_u32; lia).
  rewrite (bind_run_Ok (gets rexretpool) _ s (Some rp) s) by (unfold gets; by rewrite Hrp).
  destruct (Z.leb_spec (effective e) (RetPool.last_dist_time rp)) as [Hle|Hgt].
  { exists rp, bs, 0. split; [done|]. split; [done|]. split; [done|]. split; [lia|]. by rewrite with_same_returns. }
  destruct Hpay as [?|Hpay]; [lia|].
  destruct (settle_spec (now_sec e) (effective e) rp bs) as (rp1 & c1 & nb & Hclose & Hrest); try done; try lia.
  { destruct Hclock as (_ & _ & ?). unfold end_of_days. lia. }
  cbv zeta in Hrest |- *. rewrite Hclose. destruct Hrest as (rp2 & c2 & bs2 & Hexp & Hok2 & Hl2 & Hp2 & Hc2).
  exists rp2, bs2, c2. split; [done|]. split; [done|]. split; [lia|]. split; [done|].
  set (bs1 := from_option (fun b => insert_bucket b.1 b.2 bs) bs nb) in *.
  assert ((match nb with Some (t, rate) => b ← get_buckets; set_buckets (insert_bucket t rate b) | None => mret tt end)
    (s <| rexretpool := Some rp1 |>) = Ok (tt, with_returns rp1 bs1 s)) as Hnb.
  { destruct nb as [[t r]|]; cbn [from_option fst snd] in bs1.
    - unfold get_buckets, set_buckets, mbind, M_bind, gets, require_found, mret, M_ret. cbn [rexretbuckets update_field]. by rewrite Hbs.
    - subst bs1. unfold with_returns, mret, M_ret. do 2 f_equal. clear - Hbs. destruct s. cbn in *. by rewrite Hbs. }
  rewrite (bind_run_Ok (set_ret_pool rp1) _ s tt (s <| rexretpool := Some rp1 |>)) by done.
  erewrite bind_run_Ok by exact Hnb.
  assert ((if RetPool.oldest_bucket_time rp1 <=? effective e - span then
      b ← get_buckets;
      let '(rp3, rest, change2) := expire_old (effective e) rp1 b c1 in set_buckets rest ;; set_ret_pool rp3 ;; mret (rp3, change2)
    else mret (rp1, c1)) (with_returns rp1 bs1 s) = Ok ((rp2, c2), with_returns rp2 bs2 s)) as Hif.
  { destruct (_ <=? _).
    - unfold get_buckets, set_buckets, set_ret_pool, mbind, M_bind, gets, require_found, mret, M_ret, modify.
      cbn [with_returns rexretbuckets update_field]. rewrite Hexp. reflexivity.
    - injection Hexp as -> -> ->. reflexivity. }
  erewrite bind_run_Ok by exact Hif. cbv beta iota.
  pose proof (ret_proceeds_nonneg _ _ _ Hok2) as Hnn.
  rewrite (proj2 (Z.ltb_ge (RetPool.proceeds rp2) 0)) by done. rewrite andb_false_r. reflexivity.
Qed.

(** *** The return pool in the state *)
Definition ret_due (s : sys) : Z := from_option RetPool.proceeds 0 (rexretpool s).
Definition ret_inv (now : Z) (s : sys) : Prop :=
  forall rp, rexretpool s = Some rp -> exists bs, rexretbuckets s = Some bs /\ ret_ok now rp bs.
Definition calm (s : sys) : Prop := forall rp, rexretpool s = Some rp -> payable e rp.
Definition settled (s : sys) : Prop := forall rp, rexretpool s = Some rp -> effective e <= RetPool.last_dist_time rp.
Definition unlent_of (s : sys) : Z := from_option (fun p => amount (RexPool.total_unlent p)) 0 (rexpool s).

Lemma ret_due_nonneg now s : ret_inv now s -> 0 <= ret_due s.
Proof.
  intros Hinv. unfold ret_due. destruct (rexretpool s) as [rp|] eqn:Hrp; [|done]. cbn.
  destruct (Hinv rp Hrp) as (bs & _ & Hok). by eapply ret_proceeds_nonneg.
Qed.

Lemma grow_unlent_Ok change s u s' : grow_unlent change s = Ok (u, s') ->
  exists p, rexpool s = Some p /\ let unlent := i64 (amount (RexPool.total_unlent p) + change) in
    amount_in_range (unlent + amount (RexPool.total_lent p)) /\
    s' = s <| rexpool := Some (p <| RexPool.total_unlent ::= fun a => a <| amount := unlent |> |>
      <| RexPool.total_lendable := Asset (unlent + amount (RexPool.total_lent p)) (asset_symbol (RexPool.total_unlent p)) |>) |>.
Proof.
  unfold grow_unlent. intros H. apply bind_Ok in H as (p & s1 & [Hp ->]%get_pool_Ok & H). cbv zeta in H.
  apply bind_Ok in H as (l & s1 & [(_ & Hr & ->)%asset_plus_Ok ->]%lift_Ok & H).
  unfold set_pool in H. apply modify_Ok in H as ->. exists p. split; [done|]. cbv zeta. split; [exact Hr|reflexivity].
Qed.

Lemma update_rex_pool_spec s u s' :
  clock_ok e -> ret_inv (now_sec e) s -> calm s -> update_rex_pool e s = Ok (u, s') ->
  ret_inv (now_sec e) s' /\ settled s' /\ exists change s1, 0 <= change /\ ret_due s' = ret_due s - change /\
    (rexpool s1 = rexpool s /\ rexretpool s' = rexretpool s1) /\ when (0 <? change) (grow_unlent change) s1 = Ok (u, s').
Proof.
  intros Hclock Hinv Hcalm H. destruct (rexretpool s) as [rp|] eqn:Hrp.
  - destruct (Hinv rp Hrp) as (bs & Hbs & Hok).
    destruct (update_rex_pool_settles s rp bs Hclock Hrp Hbs Hok (Hcalm rp Hrp)) as (rp' & bs' & c & Hc & Hok' & Heff & Hp & Heq).
    rewrite Heq in H.
    assert (rexretpool s' = Some rp' /\ rexretbuckets s' = Some bs') as [Hrp' Hbs'].
    { pose proof H as H'. apply when_Ok in H'. destruct (0 <? c).
      - apply grow_unlent_Ok in H' as (p & _ & _ & ->). done.
      - by rewrite H'. }
    split; [intros q; rewrite Hrp'; intros [= <-]; by exists bs'|].
    split; [intros q; rewrite Hrp'; intros [= <-]; done|].
    exists c, (with_returns rp' bs' s). split; [done|]. unfold ret_due. rewrite Hrp, Hrp'. done.
  - unfold update_rex_pool in H. rewrite (bind_run_Ok (gets rexretpool) _ s None s) in H by (unfold gets; by rewrite Hrp).
    apply ret_Ok in H as [-> ->]. split; [done|]. split; [intros q; by rewrite Hrp|]. exists 0, s. split_and!; [done|lia|done..].
Qed.

(** The end of the current twelve hours. *)
Lemma bucket_end : clock_ok e ->
  let t := u32 (now_sec e - now_sec e mod (hours_per_bucket * seconds_per_hour) + hours_per_bucket * seconds_per_hour) in
  aligned t /\ now_sec e < t < end_of_days /\ 0 <= t < 2 ^ 32.
Proof.
  intros (_ & H1 & H2). pose proof span_eq as Hs. change (hours_per_bucket * seconds_per_hour) with 43200.
  change dist_interval with 600 in H1. change end_of_days with 4294967295. cbv zeta.
  pose proof (Z.mod_pos_bound (now_sec e) 43200 ltac:(lia)) as Hm.
  rewrite u32_small by (unfold in_u32; lia). split; [|lia]. unfold aligned. change dist_interval with 600.
  rewrite (Z.mod_eq (now_sec e)) by lia. clear. Z.to_euclidean_division_equations. lia.
Qed.

Lemma add_to_rex_return_pool_spec fee s u s' :
  clock_ok e -> ret_inv (now_sec e) s -> calm s -> ret_due s + amount fee < 2 ^ 63 ->
  add_to_rex_return_pool e fee s = Ok (u, s') ->
  ret_inv (now_sec e) s' /\ settled s' /\ exists s1, update_rex_pool e s = Ok (tt, s1) /\
    ret_due s' = ret_due s1 + Z.max 0 (amount fee) /\ rexpool s' = rexpool s1.
Proof.
  intros Hclock Hinv Hcalm Hcap H. unfold add_to_rex_return_pool in H.
  apply bind_Ok in H as ([] & s1 & Hup & H).
  destruct (update_rex_pool_spec s tt s1 Hclock Hinv Hcalm Hup) as (Hinv1 & Hcalm1 & c & s0 & Hc & Hdue & _ & _).
  destruct (Z.leb_spec (amount fee) 0) as [Hfee|Hfee].
  { apply ret_Ok in H as [-> ->]. split; [done|]. split; [done|]. exists s1. split_and!; [done|lia|done]. }
  rewrite (now_sec_eq Hclock) in H. destruct (bucket_end Hclock) as (Hal & Hnow & Hr). cbv zeta in H.
  set (t := u32 _) in *. clearbody t. destruct (effective_facts e Hclock) as (Hae & Hse & Hce & Hne).
  apply bind_Ok in H as (rp0 & s2 & [-> ->]%gets_Ok & H). pose proof (ret_due_nonneg _ _ Hinv1) as Hnn.
  unfold set_ret_pool, set_buckets in H. unfold ret_due in *. destruct (rexretpool s1) as [rp|] eqn:Hrp; cbn in Hdue, Hnn.
  - destruct (Hinv1 rp Hrp) as (bs & Hbs & [[Hl Hpp Hpt Hb Hs Hrate Hproc] Hcur]). apply modify_Ok in H.
    assert (RetPool.pending_bucket_proceeds rp <= RetPool.proceeds rp) as Hple.
    { rewrite Hproc. assert (Forall (fun b => aligned b.1 /\ 0 <= b.1 /\ 0 <= b.2) bs) as Hall
        by (eapply Forall_impl; [exact Hb|]; intros b (? & [? _] & _ & _ & ?); by split_and!).
      pose proof (rates_due _ bs (proj1 Hl) Hall Hcur). lia. }
    eassert (rexretpool s' = Some _) as Hrp' by (rewrite H; reflexivity).
    assert (rexretbuckets s' = Some bs /\ rexpool s' = rexpool s1) as [Hbs' Hpool] by (rewrite H; done). clear H.
    unfold ret_inv, settled. rewrite Hrp', Hbs', Hpool.
    split; [|split; [intros q [= <-]; exact (Hcalm1 rp Hrp)|exists s1; split_and!; [done| |done]]].
    2:{ rewrite Hrp. cbn. rewrite i64_small by (unfold in_i64; lia). lia. }
    intros q [= <-]. exists bs. split; [done|]. split; [split|]; cbn; rewrite ?i64_small by (unfold in_i64; lia); try done; try lia.
    + destruct (Z.eqb_spec (RetPool.pending_bucket_time rp) end_of_days) as [Heq|Hne'];
        [right; destruct Hpt as [(_ & _ & ?)|[_ ?]]; [split; [done|lia]|lia]|right; by destruct Hpt as [(? & _)|?]].
    + eapply Forall_impl; [exact Hb|]. intros b (? & ? & ? & ? & ?). unfold bucket_ok. cbn. split_and!; try done; try lia.
      destruct (Z.eqb_spec (RetPool.pending_bucket_time rp) end_of_days) as [Heq|]; [|done].
      destruct Hpt as [(_ & _ & ?)|[_ ?]]; lia.
  - minv H.
    split; [|split; [intros q [= <-]; cbn; lia|exists s1; split_and!; [done|rewrite Hrp; cbn; lia|done]]].
    intros q [= <-]. exists []. split; [done|]. split; [split|]; cbn; rewrite ?zsum_nil; try done; try lia.
    + right. split; [done|lia].
    + constructor.
Qed.

(** The REX pool can take [z] more tokens. *)
Definition pool_takes (p : rex_pool) (z : Z) : Prop :=
  let unlent := amount (RexPool.total_unlent p) in
  let lent := amount (RexPool.total_lent p) in
  asset_symbol (RexPool.total_unlent p) = asset_symbol (RexPool.total_lent p) /\
  - 2 ^ 63 <= unlent /\ unlent + z < 2 ^ 63 /\ - max_amount <= unlent + lent /\ unlent + lent + z <= max_amount.

(** C17: Fees to REX are neither lost nor paid twice. While the return pool's total is its
    pending fees and what each bucket has yet to pay, updating the pool succeeds, keeps the
    total so at the new time, and moves into the REX pool exactly what the total lost;
    a fee added afterwards raises the total by itself. No bucket outlives its thirty days. *)
Theorem return_pool_exact s rp bs p :
  clock_ok e -> rexretpool s = Some rp -> rexretbuckets s = Some bs -> ret_ok (now_sec e) rp bs -> payable e rp ->
  rexpool s = Some p -> pool_takes p (RetPool.proceeds rp) ->
  exists s' rp' bs', update_rex_pool e s = Ok (tt, s') /\ rexretpool s' = Some rp' /\ rexretbuckets s' = Some bs' /\
    ret_ok (now_sec e) rp' bs' /\ effective e <= RetPool.last_dist_time rp' /\
    0 <= RetPool.proceeds rp' <= RetPool.proceeds rp /\
    unlent_of s' = unlent_of s + (RetPool.proceeds rp - RetPool.proceeds rp') /\
    forall fee u s'', RetPool.proceeds rp + amount fee < 2 ^ 63 -> add_to_rex_return_pool e fee s = Ok (u, s'') ->
      ret_inv (now_sec e) s'' /\ ret_due s'' = RetPool.proceeds rp' + Z.max 0 (amount fee) /\ unlent_of s'' = unlent_of s'.
Proof.
  intros Hclock Hrp Hbs Hok Hpay Hp (Hsym & Hlo & Hhi & Hmin & Hmax).
  destruct (update_rex_pool_settles s rp bs Hclock Hrp Hbs Hok Hpay) as (rp' & bs' & c & Hc & Hok' & Heff & Hpr & Heq).
  pose proof (ret_proceeds_nonneg _ _ _ Hok') as Hnn. pose proof (ret_proceeds_nonneg _ _ _ Hok) as Hnn0.
  assert (exists s', update_rex_pool e s = Ok (tt, s') /\ rexretpool s' = Some rp' /\ rexretbuckets s' = Some bs' /\
    unlent_of s' = unlent_of s + c) as (s' & Hs' & Hrp' & Hbs' & Hun).
  { rewrite Heq. destruct (Z.ltb_spec 0 c) as [Hpos|Hz]; cbn [when].
    - eassert (grow_unlent c (with_returns rp' bs' s) = Ok (tt, _)) as Hgrow.
      { unfold grow_unlent. apply bind_Ok. exists p, (with_returns rp' bs' s). split; [by apply get_pool_Ok|]. cbv zeta.
        apply bind_Ok. eexists _, _. split; [apply lift_Ok; split; [|reflexivity]|reflexivity].
        apply asset_plus_Ok. cbn [RexPool.total_unlent RexPool.total_lent asset_symbol amount update_field].
        split; [done|]. split; [|reflexivity]. rewrite i64_small by (unfold in_i64; lia). unfold amount_in_range. lia. }
      rewrite Hgrow. eexists. split; [reflexivity|]. split; [done|]. split; [done|].
      unfold unlent_of. cbn. rewrite Hp. cbn. by rewrite i64_small by (unfold in_i64; lia).
    - exists (with_returns rp' bs' s). split_and!; [done..|]. unfold unlent_of. cbn. lia. }
  exists s', rp', bs'. do 5 (split; [done|]). split; [lia|]. split; [lia|].
  intros fee u s'' Hcap H. assert (ret_inv (now_sec e) s) as Hinv by (intros q; rewrite Hrp; intros [= <-]; by exists bs).
  destruct (add_to_rex_return_pool_spec fee s u s'' Hclock Hinv) as (Hinv'' & _ & s1 & Hs1 & Hdue & Hpool); [| |done|].
  - intros q. rewrite Hrp. by intros [= <-].
  - unfold ret_due. by rewrite Hrp.
  - split; [done|]. rewrite Hs' in Hs1. injection Hs1 as <-. unfold ret_due in Hdue at 2. rewrite Hrp' in Hdue. cbn in Hdue.
    split; [done|]. unfold unlent_of. by rewrite Hpool.
Qed.
End update.

(** ** An example: one bucket pays on, one ends, and the pending one opens *)
Definition ex_ret_pool : rex_return_pool := RetPool.mk 1699996200 1699999200 1697404800 43201 12 73397.
Definition ex_ret_buckets : list (Z * Z) := [(1697404800, 5); (1699992000, 7)].
Definition ex_ret_sys : sys := with_returns ex_ret_pool ex_ret_buckets ex_rex_sys.
Definition ex_ret_env : Env := ex_env_of 5 1700000000000000.

Lemma return_pool_exact_witness :
  exists s' rp', update_rex_pool (cdt := cdt_model) ex_ret_env ex_ret_sys = Ok (tt, s') /\ rexretpool s' = Some rp' /\
    RetPool.proceeds rp' = 73397 - 58 /\ unlent_of s' = 9000000 + 58 /\ rexretbuckets s' = Some [(1699992000, 7); (1699999200, 10)].
Proof.
  assert (clock_ok ex_ret_env) as Hc by (split; [|split]; [vm_compute; discriminate|vm_compute; discriminate|reflexivity]).
  assert (ret_ok (now_sec ex_ret_env) ex_ret_pool ex_ret_buckets) as Hok.
  { split; [split|].
    - split; [reflexivity|]. cbn. lia.
    - cbn. lia.
    - right. split; [reflexivity|]. cbn. unfold end_of_days. lia.
    - repeat constructor; cbn; lia.
    - repeat constructor; cbn; lia.
    - reflexivity.
    - reflexivity.
    - repeat constructor; cbn; unfold unexpired; rewrite span_eq; cbn; lia. }
  assert (payable ex_ret_env ex_ret_pool) as Hpay by (right; vm_compute; reflexivity).
  assert (pool_takes ex_pool (RetPool.proceeds ex_ret_pool)) as Ht by (do 4 (split; [first [reflexivity | vm_compute; discriminate]|]); vm_compute; discriminate).
  destruct (return_pool_exact (cdt := cdt_model) ex_ret_env ex_ret_sys ex_ret_pool ex_ret_buckets ex_pool
    Hc eq_refl eq_refl Hok Hpay eq_refl Ht) as (s' & rp' & bs' & Hrun & Hrp & Hbs & _ & _ & _ & Hun & _).
  assert (match update_rex_pool (cdt := cdt_model) ex_ret_env ex_ret_sys with
    | Ok (_, s1) => (ret_due s1 =? 73339) && (unlent_of s1 =? 9000058) &&
        bool_decide (rexretbuckets s1 = Some [(1699992000, 7); (1699999200, 10)])
    | Err _ => false end = true) as Hnum by (vm_compute; reflexivity).
  rewrite Hrun in Hnum. rewrite !andb_true_iff, bool_decide_eq_true, !Z.eqb_eq in Hnum. destruct Hnum as [[Hdue Hu] Hb].
  exists s', rp'. split; [exact Hrun|]. split; [exact Hrp|]. split; [|split; [exact Hu|exact Hb]].
  unfold ret_due in Hdue. rewrite Hrp in Hdue. exact Hdue.
Defined.
