(* ===== verification/RexVault.v ===== *)
(** * The tokens of REX

    [eosio.rex] holds the tokens of the REX funds, of the pool, of the fees waiting to
    enter it, of the balances of loans, and of the sell orders that were filled and not
    yet collected. The theorems here follow all REX actions: what [eosio.rex] was sent
    always covers what these tables promise, the shares of the balance rows are the
    shares the pool issued, and every row is the sum of its buckets.

    Fees are taken to be of the core token and not negative ([vault_args]): the code
    credits the amount of a fee without looking at its symbol. That the callers comply is
    proved in System.v, except for [distviarex], which passes on what TEDP names. *)
From S2P Require Import Prelude.
From S2P Require Import Cdt.
From S2P Require Import Float64.
From S2P Require Import SysState.
From S2P Require Import Votes.
From S2P Require Import Exchange.
From S2P Require Import RexPool.
From S2P Require Import Bandwidth.
From S2P Require Import Rex.
From S2P Require Import Solvency.
From S2P Require Import RexLedger.
From S2P Require Import RexReturn.
From stdpp Require Import base gmap strings list relations sorting.
Open Scope Z_scope.

(** ** What [eosio.rex] owes *)
Definition fund_held (f : rex_fund) : Z := amount (RexFund.balance f).
Definition loan_held (l : rex_loan) : Z := amount (Loan.balance l).
(** A filled order waits to be collected; an open one has not been paid. *)
Definition order_due (o : rex_order) : Z := if Order.is_open o then 0 else amount (Order.proceeds o).
Definition lendable_of (s : sys) : Z := from_option (fun p => amount (RexPool.total_lendable p)) 0 (rexpool s).
Definition vault_owed (s : sys) : Z :=
  msum fund_held (rexfunds s) + msum loan_held (cpu_loans s) + msum loan_held (net_loans s) +
  msum order_due (rexorders s) + lendable_of s + ret_due s.

(** No more tokens than this come to [eosio.rex]: 28 billion of four decimals. *)
Definition rex_cap : Z := 2 ^ 48.

(** ** The books *)

(** The shares never cost less than at first: [rex_ratio] for one token. *)
Record pool_good (y : symbol) (p : rex_pool) : Prop := {
  pg_lendable : 0 <= amount (RexPool.total_lendable p);
  pg_balanced : pool_balanced p;
  pg_rex : 0 <= amount (RexPool.total_rex p) <= rex_ratio * amount (RexPool.total_lendable p);
  pg_symbol : asset_symbol (RexPool.namebid_proceeds p) = y;
}.

(** A row lacks [d] shares in its buckets while an action holds them. *)
Record row_ok (d : Z) (b : rex_balance) : Prop := {
  row_sum : rex_held b = RexBal.matured_rex b + zsum snd (RexBal.rex_maturities b) + d;
  row_matured : 0 <= RexBal.matured_rex b;
  row_buckets : Forall (fun r => 0 <= r.2) (RexBal.rex_maturities b);
}.

(** An open order asks for no more than its owner's matured shares, except that of [x]
    while an action on it is under way. *)
Definition order_ok (rows : gmap name rex_balance) (x : option name) (o : name) (r : rex_order) : Prop :=
  if Order.is_open r
  then 0 < amount (Order.rex_requested r) /\
    (x = Some o \/ exists b, rows !! o = Some b /\ amount (Order.rex_requested r) <= RexBal.matured_rex b)
  else 0 <= amount (Order.proceeds r).

(** What [o] lacks when an action holds [d] shares of account [x]. *)
Definition lacks (x : option (name * Z)) (o : name) : Z :=
  match x with Some (o', d) => if o =? o' then d else 0 | None => 0 end.

Record vault_ok (e : Env) (y : symbol) (x : option name) (h : option (name * Z)) (s : sys) : Prop := {
  v_core : core_of s = Some y;
  v_funds : map_Forall (fun _ f => 0 <= fund_held f) (rexfunds s);
  v_cpu : map_Forall (fun _ l => 0 <= loan_held l /\ 0 <= amount (Loan.payment l)) (cpu_loans s);
  v_net : map_Forall (fun _ l => 0 <= loan_held l /\ 0 <= amount (Loan.payment l)) (net_loans s);
  v_orders : map_Forall (order_ok (rexbalances s) x) (rexorders s);
  v_pool : forall p, rexpool s = Some p -> pool_good y p;
  v_shares : msum rex_held (rexbalances s) = total_rex_of s;
  v_rows : map_Forall (fun o b => 0 <= lacks h o /\ row_ok (lacks h o) b) (rexbalances s);
  v_returns : ret_inv (now_sec e) s;
  v_calm : calm e s;
}.

(** What the claims are about; code that leaves it alone keeps the books. *)
Definition vault (y : symbol) (s : sys) :=
  (core_of s, rexpool s, (rexretpool s, rexretbuckets s), rexfunds s, rexbalances s, rexorders s,
   (cpu_loans s, net_loans s), flow rex_account y (effects s)).

Section vault.
Context `{cdt : Cdt} `{!CdtLaws cdt} `{libm : Libm} (e : Env) (y : symbol) (held : Z).
Context (Hclock : clock_ok e).
Implicit Types s : sys.

Definition tokens (s : sys) : Z := held + flow rex_account y (effects s).
Definition vault_surplus (s : sys) : Z := tokens s - vault_owed s.

(** What actions on other parts of the state, or that only move tokens between the parts
    of this one, respect. *)
Definition vault_kept (x : option name) (h : option (name * Z)) (s s' : sys) : Prop :=
  tokens s <= tokens s' /\
  (vault_ok e y x h s -> 0 <= vault_surplus s -> tokens s' <= rex_cap ->
   vault_ok e y x h s' /\ vault_surplus s' = vault_surplus s).

#[local] Instance vault_kept_preorder x h : PreOrder (vault_kept x h).
Proof.
  split; [by split|]. intros s1 s2 s3 [F12 H12] [F23 H23]. split; [lia|]. intros Hok Hs Hcap.
  destruct (H12 Hok Hs ltac:(lia)) as [Hok2 Hs2]. destruct (H23 Hok2 ltac:(lia) Hcap) as [Hok3 Hs3]. split; [done|lia].
Qed.

Lemma vault_view s s' : vault y s' = vault y s ->
  tokens s' = tokens s /\ vault_surplus s' = vault_surplus s /\ forall x h, vault_ok e y x h s -> vault_ok e y x h s'.
Proof.
  unfold vault. intros [= Ec Ep Er Eb Ef Erow Eo E1 E2 Efl].
  assert (tokens s' = tokens s /\ vault_surplus s' = vault_surplus s) as [Et Es].
  { unfold vault_surplus, vault_owed, tokens, lendable_of, ret_due. by rewrite Ep, Er, Ef, Eo, E1, E2, Efl. }
  split; [done|]. split; [done|]. intros x h [? ? ? ? ? ? ? ? Hinv Hcalm].
  split; unfold total_rex_of, ret_inv, calm in *; rewrite ?Ec, ?Ep, ?Er, ?Eb, ?Ef, ?Erow, ?Eo, ?E1, ?E2; done.
Qed.

Lemma vault_kept_view x h s s' : vault y s' = vault y s -> vault_kept x h s s'.
Proof. intros H. destruct (vault_view s s' H) as (Et & Es & Hok). split; [lia|]. intros. split; [by apply Hok|done]. Qed.

(** Everything promised is covered by what is held. *)
Lemma parts_nonneg x h s : vault_ok e y x h s ->
  0 <= msum fund_held (rexfunds s) /\ 0 <= msum loan_held (cpu_loans s) /\ 0 <= msum loan_held (net_loans s) /\
  0 <= msum order_due (rexorders s) /\ 0 <= lendable_of s /\ 0 <= ret_due s.
Proof.
  intros Hok. split_and!.
  - by apply msum_nonneg, Hok.
  - apply msum_nonneg. eapply map_Forall_impl; [apply Hok|]. by intros ? ? [? _].
  - apply msum_nonneg. eapply map_Forall_impl; [apply Hok|]. by intros ? ? [? _].
  - apply msum_nonneg. eapply map_Forall_impl; [apply (v_orders _ _ _ _ _ Hok)|]. intros o r Hr.
    unfold order_ok in Hr. unfold order_due. destruct (Order.is_open r); [done|exact Hr].
  - unfold lendable_of. destruct (rexpool s) as [p|] eqn:Hp; [|done]. apply (v_pool _ _ _ _ _ Hok p Hp).
  - eapply ret_due_nonneg, Hok.
Qed.

Lemma fund_bound x h s o f : vault_ok e y x h s -> rexfunds s !! o = Some f -> fund_held f <= msum fund_held (rexfunds s).
Proof. intros Hok Hf. apply (msum_lookup_le _ _ o); [apply Hok|done]. Qed.
Lemma held_bound x h s o b : vault_ok e y x h s -> rexbalances s !! o = Some b -> 0 <= rex_held b <= total_rex_of s.
Proof.
  intros Hok Hb. assert (map_Forall (fun _ b => 0 <= rex_held b) (rexbalances s)) as Hall.
  { eapply map_Forall_impl; [apply Hok|]. intros o' b' (? & [-> ? Hb']).
    pose proof (zsum_nonneg snd _ Hb'). lia. }
  split; [by apply (Hall o)|]. rewrite <- (v_shares _ _ _ _ _ Hok). by apply (msum_lookup_le _ _ o).
Qed.
Lemma rex_bound x h s : vault_ok e y x h s -> 0 <= total_rex_of s <= rex_ratio * lendable_of s.
Proof.
  intros Hok. unfold total_rex_of, lendable_of. destruct (rexpool s) as [p|] eqn:Hp; cbn; [|lia].
  by destruct (v_pool _ _ _ _ _ Hok p Hp).
Qed.

(** *** Writes to one table *)
Notation kept_but s s' delta :=
  (tokens s' = tokens s /\ vault_surplus s' = vault_surplus s + (delta)).

Lemma set_fund x h s o f : vault_ok e y x h s -> 0 <= fund_held f ->
  let s' := s <| rexfunds ::= insert o f |> in
  vault_ok e y x h s' /\ kept_but s s' (from_option fund_held 0 (rexfunds s !! o) - fund_held f).
Proof.
  intros Hok Hf s'. split; [|split; [done|]].
  - destruct Hok. split; try assumption. by apply map_Forall_insert_2.
  - unfold vault_surplus, vault_owed. change (rexfunds s') with (<[o := f]> (rexfunds s)). rewrite msum_set.
    change (tokens s') with (tokens s). change (lendable_of s') with (lendable_of s). change (ret_due s') with (ret_due s). cbn. lia.
Qed.

Lemma set_loan x h s k n l : vault_ok e y x h s -> 0 <= loan_held l -> 0 <= amount (Loan.payment l) ->
  forall u s', set_loans k (insert n l) s = Ok (u, s') ->
  vault_ok e y x h s' /\ kept_but s s' (from_option loan_held 0 (loans_of k s !! n) - loan_held l) /\
  loans_of k s' = <[n := l]> (loans_of k s).
Proof.
  intros Hok Hl Hp u s' H. unfold set_loans in H. destruct k; apply modify_Ok in H as ->.
  all: split; [destruct Hok; split; try assumption; by apply map_Forall_insert_2|split; [split; [done|]|done]].
  all: unfold vault_surplus, vault_owed; cbn [loans_of].
  - change (cpu_loans (s <| cpu_loans ::= insert n l |>)) with (<[n := l]> (cpu_loans s)). rewrite msum_set.
    unfold tokens, lendable_of, ret_due. cbn. lia.
  - change (net_loans (s <| net_loans ::= insert n l |>)) with (<[n := l]> (net_loans s)). rewrite msum_set.
    unfold tokens, lendable_of, ret_due. cbn. lia.
Qed.

Lemma delete_loan x h s k n l : vault_ok e y x h s -> loans_of k s !! n = Some l ->
  forall u s', set_loans k (delete n) s = Ok (u, s') -> vault_ok e y x h s' /\ kept_but s s' (loan_held l).
Proof.
  intros Hok Hl u s' H. unfold set_loans in H. destruct k; apply modify_Ok in H as ->.
  all: split; [destruct Hok; split; try assumption; by apply map_Forall_delete|split; [done|]].
  all: unfold vault_surplus, vault_owed; cbn [loans_of] in Hl.
  - rewrite (msum_delete _ _ _ _ Hl). unfold tokens, lendable_of, ret_due. cbn. lia.
  - rewrite (msum_delete _ _ _ _ Hl). unfold tokens, lendable_of, ret_due. cbn. lia.
Qed.

Lemma set_order x h s o r : vault_ok e y x h s -> order_ok (rexbalances s) x o r ->
  let s' := s <| rexorders ::= insert o r |> in
  vault_ok e y x h s' /\ kept_but s s' (from_option order_due 0 (rexorders s !! o) - order_due r).
Proof.
  intros Hok Hr s'. split; [|split; [done|]].
  - destruct Hok. split; try assumption. by apply map_Forall_insert_2.
  - unfold vault_surplus, vault_owed. change (rexorders s') with (<[o := r]> (rexorders s)). rewrite msum_set.
    change (tokens s') with (tokens s). change (lendable_of s') with (lendable_of s). change (ret_due s') with (ret_due s). cbn. lia.
Qed.

Lemma delete_order x h s o r : vault_ok e y x h s -> rexorders s !! o = Some r ->
  let s' := s <| rexorders ::= delete o |> in vault_ok e y x h s' /\ kept_but s s' (order_due r).
Proof.
  intros Hok Hr s'. split; [|split; [done|]].
  - destruct Hok. split; try assumption. by apply map_Forall_delete.
  - unfold vault_surplus, vault_owed. change (rexorders s') with (delete o (rexorders s)).
    rewrite (msum_delete order_due _ _ _ Hr).
    change (tokens s') with (tokens s). change (lendable_of s') with (lendable_of s). change (ret_due s') with (ret_due s). cbn. lia.
Qed.

(** A pool with other tokens, and as many shares. *)
Lemma set_pool_tokens x h s p p' : vault_ok e y x h s -> rexpool s = Some p -> pool_good y p' ->
  amount (RexPool.total_rex p') = amount (RexPool.total_rex p) ->
  let s' := s <| rexpool := Some p' |> in
  vault_ok e y x h s' /\ kept_but s s' (amount (RexPool.total_lendable p) - amount (RexPool.total_lendable p')).
Proof.
  intros Hok Hp Hgood Hrex s'. split; [|split; [done|]].
  - destruct Hok. split; try assumption.
    + by intros q [= <-].
    + unfold total_rex_of in *. change (rexpool s') with (Some p'). rewrite Hp in v_shares0. cbn in *. by rewrite Hrex.
  - unfold vault_surplus, vault_owed, lendable_of. change (rexpool s') with (Some p'). rewrite Hp.
    change (tokens s') with (tokens s). change (ret_due s') with (ret_due s). cbn. lia.
Qed.

(** A row with as many shares: more of them matured, or the same. *)
Lemma set_row x h h' s o b b' : vault_ok e y x h s -> rexbalances s !! o = Some b -> rex_held b' = rex_held b ->
  (forall o', o' <> o -> lacks h' o' = lacks h o') -> 0 <= lacks h' o -> row_ok (lacks h' o) b' ->
  x = Some o \/ RexBal.matured_rex b <= RexBal.matured_rex b' ->
  forall u s', set_rex_balance o b' s = Ok (u, s') -> vault_ok e y x h' s' /\ kept_but s s' 0.
Proof.
  intros Hok Hb Hheld Hlack Hlack0 Hrow Hm u s' H. unfold set_rex_balance in H. apply modify_Ok in H.
  assert (rexbalances s' = <[o := b']> (rexbalances s)) as Hrows by (by rewrite H).
  assert (total_rex_of s' = total_rex_of s) as Htotal by (by rewrite H).
  split; [|subst s'; split; [done|change (vault_surplus s = vault_surplus s + 0); lia]].
  destruct Hok. split; rewrite ?Hrows, ?Htotal; try (subst s'; assumption).
  - assert (rexorders s' = rexorders s) as -> by (by rewrite H). intros o' r Hr. pose proof (v_orders0 o' r Hr) as Hr0.
    unfold order_ok in *. destruct (Order.is_open r); [|done]. destruct Hr0 as [Hr0 [Hx|(b0 & Hb0 & Hle)]]; [by split; [|left]|].
    split; [done|]. destruct (decide (o' = o)) as [->|Hne].
    + destruct Hm as [Hm|Hm]; [by left|right]. exists b'. rewrite lookup_insert_eq. split; [done|].
      rewrite Hb in Hb0. injection Hb0 as <-. lia.
    + right. exists b0. by rewrite lookup_insert_ne.
  - rewrite (msum_insert rex_held _ _ _ _ Hb), Hheld. lia.
  - intros o' b0 Hb0.
    destruct (decide (o' = o)) as [->|Hne].
    + rewrite lookup_insert_eq in Hb0. injection Hb0 as <-. done.
    + rewrite lookup_insert_ne in Hb0 by done. rewrite Hlack by done. by apply (v_rows0 o').
Qed.

(** *** The funds *)
Lemma core_sym_of x h s c s' : vault_ok e y x h s -> core_symbol s = Ok (c, s') -> c = y /\ s' = s.
Proof. intros Hok [Hc ->]%core_symbol_Ok. pose proof (v_core _ _ _ _ _ Hok). split; congruence. Qed.

Lemma transfer_from_fund_inv o q s u s' : transfer_from_fund o q s = Ok (u, s') ->
  0 < amount q /\ core_of s = Some (asset_symbol q) /\ exists f, rexfunds s !! o = Some f /\ amount q <= fund_held f /\
  s' = s <| rexfunds ::= insert o (f <| RexFund.balance ::= fun b => b <| amount ::= fun z => i64 (z - amount q) |> |>) |>.
Proof.
  intros H. unfold transfer_from_fund, find_row in H. apply bind_Ok in H as (c & s1 & [Hc ->]%core_symbol_Ok & H).
  apply bind_Ok in H as ([] & s1 & [Hchk ->]%check_Ok & H). apply bind_Ok in H as (it & s1 & [-> ->]%gets_Ok & H).
  apply bind_Ok in H as (f & s1 & [Hf ->]%require_found_Ok & H). apply bind_Ok in H as (b & s1 & [[_ ->]%asset_le_Ok ->]%lift_Ok & H).
  apply bind_Ok in H as ([] & s1 & [Hle%Z.leb_le ->]%check_Ok & H). apply modify_Ok in H.
  apply andb_true_iff in Hchk as [Hpos%Z.ltb_lt <-%symbol_eqb_eq]. eauto 10.
Qed.

Lemma transfer_from_fund_vault x h o q s u s' : transfer_from_fund o q s = Ok (u, s') ->
  vault_ok e y x h s -> vault_owed s < 2 ^ 62 ->
  vault_ok e y x h s' /\ kept_but s s' (amount q) /\ 0 < amount q.
Proof.
  intros (Hpos & _ & f & Hf & Hle & ->)%transfer_from_fund_inv Hok Hcap.
  pose proof (parts_nonneg x h s Hok) as Hparts. pose proof (fund_bound x h s o f Hok Hf) as Hb.
  unfold vault_surplus, vault_owed in *.
  set (f' := f <| RexFund.balance ::= fun b => b <| amount ::= fun z => i64 (z - amount q) |> |>).
  assert (fund_held f' = fund_held f - amount q) as Hf' by (apply i64_small; unfold in_i64, fund_held in *; lia).
  destruct (set_fund x h s o f' Hok) as [Hok' [Ht Hs']]; [lia|].
  split; [done|]. split; [|done]. split; [done|]. unfold vault_surplus, vault_owed in Hs'. rewrite Hs', Hf. cbn [from_option]. lia.
Qed.

Lemma transfer_to_fund_vault x h o q s u s' : transfer_to_fund o q s = Ok (u, s') ->
  vault_ok e y x h s -> vault_owed s + amount q < 2 ^ 62 ->
  vault_ok e y x h s' /\ kept_but s s' (- amount q) /\ 0 < amount q.
Proof.
  intros H Hok Hcap. pose proof (parts_nonneg x h s Hok) as Hparts.
  unfold transfer_to_fund, find_row in H. apply bind_Ok in H as (c & s1 & [Hc ->]%core_symbol_Ok & H).
  apply bind_Ok in H as ([] & s1 & [[Hpos%Z.ltb_lt _]%andb_true_iff ->]%check_Ok & H). apply bind_Ok in H as (it & s1 & [-> ->]%gets_Ok & H).
  destruct (rexfunds s !! o) as [f|] eqn:Hf; apply modify_Ok in H as ->.
  - pose proof (fund_bound x h s o f Hok Hf) as Hb. pose proof (v_funds _ _ _ _ _ Hok o f Hf) as Hf0.
    cbn in Hf0. set (f' := f <| RexFund.balance ::= fun b => b <| amount ::= fun z => i64 (z + amount q) |> |>).
    assert (fund_held f' = fund_held f + amount q) as Hf'
      by (apply i64_small; unfold vault_owed, in_i64, fund_held in *; lia).
    destruct (set_fund x h s o f' Hok) as [Hok' [Ht Hs']]; [lia|].
    split; [done|]. split; [|done]. split; [done|]. rewrite Hs', Hf. cbn [from_option]. lia.
  - destruct (set_fund x h s o (RexFund.mk o q) Hok) as [Hok' [Ht Hs']]; [unfold fund_held; cbn; lia|].
    split; [done|]. split; [|done]. split; [done|]. rewrite Hs', Hf. cbn [from_option]. unfold fund_held. cbn. lia.
Qed.

(** *** The pool and the fees *)
Definition off_pool (s : sys) :=
  (core_of s, rexfunds s, rexbalances s, rexorders s, (cpu_loans s, net_loans s), flow rex_account y (effects s)).

Ltac off_pool :=
  unfold set_pool, get_pool, set_ret_pool, get_ret_pool, get_buckets, set_buckets, find_row, core_symbol, get_core_symbol;
  solve_respects.
Lemma update_rex_pool_off_pool : keeps off_pool (update_rex_pool e).
Proof. unfold update_rex_pool. off_pool. Qed.
Hint Resolve update_rex_pool_off_pool : respects.
Lemma add_to_rex_return_pool_off_pool fee : keeps off_pool (add_to_rex_return_pool e fee).
Proof. unfold add_to_rex_return_pool. off_pool. Qed.

(** Numbers of 64 bits that are congruent are equal. *)
Lemma mod64_eq a b : - 2 ^ 62 < a < 2 ^ 62 -> - 2 ^ 62 < b < 2 ^ 62 -> a mod 2 ^ 64 = b mod 2 ^ 64 -> a = b.
Proof. intros Ha Hb H. revert Ha Hb H. mod64. Qed.

Lemma grow_unlent_good change p : pool_good y p -> 0 <= change ->
  amount (RexPool.total_lendable p) + change < 2 ^ 62 ->
  let unlent := i64 (amount (RexPool.total_unlent p) + change) in
  amount_in_range (unlent + amount (RexPool.total_lent p)) ->
  let p' := p <| RexPool.total_unlent ::= fun a => a <| amount := unlent |> |>
    <| RexPool.total_lendable := Asset (unlent + amount (RexPool.total_lent p)) (asset_symbol (RexPool.total_unlent p)) |> in
  pool_good y p' /\ amount (RexPool.total_lendable p') = amount (RexPool.total_lendable p) + change.
Proof.
  intros [Hl Hb Hr Hsym] Hc Hcap unlent Hrange p'.
  assert (unlent + amount (RexPool.total_lent p) = amount (RexPool.total_lendable p) + change) as Heq.
  { unfold amount_in_range, max_amount in Hrange. apply mod64_eq; [lia|lia|]. subst unlent. unfold pool_balanced in Hb.
    clear Hrange. revert Hb. mod64. }
  assert (amount (RexPool.total_lendable p') = unlent + amount (RexPool.total_lent p)) as Hl' by done.
  split; [|lia]. split; [lia|unfold pool_balanced; rewrite Hl'; done| |done].
  change (RexPool.total_rex p') with (RexPool.total_rex p). unfold rex_ratio in *. lia.
Qed.

(** Due tokens move from the return pool to the pool. *)
Lemma update_rex_pool_vault x h s u s' : update_rex_pool e s = Ok (u, s') ->
  tokens s' = tokens s /\
  (vault_ok e y x h s -> vault_owed s < 2 ^ 62 -> vault_ok e y x h s' /\ vault_surplus s' = vault_surplus s).
Proof.
  intros H. pose proof (update_rex_pool_off_pool _ _ _ H) as Hoff. unfold off_pool in Hoff. injection Hoff as Ec Ef Erow Eo E1 E2 Efl.
  assert (tokens s' = tokens s) as Ht by (unfold tokens; by rewrite Efl). split; [done|]. intros Hok Hcap.
  pose proof (parts_nonneg x h s Hok) as Hparts.
  destruct (update_rex_pool_spec e s u s' Hclock (v_returns _ _ _ _ _ Hok) (v_calm _ _ _ _ _ Hok) H)
    as (Hinv & Hset & c & s1 & Hc & Hdue & [Hp1 _] & Hgrow).
  assert (calm e s') as Hcalm by (intros q Hq; left; by apply Hset).
  pose proof (ret_due_nonneg _ _ Hinv) as Hnn. unfold vault_owed in Hcap.
  assert ((forall p, rexpool s' = Some p -> pool_good y p) /\ lendable_of s' = lendable_of s + c /\ total_rex_of s' = total_rex_of s)
    as (Hgood & Hlend & Htotal).
  { apply when_Ok in Hgrow. destruct (Z.ltb_spec 0 c) as [Hpos|Hz].
    - apply grow_unlent_Ok in Hgrow as (p & Hp & Hrange & Hs'). rewrite Hp1 in Hp.
      eassert (rexpool s' = Some _) as Hp' by (rewrite Hs'; reflexivity). clear Hs'.
      unfold lendable_of, total_rex_of in *. rewrite Hp in *. cbn [from_option] in *.
      destruct (grow_unlent_good c p (v_pool _ _ _ _ _ Hok p Hp) Hc ltac:(lia) Hrange) as [Hgood Hl].
      rewrite Hp'. cbn [from_option]. split; [by intros q [= <-]|]. split; [exact Hl|done].
    - subst s1. unfold lendable_of, total_rex_of. rewrite Hp1. split; [apply Hok|]. split; [lia|done]. }
  split; [destruct Hok; split; rewrite ?Ec, ?Ef, ?Erow, ?Eo, ?E1, ?E2, ?Htotal; assumption|].
  unfold vault_surplus, vault_owed. rewrite Ht, Ef, Eo, E1, E2, Hlend, Hdue. lia.
Qed.

Lemma add_to_rex_return_pool_vault x h fee s u s' : add_to_rex_return_pool e fee s = Ok (u, s') ->
  tokens s' = tokens s /\
  (vault_ok e y x h s -> vault_owed s + Z.max 0 (amount fee) < 2 ^ 62 ->
   vault_ok e y x h s' /\ vault_surplus s' = vault_surplus s - Z.max 0 (amount fee)).
Proof.
  intros H. pose proof (add_to_rex_return_pool_off_pool _ _ _ _ H) as Hoff. unfold off_pool in Hoff.
  injection Hoff as Ec Ef Erow Eo E1 E2 Efl.
  assert (tokens s' = tokens s) as Ht by (unfold tokens; by rewrite Efl). split; [done|]. intros Hok Hcap.
  pose proof (parts_nonneg x h s Hok) as Hparts.
  destruct (add_to_rex_return_pool_spec e fee s u s' Hclock (v_returns _ _ _ _ _ Hok) (v_calm _ _ _ _ _ Hok))
    as (Hinv & Hset & s1 & Hup & Hdue & Hpool); [unfold vault_owed in Hcap; lia|done|].
  pose proof (update_rex_pool_off_pool _ _ _ Hup) as Hoff. unfold off_pool in Hoff.
  injection Hoff as Ec1 Ef1 Erow1 Eo1 E11 E21 Efl1.
  destruct (update_rex_pool_vault x h s tt s1 Hup) as [Ht1 Hup1]. destruct (Hup1 Hok ltac:(lia)) as [Hok1 Hs1].
  assert (calm e s') as Hcalm by (intros q Hq; left; by apply Hset).
  assert (total_rex_of s' = total_rex_of s1 /\ lendable_of s' = lendable_of s1) as [Htotal Hlend]
    by (unfold total_rex_of, lendable_of; by rewrite Hpool).
  split; [destruct Hok1; split; rewrite ?Htotal, ?Hpool, ?Ec, ?Ef, ?Erow, ?Eo, ?E1, ?E2, <- ?Ec1, <- ?Ef1, <- ?Erow1, <- ?Eo1,
    <- ?E11, <- ?E21; assumption|].
  unfold vault_surplus, vault_owed in *. rewrite Ht, Ef, Eo, E1, E2, Hlend, Hdue. rewrite Ht1, Ef1, Eo1, E11, E21 in Hs1. lia.
Qed.

Lemma send_vault x : flow_of rex_account y x = 0 -> keeps (vault y) (send x).
Proof. intros Hx s u s' H. unfold send in H. minv H. unfold vault. cbn. rewrite flow_snoc, Hx. f_equal. lia. Qed.

Lemma channel_to_rex_vault x h n q b s u s' : channel_to_rex e n q b s = Ok (u, s') ->
  n <> rex_account -> 0 <= amount q ->
  tokens s <= tokens s' /\
  (asset_symbol q = y -> vault_ok e y x h s -> 0 <= vault_surplus s -> tokens s' <= rex_cap ->
   vault_ok e y x h s' /\ vault_surplus s' = vault_surplus s).
Proof.
  intros H Hn Hq. unfold channel_to_rex in H. apply bind_Ok in H as (av & s1 & [-> ->]%gets_Ok & H).
  destruct (rex_available s); [|by apply check_Ok in H as [_ ->]].
  apply bind_Ok in H as ([] & s1 & Hadd & H). unfold token_transfer, send in H. apply modify_Ok in H.
  assert (tokens s' = tokens s1 + (if symbol_eqb (asset_symbol q) y then amount q else 0)) as Ht.
  { unfold tokens. eassert (effects s' = effects s1 ++ [_]) as -> by (rewrite H; reflexivity). rewrite flow_snoc. cbn [flow_of].
    rewrite Z.eqb_refl, (proj2 (Z.eqb_neq _ _) Hn). destruct (symbol_eqb _ _); lia. }
  destruct (add_to_rex_return_pool_vault x h q s tt s1 Hadd) as [Ht1 Hk].
  split; [destruct (symbol_eqb _ _); lia|]. intros Hy Hok Hs Hcap. rewrite Hy, symbol_eqb_refl in Ht.
  destruct Hk as [Hok1 Hs1]; [done|unfold vault_surplus, rex_cap in *; lia|].
  split; [destruct Hok1; split; subst s'; assumption|]. unfold vault_surplus in *. rewrite Ht.
  assert (vault_owed s' = vault_owed s1) as -> by (by subst s'). lia.
Qed.

(** *** Loans *)
Lemma add_loan_vault x h q r b s u s' : add_loan_to_rex_pool e q r b s = Ok (u, s') ->
  tokens s' = tokens s /\
  (vault_ok e y x h s -> 0 <= amount q -> vault_owed s + amount q < 2 ^ 62 ->
   vault_ok e y x h s' /\ vault_surplus s' = vault_surplus s - amount q /\
   (rexfunds s', rexbalances s', rexorders s', (cpu_loans s', net_loans s')) =
   (rexfunds s, rexbalances s, rexorders s, (cpu_loans s, net_loans s))).
Proof.
  intros H. unfold add_loan_to_rex_pool in H. apply bind_Ok in H as ([] & s1 & Hadd & H).
  apply bind_Ok in H as (p & s2 & [Hp ->]%get_pool_Ok & H). unfold set_pool in H. apply modify_Ok in H.
  pose proof (add_to_rex_return_pool_off_pool _ _ _ _ Hadd) as Hoff.
  destruct (add_to_rex_return_pool_vault x h q s tt s1 Hadd) as [Ht Hk].
  assert (tokens s' = tokens s1) as Ht1 by (by subst s'). split; [lia|]. intros Hok Hq Hcap.
  destruct Hk as [Hok1 Hs1]; [done|lia|]. rewrite Z.max_r in Hs1 by done.
  destruct (v_pool _ _ _ _ _ Hok1 p Hp) as [Hl Hb Hr Hsym].
  match type of H with s' = ?t => match t with context [Some ?x] => set (p' := x) in H end end.
  destruct (set_pool_tokens x h s1 p p' Hok1 Hp) as [Hok' [_ Hs']]; [|done|].
  - split; [exact Hl| |exact Hr|exact Hsym]. unfold pool_balanced in *. subst p'.
    change (amount (RexPool.total_lendable p) mod 2 ^ 64 =
      (i64 (amount (RexPool.total_unlent p) - r) + i64 (amount (RexPool.total_lent p) + r)) mod 2 ^ 64). rewrite Hb. mod64.
  - rewrite <- H in Hok', Hs'. change (amount (RexPool.total_lendable p')) with (amount (RexPool.total_lendable p)) in Hs'.
    split; [done|]. split; [lia|]. unfold off_pool in Hoff. injection Hoff as _ Ef Erow Eo E1 E2 _.
    rewrite <- Ef, <- Erow, <- Eo, <- E1, <- E2. by subst s'.
Qed.

Lemma remove_loan_vault x h l s u s' : remove_loan_from_rex_pool l s = Ok (u, s') ->
  tokens s' = tokens s /\
  (vault_ok e y x h s -> vault_owed s < 2 ^ 62 -> vault_ok e y x h s' /\ vault_surplus s' = vault_surplus s) /\
  (rexfunds s', rexbalances s', rexorders s', (cpu_loans s', net_loans s')) =
  (rexfunds s, rexbalances s, rexorders s, (cpu_loans s, net_loans s)).
Proof.
  intros H. unfold remove_loan_from_rex_pool in H. apply bind_Ok in H as (p & s1 & [Hp ->]%get_pool_Ok & H). cbv zeta in H.
  apply bind_Ok in H as (d & s1 & [_ ->]%lift_Ok & H). unfold set_pool in H. apply modify_Ok in H.
  split; [by subst s'|]. split; [|by subst s']. intros Hok Hcap. pose proof (parts_nonneg x h s Hok) as Hparts.
  destruct (v_pool _ _ _ _ _ Hok p Hp) as [Hl Hb Hr Hsym].
  match type of H with s' = ?t => match t with context [Some ?x] => set (p' := x) in H end end.
  assert (amount (RexPool.total_lendable p') = amount (RexPool.total_lendable p)) as Hlend.
  { assert (amount (RexPool.total_lendable p) < 2 ^ 62) by (unfold vault_owed, lendable_of in Hcap; rewrite Hp in *; cbn in *; lia).
    rewrite <- (i64_small (amount (RexPool.total_lendable p))) by (unfold in_i64; lia).
    apply i64_mod. unfold pool_balanced in Hb. rewrite Hb. mod64. }
  destruct (set_pool_tokens x h s p p' Hok Hp) as [Hok' [_ Hs']]; [|done|].
  - split; rewrite ?Hlend; try done. unfold pool_balanced. rewrite Hlend, Hb.
    change (amount (RexPool.total_unlent p')) with (i64 (amount (RexPool.total_unlent p) + amount (Loan.total_staked l))).
    change (amount (RexPool.total_lent p')) with (i64 (amount (RexPool.total_lent p) - amount (Loan.total_staked l))). mod64.
  - rewrite <- H in Hok', Hs'. split; [done|]. rewrite Hs', Hlend. lia.
Qed.

Lemma loan_bound x h k s n l : vault_ok e y x h s -> loans_of k s !! n = Some l ->
  0 <= loan_held l <= vault_owed s /\ 0 <= amount (Loan.payment l).
Proof.
  intros Hok Hl. pose proof (parts_nonneg x h s Hok) as Hparts. unfold vault_owed.
  assert (forall m : gmap Z rex_loan, map_Forall (fun _ l => 0 <= loan_held l /\ 0 <= amount (Loan.payment l)) m -> m !! n = Some l ->
    0 <= loan_held l <= msum loan_held m /\ 0 <= amount (Loan.payment l)) as Hm.
  { intros m Hall Hn. destruct (Hall n l Hn) as [? ?]. split; [|done]. split; [done|].
    apply (msum_lookup_le _ _ n); [|done]. eapply map_Forall_impl; [exact Hall|]. by intros ? ? [? _]. }
  destruct k; cbn in Hl; [destruct (Hm _ (v_cpu _ _ _ _ _ Hok) Hl)|destruct (Hm _ (v_net _ _ _ _ _ Hok) Hl)]; lia.
Qed.

Lemma loans_of_eq k s s' : (rexfunds s', rexbalances s', rexorders s', (cpu_loans s', net_loans s')) =
  (rexfunds s, rexbalances s, rexorders s, (cpu_loans s, net_loans s)) -> loans_of k s' = loans_of k s.
Proof. intros [= _ _ _ E1 E2]. by destruct k. Qed.

Lemma owed_same s s' : tokens s' = tokens s -> vault_surplus s' = vault_surplus s -> vault_owed s' = vault_owed s.
Proof. unfold vault_surplus. lia. Qed.

(** The end of a loan that is not renewed. *)
Lemma give_back x h k n l s s1 dl d s' :
  loans_of k s !! n = Some l -> remove_loan_from_rex_pool l s = Ok (tt, s1) ->
  (when (0 <? amount (Loan.balance l)) (transfer_to_fund (Loan.from l) (Loan.balance l)) ;;
   mret (true, i64 (- amount (Loan.total_staked l)))) s1 = Ok ((dl, d), s') ->
  tokens s' = tokens s /\
  (vault_ok e y x h s -> vault_owed s < 2 ^ 61 -> vault_ok e y x h s' /\
   if dl then loans_of k s' !! n = Some l /\ vault_surplus s' = vault_surplus s - loan_held l
   else vault_surplus s' = vault_surplus s).
Proof.
  intros Hl Hrem H. destruct (remove_loan_vault x h l s tt s1 Hrem) as (Ht1 & Hk1 & Hframe1).
  pose proof (loans_of_eq k _ _ Hframe1) as Hl1. apply bind_Ok in H as ([] & s2 & Hfund & H). apply ret_Ok in H as [[= -> ->] ->].
  apply when_Ok in Hfund. destruct (Z.ltb_spec 0 (amount (Loan.balance l))) as [Hpos|Hz].
  - assert (tokens s2 = tokens s1 /\ loans_of k s2 = loans_of k s1) as [Ht2 Hl2].
    { unfold transfer_to_fund, find_row in Hfund. apply bind_Ok in Hfund as (c & s3 & [_ ->]%core_symbol_Ok & Hfund).
      apply bind_Ok in Hfund as ([] & s3 & [_ ->]%check_Ok & Hfund). apply bind_Ok in Hfund as (it & s3 & [-> ->]%gets_Ok & Hfund).
      destruct (rexfunds s1 !! _); apply modify_Ok in Hfund as ->; by destruct k. }
    split; [lia|]. intros Hok Hcap. destruct (loan_bound x h k s n l Hok Hl) as [Hb Hpay]. unfold loan_held in *.
    destruct (Hk1 Hok ltac:(lia)) as [Hok1 Hs1]. pose proof (owed_same _ _ Ht1 Hs1) as Ho1.
    destruct (transfer_to_fund_vault x h _ _ _ _ _ Hfund Hok1 ltac:(lia)) as (Hok2 & [_ Hs2] & _).
    split; [done|]. rewrite Hl2, Hl1. split; [done|lia].
  - subst s2. split; [done|]. intros Hok Hcap. destruct (loan_bound x h k s n l Hok Hl) as [Hb Hpay]. unfold loan_held in *.
    destruct (Hk1 Hok ltac:(lia)) as [Hok1 Hs1]. split; [done|]. rewrite Hl1. split; [done|lia].
Qed.

(** An expired loan is renewed from its balance, or gives the balance back and goes. *)
Lemma process_expired_loan_vault x h k n l s dl d s' :
  loans_of k s !! n = Some l -> process_expired_loan e k n l s = Ok ((dl, d), s') ->
  tokens s' = tokens s /\
  (vault_ok e y x h s -> vault_owed s < 2 ^ 61 -> vault_ok e y x h s' /\
   if dl then loans_of k s' !! n = Some l /\ vault_surplus s' = vault_surplus s - loan_held l
   else vault_surplus s' = vault_surplus s).
Proof.
  intros Hl H. unfold process_expired_loan in H. apply bind_Ok in H as ([] & s1 & Hrem & H).
  destruct (remove_loan_vault x h l s tt s1 Hrem) as (Ht1 & Hk1 & Hframe1). pose proof (loans_of_eq k _ _ Hframe1) as Hl1.
  apply bind_Ok in H as (p & s2 & [_ ->]%get_pool_Ok & H). apply bind_Ok in H as (rented & s2 & [_ ->]%lift_Ok & H).
  apply bind_Ok in H as (hb & s2 & [[_ ->]%asset_le_Ok ->]%lift_Ok & H). apply bind_Ok in H as (av & s2 & [-> ->]%gets_Ok & H).
  destruct (Z.leb_spec (amount (Loan.payment l)) (amount (Loan.balance l))) as [Hle|Hlt]; cbn [andb] in H.
  1: destruct ((amount (Loan.payment l) <? rented) && rex_loans_available s1).
  - apply bind_Ok in H as ([] & s2 & Hadd & H). apply bind_Ok in H as (d' & s3 & Hren & H). apply ret_Ok in H as [[= -> ->] ->].
    unfold update_renewed_loan in Hren. apply bind_Ok in Hren as ([] & s4 & Hset & Hren). apply ret_Ok in Hren as [_ ->].
    destruct (add_loan_vault x h _ _ _ s1 tt s2 Hadd) as [Ht2 Hk2].
    assert (tokens s4 = tokens s2) as Ht4 by (unfold set_loans in Hset; destruct k; apply modify_Ok in Hset as ->; done).
    split; [lia|]. intros Hok Hcap. destruct (loan_bound x h k s n l Hok Hl) as [Hb Hpay].
    destruct (Hk1 Hok ltac:(lia)) as [Hok1 Hs1]. pose proof (owed_same _ _ Ht1 Hs1) as Ho1. unfold loan_held in Hb.
    destruct (Hk2 Hok1 Hpay ltac:(lia)) as (Hok2 & Hs2 & Hframe2). pose proof (loans_of_eq k _ _ Hframe2) as Hl2.
    match type of Hset with set_loans _ (insert _ ?x) _ = _ => set (l' := x) in Hset end.
    assert (loan_held l' = amount (Loan.balance l) - amount (Loan.payment l)) as Hl' by (apply i64_small; unfold in_i64; lia).
    destruct (set_loan x h s2 k n l' Hok2 ltac:(lia) Hpay tt s4 Hset) as (Hok4 & [_ Hs4] & _).
    split; [done|]. rewrite Hs4, Hl2, Hl1, Hl, Hl'. cbn [from_option]. unfold loan_held. lia.
  - by eapply give_back.
  - by eapply give_back.
Qed.

(** *** Code that does not touch the vault *)
Ltac vault_view_with tac :=
  unfold find_row, core_symbol, get_core_symbol, get_resource_limits, set_resource_limits, zero_core;
  solve_respects_with tac.
Lemma update_votes_vault n p l b : keeps (vault y) (update_votes e n p l b).
Proof. intros s u s' H%update_votes_votes_only. by destruct H as (? & ? & ? & ? & ->). Qed.
Hint Resolve update_votes_vault : respects.
Lemma update_voting_power_vault n t : keeps (vault y) (update_voting_power e n t).
Proof. unfold update_voting_power. vault_view_with fail. Qed.
Lemma update_resource_limits_vault a b n c : keeps (vault y) (update_resource_limits a b n c).
Proof. unfold update_resource_limits. vault_view_with fail. Qed.
Hint Resolve update_voting_power_vault update_resource_limits_vault : respects.

(** A view kept is a vault kept. *)
Lemma view_respects {A} x h (m : M sys A) : keeps (vault y) m -> respects (vault_kept x h) m.
Proof. intros Hm s a s' H. by apply vault_kept_view, (Hm s a s'). Qed.

Lemma process_loans_vault x h k n : respects (vault_kept x h) (process_loans e k n).
Proof.
  induction n as [|n IH]; cbn [process_loans]; [apply respects_ret; apply _|]. intros s u s' H.
  apply bind_Ok in H as (rows & s1 & [-> ->]%gets_Ok & H).
  destruct (index_rows _ (loans_of k s)) as [|[num l] rows] eqn:Hrows; [apply ret_Ok in H as [_ ->]; reflexivity|].
  destruct (now_us e <? Loan.expiration l); [apply ret_Ok in H as [_ ->]; reflexivity|].
  assert (loans_of k s !! num = Some l) as Hl.
  { eapply elem_of_index_rows. rewrite Hrows. by left. }
  apply bind_Ok in H as ([dl d] & s1 & Hexp & H). apply bind_Ok in H as ([] & s2 & Hlim & H).
  apply bind_Ok in H as ([] & s3 & Hdel & H).
  destruct (process_expired_loan_vault x h k num l s dl d s1 Hl Hexp) as [Ht1 Hk1].
  assert (vault y s2 = vault y s1) as Hv.
  { revert Hlim. match goal with |- ?m s1 = _ -> _ => assert (keeps (vault y) m) as Hm end; [|apply Hm].
    unfold update_limits_of. vault_view_with fail. }
  destruct (vault_view s1 s2 Hv) as (Ht2 & Hs2 & Hok2).
  assert (loans_of k s2 = loans_of k s1) as Hl2 by (unfold vault in Hv; injection Hv as _ _ _ _ _ _ _ E1 E2 _; by destruct k).
  destruct (IH _ _ _ H) as [Ht3 Hk3]. apply when_Ok in Hdel. destruct dl.
  - assert (tokens s3 = tokens s2) as Ht by (unfold set_loans in Hdel; destruct k; apply modify_Ok in Hdel as ->; done).
    split; [lia|]. intros Hok Hs Hcap. destruct Hk1 as (Hok1 & Hl1 & Hs1); [done|unfold vault_surplus, rex_cap in *; lia|].
    destruct (delete_loan x h s2 k num l (Hok2 _ _ Hok1) ltac:(by rewrite Hl2) tt s3 Hdel) as (Hok3 & _ & Hs3).
    destruct Hk3 as [Hok' Hs']; [done|lia|done|]. split; [done|lia].
  - subst s3. split; [lia|]. intros Hok Hs Hcap. destruct Hk1 as (Hok1 & Hs1); [done|unfold vault_surplus, rex_cap in *; lia|].
    destruct Hk3 as [Hok' Hs']; [by apply Hok2|lia|done|]. split; [done|lia].
Qed.

(** *** Filling an order *)

(** The proceeds of [q] shares leave the price no lower. *)
Lemma sold_share_price q S0 R0 : 0 <= q <= R0 -> 0 < R0 -> 0 <= S0 -> R0 <= rex_ratio * S0 ->
  0 <= q * S0 / R0 <= S0 /\ R0 - q <= rex_ratio * (S0 - q * S0 / R0).
Proof.
  intros Hq HR HS Hr. pose proof (share_le q S0 R0 Hq HS HR) as Hpz. split; [done|].
  pose proof (Z.mul_div_le (q * S0) R0 HR) as Hle. set (pz := q * S0 / R0) in *. clearbody pz. unfold rex_ratio in *.
  assert ((R0 - q) * S0 <= (S0 - pz) * R0) by nia.
  assert ((R0 - q) * R0 <= 10000 * (S0 - pz) * R0) by nia. nia.
Qed.

Definition other_rows (o : name) (s s' : sys) : Prop :=
  forall o', o' <> o -> rexbalances s' !! o' = rexbalances s !! o'.

Lemma fill_rex_order_vault o q s out s' b : fill_rex_order o q s = Ok (out, s') ->
  rexbalances s !! o = Some b -> 0 <= amount q <= RexBal.matured_rex b ->
  tokens s' = tokens s /\ rexorders s' = rexorders s /\ other_rows o s s' /\ (success out = false -> s' = s) /\
  (vault_ok e y None None s -> vault_owed s <= rex_cap -> success out = true ->
   vault_ok e y (Some o) None s' /\ 0 <= amount (order_proceeds out) /\
   vault_surplus s' = vault_surplus s + amount (order_proceeds out) /\
   exists b', rexbalances s' !! o = Some b' /\ RexBal.matured_rex b' = RexBal.matured_rex b - amount q).
Proof.
  intros H Hb Hq. unfold fill_rex_order in H. apply bind_Ok in H as (p & s1 & [Hp ->]%get_pool_Ok & H).
  apply bind_Ok in H as (pz & s1 & [Hpz ->]%lift_Ok & H). apply bind_Ok in H as (c & s1 & [_ ->]%core_symbol_Ok & H).
  apply bind_Ok in H as (pr & s1 & [(_ & _ & ->)%make_asset_Ok ->]%lift_Ok & H). cbv zeta in H. cbn [amount] in H.
  destruct (pz <=? _); [|by apply ret_Ok in H as [-> ->]].
  apply bind_Ok in H as (b0 & s1 & [Hb0 ->]%get_rex_balance_Ok & H). rewrite Hb in Hb0. injection Hb0 as <-.
  apply bind_Ok in H as (cs & s1 & [_ ->]%lift_Ok & H). unfold set_pool, set_rex_balance in H.
  apply bind_Ok in H as ([] & s1 & ->%modify_Ok & H). apply bind_Ok in H as ([] & s1 & Hs'%modify_Ok & H).
  apply ret_Ok in H as [-> ->].
  match type of Hs' with context [insert o ?r] => set (b' := r) in Hs' end.
  match type of Hs' with context [Some ?r] => set (p' := r) in Hs' end.
  assert (rexbalances s1 = <[o := b']> (rexbalances s) /\ rexpool s1 = Some p' /\ rexorders s1 = rexorders s /\ tokens s1 = tokens s /\
    vault_surplus s1 = vault_surplus s + amount (RexPool.total_lendable p) - amount (RexPool.total_lendable p')) as (Hrows & Hp1 & Ho & Ht & Hs).
  { split; [by rewrite Hs'|]. split; [by rewrite Hs'|]. split; [by rewrite Hs'|]. split; [by rewrite Hs'|].
    unfold vault_surplus, vault_owed, lendable_of, ret_due, tokens. rewrite Hs'.
    change (rexpool (_ <| rexbalances ::= _ |>)) with (Some p'). rewrite Hp. cbn [from_option].
    lazymatch goal with |- ?a - ?b = _ => change a with (held + flow rex_account y (effects s));
      change b with (msum fund_held (rexfunds s) + msum loan_held (cpu_loans s) + msum loan_held (net_loans s) +
        msum order_due (rexorders s) + amount (RexPool.total_lendable p') + from_option RetPool.proceeds 0 (rexretpool s)) end. lia. }
  split; [done|]. split; [done|]. split; [intros o' Hne; by rewrite Hrows, lookup_insert_ne|]. split; [done|].
  intros Hok Hcap _. cbn [order_proceeds amount].
  pose proof (parts_nonneg _ _ s Hok) as Hparts. pose proof (held_bound _ _ s o b Hok Hb) as Hheld.
  destruct (v_rows _ _ _ _ _ Hok o b Hb) as (_ & [Hsum Hmat Hbuck]). pose proof (zsum_nonneg snd _ Hbuck) as Hz. cbn [lacks] in Hsum.
  destruct (v_pool _ _ _ _ _ Hok p Hp) as [Hl Hbal Hr Hsym]. unfold total_rex_of in Hheld. rewrite Hp in Hheld. cbn in Hheld.
  unfold vault_owed, lendable_of in Hcap. rewrite Hp in Hcap. cbn in Hcap.
  set (S0 := amount (RexPool.total_lendable p)) in *. set (R0 := amount (RexPool.total_rex p)) in *.
  assert (S0 <= rex_cap) by lia. unfold rex_cap in *. unfold rex_ratio in Hr.
  assert (0 < R0) as HR.
  { destruct (Z.eq_dec R0 0) as [HR0|]; [|lia]. unfold muldiv in Hpz. rewrite HR0 in Hpz. by cbn in Hpz. }
  destruct (sold_share_price (amount q) S0 R0 ltac:(lia) HR ltac:(lia) ltac:(unfold rex_ratio; lia)) as [Hpz0 Hprice].
  apply muldiv_exact in Hpz; [|lia..]. rewrite <- Hpz in *.
  assert (amount (RexPool.total_lendable p') = S0 - pz) as HS1 by (apply i64_small; unfold in_i64; lia).
  assert (amount (RexPool.total_rex p') = R0 - amount q) as HR1 by (apply i64_small; unfold in_i64; lia).
  assert (rex_held b' = rex_held b - amount q) as Hheld' by (apply i64_small; unfold in_i64; lia).
  assert (RexBal.matured_rex b' = RexBal.matured_rex b - amount q) as Hmat' by (apply i64_small; unfold in_i64; lia).
  split; [|split; [lia|split; [rewrite Hs, HS1; unfold S0; lia|exists b'; rewrite Hrows, lookup_insert_eq; done]]].
  destruct Hok. split; rewrite ?Hrows, ?Ho, ?Hp1; try (subst s1; assumption).
  - intros o' r Hr'. pose proof (v_orders0 o' r Hr') as Hr0. unfold order_ok in *. destruct (Order.is_open r); [|done].
    destruct Hr0 as [Hr0 [Hx|(b0 & Hb0 & Hle)]]; [done|]. split; [done|].
    destruct (decide (o' = o)) as [->|Hne]; [by left|right]. exists b0. by rewrite lookup_insert_ne.
  - intros p0 [= <-]. split; [lia| |lia|done]. unfold pool_balanced. rewrite HS1.
    change (amount (RexPool.total_unlent p')) with (i64 (i64 (S0 - pz) - amount (RexPool.total_lent p))).
    change (amount (RexPool.total_lent p')) with (amount (RexPool.total_lent p)). mod64.
  - rewrite (msum_insert rex_held _ _ _ _ Hb), Hheld', v_shares0. unfold total_rex_of. rewrite Hp1, Hp. cbn [from_option].
    fold R0. lia.
  - intros o' b0 Hb0. destruct (decide (o' = o)) as [->|Hne].
    + rewrite lookup_insert_eq in Hb0. injection Hb0 as <-. split; [done|]. split; [|lia|exact Hbuck].
      rewrite Hheld', Hmat'. change (RexBal.rex_maturities b') with (RexBal.rex_maturities b). cbn [lacks]. lia.
    + rewrite lookup_insert_ne in Hb0 by done. by apply (v_rows0 o').
Qed.

(** The order of the exceptional account is covered again. *)
Lemma cover o h s : vault_ok e y (Some o) h s ->
  (forall r, rexorders s !! o = Some r -> Order.is_open r = true ->
    exists b, rexbalances s !! o = Some b /\ amount (Order.rex_requested r) <= RexBal.matured_rex b) ->
  vault_ok e y None h s.
Proof.
  intros Hok Hc. destruct Hok. split; try assumption. intros o' r Hr. pose proof (v_orders0 o' r Hr) as Hr0.
  unfold order_ok in *. destruct (Order.is_open r) eqn:Hopen; [|done].
  destruct Hr0 as [Hr0 [[= <-]|Hcov]]; split; try done; right; [by apply Hc|done].
Qed.
Lemma uncover x h s : vault_ok e y None h s -> vault_ok e y x h s.
Proof.
  intros Hok. destruct Hok. split; try assumption. intros o' r Hr. pose proof (v_orders0 o' r Hr) as Hr0.
  unfold order_ok in *. destruct (Order.is_open r); [|done]. destruct Hr0 as [Hr0 [Hx|Hcov]]; [done|]. split; [done|by right].
Qed.

(** *** Code that moves no tokens of [eosio.rex] *)
Definition flowing (s : sys) : Z := flow rex_account y (effects s).
Lemma flowing_tokens s s' : flowing s' = flowing s -> tokens s' = tokens s.
Proof. unfold flowing, tokens. lia. Qed.
Lemma vault_flowing {A} (m : M sys A) : keeps (vault y) m -> keeps flowing m.
Proof. intros Hm s a s' H%Hm. unfold vault in H. by injection H. Qed.
Lemma send_flowing x : flow_of rex_account y x = 0 -> keeps flowing (send x).
Proof. intros Hx. by apply vault_flowing, send_vault. Qed.
Ltac flowing :=
  unfold get_rex_balance, set_rex_balance, get_pool, set_pool, find_row, core_symbol, get_core_symbol;
  solve_respects_with ltac:(by apply send_flowing).
Lemma fill_rex_order_flowing o q : keeps flowing (fill_rex_order o q).
Proof. unfold fill_rex_order. flowing. Qed.
Hint Resolve fill_rex_order_flowing : respects.
Lemma process_orders_flowing n l : keeps flowing (process_orders n l).
Proof.
  revert l. induction n as [|n IH]; intros l; cbn [process_orders]; [apply respects_ret; apply _|].
  destruct l as [|[o r] l]; [apply respects_ret; apply _|]. flowing.
Qed.

Lemma process_orders_vault n : forall rows s u s', process_orders n rows s = Ok (u, s') ->
  (forall o r, (o, r) ∈ rows -> rexorders s !! o = Some r) -> NoDup rows.*1 -> vault_kept None None s s'.
Proof.
  induction n as [|n IH]; intros rows s u s' H Hrows Hnd; [apply ret_Ok in H as [_ ->]; reflexivity|].
  destruct rows as [|[o r] rows]; [apply ret_Ok in H as [_ ->]; reflexivity|].
  split; [apply process_orders_flowing, flowing_tokens in H; lia|]. intros Hok Hs Hcap.
  pose proof (flowing_tokens _ _ (process_orders_flowing _ _ _ _ _ H)) as Ht. cbn [process_orders] in H.
  destruct (Order.is_open r) eqn:Hopen; cbn [negb] in H; [|apply ret_Ok in H as [_ ->]; done].
  pose proof (Hrows o r ltac:(by left)) as Hr. pose proof (v_orders _ _ _ _ _ Hok o r Hr) as Hro. unfold order_ok in Hro.
  rewrite Hopen in Hro. destruct Hro as [Hr0 [?|(b & Hb & Hm)]]; [done|].
  apply bind_Ok in H as (it & s1 & [-> ->]%gets_Ok & H). rewrite Hb in H. apply bind_Ok in H as ([] & s2 & Hfill & H).
  apply bind_Ok in Hfill as (out & s1 & Hfill & Hset).
  destruct (fill_rex_order_vault o _ s out s1 b Hfill Hb (conj (Z.lt_le_incl _ _ Hr0) Hm)) as (Ht1 & Ho1 & _ & Hno & Hk1).
  apply NoDup_cons in Hnd as [Hnotin Hnd].
  assert (vault_ok e y None None s2 /\ vault_surplus s2 = vault_surplus s /\ tokens s2 = tokens s /\
    forall o', o' <> o -> rexorders s2 !! o' = rexorders s !! o') as (Hok2 & Hs2 & Ht2 & Ho2).
  { apply when_Ok in Hset. destruct (success out) eqn:Hout; [|rewrite Hset, Hno by done; done].
    destruct Hk1 as (Hok1 & Hpr & Hs1 & _); [done|unfold vault_surplus in Hs; lia|done|].
    apply bind_Ok in Hset as ([] & s3 & Hmod%modify_Ok & Hsend). pose proof (send_vault (OrderResult o (order_proceeds out)) eq_refl _ _ _ Hsend) as Hv.
    match type of Hmod with context [insert o ?x] => set (r' := x) in Hmod end.
    destruct (set_order (Some o) None s1 o r' Hok1) as [Hok3 [Ht3 Hs3]]; [exact Hpr|]. rewrite <- Hmod in Hok3, Ht3, Hs3.
    rewrite Ho1, Hr in Hs3. cbn [from_option] in Hs3. unfold order_due in Hs3. rewrite Hopen in Hs3.
    change (Order.is_open r') with false in Hs3. change (amount (Order.proceeds r')) with (amount (order_proceeds out)) in Hs3. cbv iota in Hs3.
    destruct (vault_view s3 s2 Hv) as (Ht2 & Hs2 & Hok2).
    assert (rexorders s3 = <[o := r']> (rexorders s)) as Hor3 by (rewrite Hmod, <- Ho1; done).
    split; [|split; [lia|split; [lia|]]].
    - apply Hok2. apply (cover o); [exact Hok3|]. intros r0. rewrite Hor3, lookup_insert_eq. by intros [= <-].
    - assert (rexorders s2 = rexorders s3) as -> by (unfold vault in Hv; congruence).
      intros o' Hne. by rewrite Hor3, lookup_insert_ne. }
  destruct (IH rows s2 u s' H) as [Ht3 Hk3]; [|done|].
  - intros o' r' Hin. assert (o' <> o) as Hne by (intros ->; apply Hnotin; apply list_elem_of_fmap; by exists (o, r')).
    rewrite Ho2 by done. apply Hrows. by right.
  - destruct Hk3 as [Hok' Hs']; [done|lia|done|]. split; [done|lia].
Qed.

(** *** The maintenance *)
Lemma set_namebid_vault x h z s u s' :
  (p ← get_pool; set_pool (p <| RexPool.namebid_proceeds ::= fun a => a <| amount := z |> |>)) s = Ok (u, s') ->
  vault_kept x h s s'.
Proof.
  intros H. apply bind_Ok in H as (p & s1 & [Hp ->]%get_pool_Ok & H). unfold set_pool in H. apply modify_Ok in H as ->.
  split; [done|]. intros Hok Hs _. destruct (v_pool _ _ _ _ _ Hok p Hp) as [Hl Hb Hr Hsym].
  match goal with |- context [Some ?x] => set (p' := x) end.
  destruct (set_pool_tokens x h s p p' Hok Hp) as (Hok' & _ & Hs'); [by split|done|].
  split; [exact Hok'|]. rewrite Hs'. change (amount (RexPool.total_lendable p')) with (amount (RexPool.total_lendable p)). lia.
Qed.

Lemma update_rex_pool_kept x h : respects (vault_kept x h) (update_rex_pool e).
Proof.
  intros s u s' H. destruct (update_rex_pool_vault x h s u s' H) as [Ht Hk]. split; [lia|].
  intros Hok Hs Hcap. apply Hk; [done|]. unfold vault_surplus, rex_cap in *. lia.
Qed.

Lemma collect_vault x h p s u s' : rexpool s = Some p ->
  when (0 <? amount (RexPool.namebid_proceeds p))
    (channel_to_rex e names_account (RexPool.namebid_proceeds p) false ;;
     p ← get_pool;
     set_pool (p <| RexPool.namebid_proceeds ::= fun a => a <| amount := 0 |> |>)) s = Ok (u, s') ->
  vault_kept x h s s'.
Proof.
  intros Hp H. apply when_Ok in H. destruct (Z.ltb_spec 0 (amount (RexPool.namebid_proceeds p))) as [Hpos|_]; [|subst s'; reflexivity].
  apply bind_Ok in H as ([] & s1 & Hch & H). trans s1; [|by eapply set_namebid_vault].
  destruct (channel_to_rex_vault x h _ _ _ _ _ _ Hch) as [Ht Hk]; [done|lia|]. split; [done|]. intros Hok Hs Hcap.
  apply Hk; try done. by apply (v_pool _ _ _ _ _ Hok).
Qed.

Lemma runrex_vault n : respects (vault_kept None None) (runrex e n).
Proof.
  intros s u s' H. unfold runrex in H. apply bind_Ok in H as (b & s1 & [-> ->]%gets_Ok & H).
  apply bind_Ok in H as ([] & s1 & [_ ->]%check_Ok & H). apply bind_Ok in H as ([] & s1 & Hup & H).
  apply bind_Ok in H as (p & s2 & [Hp ->]%get_pool_Ok & H). apply bind_Ok in H as ([] & s2 & Hcol & H).
  apply bind_Ok in H as ([] & s3 & Hcpu & H). apply bind_Ok in H as ([] & s4 & Hnet & H).
  apply bind_Ok in H as (rows & s5 & [-> ->]%gets_Ok & H).
  trans s1; [by eapply update_rex_pool_kept|]. trans s2; [by eapply collect_vault|].
  trans s3; [by eapply process_loans_vault|]. trans s4; [by eapply process_loans_vault|].
  eapply process_orders_vault; [exact H| |].
  - intros o r Hin. by apply elem_of_index_rows in Hin.
  - unfold order_rows. rewrite index_rows_perm. apply NoDup_fst_map_to_list.
Qed.

(** *** Settling an order *)

(** What is waiting for [o] joins [proceeds] in its fund, and the order goes. *)
Lemma update_rex_account_vault x h o proceeds d b s q s' : update_rex_account e o proceeds d b s = Ok (q, s') ->
  tokens s' = tokens s /\ rexbalances s' = rexbalances s /\
  (vault_ok e y x h s -> 0 <= amount proceeds -> vault_owed s + amount proceeds < 2 ^ 61 ->
   vault_ok e y x h s' /\ vault_surplus s' = vault_surplus s - amount proceeds /\ 0 <= amount q /\
   (forall r, rexorders s' !! o = Some r -> Order.is_open r = true /\ amount q = amount (Order.rex_requested r)) /\
   (rexorders s' !! o = None -> amount q = 0)).
Proof.
  intros H. unfold update_rex_account, find_row in H. apply bind_Ok in H as (it & s1 & [-> ->]%gets_Ok & H).
  apply bind_Ok in H as ([[to_fund to_stake] in_order] & s1 & Hset & H). apply bind_Ok in H as ([] & s2 & Hfund & H).
  apply bind_Ok in H as ([] & s3 & Hvote & H). apply ret_Ok in H as [-> ->].
  assert (vault y s3 = vault y s2) as Hv.
  { apply when_Ok in Hvote. destruct (b || _); [by apply update_voting_power_vault in Hvote|by subst s3]. }
  destruct (vault_view s2 s3 Hv) as (Ht3 & Hs3 & Hok3).
  assert (rexbalances s3 = rexbalances s2 /\ rexorders s3 = rexorders s2) as [Hb3 Ho3] by (unfold vault in Hv; split; congruence).
  rewrite Hb3, Ho3. clear Hv Hvote.
  (* the order *)
  assert (tokens s1 = tokens s /\ rexbalances s1 = rexbalances s /\
    (vault_ok e y x h s -> 0 <= amount proceeds -> vault_owed s + amount proceeds < 2 ^ 61 ->
     vault_ok e y x h s1 /\ vault_surplus s1 = vault_surplus s + (amount to_fund - amount proceeds) /\ 0 <= amount to_fund /\
     0 <= amount in_order /\
     (forall r, rexorders s1 !! o = Some r -> Order.is_open r = true /\ amount in_order = amount (Order.rex_requested r)) /\
     (rexorders s1 !! o = None -> amount in_order = 0)))
    as (Ht1 & Hb1 & Hk1).
  { destruct (rexorders s !! o) as [r|] eqn:Hr.
    - destruct (Order.is_open r) eqn:Hopen.
      + apply ret_Ok in Hset as [[= -> -> ->] ->]. split; [done|]. split; [done|]. intros Hok Hpr Hcap.
        pose proof (v_orders _ _ _ _ _ Hok o r Hr) as Hro. unfold order_ok in Hro. rewrite Hopen in Hro. destruct Hro as [Hro _].
        split; [done|]. split; [lia|]. split; [done|]. split; [cbn; lia|]. rewrite Hr. split; [by intros r' [= <-]|done].
      + apply bind_Ok in Hset as ([] & s4 & Hdel%modify_Ok & Hset). apply ret_Ok in Hset as [[= -> -> ->] ->].
        split; [by subst s4|]. split; [by subst s4|]. intros Hok Hpr Hcap.
        pose proof (parts_nonneg x h s Hok) as Hparts.
        pose proof (v_orders _ _ _ _ _ Hok o r Hr) as Hro. unfold order_ok in Hro. rewrite Hopen in Hro.
        destruct (delete_order x h s o r Hok Hr) as (Hok4 & _ & Hs4). rewrite <- Hdel in Hok4, Hs4.
        assert (order_due r = amount (Order.proceeds r)) as Hd by (unfold order_due; by rewrite Hopen).
        assert (order_due r <= msum order_due (rexorders s)) as Hle.
        { apply (msum_lookup_le _ _ o); [|done]. eapply map_Forall_impl; [apply (v_orders _ _ _ _ _ Hok)|]. intros o' r' Hr'.
          unfold order_ok in Hr'. unfold order_due. destruct (Order.is_open r'); [done|exact Hr']. }
        assert (i64 (amount proceeds + amount (Order.proceeds r)) = amount proceeds + amount (Order.proceeds r)) as Hsum
          by (apply i64_small; unfold vault_owed, in_i64 in *; lia).
        cbn [amount update_field]. rewrite Hsum. split; [done|]. split; [lia|]. split; [lia|]. split; [done|].
        assert (rexorders s4 = delete o (rexorders s)) as -> by (by subst s4). by rewrite lookup_delete_eq.
    - apply ret_Ok in Hset as [[= -> -> ->] ->]. split; [done|]. split; [done|]. intros Hok Hpr Hcap.
      split; [done|]. split; [lia|]. split; [done|]. split; [done|]. by rewrite Hr. }
  apply when_Ok in Hfund. destruct (Z.ltb_spec 0 (amount to_fund)) as [Hpos|Hz].
  - assert (tokens s2 = tokens s1 /\ rexbalances s2 = rexbalances s1 /\ rexorders s2 = rexorders s1) as (Ht2 & Hb2 & Ho2).
    { unfold transfer_to_fund, find_row in Hfund. apply bind_Ok in Hfund as (c & s4 & [_ ->]%core_symbol_Ok & Hfund).
      apply bind_Ok in Hfund as ([] & s4 & [_ ->]%check_Ok & Hfund). apply bind_Ok in Hfund as (it & s4 & [-> ->]%gets_Ok & Hfund).
      destruct (rexfunds s1 !! _); by apply modify_Ok in Hfund as ->. }
    split; [lia|]. split; [congruence|]. intros Hok Hpr Hcap. destruct (Hk1 Hok Hpr Hcap) as (Hok1 & Hs1 & Hf & Hin & Hor).
    destruct (transfer_to_fund_vault x h o to_fund s1 tt s2 Hfund Hok1) as (Hok2 & [_ Hs2] & _).
    { unfold vault_surplus in Hs1. lia. }
    split; [by apply Hok3|]. split; [lia|]. split; [done|]. by rewrite Ho2.
  - subst s2. split; [lia|]. split; [congruence|]. intros Hok Hpr Hcap. destruct (Hk1 Hok Hpr Hcap) as (Hok1 & Hs1 & Hf & Hin & Hor).
    split; [by apply Hok3|]. split; [lia|]. done.
Qed.
End vault.

(** ** The buckets of a row *)
Notation shares l := (zsum (@snd Z Z) l).
Lemma shares_nonneg (l : list (Z * Z)) : Forall (fun r => 0 <= r.2) l -> 0 <= shares l.
Proof. apply zsum_nonneg. Qed.

Lemma removelast_last (l : list (Z * Z)) b : last l = Some b -> l = removelast l ++ [b].
Proof. intros [l' ->]%last_Some. by rewrite removelast_last. Qed.

Lemma savings_of_spec l z l' : savings_of l = (z, l') -> Forall (fun r => 0 <= r.2) l ->
  shares l = shares l' + z /\ 0 <= z /\ Forall (fun r => 0 <= r.2) l'.
Proof.
  unfold savings_of. destruct (last l) as [[t r]|] eqn:Hl; [|intros [= <- <-]; intros; split_and!; [lia|done|done]].
  apply removelast_last in Hl. destruct (t =? end_of_days); intros [= <- <-] Hall; [|split_and!; [lia|done|done]].
  rewrite Hl in Hall. apply Forall_app in Hall as [Hall [Hr _]%Forall_cons]. rewrite Hl at 1. rewrite zsum_app, zsum_cons, zsum_nil.
  cbn in *. split_and!; [lia|done|done].
Qed.

Lemma mature_spec now l : forall m m' l', mature now m l = (m', l') -> Forall (fun r => 0 <= r.2) l ->
  0 <= m -> m + shares l < 2 ^ 63 -> m <= m' /\ m' + shares l' = m + shares l /\ Forall (fun r => 0 <= r.2) l'.
Proof.
  induction l as [|[t r] l IH]; cbn [mature]; intros m m' l' H Hall Hm Hcap; [injection H as <- <-; split_and!; [lia|lia|done]|].
  pose proof Hall as [Hr Hall']%Forall_cons. cbn in Hr. pose proof (shares_nonneg _ Hall') as Hz. rewrite zsum_cons in *. cbn [snd] in *.
  destruct (t <=? now); [|injection H as <- <-; rewrite zsum_cons; split_and!; [lia|cbn; lia|done]].
  rewrite i64_small in H by (unfold in_i64; lia). destruct (IH _ _ _ H Hall') as (? & ? & ?); [lia|lia|]. split_and!; [lia|lia|done].
Qed.

Lemma add_to_back_spec t r l : Forall (fun b => 0 <= b.2) l -> 0 <= r -> shares l + r < 2 ^ 63 ->
  shares (add_to_back t r l) = shares l + r /\ Forall (fun b => 0 <= b.2) (add_to_back t r l).
Proof.
  intros Hall Hr Hcap. unfold add_to_back. destruct (last l) as [[t0 r0]|] eqn:Hl.
  - apply removelast_last in Hl. destruct (t0 =? t).
    + rewrite Hl in Hall, Hcap. apply Forall_app in Hall as [Hall [Hr0 _]%Forall_cons]. pose proof (shares_nonneg _ Hall) as Hz.
      rewrite zsum_app, zsum_cons, zsum_nil in Hcap. cbn [snd] in *. rewrite i64_small by (unfold in_i64; lia).
      rewrite Hl at 2. rewrite !zsum_app, !zsum_cons, !zsum_nil. cbn [snd]. split; [lia|]. apply Forall_app. split; [done|].
      constructor; [cbn; lia|done].
    + rewrite zsum_app, zsum_cons, zsum_nil. cbn [snd]. split; [lia|]. apply Forall_app. split; [done|]. by constructor.
  - rewrite last_None in Hl. subst l. rewrite zsum_cons. cbn [snd]. rewrite zsum_nil. split; [lia|]. by constructor.
Qed.

Lemma move_from_back_spec want l : forall moved moved' l', move_from_back want moved l = (moved', l') ->
  Forall (fun b => 0 <= b.2) l -> 0 <= moved <= want -> want < 2 ^ 63 -> shares l < 2 ^ 63 ->
  moved <= moved' <= want /\ moved' + shares l' = moved + shares l /\ Forall (fun b => 0 <= b.2) l'.
Proof.
  induction l as [|[t r] l IH]; cbn [move_from_back]; intros moved moved' l' H Hall Hm Hcap Hsh;
    [injection H as <- <-; split_and!; [lia|lia|lia|done]|].
  pose proof Hall as [Hr Hall']%Forall_cons. cbn in Hr. pose proof (shares_nonneg _ Hall') as Hz. rewrite zsum_cons in *. cbn [snd] in *.
  destruct (Z.ltb_spec moved want) as [Hlt|Hge]; [|injection H as <- <-; rewrite zsum_cons; split_and!; [lia|lia|cbn; lia|done]].
  cbv zeta in H. rewrite (i64_small (want - moved)) in H by (unfold in_i64; lia).
  set (d := Z.min (want - moved) r) in *. assert (0 <= d <= r /\ moved + d <= want /\ (d < r -> moved + d = want)) as (Hd & Hdw & Hdr) by lia.
  clearbody d. rewrite (i64_small (r - d)), (i64_small (moved + d)) in H by (unfold in_i64; lia).
  destruct (Z.eqb_spec (r - d) 0) as [Heq|Hne].
  - destruct (IH _ _ _ H Hall') as (? & ? & ?); [lia..|]. split_and!; [lia|lia|lia|done].
  - injection H as <- <-. rewrite zsum_cons. cbn [snd]. split_and!; [lia|lia|lia|]. constructor; [cbn; lia|done].
Qed.

Lemma zsum_rev {A} (f : A -> Z) l : zsum f (rev l) = zsum f l.
Proof. induction l as [|b l IH]; [done|]. cbn [rev]. rewrite zsum_app, !zsum_cons, zsum_nil, IH. lia. Qed.

(** What [mvtosavings] takes out of a row: buckets first, and of the matured shares only
    those the open order leaves. *)
Lemma take_for_savings_spec want in_order d b b' : take_for_savings want in_order b = Ok b' -> row_ok d b ->
  0 <= want < 2 ^ 63 -> 0 <= in_order <= RexBal.matured_rex b ->
  RexBal.matured_rex b < 2 ^ 63 -> shares (RexBal.rex_maturities b) < 2 ^ 63 ->
  rex_held b' = rex_held b /\ row_ok (d + want) b' /\ in_order <= RexBal.matured_rex b'.
Proof.
  intros H [Hsum Hm Hall] Hw Ho Hcap Hsh. pose proof (take_for_savings_held _ _ _ _ H) as Hheld. split; [done|].
  unfold take_for_savings in H. destruct (move_from_back _ _ _) as [moved l] eqn:Hmove. cbv zeta in H.
  apply move_from_back_spec in Hmove as (Hmv & Hl & Hall'); [|by apply Forall_rev|lia|lia|by rewrite zsum_rev].
  rewrite zsum_rev in Hl. destruct (Z.ltb_spec moved want).
  - rewrite (i64_small (want - moved)) in H by (unfold in_i64; lia).
    change (RexBal.matured_rex (b <| RexBal.rex_maturities := rev l |>)) with (RexBal.matured_rex b) in H.
    rewrite (i64_small (RexBal.matured_rex b - _)) in H by (unfold in_i64; lia).
    destruct (Z.leb_spec in_order (RexBal.matured_rex b - (want - moved))) as [Hle|]; [|done]. injection H as <-.
    split; [split|]; unfold rex_held in *; cbn; rewrite ?zsum_rev; [lia|lia|by apply Forall_rev|lia].
  - destruct (Z.eqb_spec moved want) as [->|]; [|done]. injection H as <-.
    split; [split|]; unfold rex_held in *; cbn; rewrite ?zsum_rev; [lia|lia|by apply Forall_rev|lia].
Qed.

(** The loop of [consolidate] adds the buckets up. *)
Lemma fold_shares l : forall a, Forall (fun r => 0 <= r.2) l -> 0 <= a -> a + shares l < 2 ^ 63 ->
  fold_left (fun t b => i64 (t + b.2)) l a = a + shares l.
Proof.
  induction l as [|[t r] l IH]; intros a Hall Ha Hcap; cbn [fold_left]; [rewrite zsum_nil; lia|].
  apply Forall_cons in Hall as [Hr Hall]. cbn in Hr. pose proof (shares_nonneg _ Hall) as Hz. rewrite zsum_cons in *. cbn [snd] in *.
  rewrite i64_small by (unfold in_i64; lia). rewrite IH by (done || lia). lia.
Qed.

(** ** Rows under way *)
Section rows.
Context `{cdt : Cdt} `{!CdtLaws cdt} `{libm : Libm} (e : Env) (y : symbol) (held : Z).
Context (Hclock : clock_ok e).
Implicit Types s : sys.
Notation tokens := (tokens y held).
Notation vault_surplus := (vault_surplus y held).
Notation vault_kept := (vault_kept e y held).
Notation kept_but s s' delta := (tokens s' = tokens s /\ vault_surplus s' = vault_surplus s + (delta)).

Lemma nothing_lacks x o s : vault_ok e y x (Some (o, 0)) s <-> vault_ok e y x None s.
Proof.
  assert (forall o', lacks (Some (o, 0)) o' = lacks None o') as Hl by (intros o'; cbn; by destruct (o' =? o)).
  split; intros [? ? ? ? ? ? ? Hrows ? ?]; (split; try assumption); intros o' b Hb; specialize (Hrows o' b Hb);
    [rewrite <- Hl|rewrite Hl]; exact Hrows.
Qed.

Lemma owed_cap x h s : vault_ok e y x h s -> vault_owed s <= rex_cap ->
  total_rex_of s < 2 ^ 62 /\ forall o b, rexbalances s !! o = Some b -> 0 <= rex_held b < 2 ^ 62.
Proof.
  intros Hok Hcap. pose proof (parts_nonneg e y x h s Hok) as Hparts. pose proof (rex_bound e y x h s Hok) as Hr.
  assert (total_rex_of s < 2 ^ 62) as Ht by (unfold vault_owed, rex_cap, rex_ratio in *; lia). split; [done|].
  intros o b Hb. pose proof (held_bound e y x h s o b Hok Hb). lia.
Qed.

(** A change to the row of [o] that moves [d' - d] shares out of its buckets. *)
Definition moves (x : option name) (o : name) (d d' : Z) (s : sys) (b b' : rex_balance) : Prop :=
  row_ok d b -> rex_held b < 2 ^ 63 -> 0 <= d ->
  rex_held b' = rex_held b /\ row_ok d' b' /\ 0 <= d' /\ (x = Some o \/ RexBal.matured_rex b <= RexBal.matured_rex b').

Lemma set_row_moves x o d d' b b' s u s' : set_rex_balance o b' s = Ok (u, s') -> rexbalances s !! o = Some b ->
  moves x o d d' s b b' ->
  vault_ok e y x (Some (o, d)) s -> vault_owed s <= rex_cap ->
  vault_ok e y x (Some (o, d')) s' /\ kept_but s s' 0.
Proof.
  intros H Hb Hm Hok Hcap. destruct (owed_cap _ _ s Hok Hcap) as [_ Hheld].
  destruct (v_rows _ _ _ _ _ Hok o b Hb) as [Hd Hrow]. cbn [lacks] in Hd, Hrow. rewrite Z.eqb_refl in Hd, Hrow.
  destruct (Hm Hrow) as (Hh & Hrow' & Hd' & Hmat); [specialize (Hheld o b Hb); lia|done|].
  eapply (set_row e y held x (Some (o, d)) (Some (o, d'))); try done; cbn [lacks]; rewrite ?Z.eqb_refl; try done.
  intros o' Hne. by rewrite (proj2 (Z.eqb_neq _ _) Hne).
Qed.

Lemma modify_row_moves x o d d' f s u s' : modify_rex_balance o f s = Ok (u, s') ->
  (forall b, moves x o d d' s b (f b)) ->
  vault_ok e y x (Some (o, d)) s -> vault_owed s <= rex_cap ->
  vault_ok e y x (Some (o, d')) s' /\ kept_but s s' 0.
Proof.
  intros H Hf. unfold modify_rex_balance in H. apply bind_Ok in H as (b & s1 & [Hb ->]%get_rex_balance_Ok & H).
  by eapply set_row_moves.
Qed.

(** Rows that change touch nothing else. *)
Definition off_rows (s : sys) := (rexorders s, rexpool s, tokens s, vault_surplus s).
Lemma set_rex_balance_off_rows o b : keeps off_rows (set_rex_balance o b).
Proof. intros s u s' H. unfold set_rex_balance in H. by apply modify_Ok in H as ->. Qed.
Hint Resolve set_rex_balance_off_rows : respects.
Ltac off_rows := unfold modify_rex_balance, get_rex_balance, find_row; solve_respects.
Lemma modify_rex_balance_off_rows o f : keeps off_rows (modify_rex_balance o f).
Proof. off_rows. Qed.
Lemma read_rex_savings_off_rows o : keeps off_rows (read_rex_savings o).
Proof. unfold read_rex_savings. off_rows. Qed.
Hint Resolve modify_rex_balance_off_rows read_rex_savings_off_rows : respects.
Lemma put_rex_savings_off_rows o z : keeps off_rows (put_rex_savings o z).
Proof. unfold put_rex_savings. off_rows. Qed.
Lemma process_rex_maturities_off_rows o : keeps off_rows (process_rex_maturities e o).
Proof. unfold process_rex_maturities. off_rows. Qed.

Lemma off_rows_eq s s' : off_rows s' = off_rows s ->
  rexorders s' = rexorders s /\ rexpool s' = rexpool s /\ tokens s' = tokens s /\ vault_surplus s' = vault_surplus s /\
  vault_owed s' = vault_owed s.
Proof. unfold off_rows. intros [= Ho Hp Ht Hs]. split_and!; try done. by apply (owed_same y held). Qed.

Lemma row_shares d b : row_ok d b -> rex_held b < 2 ^ 63 -> 0 <= d ->
  0 <= shares (RexBal.rex_maturities b) /\ RexBal.matured_rex b + shares (RexBal.rex_maturities b) + d < 2 ^ 63.
Proof. intros [Hsum Hm Hall] Hh Hd. pose proof (shares_nonneg _ Hall). lia. Qed.

Lemma read_rex_savings_moves x o d s z s' : read_rex_savings o s = Ok (z, s') ->
  vault_ok e y x (Some (o, d)) s -> vault_owed s <= rex_cap ->
  vault_ok e y x (Some (o, d + z)) s' /\ 0 <= z /\
  exists b b', rexbalances s !! o = Some b /\ rexbalances s' !! o = Some b' /\ RexBal.matured_rex b' = RexBal.matured_rex b /\
    rex_held b' = rex_held b.
Proof.
  intros H Hok Hcap. unfold read_rex_savings in H. apply bind_Ok in H as (b & s1 & [Hb ->]%get_rex_balance_Ok & H).
  destruct (savings_of (RexBal.rex_maturities b)) as [z' l] eqn:Hsav. apply bind_Ok in H as ([] & s1 & Hset & H).
  apply ret_Ok in H as [-> ->]. destruct (v_rows _ _ _ _ _ Hok o b Hb) as [Hd [Hsum Hm Hall]].
  cbn [lacks] in Hd, Hsum. rewrite Z.eqb_refl in Hd, Hsum.
  destruct (savings_of_spec _ _ _ Hsav Hall) as (Hsh & Hz & Hall').
  destruct (set_row_moves x o d (d + z') b (b <| RexBal.rex_maturities := l |>) s tt s1 Hset Hb) as [Hok1 _]; [|done|done|].
  - intros _ _ _. split; [done|]. split; [|split; [lia|by right]]. split; [|done|done].
    change (rex_held (b <| RexBal.rex_maturities := l |>)) with (rex_held b). cbn. lia.
  - split; [done|]. split; [done|]. exists b, (b <| RexBal.rex_maturities := l |>). split; [done|]. split; [|done].
    unfold set_rex_balance in Hset. apply modify_Ok in Hset as ->. cbn. by rewrite lookup_insert_eq.
Qed.

Lemma back_moves x o d r t s b : 0 <= r <= d ->
  moves x o d (d - r) s b (b <| RexBal.rex_maturities ::= add_to_back t r |>).
Proof.
  intros Hr Hrow Hh Hd. destruct (row_shares d b Hrow Hh Hd) as [Hz Hsh]. destruct Hrow as [Hsum Hm Hall].
  destruct (add_to_back_spec t r (RexBal.rex_maturities b) Hall) as [Hs Hall']; [lia|lia|].
  split; [done|]. split; [|split; [lia|by right]]. split; [|done|exact Hall'].
  change (rex_held (b <| RexBal.rex_maturities ::= add_to_back t r |>)) with (rex_held b). cbn. lia.
Qed.

Lemma put_rex_savings_moves x o d z s u s' : put_rex_savings o z s = Ok (u, s') -> 0 <= z <= d ->
  vault_ok e y x (Some (o, d)) s -> vault_owed s <= rex_cap -> vault_ok e y x (Some (o, d - z)) s'.
Proof.
  intros H Hz Hok Hcap. unfold put_rex_savings in H. destruct (Z.eqb_spec z 0) as [->|Hne].
  - apply ret_Ok in H as [_ ->]. by rewrite Z.sub_0_r.
  - eapply modify_row_moves; [exact H| |done|done]. intros b. by apply back_moves.
Qed.

Lemma process_rex_maturities_moves x o d s u s' : process_rex_maturities e o s = Ok (u, s') ->
  vault_ok e y x (Some (o, d)) s -> vault_owed s <= rex_cap -> vault_ok e y x (Some (o, d)) s'.
Proof.
  intros H Hok Hcap. eapply modify_row_moves; [exact H| |done|done].
  intros b Hrow Hh Hd. destruct (row_shares d b Hrow Hh Hd) as [Hz Hsh]. destruct Hrow as [Hsum Hm Hall].
  destruct (mature _ _ _) as [m l] eqn:Hmat. destruct (mature_spec _ _ _ _ _ Hmat Hall Hm) as (Hle & Hs & Hall'); [lia|].
  split; [done|]. split; [|split; [done|by right]]. split; [|cbn; lia|exact Hall'].
  change (rex_held (b <| RexBal.matured_rex := m |> <| RexBal.rex_maturities := l |>)) with (rex_held b). cbn. lia.
Qed.

Lemma consolidate_rex_balance_vault o q s u s' : consolidate_rex_balance e o q s = Ok (u, s') ->
  vault_ok e y None None s -> vault_owed s <= rex_cap ->
  (forall b, rexbalances s !! o = Some b -> 0 <= amount q <= RexBal.matured_rex b) ->
  (forall r, rexorders s !! o = Some r -> Order.is_open r = true /\ amount q = amount (Order.rex_requested r)) ->
  vault_ok e y None None s' /\ kept_but s s' 0.
Proof.
  intros H Hok Hcap Hq Hor. unfold consolidate_rex_balance in H. apply bind_Ok in H as (z & s1 & Hread & H).
  apply bind_Ok in H as ([] & s2 & Hmod & H).
  destruct (off_rows_eq _ _ (read_rex_savings_off_rows _ _ _ _ Hread)) as (Ho1 & Hp1 & Ht1 & Hs1 & Hw1).
  destruct (off_rows_eq _ _ (modify_rex_balance_off_rows _ _ _ _ _ Hmod)) as (Ho2 & Hp2 & Ht2 & Hs2 & Hw2).
  destruct (off_rows_eq _ _ (put_rex_savings_off_rows _ _ _ _ _ H)) as (Ho3 & Hp3 & Ht3 & Hs3 & Hw3).
  apply (nothing_lacks None o) in Hok. destruct (read_rex_savings_moves None o 0 s z s1 Hread Hok Hcap) as (Hok1 & Hz & b & b1 & Hb & Hb1 & Hm1 & _).
  rewrite Z.add_0_l in Hok1. pose proof (Hq b Hb) as Hqb. apply (uncover e y (Some o)) in Hok1.
  unfold modify_rex_balance in Hmod. apply bind_Ok in Hmod as (b0 & s4 & [Hb0 ->]%get_rex_balance_Ok & Hmod).
  rewrite Hb1 in Hb0. injection Hb0 as <-.
  match type of Hmod with set_rex_balance o ?x _ = _ => set (b' := x) in Hmod end.
  destruct (v_rows _ _ _ _ _ Hok1 o b1 Hb1) as [_ Hrow1]. cbn [lacks] in Hrow1. rewrite Z.eqb_refl in Hrow1.
  assert (RexBal.matured_rex b' = amount q) as Hm' by done.
  destruct (set_row_moves (Some o) o z z b1 b' s1 tt s2 Hmod Hb1) as [Hok2 _]; [|done|lia|].
  { intros Hrow Hh Hd. destruct (row_shares z b1 Hrow Hh Hd) as [Hsz Hsh]. destruct Hrow as [Hsum Hm Hall].
    assert (fold_left (fun t b => i64 (t + b.2)) (RexBal.rex_maturities b1) (i64 (RexBal.matured_rex b1 - amount q)) =
      RexBal.matured_rex b1 - amount q + shares (RexBal.rex_maturities b1)) as Hfold.
    { rewrite i64_small by (unfold in_i64; lia). apply fold_shares; [done|lia|lia]. }
    split; [done|]. split; [|split; [done|by left]].
    split; [change (rex_held b') with (rex_held b1); rewrite Hm'|rewrite Hm'; lia|]; unfold b'; cbn [RexBal.rex_maturities update_field];
      cbv zeta; rewrite Hfold; destruct (Z.ltb_spec 0 (RexBal.matured_rex b1 - amount q + shares (RexBal.rex_maturities b1))).
    - rewrite zsum_cons, zsum_nil. cbn [snd]. lia.
    - rewrite zsum_nil. lia.
    - constructor; [cbn; lia|done].
    - done. }
  assert (vault_ok e y None (Some (o, z)) s2) as Hok2'.
  { apply (cover e y o); [done|]. intros r. rewrite Ho2, Ho1. intros Hr Hopen. destruct (Hor r Hr) as [_ Hreq].
    exists b'. split; [|rewrite Hm'; lia]. unfold set_rex_balance in Hmod. apply modify_Ok in Hmod as ->. cbn. by rewrite lookup_insert_eq. }
  pose proof (put_rex_savings_moves None o z z s2 u s' H ltac:(lia) Hok2' ltac:(lia)) as Hok3. rewrite Z.sub_diag in Hok3.
  split; [by apply (nothing_lacks None o)|]. lia.
Qed.

(** *** Buying *)

(** Tokens that entered a pool of which no shares are left: the next buyer's payment
    replaces them in the books. *)
Definition idle_tokens (s : sys) : Z :=
  match rexpool s with
  | Some p => if 0 <? amount (RexPool.total_rex p) then 0 else amount (RexPool.total_lendable p)
  | None => 0
  end.

Lemma first_shares z : 0 < z -> z <= rex_cap -> i64 (z * rex_ratio) = z * rex_ratio.
Proof. intros. apply i64_small. unfold in_i64, rex_ratio, rex_cap in *. lia. Qed.

Lemma add_to_rex_pool_vault x h q s r s1 : add_to_rex_pool q s = Ok (r, s1) ->
  vault_ok e y x h s -> 0 < amount q -> vault_owed s + amount q <= rex_cap ->
  exists p', s1 = s <| rexpool := Some p' |> /\ pool_good y p' /\ 0 <= amount r /\
    amount (RexPool.total_rex p') = total_rex_of s + amount r /\
    amount (RexPool.total_lendable p') = lendable_of s - idle_tokens s + amount q.
Proof.
  intros H Hok Hq Hcap. pose proof (parts_nonneg e y x h s Hok) as Hparts.
  assert (lendable_of s + amount q <= rex_cap) as Hlcap by (unfold vault_owed in Hcap; lia).
  unfold add_to_rex_pool in H. apply bind_Ok in H as (c & s2 & [-> ->]%(core_sym_of e y x h) & H); [|done].
  apply bind_Ok in H as (it & s2 & [-> ->]%gets_Ok & H). unfold lendable_of, total_rex_of, idle_tokens in *.
  destruct (rexpool s) as [p|] eqn:Hp; cbn [from_option] in *; cbv zeta in H.
  - destruct (v_pool _ _ _ _ _ Hok p Hp) as [Hl Hbal Hr Hsym].
    apply bind_Ok in H as (av & s2 & [-> ->]%gets_Ok & H). unfold rex_available in H. rewrite Hp in H.
    destruct (Z.ltb_spec 0 (amount (RexPool.total_rex p))) as [Hpos|Hnone]; cbn [negb] in H.
    + apply bind_Ok in H as ([] & s2 & [_ ->]%check_Ok & H). apply bind_Ok in H as (R1 & s2 & [HR1 ->]%lift_Ok & H).
      apply bind_Ok in H as ([] & s2 & [_ ->]%check_Ok & H). unfold set_pool in H. apply bind_Ok in H as ([] & s2 & Hs1%modify_Ok & H).
      apply ret_Ok in H as [-> ->]. rewrite Hs1. eexists. split; [reflexivity|].
      set (S0 := amount (RexPool.total_lendable p)) in *. set (R0 := amount (RexPool.total_rex p)) in *. unfold rex_cap, rex_ratio in *.
      rewrite (i64_small (S0 + amount q)) in * by (unfold in_i64; lia).
      assert ((S0 + amount q) * R0 / S0 <= 10000 * (S0 + amount q)) as Hup by (apply Z.div_le_upper_bound; nia).
      apply muldiv_exact in HR1; [|lia..].
      assert (R0 <= R1) by (rewrite HR1; apply Z.div_le_lower_bound; nia).
      rewrite (i64_small (R1 - R0)) by (unfold in_i64; lia). cbn [amount].
      split; [split|split; [lia|split; [cbn; lia|cbn; lia]]].
      * cbn. lia.
      * unfold pool_balanced. cbn. mod64.
      * cbn. unfold rex_ratio. lia.
      * done.
    + unfold set_pool in H. apply bind_Ok in H as ([] & s2 & Hs1%modify_Ok & H). apply ret_Ok in H as [-> ->].
      rewrite Hs1. eexists. split; [reflexivity|].
      assert (i64 (amount q * rex_ratio) = amount q * rex_ratio) as Hfirst by (apply first_shares; lia).
      split; [split|split; [|split]]; try done; unfold pool_balanced; cbn; rewrite ?Hfirst; unfold rex_ratio in *; try lia. f_equal. lia.
  - apply bind_Ok in H as (lent & s2 & [(_ & _ & ->)%make_asset_Ok ->]%lift_Ok & H).
    apply bind_Ok in H as (unlent & s2 & [(_ & _ & ->)%asset_minus_Ok ->]%lift_Ok & H).
    unfold set_pool in H. apply bind_Ok in H as ([] & s2 & Hs1%modify_Ok & H). apply ret_Ok in H as [-> ->].
    rewrite Hs1. eexists. split; [reflexivity|].
    assert (i64 (amount q * rex_ratio) = amount q * rex_ratio) as Hfirst by (apply first_shares; lia).
    split; [split|split; [|split]]; try done; unfold pool_balanced; cbn; rewrite ?Hfirst; unfold rex_ratio in *; try lia. f_equal. lia.
Qed.

(** The row receives the shares; they are in no bucket yet. *)
Lemma receive_shares o r s p' b' s2 :
  vault_ok e y None None s -> pool_good y p' -> 0 <= amount r ->
  amount (RexPool.total_rex p') = total_rex_of s + amount r ->
  (match rexbalances s !! o with
   | Some b => rex_held b' = rex_held b + amount r /\ RexBal.matured_rex b' = RexBal.matured_rex b /\
       RexBal.rex_maturities b' = RexBal.rex_maturities b
   | None => rex_held b' = amount r /\ RexBal.matured_rex b' = 0 /\ RexBal.rex_maturities b' = []
   end) ->
  s2 = s <| rexpool := Some p' |> <| rexbalances ::= insert o b' |> ->
  vault_ok e y None (Some (o, amount r)) s2.
Proof.
  intros Hok Hgood Hr Htotal Hb' Hs2.
  assert (rexbalances s2 = <[o := b']> (rexbalances s) /\ rexpool s2 = Some p' /\ rexorders s2 = rexorders s) as (Hrows & Hp & Ho)
    by (subst s2; done).
  destruct Hok. split; rewrite ?Hrows, ?Hp, ?Ho; try (subst s2; assumption).
  - intros o' ord Hord. pose proof (v_orders0 o' ord Hord) as Ho0. unfold order_ok in *. destruct (Order.is_open ord); [|done].
    destruct Ho0 as [Ho0 [Hx|(b0 & Hb0 & Hle)]]; [done|]. split; [done|right]. destruct (decide (o' = o)) as [->|Hne].
    + exists b'. rewrite lookup_insert_eq. split; [done|]. rewrite Hb0 in Hb'. destruct Hb' as (_ & -> & _). done.
    + exists b0. by rewrite lookup_insert_ne.
  - by intros q [= <-].
  - unfold total_rex_of at 1. rewrite Hp. cbn [from_option]. rewrite Htotal, <- v_shares0, msum_set.
    destruct (rexbalances s !! o) as [b|]; cbn [from_option]; lia.
  - intros o' b0 Hb0. cbn [lacks]. destruct (decide (o' = o)) as [->|Hne].
    + rewrite lookup_insert_eq in Hb0. injection Hb0 as <-. rewrite Z.eqb_refl. split; [done|].
      destruct (rexbalances s !! o) as [b|] eqn:Hb.
      * destruct Hb' as (H1 & H2 & H3). destruct (v_rows0 o b Hb) as [_ [Hsum Hm Hall]]. cbn [lacks] in Hsum.
        split; rewrite ?H1, ?H2, ?H3; [lia|done|done].
      * destruct Hb' as (H1 & H2 & H3). split; rewrite ?H1, ?H2, ?H3; [rewrite zsum_nil; lia|done|done].
    + rewrite lookup_insert_ne in Hb0 by done. rewrite (proj2 (Z.eqb_neq _ _) Hne). by apply (v_rows0 o').
Qed.

Lemma add_to_rex_pool_flowing q : keeps (flowing y) (add_to_rex_pool q).
Proof. unfold add_to_rex_pool, set_pool, core_symbol, get_core_symbol. solve_respects. Qed.
Lemma add_to_rex_balance_flowing o p r : keeps (flowing y) (add_to_rex_balance e o p r).
Proof.
  unfold add_to_rex_balance, read_rex_savings, process_rex_maturities, put_rex_savings, modify_rex_balance, get_rex_balance,
    set_rex_balance, get_pool, find_row, core_symbol, get_core_symbol. solve_respects.
Qed.

(** A payment that has left its fund becomes tokens of the pool and shares of the row. *)
Lemma buy_vault o q s r s1 d s2 :
  add_to_rex_pool q s = Ok (r, s1) -> add_to_rex_balance e o q r s1 = Ok (d, s2) ->
  tokens s2 = tokens s /\
  (vault_ok e y None None s -> 0 < amount q -> vault_owed s + amount q <= rex_cap ->
   vault_ok e y None None s2 /\ vault_surplus s2 = vault_surplus s + idle_tokens s - amount q).
Proof.
  intros Hpool Hbal. pose proof (flowing_tokens y held _ _ (add_to_rex_pool_flowing _ _ _ _ Hpool)) as Ht1.
  pose proof (flowing_tokens y held _ _ (add_to_rex_balance_flowing _ _ _ _ _ _ Hbal)) as Ht2.
  split; [lia|]. intros Hok Hq Hcap.
  destruct (add_to_rex_pool_vault None None q s r s1 Hpool Hok Hq Hcap) as (p' & Hs1 & Hgood & Hr & Htotal & Hlend).
  assert (rexbalances s1 = rexbalances s /\ rexpool s1 = Some p') as [Hrow1 Hp1] by (by subst s1).
  assert (0 <= idle_tokens s) as Hidle.
  { unfold idle_tokens. destruct (rexpool s) as [p|] eqn:Hp; [|done]. destruct (v_pool _ _ _ _ _ Hok p Hp). by destruct (_ <? _). }
  assert (vault_surplus s1 = vault_surplus s + idle_tokens s - amount q /\ vault_owed s1 = vault_owed s - idle_tokens s + amount q)
    as [Hsur1 Howed1].
  { assert (vault_owed s1 = vault_owed s - idle_tokens s + amount q) as Ho; [|split; [unfold RexVault.vault_surplus; lia|done]].
    unfold vault_owed at 1, lendable_of at 1. rewrite Hp1. cbn [from_option]. rewrite Hlend. subst s1. unfold vault_owed, ret_due. cbn. lia. }
  pose proof (parts_nonneg e y None None s Hok) as Hparts.
  assert (rex_ratio * amount (RexPool.total_lendable p') < 2 ^ 63) as Hcap'
    by (rewrite Hlend; unfold vault_owed, rex_cap, rex_ratio in *; lia).
  destruct (pg_rex _ _ Hgood) as [_ Hrexcap].
  unfold add_to_rex_balance, find_row in Hbal. apply bind_Ok in Hbal as (c & s3 & [_ ->]%core_symbol_Ok & Hbal).
  apply bind_Ok in Hbal as (it & s3 & [-> ->]%gets_Ok & Hbal). apply bind_Ok in Hbal as ([z1 z2] & s3 & Hrow & Hbal).
  (* the row *)
  assert (vault_ok e y None (Some (o, amount r)) s3 /\ vault_owed s3 = vault_owed s1 /\ vault_surplus s3 = vault_surplus s1) as (Hok3 & Howed3 & Hsur3).
  { assert (exists b', s3 = s1 <| rexbalances ::= insert o b' |> /\
      match rexbalances s !! o with
      | Some b => rex_held b' = rex_held b + amount r /\ RexBal.matured_rex b' = RexBal.matured_rex b /\
          RexBal.rex_maturities b' = RexBal.rex_maturities b
      | None => rex_held b' = amount r /\ RexBal.matured_rex b' = 0 /\ RexBal.rex_maturities b' = []
      end) as (b' & Hs3 & Hb').
    { rewrite Hrow1 in Hrow. destruct (rexbalances s !! o) as [b|] eqn:Hb.
      - apply bind_Ok in Hrow as (p & s4 & [_ ->]%get_pool_Ok & Hrow). apply bind_Ok in Hrow as (st & s4 & [_ ->]%lift_Ok & Hrow).
        apply bind_Ok in Hrow as ([] & s4 & Hset & Hrow). apply ret_Ok in Hrow as [_ ->]. unfold set_rex_balance in Hset.
        apply modify_Ok in Hset. eexists. split; [exact Hset|]. split; [|done]. pose proof (held_bound e y None None s o b Hok Hb) as Hh.
        unfold rex_held in *. cbn. apply i64_small. unfold in_i64. lia.
      - apply bind_Ok in Hrow as ([] & s4 & Hset & Hrow). apply ret_Ok in Hrow as [_ ->]. unfold set_rex_balance in Hset.
        apply modify_Ok in Hset. eexists. split; [exact Hset|]. done. }
    split; [eapply (receive_shares o r s p' b'); try done; by rewrite Hs3, Hs1|].
    rewrite Hs3. split; reflexivity. }
  apply bind_Ok in Hbal as (z & s4 & Hread & Hbal). apply bind_Ok in Hbal as ([] & s5 & Hproc & Hbal).
  apply bind_Ok in Hbal as ([] & s6 & Hback & Hbal). apply bind_Ok in Hbal as ([] & s7 & Hput & Hbal).
  apply lift_Ok in Hbal as [_ ->].
  destruct (off_rows_eq _ _ (read_rex_savings_off_rows _ _ _ _ Hread)) as (_ & _ & _ & Hs4 & Hw4).
  destruct (off_rows_eq _ _ (process_rex_maturities_off_rows _ _ _ _ Hproc)) as (_ & _ & _ & Hs5 & Hw5).
  destruct (off_rows_eq _ _ (modify_rex_balance_off_rows _ _ _ _ _ Hback)) as (_ & _ & _ & Hs6 & Hw6).
  destruct (off_rows_eq _ _ (put_rex_savings_off_rows _ _ _ _ _ Hput)) as (_ & _ & _ & Hs7 & Hw7).
  destruct (read_rex_savings_moves None o (amount r) s3 z s4 Hread Hok3) as (Hok4 & Hz & _); [lia|].
  pose proof (process_rex_maturities_moves None o _ s4 tt s5 Hproc Hok4 ltac:(lia)) as Hok5.
  destruct (modify_row_moves None o (amount r + z) (amount r + z - amount r) _ s5 tt s6 Hback) as [Hok6 _]; [|done|lia|].
  { intros b. apply back_moves. lia. }
  pose proof (put_rex_savings_moves None o (amount r + z - amount r) z s6 tt s7 Hput ltac:(lia) Hok6 ltac:(lia)) as Hok7.
  split; [|lia]. apply (nothing_lacks None o). by replace (amount r + z - amount r - z) with 0 in Hok7 by lia.
Qed.
End rows.

(** ** The actions *)
Inductive vault_action :=
| Rex_action (a : rex_action)
| Channel_fees (from : name) (q : asset) (required : bool).

Definition vault_exec `{cdt : Cdt} `{libm : Libm} (e : Env) (a : vault_action) : M sys unit :=
  match a with
  | Rex_action a => rex_exec e a
  | Channel_fees from q required => channel_to_rex e from q required
  end.

(** [eosio.rex] does not trade with itself, amounts are 64-bit integers, and fees are of the
    core token. *)
Definition vault_args (y : symbol) (a : vault_action) : Prop :=
  match a with
  | Rex_action (Deposit o _) | Rex_action (Withdraw o _) => o <> rex_account
  | Rex_action (Mvtosavings _ q) => in_i64 (amount q)
  | Rex_action _ => True
  | Channel_fees from q _ => from <> rex_account /\ asset_symbol q = y /\ 0 <= amount q
  end.

Section actions.
Context `{cdt : Cdt} `{!CdtLaws cdt} `{libm : Libm} (e : Env) (y : symbol) (held : Z).
Context (Hclock : clock_ok e).
Implicit Types s : sys.
Notation tokens := (tokens y held).
Notation vault_surplus := (vault_surplus y held).
Notation kept_but s s' delta := (tokens s' = tokens s /\ vault_surplus s' = vault_surplus s + (delta)).

(** What an action does to the books, from a state in which they are right. *)
Definition action_kept (s s' : sys) : Prop :=
  vault_ok e y None None s -> 0 <= vault_surplus s -> tokens s <= rex_cap -> tokens s' <= rex_cap ->
  vault_ok e y None None s' /\ vault_surplus s <= vault_surplus s'.

Lemma kept_action s s' : vault_kept e y held None None s s' -> action_kept s s'.
Proof. intros [_ Hk] Hok Hs _ Hcap. destruct (Hk Hok Hs Hcap). split; [done|lia]. Qed.

Lemma owed_le s : 0 <= vault_surplus s -> vault_owed s <= tokens s.
Proof. unfold RexVault.vault_surplus. lia. Qed.
Lemma owed_eq s s' d : kept_but s s' d -> vault_owed s' = vault_owed s - d.
Proof. unfold RexVault.vault_surplus. lia. Qed.

Lemma send_ok x s u s' : send x s = Ok (u, s') ->
  (forall z h, vault_ok e y z h s -> vault_ok e y z h s') /\ tokens s' = tokens s + flow_of rex_account y x /\
  vault_owed s' = vault_owed s.
Proof.
  intros H. unfold send in H. apply modify_Ok in H. split; [|split; [|by subst s']].
  - intros z h Hok. destruct Hok. split; subst s'; assumption.
  - unfold RexVault.tokens. eassert (effects s' = effects s ++ [_]) as -> by (rewrite H; reflexivity). rewrite flow_snoc. lia.
Qed.

Lemma zero_core_Ok' s z s' : zero_core s = Ok (z, s') -> amount z = 0 /\ s' = s.
Proof.
  unfold zero_core. intros H. apply bind_Ok in H as (c & s1 & [_ ->]%core_symbol_Ok & H).
  by apply lift_Ok in H as [(_ & _ & ->)%make_asset_Ok ->].
Qed.

(** Settling with nothing to add. *)
Lemma settle_vault o z d b s q s' : update_rex_account e o z d b s = Ok (q, s') -> amount z = 0 ->
  vault_ok e y None None s -> vault_owed s <= rex_cap ->
  vault_ok e y None None s' /\ kept_but s s' 0 /\ 0 <= amount q /\
  (forall r, rexorders s' !! o = Some r -> Order.is_open r = true /\ amount q = amount (Order.rex_requested r)) /\
  (rexorders s' !! o = None -> amount q = 0).
Proof.
  intros H Hz Hok Hcap. destruct (update_rex_account_vault e y held None None o z d b s q s' H) as (Ht & _ & Hk).
  destruct Hk as (Hok' & Hs' & Hq); [done|lia|unfold rex_cap in *; lia|]. split; [done|]. split; [lia|done].
Qed.

Lemma settle_tokens o z d b s q s' : update_rex_account e o z d b s = Ok (q, s') -> tokens s' = tokens s.
Proof. intros H. by destruct (update_rex_account_vault e y held None None o z d b s q s' H) as (Ht & _ & _). Qed.

Lemma deposit_action o q s u s' : o <> rex_account -> deposit e o q s = Ok (u, s') -> action_kept s s'.
Proof.
  intros Ho H Hok Hs Hcap Hcap'. unfold deposit in H. apply bind_Ok in H as ([] & s1 & [_ ->]%check_Ok & H).
  apply bind_Ok in H as (c & s1 & [-> ->]%(core_sym_of e y None None) & H); [|done].
  apply bind_Ok in H as ([] & s1 & [Hsym%symbol_eqb_eq ->]%check_Ok & H). apply bind_Ok in H as ([] & s1 & [Hpos%Z.ltb_lt ->]%check_Ok & H).
  apply bind_Ok in H as ([] & s1 & Hsend & H). destruct (send_ok _ _ _ _ Hsend) as (Hok1 & Ht1 & Ho1).
  cbn [flow_of] in Ht1. rewrite Hsym, symbol_eqb_refl, Z.eqb_refl, (proj2 (Z.eqb_neq _ _) Ho) in Ht1.
  pose proof (owed_le s Hs) as Hle.
  destruct (transfer_to_fund_vault e y held None None o q s1 u s' H) as (Hok' & Hk & _).
  - by apply Hok1.
  - assert (tokens s' = tokens s1); [|unfold rex_cap in *; lia].
    unfold transfer_to_fund, find_row in H. apply bind_Ok in H as (c & s4 & [_ ->]%core_symbol_Ok & H).
    apply bind_Ok in H as ([] & s4 & [_ ->]%check_Ok & H). apply bind_Ok in H as (it & s4 & [-> ->]%gets_Ok & H).
    destruct (rexfunds s1 !! _); by apply modify_Ok in H as ->.
  - split; [done|]. destruct Hk as [Ht' Hs']. unfold RexVault.vault_surplus in *. lia.
Qed.

Lemma withdraw_action o q s u s' : o <> rex_account -> withdraw e o q s = Ok (u, s') -> action_kept s s'.
Proof.
  intros Ho H Hok Hs Hcap _. unfold withdraw in H. apply bind_Ok in H as ([] & s1 & [_ ->]%check_Ok & H).
  apply bind_Ok in H as (c & s1 & [-> ->]%(core_sym_of e y None None) & H); [|done].
  apply bind_Ok in H as ([] & s1 & [Hsym%symbol_eqb_eq ->]%check_Ok & H). apply bind_Ok in H as ([] & s1 & [Hpos%Z.ltb_lt ->]%check_Ok & H).
  apply bind_Ok in H as (z & s1 & [Hz ->]%zero_core_Ok' & H). apply bind_Ok in H as (z' & s1 & Hset & H).
  apply bind_Ok in H as ([] & s2 & Hfund & H). pose proof (owed_le s Hs) as Hle.
  destruct (settle_vault _ _ _ _ _ _ _ Hset Hz Hok ltac:(lia)) as (Hok1 & Hk1 & _). pose proof (owed_eq _ _ _ Hk1) as Ho1.
  destruct (transfer_from_fund_vault e y held None None o q s1 tt s2 Hfund Hok1) as (Hok2 & Hk2 & _); [unfold rex_cap in *; lia|].
  destruct (send_ok _ _ _ _ H) as (Hok3 & Ht3 & Ho3). cbn [flow_of] in Ht3.
  rewrite Hsym, symbol_eqb_refl, Z.eqb_refl, (proj2 (Z.eqb_neq _ _) Ho) in Ht3.
  split; [by apply Hok3|]. unfold RexVault.vault_surplus in *. lia.
Qed.

(** The common end of the two ways to buy. *)
Lemma bought_action o q s r s1 d s2 u3 s3 z s4 delta b x s5 u s' :
  add_to_rex_pool q s = Ok (r, s1) -> add_to_rex_balance e o q r s1 = Ok (d, s2) -> runrex e 2 s2 = Ok (u3, s3) ->
  zero_core s3 = Ok (z, s4) -> update_rex_account e o z delta b s4 = Ok (x, s5) -> send (BuyResult r) s5 = Ok (u, s') ->
  tokens s <= tokens s' /\
  (vault_ok e y None None s -> 0 < amount q -> amount q <= vault_surplus s -> tokens s <= rex_cap -> tokens s' <= rex_cap ->
   vault_ok e y None None s' /\ vault_surplus s - amount q <= vault_surplus s').
Proof.
  intros Hpool Hbal Hrun [Hz ->]%zero_core_Ok' Hset Hsend.
  destruct (buy_vault e y held o q s r s1 d s2 Hpool Hbal) as [Ht2 Hk2].
  destruct (runrex_vault e y held Hclock 2 s2 u3 s3 Hrun) as [Ht3 Hk3]. pose proof (settle_tokens _ _ _ _ _ _ _ Hset) as Ht5.
  destruct (send_ok _ _ _ _ Hsend) as (Hok6 & Ht6 & Ho6). cbn [flow_of] in Ht6.
  split; [lia|]. intros Hok Hq Hs Hcap Hcap'. pose proof (owed_le s ltac:(lia)) as Hle.
  destruct Hk2 as [Hok2 Hs2]; [done|done|unfold RexVault.vault_surplus in *; lia|].
  assert (0 <= idle_tokens s) as Hidle.
  { unfold idle_tokens. destruct (rexpool s) as [p|] eqn:Hp; [|done]. destruct (v_pool _ _ _ _ _ Hok p Hp). by destruct (_ <? _). }
  destruct Hk3 as [Hok3 Hs3]; [done|lia|lia|]. pose proof (owed_le s3 ltac:(lia)) as Hle3.
  destruct (settle_vault _ _ _ _ _ _ _ Hset Hz Hok3 ltac:(lia)) as (Hok5 & Hk5 & _).
  split; [by apply Hok6|]. unfold RexVault.vault_surplus in *. lia.
Qed.

Lemma buyrex_action f q s u s' : buyrex e f q s = Ok (u, s') -> action_kept s s'.
Proof.
  intros H Hok Hs Hcap Hcap'. unfold buyrex in H. apply bind_Ok in H as ([] & s1 & [_ ->]%check_Ok & H).
  apply bind_Ok in H as (c & s1 & [-> ->]%(core_sym_of e y None None) & H); [|done].
  apply bind_Ok in H as ([] & s1 & [_ ->]%check_Ok & H). apply bind_Ok in H as ([] & s1 & [Hpos%Z.ltb_lt ->]%check_Ok & H).
  apply bind_Ok in H as ([] & s1 & Hfund & H). apply bind_Ok in H as (r & s2 & Hpool & H). apply bind_Ok in H as (d & s3 & Hbal & H).
  apply bind_Ok in H as ([] & s4 & Hrun & H). apply bind_Ok in H as (z & s5 & Hz & H). apply bind_Ok in H as (x & s6 & Hset & H).
  pose proof (owed_le s Hs) as Hle.
  destruct (transfer_from_fund_vault e y held None None f q s tt s1 Hfund Hok) as (Hok1 & [Ht1 Hs1] & _); [unfold rex_cap in *; lia|].
  destruct (bought_action _ _ _ _ _ _ _ _ _ _ _ _ _ _ _ _ _ Hpool Hbal Hrun Hz Hset H) as [_ Hk].
  destruct Hk as [Hok' Hs']; [done|done|lia|lia|done|]. split; [done|lia].
Qed.

Lemma unstaketorex_action o r n c s u s' : unstaketorex e o r n c s = Ok (u, s') -> action_kept s s'.
Proof.
  intros H Hok Hs Hcap Hcap'. unfold unstaketorex, find_row in H. apply bind_Ok in H as ([] & s1 & [_ ->]%check_Ok & H).
  apply bind_Ok in H as (k & s1 & [-> ->]%(core_sym_of e y None None) & H); [|done].
  apply bind_Ok in H as ([] & s1 & [Hsym ->]%check_Ok & H). apply andb_true_iff in Hsym as [Hsn%symbol_eqb_eq Hsc%symbol_eqb_eq].
  apply bind_Ok in H as ([] & s1 & [Hamt ->]%check_Ok & H). apply bind_Ok in H as (it & s1 & [-> ->]%gets_Ok & H).
  apply bind_Ok in H as (d & s1 & [Hd ->]%require_found_Ok & H). apply bind_Ok in H as ([] & s1 & [_ ->]%check_Ok & H).
  apply bind_Ok in H as ([] & s1 & [_ ->]%check_Ok & H). cbv zeta in H. apply bind_Ok in H as ([] & s1 & H1%modify_Ok & H).
  apply bind_Ok in H as ([] & s2 & H2 & H). apply bind_Ok in H as ([] & s3 & H3 & H).
  assert (vault y s3 = vault y s) as Hv.
  { transitivity (vault y s2); [by apply (update_resource_limits_vault y) in H3|]. transitivity (vault y s1); [|by subst s1].
    apply when_Ok in H2. destruct (delegated_bandwidth_is_empty _); [by apply modify_Ok in H2 as ->|by subst s2]. }
  destruct (vault_view e y held s s3 Hv) as (Ht3 & Hs3 & Hok3).
  apply bind_Ok in H as (pay & s4 & [(_ & _ & ->)%asset_plus_Ok ->]%lift_Ok & H). apply bind_Ok in H as ([] & s4 & Hsend & H).
  destruct (send_ok _ _ _ _ Hsend) as (Hok4 & Ht4 & Ho4). cbn [flow_of asset_symbol] in Ht4.
  rewrite Hsn, symbol_eqb_refl, Z.eqb_refl in Ht4. change (stake_account =? rex_account) with false in Ht4. cbn [amount] in Ht4.
  apply bind_Ok in H as (rx & s5 & Hpool & H). apply bind_Ok in H as (dl & s6 & Hbal & H). apply bind_Ok in H as ([] & s7 & Hrun & H).
  apply bind_Ok in H as (z & s8 & Hz & H). apply bind_Ok in H as (dl2 & s9 & [_ ->]%lift_Ok & H). apply bind_Ok in H as (x & s9 & Hset & H).
  destruct (bought_action _ _ _ _ _ _ _ _ _ _ _ _ _ _ _ _ _ Hpool Hbal Hrun Hz Hset H) as [Hmono Hk]. cbn [amount] in Hk.
  rewrite !andb_true_iff, orb_true_iff, !Z.leb_le, !Z.ltb_lt in Hamt. unfold RexVault.vault_surplus in *.
  destruct Hk as [Hok' Hs']; [by apply Hok4, Hok3|lia|lia|lia|done|]. split; [done|lia].
Qed.

(** *** Selling *)
Lemma process_maturities_vault o s u s' : process_rex_maturities e o s = Ok (u, s') ->
  tokens s' = tokens s /\ vault_surplus s' = vault_surplus s /\ rexorders s' = rexorders s /\
  (vault_ok e y None None s -> vault_owed s <= rex_cap -> vault_ok e y None None s').
Proof.
  intros H. destruct (off_rows_eq y held _ _ (process_rex_maturities_off_rows e y held _ _ _ _ H)) as (Ho & _ & Ht & Hs & _).
  split_and!; [done..|]. intros Hok Hcap. apply (nothing_lacks e y None o).
  eapply process_rex_maturities_moves; [done|exact H|by apply nothing_lacks|done].
Qed.

(** An order that joins the queue, or the one that waits there, asks for shares of its
    owner; whether they are matured is checked afterwards. *)
Lemma queue_order_vault o rex s a s' : queue_order e o rex s = Ok (a, s') ->
  vault_ok e y (Some o) None s -> 0 < amount rex ->
  (forall r, rexorders s !! o = Some r -> Order.is_open r = true /\ amount (Order.rex_requested r) + amount rex < 2 ^ 63) ->
  vault_ok e y (Some o) None s' /\ kept_but s s' 0 /\ rexbalances s' = rexbalances s /\
  exists r, rexorders s' !! o = Some r /\ amount (Order.rex_requested r) = a.
Proof.
  intros H Hok Hpos Hopen. unfold queue_order, find_row in H. apply bind_Ok in H as ([] & s1 & [_ ->]%check_Ok & H).
  apply bind_Ok in H as (it & s1 & [-> ->]%gets_Ok & H). apply bind_Ok in H as (r & s1 & Hr & H).
  apply bind_Ok in H as ([] & s2 & Hmod%modify_Ok & H). apply ret_Ok in H as [-> ->].
  assert (s1 = s /\ Order.is_open r = true /\ 0 < amount (Order.rex_requested r) /\
    from_option order_due 0 (rexorders s !! o) = 0) as (-> & Hro & Hreq & Hdue).
  { destruct (rexorders s !! o) as [r0|] eqn:Hr0.
    - apply ret_Ok in Hr as [-> ->]. destruct (Hopen r0 eq_refl) as [Ho Hle]. split; [done|]. split; [done|].
      pose proof (v_orders _ _ _ _ _ Hok o r0 Hr0) as Hv. unfold order_ok in Hv. rewrite Ho in Hv. destruct Hv as [Hv _].
      cbn [from_option]. unfold order_due. rewrite Ho. split; [|done]. cbn. rewrite i64_small by (unfold in_i64; lia). lia.
    - apply bind_Ok in Hr as (z & s3 & [_ ->]%zero_core_Ok' & Hr). apply ret_Ok in Hr as [-> ->]. by split_and!. }
  destruct (set_order e y held (Some o) None s o r Hok) as [Hok' [Ht Hs]].
  - unfold order_ok. rewrite Hro. split; [done|by left].
  - rewrite <- Hmod in Hok', Ht, Hs. split; [done|]. split.
    { split; [done|]. rewrite Hs, Hdue. unfold order_due. rewrite Hro. lia. }
    split; [by subst s2|]. exists r. split; [|done]. subst s2. cbn. by rewrite lookup_insert_eq.
Qed.

Lemma sellrex_action o rex s u s' : sellrex e o rex s = Ok (u, s') -> action_kept s s'.
Proof.
  intros H Hok Hs Hcap Hcap'. unfold sellrex in H. apply bind_Ok in H as ([] & s1 & [_ ->]%check_Ok & H).
  apply bind_Ok in H as ([] & s1 & Hrun & H). apply bind_Ok in H as (b & s2 & [_ ->]%get_rex_balance_Ok & H).
  apply bind_Ok in H as ([] & s2 & [Hpos ->]%check_Ok & H). apply andb_true_iff in Hpos as [Hpos%Z.ltb_lt _].
  apply bind_Ok in H as ([] & s2 & Hproc & H). apply bind_Ok in H as (b1 & s3 & [Hb1 ->]%get_rex_balance_Ok & H).
  apply bind_Ok in H as ([] & s3 & [Hmat%Z.leb_le ->]%check_Ok & H). apply bind_Ok in H as (out & s3 & Hfill & H).
  apply bind_Ok in H as ([] & s4 & [_ ->]%check_Ok & H). apply bind_Ok in H as (q & s4 & Hset & H).
  apply bind_Ok in H as (pending & s5 & Hpend & H). apply bind_Ok in H as (b2 & s6 & [Hb2 ->]%get_rex_balance_Ok & H).
  apply bind_Ok in H as ([] & s6 & [Hcov%Z.leb_le ->]%check_Ok & Hsend).
  destruct (runrex_vault e y held Hclock 2 s tt s1 Hrun) as [Ht1 Hk1].
  destruct (process_maturities_vault _ _ _ _ Hproc) as (Ht2 & Hs2 & _ & Hk2).
  destruct (fill_rex_order_vault e y held o rex s2 out s3 b1 Hfill Hb1) as (Ht3 & Ho3 & _ & Hno & Hk3); [lia|].
  destruct (update_rex_account_vault e y held (Some o) None _ _ _ _ _ _ _ Hset) as (Ht4 & Hb4 & Hk4).
  destruct (update_rex_account_vault e y held None None _ _ _ _ _ _ _ Hset) as (_ & _ & Hk4').
  assert (forall z h, vault_ok e y z h s5 -> vault_ok e y z h s') as Hok'.
  { apply when_Ok in Hsend. destruct (success out); [|subst s'; done]. by destruct (send_ok _ _ _ _ Hsend). }
  assert (tokens s' = tokens s5 /\ vault_owed s' = vault_owed s5) as [Ht' Ho'].
  { apply when_Ok in Hsend. destruct (success out); [|subst s'; done].
    destruct (send_ok _ _ _ _ Hsend) as (_ & Ht & Ho). cbn [flow_of] in Ht. split; [lia|done]. }
  assert (tokens s5 = tokens s4) as Ht5.
  { destruct (success out); [by apply ret_Ok in Hpend as [_ ->]|]. unfold queue_order, find_row in Hpend.
    apply bind_Ok in Hpend as ([] & s6 & [_ ->]%check_Ok & H). apply bind_Ok in H as (it & s6 & [-> ->]%gets_Ok & H).
    apply bind_Ok in H as (r & s6 & Hr & H). apply bind_Ok in H as ([] & s7 & ->%modify_Ok & H). apply ret_Ok in H as [_ ->].
    destruct (rexorders s4 !! o); [by apply ret_Ok in Hr as [_ ->]|].
    apply bind_Ok in Hr as (z & s7 & [_ ->]%zero_core_Ok' & Hr). by apply ret_Ok in Hr as [_ ->]. }
  destruct Hk1 as [Hok1 Hs1]; [done|done|lia|]. pose proof (owed_le s1 ltac:(lia)) as Hle1.
  pose proof (Hk2 Hok1 ltac:(lia)) as Hok2. pose proof (owed_le s2 ltac:(lia)) as Hle2.
  destruct (owed_cap e y _ _ s2 Hok2 ltac:(lia)) as [_ Hheld].
  destruct (success out) eqn:Hout.
  - destruct Hk3 as (Hok3 & Hpr & Hs3 & _); [done|lia|done|].
    destruct Hk4 as (Hok4 & Hs4 & Hq & Hor & _); [done|done|unfold RexVault.vault_surplus, rex_cap in *; lia|].
    apply ret_Ok in Hpend as [-> ->].
    split; [|unfold RexVault.vault_surplus in *; lia]. apply Hok'. apply (cover e y o); [done|].
    intros r Hr _. exists b2. split; [done|]. destruct (Hor r Hr) as [_ <-]. done.
  - rewrite (Hno eq_refl) in *. clear Hk3.
    assert (amount (order_proceeds out) = 0) as Hz.
    { unfold fill_rex_order in Hfill. apply bind_Ok in Hfill as (p & s6 & [Hp ->]%get_pool_Ok & H).
      apply bind_Ok in H as (pz & s6 & [Hpz ->]%lift_Ok & H). apply bind_Ok in H as (c & s6 & [_ ->]%core_symbol_Ok & H).
      apply bind_Ok in H as (pr & s6 & [_ ->]%lift_Ok & H). cbv zeta in H.
      destruct (amount pr <=? _); [|by apply ret_Ok in H as [-> _]].
      apply bind_Ok in H as (b0 & s6 & _ & H). apply bind_Ok in H as (cs & s7 & _ & H). apply bind_Ok in H as (? & s8 & _ & H).
      apply bind_Ok in H as (? & s9 & _ & H). apply ret_Ok in H as [-> _]. done. }
    destruct Hk4' as (Hok4 & Hs4 & Hq & Hor & Hnone); [done|lia|unfold rex_cap in *; lia|].
    destruct (queue_order_vault o rex s4 pending s5 Hpend (uncover e y (Some o) None s4 Hok4) Hpos) as (Hok5 & [_ Hs5] & Hb5 & r5 & Hr5 & Hreq5).
    { intros r Hr. destruct (Hor r Hr) as [Hopen Heq]. split; [done|].
      pose proof (v_orders _ _ _ _ _ Hok4 o r Hr) as Hv. unfold order_ok in Hv. rewrite Hopen, Hb4, Hb1 in Hv.
      destruct Hv as [_ [?|(b0 & [= <-] & Hle)]]; [done|]. pose proof (Hheld o b1 Hb1) as Hh1.
      destruct (v_rows _ _ _ _ _ Hok2 o b1 Hb1) as (_ & [Hsum _ Hbuck]). pose proof (shares_nonneg _ Hbuck). cbn [lacks] in Hsum. lia. }
    split; [|unfold RexVault.vault_surplus in *; lia]. apply Hok'. apply (cover e y o); [done|].
    intros r Hr _. exists b2. split; [done|]. rewrite Hr5 in Hr. injection Hr as <-. lia.
Qed.

Lemma cnclrexorder_action o s u s' : cnclrexorder e o s = Ok (u, s') -> action_kept s s'.
Proof.
  intros H Hok Hs _ _. unfold cnclrexorder, find_row in H. apply bind_Ok in H as ([] & s1 & [_ ->]%check_Ok & H).
  apply bind_Ok in H as (it & s1 & [-> ->]%gets_Ok & H). apply bind_Ok in H as (r & s1 & [Hr ->]%require_found_Ok & H).
  apply bind_Ok in H as ([] & s1 & [Hopen ->]%check_Ok & H). apply modify_Ok in H.
  destruct (delete_order e y held None None s o r Hok Hr) as (Hok' & _ & Hs'). rewrite <- H in Hok', Hs'.
  split; [done|]. unfold order_due in Hs'. rewrite Hopen in Hs'. lia.
Qed.

(** *** Renting *)
Lemma limits_kept a b n c s u s' : update_resource_limits a b n c s = Ok (u, s') -> action_kept s s'.
Proof. intros H. apply kept_action, vault_kept_view. by apply (update_resource_limits_vault y) in H. Qed.

Lemma transfer_from_fund_frame o q s u s' k : transfer_from_fund o q s = Ok (u, s') ->
  tokens s' = tokens s /\ loans_of k s' = loans_of k s.
Proof. intros (_ & _ & f & _ & _ & ->)%transfer_from_fund_inv. split; [done|by destruct k]. Qed.

Lemma set_loans_tokens k f s u s' : set_loans k f s = Ok (u, s') -> tokens s' = tokens s.
Proof. intros H. unfold set_loans in H. destruct k; by apply modify_Ok in H as ->. Qed.

Lemma rent_rex_action k f r p q s a s' : rent_rex e k f r p q s = Ok (a, s') ->
  tokens s <= tokens s' /\ action_kept s s'.
Proof.
  intros H. unfold rent_rex in H. apply bind_Ok in H as ([] & s1 & Hrun & H). apply bind_Ok in H as (av & s2 & [-> ->]%gets_Ok & H).
  apply bind_Ok in H as ([] & s2 & [_ ->]%check_Ok & H). apply bind_Ok in H as (c & s2 & [_ ->]%core_symbol_Ok & H).
  apply bind_Ok in H as ([] & s2 & [_ ->]%check_Ok & H). apply bind_Ok in H as ([] & s2 & [Hpos ->]%check_Ok & H).
  apply andb_true_iff in Hpos as [Hp%Z.ltb_lt Hq%Z.leb_le].
  apply bind_Ok in H as (total & s2 & [(_ & _ & ->)%asset_plus_Ok ->]%lift_Ok & H). apply bind_Ok in H as ([] & s2 & Hfund & H).
  apply bind_Ok in H as (pool & s3 & [_ ->]%get_pool_Ok & H). apply bind_Ok in H as (rented & s3 & [_ ->]%lift_Ok & H).
  apply bind_Ok in H as ([] & s3 & [_ ->]%check_Ok & H). apply bind_Ok in H as ([] & s3 & Hadd & H).
  apply bind_Ok in H as (staked & s4 & [_ ->]%lift_Ok & H). apply bind_Ok in H as (pool' & s4 & [_ ->]%get_pool_Ok & H). cbv zeta in H.
  apply bind_Ok in H as (old & s4 & [-> ->]%gets_Ok & H). apply bind_Ok in H as ([] & s4 & [_ ->]%check_Ok & H).
  apply bind_Ok in H as ([] & s4 & Hset & H). apply bind_Ok in H as ([] & s5 & Hsend & H). apply ret_Ok in H as [-> ->].
  destruct (runrex_vault e y held Hclock 2 s tt s1 Hrun) as [Ht1 Hk1]. destruct (transfer_from_fund_frame _ _ _ _ _ k Hfund) as [Ht2 _].
  destruct (add_loan_vault e y held Hclock None None _ _ _ _ _ _ Hadd) as [Ht3 Hk3].
  pose proof (set_loans_tokens _ _ _ _ _ Hset) as Ht4. destruct (send_ok _ _ _ _ Hsend) as (Hok5 & Ht5 & Ho5). cbn [flow_of] in Ht5.
  split; [lia|]. intros Hok Hs Hcap Hcap'.
  destruct Hk1 as [Hok1 Hs1]; [done|done|lia|]. pose proof (owed_le s1 ltac:(lia)) as Hle1.
  destruct (transfer_from_fund_vault e y held None None _ _ _ _ _ Hfund Hok1) as (Hok2 & [_ Hs2] & _); [unfold rex_cap in *; lia|].
  cbn [amount] in Hs2. pose proof (owed_le s2 ltac:(lia)) as Hle2.
  destruct Hk3 as (Hok3 & Hs3 & _); [done|lia|unfold RexVault.vault_surplus, rex_cap in *; lia|].
  match type of Hset with set_loans _ (insert ?n ?x) _ = _ => set (num := n) in Hset; set (l := x) in Hset end.
  destruct (set_loan e y held None None s3 k num l Hok3 Hq ltac:(apply Z.lt_le_incl, Hp) tt s4 Hset) as (Hok4 & [_ Hs4] & _).
  change (loan_held l) with (amount q) in Hs4.
  assert (0 <= from_option loan_held 0 (loans_of k s3 !! num)) as Hold.
  { destruct (loans_of k s3 !! num) as [l0|] eqn:Hl0; [|done]. cbn [from_option]. by destruct (loan_bound e y None None k s3 num l0 Hok3 Hl0) as [[? _] _]. }
  split; [by apply Hok5|]. unfold RexVault.vault_surplus in *. lia.
Qed.

Lemma action_trans s1 s2 s3 : tokens s2 <= tokens s3 -> action_kept s1 s2 -> action_kept s2 s3 -> action_kept s1 s3.
Proof.
  intros Ht H12 H23 Hok Hs Hcap Hcap'. destruct (H12 Hok Hs Hcap ltac:(lia)) as [Hok2 Hs2].
  destruct (H23 Hok2 ltac:(lia) ltac:(lia) Hcap') as [Hok3 Hs3]. split; [done|lia].
Qed.

Lemma rent_action k f r p q n c s a s1 u s' :
  rent_rex e k f r p q s = Ok (a, s1) -> update_resource_limits f r n c s1 = Ok (u, s') -> action_kept s s'.
Proof.
  intros Hrent Hlim. destruct (rent_rex_action _ _ _ _ _ _ _ _ Hrent) as [Ht Hk].
  eapply action_trans; [|exact Hk|by eapply limits_kept].
  apply (update_resource_limits_vault y) in Hlim. destruct (vault_view e y held _ _ Hlim) as [Ht' _]. lia.
Qed.

Lemma fund_rex_loan_action k f n q s u s' : fund_rex_loan e k f n q s = Ok (u, s') -> action_kept s s'.
Proof.
  intros H Hok Hs Hcap _. unfold fund_rex_loan, find_row in H. apply bind_Ok in H as (c & s1 & [_ ->]%core_symbol_Ok & H).
  apply bind_Ok in H as ([] & s1 & [_ ->]%check_Ok & H). apply bind_Ok in H as ([] & s1 & Hfund & H).
  apply bind_Ok in H as (it & s2 & [-> ->]%gets_Ok & H). apply bind_Ok in H as (l & s2 & [Hl ->]%require_found_Ok & H).
  apply bind_Ok in H as ([] & s2 & [_ ->]%check_Ok & H). apply bind_Ok in H as ([] & s2 & [_ ->]%check_Ok & H).
  pose proof (owed_le s Hs) as Hle.
  destruct (transfer_from_fund_vault e y held None None _ _ _ _ _ Hfund Hok) as (Hok1 & Hk1 & Hpos); [unfold rex_cap in *; lia|].
  pose proof (owed_eq _ _ _ Hk1) as Ho1. destruct Hk1 as [Ht1 Hs1]. destruct (loan_bound e y None None k s1 n l Hok1 Hl) as [Hb Hpay].
  match type of H with set_loans _ (insert _ ?x) _ = _ => set (l' := x) in H end.
  assert (loan_held l' = loan_held l + amount q) as Hl' by (apply i64_small; unfold in_i64, loan_held, rex_cap in *; lia).
  destruct (set_loan e y held None None s1 k n l' Hok1 ltac:(lia) Hpay u s' H) as (Hok2 & [_ Hs2] & _).
  split; [done|]. rewrite Hl in Hs2. cbn [from_option] in Hs2. lia.
Qed.

Lemma defund_rex_loan_action k f n q s u s' : defund_rex_loan e k f n q s = Ok (u, s') -> action_kept s s'.
Proof.
  intros H Hok Hs Hcap _. unfold defund_rex_loan, find_row in H. apply bind_Ok in H as (c & s1 & [_ ->]%core_symbol_Ok & H).
  apply bind_Ok in H as ([] & s1 & [_ ->]%check_Ok & H).
  apply bind_Ok in H as (it & s2 & [-> ->]%gets_Ok & H). apply bind_Ok in H as (l & s2 & [Hl ->]%require_found_Ok & H).
  apply bind_Ok in H as ([] & s2 & [_ ->]%check_Ok & H). apply bind_Ok in H as ([] & s2 & [_ ->]%check_Ok & H).
  apply bind_Ok in H as (ok & s2 & [[_ ->]%asset_le_Ok ->]%lift_Ok & H). apply bind_Ok in H as ([] & s2 & [Hge%Z.leb_le ->]%check_Ok & H).
  apply bind_Ok in H as ([] & s2 & Hset & H). pose proof (owed_le s Hs) as Hle.
  assert (0 < amount q) as Hpos.
  { unfold transfer_to_fund in H. apply bind_Ok in H as (c' & s3 & [_ ->]%core_symbol_Ok & H).
    by apply bind_Ok in H as ([] & s3 & [[Hpos%Z.ltb_lt _]%andb_true_iff ->]%check_Ok & H). }
  destruct (loan_bound e y None None k s n l Hok Hl) as [Hb Hpay].
  match type of Hset with set_loans _ (insert _ ?x) _ = _ => set (l' := x) in Hset end.
  assert (loan_held l' = loan_held l - amount q) as Hl' by (apply i64_small; unfold in_i64, loan_held, rex_cap in *; lia).
  assert (amount q <= loan_held l) as Hql by done.
  destruct (set_loan e y held None None s k n l' Hok ltac:(lia) Hpay tt s2 Hset) as (Hok1 & Hk1 & _).
  rewrite Hl in Hk1. cbn [from_option] in Hk1. pose proof (owed_eq _ _ _ Hk1) as Ho1. destruct Hk1 as [Ht1 Hs1].
  destruct (transfer_to_fund_vault e y held None None _ _ _ _ _ H Hok1) as (Hok2 & [_ Hs2] & _); [unfold rex_cap in *; lia|].
  split; [done|lia].
Qed.

(** *** Upkeep *)
Lemma runrex_action n s u s' : runrex e n s = Ok (u, s') -> action_kept s s'.
Proof. intros H. apply kept_action. by eapply runrex_vault. Qed.

(** A row whose stake alone changes. *)
Lemma set_stake_vault o b b' s u s' : set_rex_balance o b' s = Ok (u, s') -> rexbalances s !! o = Some b ->
  rex_held b' = rex_held b -> RexBal.matured_rex b' = RexBal.matured_rex b -> RexBal.rex_maturities b' = RexBal.rex_maturities b ->
  vault_ok e y None None s -> vault_ok e y None None s' /\ kept_but s s' 0.
Proof.
  intros H Hb Hh Hm Hl Hok. destruct (v_rows _ _ _ _ _ Hok o b Hb) as [Hd [Hsum Hmat Hbuck]].
  eapply (set_row e y held None None None); [exact Hok|exact Hb|exact Hh|done|done| |right; lia|exact H].
  split; rewrite ?Hh, ?Hm, ?Hl; done.
Qed.

Lemma updaterex_action o s u s' : updaterex e o s = Ok (u, s') -> action_kept s s'.
Proof.
  intros H Hok Hs Hcap Hcap'. unfold updaterex in H. apply bind_Ok in H as ([] & s1 & [_ ->]%check_Ok & H).
  apply bind_Ok in H as ([] & s1 & Hrun & H). apply bind_Ok in H as (b & s2 & [Hb ->]%get_rex_balance_Ok & H).
  apply bind_Ok in H as (p & s2 & [_ ->]%get_pool_Ok & H). apply bind_Ok in H as (z & s2 & [Hz ->]%zero_core_Ok' & H).
  apply bind_Ok in H as (st & s2 & Hst & H). assert (s2 = s1) as ->.
  { destruct (0 <? _); [by apply lift_Ok in Hst as [_ ->]|by apply ret_Ok in Hst as [_ ->]]. }
  cbv zeta in H. apply bind_Ok in H as ([] & s3 & Hset & H). apply bind_Ok in H as (d & s4 & [_ ->]%lift_Ok & H).
  apply bind_Ok in H as (q & s4 & Hup & H).
  destruct (runrex_vault e y held Hclock 2 s tt s1 Hrun) as [Ht1 Hk1].
  assert (tokens s3 = tokens s1) as Ht3 by (unfold set_rex_balance in Hset; by apply modify_Ok in Hset as ->).
  pose proof (settle_tokens _ _ _ _ _ _ _ Hup) as Ht4. destruct (process_maturities_vault _ _ _ _ H) as (Ht5 & Hs5 & _ & Hk5).
  destruct Hk1 as [Hok1 Hs1]; [done|done|lia|]. pose proof (owed_le s1 ltac:(lia)) as Hle1.
  destruct (set_stake_vault _ b _ _ _ _ Hset Hb eq_refl eq_refl eq_refl Hok1) as (Hok3 & Hk3). pose proof (owed_eq _ _ _ Hk3) as Ho3.
  destruct (settle_vault _ _ _ _ _ _ _ Hup Hz Hok3 ltac:(lia)) as (Hok4 & Hk4 & _). pose proof (owed_eq _ _ _ Hk4) as Ho4.
  split; [apply Hk5; [done|lia]|]. destruct Hk3, Hk4. lia.
Qed.

Lemma setrex_action b s u s' : setrex e b s = Ok (u, s') -> action_kept s s'.
Proof.
  intros H Hok Hs _ _. unfold setrex in H. apply bind_Ok in H as ([] & s1 & [_ ->]%check_Ok & H).
  apply bind_Ok in H as ([] & s1 & [_ ->]%check_Ok & H). apply bind_Ok in H as (c & s1 & [_ ->]%core_symbol_Ok & H).
  apply bind_Ok in H as ([] & s1 & [_ ->]%check_Ok & H). apply bind_Ok in H as (i & s1 & [-> ->]%gets_Ok & H).
  apply bind_Ok in H as ([] & s1 & [_ ->]%check_Ok & H). apply bind_Ok in H as (p & s1 & [Hp ->]%get_pool_Ok & H).
  unfold set_pool in H. apply modify_Ok in H. destruct (v_pool _ _ _ _ _ Hok p Hp) as [Hl Hb Hr Hsym].
  match type of H with context [Some ?x] => set (p' := x) in H end.
  destruct (set_pool_tokens e y held None None s p p' Hok Hp) as (Hok' & _ & Hs'); [by split|done|].
  rewrite <- H in Hok', Hs'. split; [done|]. change (amount (RexPool.total_lendable p')) with (amount (RexPool.total_lendable p)) in Hs'. lia.
Qed.

(** What an open order asks for is matured. *)
Lemma order_matured o q s : vault_ok e y None None s -> 0 <= amount q ->
  (forall r, rexorders s !! o = Some r -> Order.is_open r = true /\ amount q = amount (Order.rex_requested r)) ->
  (rexorders s !! o = None -> amount q = 0) ->
  forall b, rexbalances s !! o = Some b -> 0 <= amount q <= RexBal.matured_rex b.
Proof.
  intros Hok Hq Hor Hnone b Hb. split; [done|]. destruct (v_rows _ _ _ _ _ Hok o b Hb) as [_ [_ Hm _]].
  destruct (rexorders s !! o) as [r|] eqn:Hr; [|rewrite Hnone by done; done].
  destruct (Hor r eq_refl) as [Hopen ->]. pose proof (v_orders _ _ _ _ _ Hok o r Hr) as Hv. unfold order_ok in Hv.
  rewrite Hopen, Hb in Hv. by destruct Hv as [_ [?|(b0 & [= <-] & Hle)]].
Qed.

Lemma consolidate_action o s u s' : consolidate e o s = Ok (u, s') -> action_kept s s'.
Proof.
  intros H Hok Hs Hcap Hcap'. unfold consolidate in H. apply bind_Ok in H as ([] & s1 & [_ ->]%check_Ok & H).
  apply bind_Ok in H as ([] & s1 & Hrun & H). apply bind_Ok in H as (b & s2 & [_ ->]%get_rex_balance_Ok & H).
  apply bind_Ok in H as (z & s2 & [Hz ->]%zero_core_Ok' & H). apply bind_Ok in H as (q & s2 & Hup & H).
  destruct (runrex_vault e y held Hclock 2 s tt s1 Hrun) as [Ht1 Hk1]. pose proof (settle_tokens _ _ _ _ _ _ _ Hup) as Ht2.
  assert (tokens s' = tokens s2) as Ht'.
  { unfold consolidate_rex_balance in H. apply bind_Ok in H as (sv & s3 & Hread & H). apply bind_Ok in H as ([] & s4 & Hmod & H).
    destruct (off_rows_eq y held _ _ (read_rex_savings_off_rows y held _ _ _ _ Hread)) as (_ & _ & H3 & _).
    destruct (off_rows_eq y held _ _ (modify_rex_balance_off_rows y held _ _ _ _ _ Hmod)) as (_ & _ & H4 & _).
    destruct (off_rows_eq y held _ _ (put_rex_savings_off_rows y held _ _ _ _ _ H)) as (_ & _ & H5 & _). lia. }
  destruct Hk1 as [Hok1 Hs1]; [done|done|lia|]. pose proof (owed_le s1 ltac:(lia)) as Hle1.
  destruct (settle_vault _ _ _ _ _ _ _ Hup Hz Hok1 ltac:(lia)) as (Hok2 & Hk2 & Hq & Hor & Hnone). pose proof (owed_eq _ _ _ Hk2) as Ho2.
  destruct (consolidate_rex_balance_vault e y held o q s2 u s' H Hok2 ltac:(lia)) as (Hok' & _ & Hs'); [by apply order_matured|done|].
  split; [done|]. destruct Hk2. lia.
Qed.

(** *** Savings *)
Lemma mvtosavings_action o q s u s' : in_i64 (amount q) -> mvtosavings e o q s = Ok (u, s') -> action_kept s s'.
Proof.
  intros Hin H Hok Hs Hcap Hcap'. unfold mvtosavings in H. apply bind_Ok in H as ([] & s1 & [_ ->]%check_Ok & H).
  apply bind_Ok in H as ([] & s1 & Hrun & H). apply bind_Ok in H as (b & s2 & [_ ->]%get_rex_balance_Ok & H).
  apply bind_Ok in H as ([] & s2 & [Hpos ->]%check_Ok & H). apply andb_true_iff in Hpos as [Hpos%Z.ltb_lt _].
  apply bind_Ok in H as (z & s2 & [Hz ->]%zero_core_Ok' & H). apply bind_Ok in H as (in_order & s2 & Hup & H).
  apply bind_Ok in H as (sv & s3 & Hread & H). apply bind_Ok in H as (b1 & s4 & [_ ->]%get_rex_balance_Ok & H).
  apply bind_Ok in H as ([] & s4 & [_ ->]%check_Ok & H). apply bind_Ok in H as ([] & s4 & Hproc & H).
  apply bind_Ok in H as (b2 & s5 & [Hb2 ->]%get_rex_balance_Ok & H). apply bind_Ok in H as (b3 & s5 & [Htake ->]%lift_Ok & H).
  apply bind_Ok in H as ([] & s5 & Hset & H).
  destruct (runrex_vault e y held Hclock 2 s tt s1 Hrun) as [Ht1 Hk1]. pose proof (settle_tokens _ _ _ _ _ _ _ Hup) as Ht2.
  destruct (off_rows_eq y held _ _ (read_rex_savings_off_rows y held _ _ _ _ Hread)) as (Ho3 & _ & Ht3 & Hs3 & Hw3).
  destruct (off_rows_eq y held _ _ (process_rex_maturities_off_rows e y held _ _ _ _ Hproc)) as (Ho4 & _ & Ht4 & Hs4 & Hw4).
  destruct (off_rows_eq y held _ _ (set_rex_balance_off_rows y held _ _ _ _ _ Hset)) as (Ho5 & _ & Ht5 & Hs5 & Hw5).
  destruct (off_rows_eq y held _ _ (put_rex_savings_off_rows y held _ _ _ _ _ H)) as (Ho6 & _ & Ht6 & Hs6 & Hw6).
  destruct Hk1 as [Hok1 Hs1]; [done|done|lia|]. pose proof (owed_le s1 ltac:(lia)) as Hle1.
  destruct (settle_vault _ _ _ _ _ _ _ Hup Hz Hok1 ltac:(lia)) as (Hok2 & Hk2 & Hq & Hor & Hnone). pose proof (owed_eq _ _ _ Hk2) as Ho2.
  apply (nothing_lacks e y None o) in Hok2 as Hok2'.
  destruct (read_rex_savings_moves e y held None o 0 s2 sv s3 Hread Hok2' ltac:(lia)) as (Hok3 & Hsv & _). rewrite Z.add_0_l in Hok3.
  pose proof (process_rex_maturities_moves e y held None o sv s3 tt s4 Hproc Hok3 ltac:(lia)) as Hok4.
  assert (0 <= amount in_order <= RexBal.matured_rex b2) as Hin_order.
  { split; [done|]. destruct (v_rows _ _ _ _ _ Hok4 o b2 Hb2) as [_ [_ Hm _]].
    destruct (rexorders s2 !! o) as [r|] eqn:Hr; [|rewrite Hnone by done; done].
    destruct (Hor r eq_refl) as [Hopen ->]. pose proof (v_orders _ _ _ _ _ Hok4 o r) as Hv. rewrite Ho4, Ho3 in Hv.
    specialize (Hv Hr). unfold order_ok in Hv. rewrite Hopen, Hb2 in Hv. by destruct Hv as [_ [?|(b0 & [= <-] & Hle)]]. }
  destruct (owed_cap e y _ _ s4 Hok4 ltac:(lia)) as [_ Hheld]. specialize (Hheld o b2 Hb2).
  destruct (v_rows _ _ _ _ _ Hok4 o b2 Hb2) as [_ Hrow2]. cbn [lacks] in Hrow2. rewrite Z.eqb_refl in Hrow2.
  pose proof (row_shares sv b2 Hrow2 ltac:(lia) Hsv) as [Hsh0 Hsh]. pose proof (row_matured _ _ Hrow2) as Hm2.
  unfold in_i64 in Hin.
  destruct (take_for_savings_spec _ _ sv _ _ Htake Hrow2) as (Hh3 & Hrow3 & Hm3); [lia|lia|lia|lia|].
  destruct (set_row_moves e y held (Some o) o sv (sv + amount q) b2 b3 s4 tt s5 Hset Hb2) as [Hok5 _]; [|by apply uncover|lia|].
  { intros _ _ _. split; [done|]. split; [done|]. split; [lia|by left]. }
  assert (vault_ok e y None (Some (o, sv + amount q)) s5) as Hok5'.
  { apply (cover e y o); [done|]. intros r. rewrite Ho5, Ho4, Ho3. intros Hr Hopen. destruct (Hor r Hr) as [_ <-].
    exists b3. split; [|done]. unfold set_rex_balance in Hset. apply modify_Ok in Hset as ->. cbn. by rewrite lookup_insert_eq. }
  assert (rex_held b3 < 2 ^ 62) as Hh3' by lia.
  destruct Hrow3 as [Hsum3 Hmat3 Hbuck3]. pose proof (shares_nonneg _ Hbuck3).
  rewrite (i64_small (sv + amount q)) in H by (unfold in_i64; lia).
  pose proof (put_rex_savings_moves e y held None o (sv + amount q) (sv + amount q) s5 u s' H ltac:(lia) Hok5' ltac:(lia)) as Hok6.
  rewrite Z.sub_diag in Hok6. split; [by apply (nothing_lacks e y None o)|]. destruct Hk2. lia.
Qed.

Lemma mvfrsavings_action o q s u s' : mvfrsavings e o q s = Ok (u, s') -> action_kept s s'.
Proof.
  intros H Hok Hs Hcap Hcap'. unfold mvfrsavings in H. apply bind_Ok in H as ([] & s1 & [_ ->]%check_Ok & H).
  apply bind_Ok in H as ([] & s1 & Hrun & H). apply bind_Ok in H as (b & s2 & [_ ->]%get_rex_balance_Ok & H).
  apply bind_Ok in H as ([] & s2 & [Hpos ->]%check_Ok & H). apply andb_true_iff in Hpos as [Hpos%Z.ltb_lt _].
  apply bind_Ok in H as (sv & s2 & Hread & H). apply bind_Ok in H as ([] & s3 & [Hle%Z.leb_le ->]%check_Ok & H).
  apply bind_Ok in H as ([] & s3 & Hproc & H). apply bind_Ok in H as ([] & s4 & Hback & H). apply bind_Ok in H as ([] & s5 & Hput & H).
  apply bind_Ok in H as (z & s6 & [Hz ->]%zero_core_Ok' & H). apply bind_Ok in H as (x & s6 & Hup & H). apply ret_Ok in H as [_ ->].
  destruct (runrex_vault e y held Hclock 2 s tt s1 Hrun) as [Ht1 Hk1]. pose proof (settle_tokens _ _ _ _ _ _ _ Hup) as Ht6.
  destruct (off_rows_eq y held _ _ (read_rex_savings_off_rows y held _ _ _ _ Hread)) as (_ & _ & Ht2 & Hs2 & Hw2).
  destruct (off_rows_eq y held _ _ (process_rex_maturities_off_rows e y held _ _ _ _ Hproc)) as (_ & _ & Ht3 & Hs3 & Hw3).
  destruct (off_rows_eq y held _ _ (modify_rex_balance_off_rows y held _ _ _ _ _ Hback)) as (_ & _ & Ht4 & Hs4 & Hw4).
  destruct (off_rows_eq y held _ _ (put_rex_savings_off_rows y held _ _ _ _ _ Hput)) as (_ & _ & Ht5 & Hs5 & Hw5).
  destruct Hk1 as [Hok1 Hs1]; [done|done|lia|]. pose proof (owed_le s1 ltac:(lia)) as Hle1.
  apply (nothing_lacks e y None o) in Hok1.
  destruct (read_rex_savings_moves e y held None o 0 s1 sv s2 Hread Hok1 ltac:(lia)) as (Hok2 & Hsv & b1 & b2 & Hb1 & Hb2 & _ & Hheld).
  rewrite Z.add_0_l in Hok2. pose proof (process_rex_maturities_moves e y held None o sv s2 tt s3 Hproc Hok2 ltac:(lia)) as Hok3.
  destruct (modify_row_moves e y held None o sv (sv - amount q) _ s3 tt s4 Hback) as [Hok4 _]; [|done|lia|].
  { intros b'. apply back_moves. lia. }
  destruct (owed_cap e y _ _ s2 Hok2 ltac:(lia)) as [_ Hcapb]. specialize (Hcapb o b2 Hb2).
  destruct (v_rows _ _ _ _ _ Hok2 o b2 Hb2) as [_ [Hsum Hm Hbuck]]. cbn [lacks] in Hsum. rewrite Z.eqb_refl in Hsum.
  pose proof (shares_nonneg _ Hbuck). rewrite (i64_small (sv - amount q)) in Hput by (unfold in_i64; lia).
  pose proof (put_rex_savings_moves e y held None o (sv - amount q) (sv - amount q) s4 tt s5 Hput ltac:(lia) Hok4 ltac:(lia)) as Hok5.
  rewrite Z.sub_diag in Hok5. apply nothing_lacks in Hok5.
  destruct (settle_vault _ _ _ _ _ _ _ Hup Hz Hok5 ltac:(lia)) as (Hok6 & Hk6 & _). split; [done|]. destruct Hk6. lia.
Qed.

Lemma delete_fund_vault o f s s' : vault_ok e y None None s -> rexfunds s !! o = Some f -> fund_held f = 0 ->
  s' = s <| rexfunds ::= delete o |> -> vault_ok e y None None s' /\ kept_but s s' 0.
Proof.
  intros Hok Hf Hz Hs'. split; [destruct Hok; split; try (subst s'; assumption)|].
  - assert (rexfunds s' = delete o (rexfunds s)) as -> by (by subst s'). by apply map_Forall_delete.
  - split; [by subst s'|]. unfold RexVault.vault_surplus, vault_owed. rewrite Hs'.
    change (rexfunds (s <| rexfunds ::= delete o |>)) with (delete o (rexfunds s)).
    rewrite (msum_delete fund_held _ _ _ Hf), Hz. unfold RexVault.tokens, lendable_of, ret_due. cbn. lia.
Qed.

Lemma delete_row_vault o b s s' : vault_ok e y None None s -> rexbalances s !! o = Some b -> rex_held b = 0 ->
  s' = s <| rexbalances ::= delete o |> -> vault_ok e y None None s' /\ kept_but s s' 0.
Proof.
  intros Hok Hb Hz Hs'. assert (rexbalances s' = delete o (rexbalances s) /\ rexorders s' = rexorders s /\ total_rex_of s' = total_rex_of s)
    as (Hrows & Ho & Ht) by (by subst s').
  split; [|subst s'; split; [done|change (vault_surplus s = vault_surplus s + 0); lia]].
  destruct (v_rows _ _ _ _ _ Hok o b Hb) as [_ [Hsum Hm Hbuck]]. pose proof (shares_nonneg _ Hbuck). cbn [lacks] in Hsum.
  destruct Hok. split; rewrite ?Hrows, ?Ho, ?Ht; try (subst s'; assumption).
  - intros o' r Hr. pose proof (v_orders0 o' r Hr) as Hv. unfold order_ok in *. destruct (Order.is_open r); [|done].
    destruct Hv as [Hv [?|(b0 & Hb0 & Hle)]]; [done|]. split; [done|right]. exists b0. split; [|done].
    rewrite lookup_delete_ne; [done|]. intros <-. rewrite Hb in Hb0. injection Hb0 as <-. lia.
  - pose proof (msum_delete rex_held _ _ _ Hb). lia.
  - by apply map_Forall_delete.
Qed.

Lemma closerex_action o s u s' : closerex e o s = Ok (u, s') -> action_kept s s'.
Proof.
  intros H Hok Hs Hcap Hcap'. unfold closerex, find_row in H. apply bind_Ok in H as ([] & s1 & [_ ->]%check_Ok & H).
  apply bind_Ok in H as (i & s1 & [-> ->]%gets_Ok & H). apply bind_Ok in H as ([] & s1 & Hrun & H).
  apply bind_Ok in H as (z & s2 & [Hz ->]%zero_core_Ok' & H). apply bind_Ok in H as (q & s2 & Hup & H).
  apply bind_Ok in H as (cpu & s3 & [-> ->]%gets_Ok & H). apply bind_Ok in H as (net & s3 & [-> ->]%gets_Ok & H).
  apply bind_Ok in H as (f & s3 & [-> ->]%gets_Ok & H). cbv zeta in H. apply bind_Ok in H as ([] & s3 & Hdel & H).
  apply bind_Ok in H as (b & s4 & [-> ->]%gets_Ok & H).
  assert (vault_kept e y held None None s s1) as [Ht1 Hk1].
  { apply when_Ok in Hrun. destruct (rex_system_initialized s); [by eapply runrex_vault|subst s1; done]. }
  pose proof (settle_tokens _ _ _ _ _ _ _ Hup) as Ht2.
  assert (tokens s3 = tokens s2) as Ht3 by (apply when_Ok in Hdel; destruct (_ && _); [by apply modify_Ok in Hdel as ->|by subst s3]).
  assert (tokens s' = tokens s3) as Ht'.
  { destruct (rexbalances s3 !! o); [|by apply ret_Ok in H as [_ ->]]. apply bind_Ok in H as ([] & s4 & [_ ->]%check_Ok & H).
    by apply modify_Ok in H as ->. }
  destruct Hk1 as [Hok1 Hs1]; [done|done|lia|]. pose proof (owed_le s1 ltac:(lia)) as Hle1.
  destruct (settle_vault _ _ _ _ _ _ _ Hup Hz Hok1 ltac:(lia)) as (Hok2 & [_ Hs2] & _).
  assert (vault_ok e y None None s3 /\ vault_surplus s3 = vault_surplus s2) as [Hok3 Hs3].
  { apply when_Ok in Hdel. destruct (rexfunds s2 !! o) as [f|] eqn:Hf; [|rewrite andb_false_r in Hdel; by subst s3].
    destruct (_ && _) eqn:Hcond in Hdel; [|by subst s3]. apply andb_true_iff in Hcond as [_ Hzero%Z.eqb_eq]. apply modify_Ok in Hdel.
    destruct (delete_fund_vault o f s2 s3 Hok2 Hf Hzero Hdel) as [? [_ ?]]. split; [done|lia]. }
  destruct (rexbalances s3 !! o) as [b|] eqn:Hb; [|apply ret_Ok in H as [_ ->]; split; [done|lia]].
  apply bind_Ok in H as ([] & s4 & [Hzero%Z.eqb_eq ->]%check_Ok & H). apply modify_Ok in H.
  destruct (delete_row_vault o b s3 s' Hok3 Hb Hzero H) as [? [_ ?]]. split; [done|lia].
Qed.

(** Every action keeps the books, and what [eosio.rex] has beyond them does not shrink. *)
Lemma vault_exec_kept a s u s' : vault_args y a -> vault_exec e a s = Ok (u, s') -> action_kept s s'.
Proof.
  intros Ha H. destruct a as [[]|from q required]; cbn [vault_exec rex_exec vault_args] in H, Ha.
  - by eapply deposit_action.
  - by eapply withdraw_action.
  - by eapply buyrex_action.
  - by eapply unstaketorex_action.
  - by eapply sellrex_action.
  - by eapply cnclrexorder_action.
  - unfold rentcpu in H. apply bind_Ok in H as ([] & s1 & [_ ->]%check_Ok & H). apply bind_Ok in H as (z & s1 & H1 & H).
    by eapply rent_action.
  - unfold rentnet in H. apply bind_Ok in H as ([] & s1 & [_ ->]%check_Ok & H). apply bind_Ok in H as (z & s1 & H1 & H).
    by eapply rent_action.
  - unfold fundcpuloan in H. apply bind_Ok in H as ([] & s1 & [_ ->]%check_Ok & H). by eapply fund_rex_loan_action.
  - unfold fundnetloan in H. apply bind_Ok in H as ([] & s1 & [_ ->]%check_Ok & H). by eapply fund_rex_loan_action.
  - unfold defcpuloan in H. apply bind_Ok in H as ([] & s1 & [_ ->]%check_Ok & H). by eapply defund_rex_loan_action.
  - unfold defnetloan in H. apply bind_Ok in H as ([] & s1 & [_ ->]%check_Ok & H). by eapply defund_rex_loan_action.
  - by eapply updaterex_action.
  - by eapply setrex_action.
  - unfold rexexec in H. apply bind_Ok in H as ([] & s1 & [_ ->]%check_Ok & H). by eapply runrex_action.
  - by eapply consolidate_action.
  - by eapply mvtosavings_action.
  - by eapply mvfrsavings_action.
  - by eapply closerex_action.
  - destruct Ha as (Hn & Hy & Hq). intros Hok Hs Hcap Hcap'.
    destruct (channel_to_rex_vault e y held Hclock None None _ _ _ _ _ _ H Hn Hq) as [_ Hk].
    destruct (Hk Hy Hok Hs Hcap'). split; [done|lia].
Qed.
End actions.

(** ** Runs *)

(** Time passes between the actions of a run, and the fees that wait are never so many, nor
    wait so long, that their distribution would not fit in 64 bits. *)
Inductive vault_step `{cdt : Cdt} `{libm : Libm} (y : symbol) (held : Z) : relation (Env * sys) :=
| vault_step_intro e e' a s u s' :
    now_sec e <= now_sec e' -> clock_ok e' -> calm e' s -> vault_args y a ->
    vault_exec e' a s = Ok (u, s') -> tokens y held s' <= rex_cap ->
    vault_step y held (e, s) (e', s').

Section runs.
Context `{cdt : Cdt} `{!CdtLaws cdt} `{libm : Libm}.

Lemma ret_ok_later now now' rp bs : now <= now' -> ret_ok now rp bs -> ret_ok now' rp bs.
Proof.
  intros Hle [[Hl Hp Ht Hb Hs Hr Hpr] Hc]. split; [split; try done|done].
  destruct Ht as [(? & ? & ?)|?]; [left; split_and!; [done..|lia]|by right].
Qed.

Lemma vault_later e e' y s : now_sec e <= now_sec e' -> calm e' s -> vault_ok e y None None s -> vault_ok e' y None None s.
Proof.
  intros Hle Hcalm []. split; try done. intros rp Hrp. destruct (v_returns0 rp Hrp) as (bs & Hbs & Hok).
  exists bs. split; [done|]. by eapply ret_ok_later.
Qed.

(** C6: Over any run of the actions of REX and of fees channelled to it, [eosio.rex] keeps
    what it needs for every fund, loan balance, collected fee and filled order and for the
    whole pool: what it holds beyond them never shrinks. And the shares stay in order: the
    rows hold exactly the shares the pool issued, each row is the sum of its matured shares
    and its buckets, no open order asks for more than is matured, and [rex_ratio] shares
    are never worth less than one token. The steps of a run are those of [vault_step]: the
    fees channelled to REX are of the core token, [eosio.rex] holds at most [rex_cap], and
    the distributions that are due stay in 64 bits ([calm]). *)
Theorem rex_tokens_are_backed (y : symbol) (held : Z) e s e' s' :
  vault_ok e y None None s -> 0 <= vault_surplus y held s -> tokens y held s <= rex_cap ->
  rtc (vault_step y held) (e, s) (e', s') ->
  vault_ok e' y None None s' /\ vault_surplus y held s <= vault_surplus y held s'.
Proof.
  intros Hok Hs Hcap Hrun. remember (e, s) as x eqn:Hx. remember (e', s') as x' eqn:Hx'. revert e s Hx Hok Hs Hcap.
  induction Hrun as [x|x1 x2 x3 Hstep _ IH]; intros e s -> Hok Hs Hcap; [injection Hx' as -> ->; split; [done|lia]|].
  remember (e, s) as x1 eqn:Hx1. destruct Hstep as [e1 e2 a s1 u s2 Hle Hclock Hcalm Ha H Hcap2]. injection Hx1 as -> ->.
  destruct (vault_exec_kept e2 y held Hclock a s u s2 Ha H) as [Hok2 Hs2]; [by eapply vault_later|done|done|done|].
  destruct (IH Hx' e2 s2 eq_refl Hok2) as [Hok' Hs']; [lia|done|]. split; [done|lia].
Qed.
End runs.

(** ** An example: shares bought and others sold while fees come in *)
Lemma ex_ret_ok : ret_ok (now_sec ex_ret_env) ex_ret_pool ex_ret_buckets.
Proof.
  split; [split|].
  - split; [reflexivity|]. cbn. lia.
  - cbn. lia.
  - right. split; [reflexivity|]. cbn. unfold end_of_days. lia.
  - repeat constructor; cbn; lia.
  - repeat constructor; cbn; lia.
  - reflexivity.
  - reflexivity.
  - repeat constructor; cbn; unfold unexpired; rewrite span_eq; cbn; lia.
Qed.
Lemma ex_ret_clock : clock_ok ex_ret_env.
Proof. split; [|split]; [vm_compute; discriminate|vm_compute; discriminate|reflexivity]. Qed.

Lemma ex_vault_ok : vault_ok ex_ret_env core None None ex_ret_sys.
Proof.
  split.
  - reflexivity.
  - apply map_Forall_singleton. vm_compute. discriminate.
  - done.
  - done.
  - done.
  - intros p [= <-]. split; [vm_compute; discriminate|reflexivity|split; vm_compute; discriminate|reflexivity].
  - vm_compute. reflexivity.
  - apply map_Forall_singleton. split; [done|]. split; [reflexivity|vm_compute; discriminate|constructor].
  - intros rp [= <-]. exists ex_ret_buckets. split; [reflexivity|apply ex_ret_ok].
  - intros rp [= <-]. right. vm_compute. reflexivity.
Qed.

Lemma rex_tokens_are_backed_witness :
  exists s', vault_ok ex_ret_env core None None s' /\ 0 <= vault_surplus core 10573397 s' /\
    from_option fund_held 0 (rexfunds s' !! 5) = 500000 - 100001 + 100000 /\ lendable_of s' = 10000059.
Proof.
  set (run := vault_exec (cdt := cdt_model) (libm := libm_model) ex_ret_env).
  set (a1 := Rex_action (Buyrex 5 (tlos 100001))). set (a2 := Rex_action (Sellrex 5 (rex_coin 1000000000))).
  assert (match (run a1 ;; run a2) ex_ret_sys with
    | Ok (_, s') => (from_option fund_held 0 (rexfunds s' !! 5) =? 500000 - 100001 + 100000) && (lendable_of s' =? 10000059) &&
        (tokens core 10573397 s' <=? rex_cap) &&
        match run a1 ex_ret_sys with
        | Ok (_, s1) => (tokens core 10573397 s1 <=? rex_cap) && 
            from_option (fun rp => effective ex_ret_env <=? RetPool.last_dist_time rp) false (rexretpool s1)
        | Err _ => false end
    | Err _ => false end = true) as Hok by (vm_compute; reflexivity).
  destruct ((run a1 ;; run a2) ex_ret_sys) as [[u s2]|] eqn:H; [|discriminate].
  apply bind_Ok in H as (u1 & s1 & H1 & H2). rewrite H1 in Hok.
  rewrite !andb_true_iff, !Z.eqb_eq, !Z.leb_le in Hok. destruct Hok as (((Hf & Hl) & Hc2) & Hc1 & Hr1).
  exists s2. destruct (rex_tokens_are_backed (cdt := cdt_model) (libm := libm_model) core 10573397 ex_ret_env ex_ret_sys ex_ret_env s2
    ex_vault_ok) as [Hok2 Hs2].
  - vm_compute. discriminate.
  - vm_compute. discriminate.
  - eapply rtc_l; [|apply rtc_once].
    + eapply (vault_step_intro core 10573397 _ ex_ret_env a1 _ u1 s1); [lia|exact ex_ret_clock| |exact I|exact H1|exact Hc1].
      exact (v_calm _ _ _ _ _ ex_vault_ok).
    + eapply (vault_step_intro core 10573397 _ ex_ret_env a2 _ u s2); [lia|exact ex_ret_clock| |exact I|exact H2|exact Hc2].
      intros rp Hrp. left. rewrite Hrp in Hr1. by apply Z.leb_le.
  - split; [exact Hok2|]. split; [|split; [exact Hf|exact Hl]]. etrans; [|exact Hs2]. vm_compute. discriminate.
Defined.
