(* ===== verification/Producers.v ===== *)
(** * Producers: registration, vote-pay shares and vote order (voting.cpp lines 34-123, 264-313)

    [Host] is what the chain and other contracts tell the system contract: the answer
    to a proposed schedule, the active schedule, the validity of an authority, and the
    tables of other contracts it reads. *)
From S2P Require Import Prelude.
From S2P Require Import Cdt.
From S2P Require Import Float64.
From S2P Require Import SysState.
From S2P Require Import Token.
From stdpp Require Import base gmap strings list sorting.
Open Scope Z_scope.

(** A row of the payouts table of the TEDP contract. *)
Record payout := Payout { payout_amount : Z; payout_interval : Z; payout_last : Z }.

Class Host := {
  (** [set_proposed_producers]: the version of the schedule, if it is a new one *)
  set_proposed_producers : list (name * block_signing_authority) -> result (option Z);
  get_active_producers : list name;
  (** [block_signing_authority::is_valid] *)
  authority_is_valid : block_signing_authority -> bool;
  (** the averages of the price oracle for TLOS/USD: type and value, in table order *)
  oracle_averages : list (Z * Z);
  (** the payouts of the TEDP contract, in table order *)
  tedp_payouts : list payout;
  (** the tables of the token contract *)
  token_ledger : token_state;
}.

(** The default [public_key] is 0; a row starts with no key of its own. *)
Definition no_key : Z := 0.

Definition convert_to_block_signing_authority (key : Z) : block_signing_authority :=
  SigningAuthority 1 [(key, 1)].

Definition deactivate (p : producer_info) : producer_info :=
  p <| Producer.producer_key := no_key |> <| Producer.producer_authority := None |>
    <| Producer.is_active := false |>.

Definition get_producer_authority (p : producer_info) : block_signing_authority :=
  match Producer.producer_authority p with
  | Some a => if threshold a =? 0 then convert_to_block_signing_authority (Producer.producer_key p) else a
  | None => convert_to_block_signing_authority (Producer.producer_key p)
  end.

(** ** The order of the [prototalvote] index *)
Definition by_votes (p : producer_info) : double :=
  if Producer.is_active p then dneg (Producer.total_votes p) else Producer.total_votes p.

Definition vote_le (x y : name * producer_info) : Prop :=
  dlt (by_votes x.2) (by_votes y.2) = true \/
  (dlt (by_votes y.2) (by_votes x.2) = false /\ x.1 <= y.1).
#[export] Instance vote_le_dec : RelDecision vote_le.
Proof. intros x y. unfold vote_le. apply _. Defined.

Definition producers_by_votes (s : sys) : list (name * producer_info) :=
  merge_sort vote_le (map_to_list (producers s)).

Section producers.
Context `{cdt : Cdt} `{libm : Libm} `{host : Host} (e : Env).

Definition get_producer (n : name) (msg : string) : M sys producer_info :=
  p ← find_row producers n; require_found p msg.
Definition set_producer (n : name) (p : producer_info) : M sys unit :=
  modify (fun s => s <| producers ::= insert n p |>).

(** ** Vote-pay shares *)

(** [(ct - t).count() / 1E6] *)
Definition seconds_since (t : Z) : double := ddiv (dint (now_us e - t)) (dint 1000000).

Definition update_total_votepay_share (additional_shares_delta shares_rate_delta : double) : M sys double :=
  let ct := now_us e in
  g2 ← gets gstate2;
  g3 ← gets gstate3;
  let rate := Global3.total_vpay_share_change_rate g3 in
  let total := Global2.total_producer_votepay_share g2 in
  let delta := dadd
    (if Global3.last_vpay_state_update g3 <? ct
     then dmul rate (seconds_since (Global3.last_vpay_state_update g3)) else dzero)
    additional_shares_delta in
  let total' := if dlt delta dzero && dlt total (dneg delta) then dzero else dadd total delta in
  let rate' := if dlt shares_rate_delta dzero && dlt rate (dneg shares_rate_delta)
               then dzero else dadd rate shares_rate_delta in
  modify (fun s => s <| gstate2 ::= fun g => g <| Global2.total_producer_votepay_share := total' |> |>
    <| gstate3 ::= fun g => g <| Global3.total_vpay_share_change_rate := rate' |>
                             <| Global3.last_vpay_state_update := ct |> |>) ;;
  mret total'.

Definition update_producer_votepay_share (prod : name) (shares_rate : double) (reset_to_zero : bool)
  : M sys double :=
  itr ← find_row producers2 prod;
  p ← require_found itr "cannot pass end iterator to modify";
  let delta :=
    if dlt dzero shares_rate && (Producer2.last_votepay_share_update p <? now_us e)
    then dmul shares_rate (seconds_since (Producer2.last_votepay_share_update p)) else dzero in
  let new_votepay_share := dadd (Producer2.votepay_share p) delta in
  modify (fun s => s <| producers2 ::= insert prod
    (p <| Producer2.votepay_share := if reset_to_zero then dzero else new_votepay_share |>
       <| Producer2.last_votepay_share_update := now_us e |>) |>) ;;
  mret new_votepay_share.

(** ** Registration *)

(** A fresh row. The source leaves [lifetime_missed_blocks] without an initial value. *)
Definition new_producer (n : name) (key : Z) (url : string) (location ct : Z)
    (auth : block_signing_authority) : producer_info :=
  Producer.mk n dzero key true "" url 0 0 0 0 ct location 0 "" 0 0 0 (Some auth).

Definition register_producer (producer : name) (producer_authority : block_signing_authority)
    (url : string) (location : Z) : M sys unit :=
  prod ← find_row producers producer;
  let ct := now_us e in
  let producer_key := match keys producer_authority with [(k, _)] => k | _ => no_key end in
  match prod with
  | Some p =>
    set_producer producer
      (p <| Producer.producer_key := producer_key |> <| Producer.is_active := true |>
         <| Producer.url := url |> <| Producer.location := location |>
         <| Producer.producer_authority := Some producer_authority |>
         <| Producer.last_claim_time ::= fun t => if t =? 0 then ct else t |>) ;;
    prod2 ← find_row producers2 producer;
    match prod2 with
    | Some _ => mret tt
    | None =>
      modify (fun s => s <| producers2 ::= insert producer (Producer2.mk producer dzero ct) |>) ;;
      update_total_votepay_share dzero (Producer.total_votes p) ;; mret tt
    end
  | None =>
    set_producer producer (new_producer producer producer_key url location ct producer_authority) ;;
    prod2 ← find_row producers2 producer;
    check (negb (is_found prod2)) "could not insert object, most likely a uniqueness constraint was violated" ;;
    modify (fun s => s <| producers2 ::= insert producer (Producer2.mk producer dzero ct) |>)
  end.

Definition regproducer (producer : name) (producer_key : Z) (url : string) (location : Z) : M sys unit :=
  require_auth e producer ;;
  check (bool_decide (String.length url < 512)%nat) "url too long" ;;
  register_producer producer (convert_to_block_signing_authority producer_key) url location.

Definition regproducer2 (producer : name) (producer_authority : block_signing_authority) (url : string)
    (location : Z) : M sys unit :=
  require_auth e producer ;;
  check (bool_decide (String.length url < 512)%nat) "url too long" ;;
  check (authority_is_valid producer_authority) "invalid producer authority" ;;
  register_producer producer producer_authority url location.

Definition unregprod (producer : name) : M sys unit :=
  require_auth e producer ;;
  p ← get_producer producer "producer not found";
  set_producer producer (deactivate p).

Definition unregreason (producer : name) (reason : string) : M sys unit :=
  check (bool_decide (String.length reason < 255)%nat)
    "The reason is too long. Reason should not have more than 255 characters." ;;
  require_auth e producer ;;
  p ← get_producer producer "producer not found";
  set_producer producer ((deactivate p) <| Producer.unreg_reason := reason |>).

Definition rmvproducer (producer : name) : M sys unit :=
  require_auth e (self e) ;;
  p ← get_producer producer "producer not found";
  set_producer producer (deactivate p).
End producers.
