(* ===== verification/Rotation.v ===== *)
(** * Kicking and rotation (system_kick.cpp, system_rotation.cpp, voting.cpp lines 126-186)

    Producers that miss blocks are counted per cycle and per rotation, and the worst of
    them are kicked. Every twelve hours a standby producer takes the place of one of
    the top twenty-one. *)
From S2P Require Import Prelude.
From S2P Require Import Cdt.
From S2P Require Import Float64.
From S2P Require Import SysState.
From S2P Require Import Producers.
From stdpp Require Import base gmap strings list sorting.
Open Scope Z_scope.

Definition MAX_PRODUCERS : Z := 35.
Definition TOP_PRODUCERS : Z := 21.
Definition TWELVE_HOURS_US : Z := 43200000000.
Definition MAX_BLOCK_PER_CYCLE : Z := 12.

(** [producer_location_pair]: a producer with its authority, and its location. *)
Notation producer_location_pair := (name * block_signing_authority * Z)%type (only parsing).
Definition pname (p : producer_location_pair) : name := p.1.1.
Definition location (p : producer_location_pair) : Z := p.2.

Inductive kick_type := REACHED_TRESHOLD | BPS_VOTING.
Definition kick_type_id (k : kick_type) : Z := match k with REACHED_TRESHOLD => 1 | BPS_VOTING => 2 end.

(** [std::sort] leaves the order of equal elements open; a stable sort is one of its results. *)
Definition sort_by {A} (le : A -> A -> bool) (l : list A) : list A := merge_sort (fun x y => Is_true (le x y)) l.

Section rotation.
Context `{cdt : Cdt} `{libm : Libm} `{host : Host} (e : Env).

(** ** Kicking *)

(** [producer_info::kick]. *)
Definition kick (kt : kick_type) (penalty : Z) (p : producer_info) : result producer_info :=
  let times := u32 (Producer.times_kicked p + 1) in
  let p := p <| Producer.times_kicked := times |>
             <| Producer.last_time_kicked := slot_of_us (now_us e) |> in
  match (if penalty =? 0 then dto_u32 (pow (dint 2) (dint times)) else Ok (Producer.kick_penalty_hours p)) with
  | Err m => Err m
  | Ok hours =>
    let p := p <| Producer.kick_penalty_hours := hours |> <| Producer.kick_reason_id := kick_type_id kt |> in
    let p := match kt with
      | REACHED_TRESHOLD => p <| Producer.kick_reason := "Producer account was deactivated because it reached the maximum missed blocks in this rotation timeframe." |>
      | BPS_VOTING => p <| Producer.kick_reason := "Producer account was deactivated by vote." |>
                        <| Producer.kick_penalty_hours := penalty |>
      end in
    Ok (deactivate (p <| Producer.lifetime_missed_blocks ::= fun z => u32 (z + Producer.missed_blocks_per_rotation p) |>
                      <| Producer.missed_blocks_per_rotation := 0 |>))
  end.

Definition crossed_missed_blocks_threshold (r : rotation_state) (amountBlocksMissed schedule_size : Z) : bool :=
  if schedule_size <=? 1 then false
  else
    let timeframe := Z.quot (us_of_slot (Rotation.next_rotation_time r) - us_of_slot (Rotation.last_rotation_time r)) 1000000 in
    let maxBlocksPerCycle := u32 (u32 (schedule_size - 1) * MAX_BLOCK_PER_CYCLE) in
    let totalBlocksPerTimeframe := Z.quot (i64 (maxBlocksPerCycle * timeframe)) (maxBlocksPerCycle / 2) in
    let maxBlocksPerProducer := Z.quot (i64 (totalBlocksPerTimeframe * MAX_BLOCK_PER_CYCLE)) maxBlocksPerCycle in
    let thresholdMissedBlocks := dmul (dint maxBlocksPerProducer) (dlit 15 100) in
    dlt thresholdMissedBlocks (dint amountBlocksMissed).

Definition modify_metrics (f : list producer_metric -> list producer_metric) : M sys unit :=
  modify (fun s => s <| gschedule_metrics ::= fun m => m <| Schedule.producers_metric ::= f |> |>).
Definition set_last_caller (producer : name) : M sys unit :=
  modify (fun s => s <| gschedule_metrics ::= fun m => m <| Schedule.last_onblock_caller := producer |> |>).
Definition set_correction (f : Z -> Z) : M sys unit :=
  modify (fun s => s <| gschedule_metrics ::= fun m => m <| Schedule.block_counter_correction ::= f |> |>).

(** The default argument of [reset_schedule_metrics] is the empty name, 0. *)
Definition reset_metric (producer : name) (pm : producer_metric) : producer_metric :=
  pm <| Metric.missed_blocks_per_cycle :=
    if negb (producer =? 0) && (Metric.bp_name pm =? producer) then MAX_BLOCK_PER_CYCLE - 1
    else MAX_BLOCK_PER_CYCLE |>.
Definition reset_schedule_metrics (producer : name) : M sys unit := modify_metrics (map (reset_metric producer)).

(** [f] on the first metric the test accepts. *)
Fixpoint update_first {A} (test : A -> bool) (f : A -> A) (l : list A) : list A :=
  match l with
  | [] => []
  | x :: l' => if test x then f x :: l' else x :: update_first test f l'
  end.

Definition update_producer_missed_blocks (producer : name) : M sys unit :=
  modify_metrics (update_first
    (fun pm => (Metric.bp_name pm =? producer) && (0 <? Metric.missed_blocks_per_cycle pm))
    (fun pm => pm <| Metric.missed_blocks_per_cycle ::= fun z => u32 (z - 1) |>)).

(** One metric of the first loop of [update_missed_blocks_per_rotation]: the producer's
    row afterwards joins those that may be kicked. *)
Definition count_missed (prods : list producer_info) (pm : producer_metric) : M sys (list producer_info) :=
  pitr ← find_row producers (Metric.bp_name pm);
  match pitr with
  | Some p =>
    if Producer.is_active p then
      let p' := if 0 <? Metric.missed_blocks_per_cycle pm
        then p <| Producer.missed_blocks_per_rotation ::= fun z => u32 (z + Metric.missed_blocks_per_cycle pm) |>
        else p in
      set_producer (Metric.bp_name pm) p' ;;
      mret (if 0 <? Producer.missed_blocks_per_rotation p' then prods ++ [p'] else prods)
    else mret prods
  | None => mret prods
  end.

Definition worse (p1 p2 : producer_info) : bool :=
  if Producer.missed_blocks_per_rotation p1 =? Producer.missed_blocks_per_rotation p2
  then negb (dlt (Producer.total_votes p2) (Producer.total_votes p1))
  else Producer.missed_blocks_per_rotation p2 <? Producer.missed_blocks_per_rotation p1.

(** The second loop: [max_kick_bps] of them at most, up to the first below the threshold. *)
Fixpoint kick_worst (size max_kick_bps : Z) (prods : list producer_info) : M sys unit :=
  match prods with
  | [] => mret tt
  | prod :: prods' =>
    p ← get_producer (Producer.owner prod) "cannot pass end iterator to modify";
    r ← gets grotation;
    if crossed_missed_blocks_threshold r (Producer.missed_blocks_per_rotation p) size && (0 <? max_kick_bps)
    then
      let p1 := p <| Producer.lifetime_missed_blocks ::= fun z => u32 (z + Producer.missed_blocks_per_rotation p) |> in
      p2 ← lift (kick REACHED_TRESHOLD 0 p1);
      set_producer (Producer.owner prod) p2 ;;
      kick_worst size (max_kick_bps - 1) prods'
    else mret tt
  end.

Definition update_missed_blocks_per_rotation : M sys unit :=
  metrics ← gets (fun s => Schedule.producers_metric (gschedule_metrics s));
  let active_schedule_size := Z.of_nat (length metrics) in
  let max_kick_bps := u16 (active_schedule_size / 7) in
  prods ← fold_each count_missed [] metrics;
  kick_worst (u32 active_schedule_size) max_kick_bps (sort_by worse prods).

(** ** Rotation *)

Definition set_bps_rotation (bpOut sbpIn : name) : M sys unit :=
  modify (fun s => s <| grotation ::= fun r =>
    r <| Rotation.bp_currently_out := bpOut |> <| Rotation.sbp_currently_in := sbpIn |> |>).

Definition update_rotation_time (block_time : Z) : M sys unit :=
  modify (fun s => s <| grotation ::= fun r =>
    r <| Rotation.last_rotation_time := block_time |>
      <| Rotation.next_rotation_time := slot_of_us (us_of_slot block_time + TWELVE_HOURS_US) |> |>).

Definition restart_missed (p : producer_info) : producer_info :=
  let p := if (0 <? Producer.times_kicked p) && (Producer.missed_blocks_per_rotation p =? 0)
    then p <| Producer.times_kicked ::= fun z => u32 (z - 1) |> else p in
  p <| Producer.lifetime_missed_blocks ::= fun z => u32 (z + Producer.missed_blocks_per_rotation p) |>
    <| Producer.missed_blocks_per_rotation := 0 |>.

Definition restart_missed_blocks_per_rotation (prods : list producer_location_pair) : M sys unit :=
  for_each (fun pr =>
    itr ← find_row producers (pname pr);
    match itr with
    | Some p => set_producer (pname pr) (restart_missed p)
    | None => mret tt
    end) prods.

Definition is_in_range (index low_bound up_bound : Z) : bool := (low_bound <=? index) && (index <? up_bound).

(** [std::find_if] by name: the index of the first, the length when there is none. *)
Fixpoint index_of (n : name) (l : list producer_location_pair) : nat :=
  match l with
  | [] => O
  | p :: l' => if pname p =? n then O else S (index_of n l')
  end.

(** The schedule: the top producers, the standby in place of the one that is out. An
    iterator is an index, at the end when it is the length. *)
Definition rotate (prods : list producer_location_pair) (it_bp it_sbp : nat) : list producer_location_pair :=
  match prods !! it_bp, prods !! it_sbp with
  | Some bp, Some sbp =>
    map (fun p => if pname p =? pname bp then sbp else p) (take (Z.to_nat TOP_PRODUCERS) prods)
  | _, _ => take (Z.to_nat TOP_PRODUCERS) prods
  end.

(** The part of [check_rotation_state] that finds the two iterators. *)
Definition rotation_iterators (prods : list producer_location_pair) (block_time : Z) : M sys (nat * nat) :=
  let total := Z.of_nat (length prods) in
  let no_one := (length prods, length prods) in
  r ← gets grotation;
  if Rotation.next_rotation_time r <=? block_time then
    its ← (if TOP_PRODUCERS <? total then
        let bp_out := if TOP_PRODUCERS - 1 <=? Rotation.bp_out_index r then 0
                      else u32 (Rotation.bp_out_index r + 1) in
        let sbp_in := if u32 (total - 1) <=? Rotation.sbp_in_index r then TOP_PRODUCERS
                      else u32 (Rotation.sbp_in_index r + 1) in
        modify (fun s => s <| grotation ::= fun r =>
          r <| Rotation.bp_out_index := bp_out |> <| Rotation.sbp_in_index := sbp_in |> |>) ;;
        bp ← require_found (prods !! Z.to_nat bp_out) "index out of bounds";
        sbp ← require_found (prods !! Z.to_nat sbp_in) "index out of bounds";
        set_bps_rotation (pname bp) (pname sbp) ;;
        mret (Z.to_nat bp_out, Z.to_nat sbp_in)
      else mret no_one);
    update_rotation_time block_time ;;
    restart_missed_blocks_per_rotation prods ;;
    mret its
  else if negb (Rotation.bp_currently_out r =? 0) && negb (Rotation.sbp_currently_in r =? 0) then
    let it_bp := index_of (Rotation.bp_currently_out r) prods in
    let it_sbp := index_of (Rotation.sbp_currently_in r) prods in
    if bool_decide (it_bp = length prods) || bool_decide (it_sbp = length prods) then
      set_bps_rotation 0 0 ;;
      when (total <? TOP_PRODUCERS)
        (modify (fun s => s <| grotation ::= fun r =>
          r <| Rotation.bp_out_index := TOP_PRODUCERS |> <| Rotation.sbp_in_index := MAX_PRODUCERS + 1 |> |>)) ;;
      mret (it_bp, it_sbp)
    else if (TOP_PRODUCERS <? total) &&
            (negb (is_in_range (Z.of_nat it_bp) 0 TOP_PRODUCERS) ||
             negb (is_in_range (Z.of_nat it_sbp) TOP_PRODUCERS MAX_PRODUCERS)) then
      set_bps_rotation 0 0 ;; mret no_one
    else mret (it_bp, it_sbp)
  else mret no_one.

Definition check_rotation_state (prods : list producer_location_pair) (block_time : Z)
  : M sys (list producer_location_pair) :=
  '(it_bp, it_sbp) ← rotation_iterators prods block_time;
  mret (rotate prods it_bp it_sbp).

(** ** Electing *)

(** The first rows of the vote index, while they have votes and are active. *)
Fixpoint electable (max : nat) (rows : list (name * producer_info)) : list producer_location_pair :=
  match max, rows with
  | S max', (_, p) :: rows' =>
    if dlt dzero (Producer.total_votes p) && Producer.is_active p
    then (Producer.owner p, get_producer_authority p, Producer.location p) :: electable max' rows'
    else []
  | _, _ => []
  end.

Definition update_elected_producers (block_time : Z) : M sys unit :=
  modify (fun s => s <| gstate ::= fun g => g <| Global.last_producer_schedule_update := block_time |> |>) ;;
  rows ← gets producers_by_votes;
  let total := Z.min (Z.of_nat (length rows)) MAX_PRODUCERS in
  let active_producers := electable (Z.to_nat total) rows in
  g ← gets gstate;
  let size := Z.of_nat (length active_producers) in
  if (size =? 0) || (size <? Global.last_producer_schedule_size g) then mret tt
  else
    top ← check_rotation_state active_producers block_time;
    let top_producers := sort_by (fun l r => location l <=? location r) top in
    let schedule := map fst top_producers in
    send (ProposeSchedule schedule) ;;
    version ← lift (set_proposed_producers schedule);
    match version with
    | Some _ =>
      modify (fun s => s
        <| gstate ::= fun g => g <| Global.last_proposed_schedule_update := block_time |>
             <| Global.last_producer_schedule_size := u16 (Z.of_nat (length top_producers)) |> |>
        <| gschedule_metrics ::= fun m => m <| Schedule.producers_metric :=
             map (fun p => Metric.mk (pname p) 12) top_producers |> |>)
    | None => mret tt
    end.

(** ** Missed blocks *)

(** Comparing the sorted lists position by position: reading past the end of the metrics
    is undefined in the source, and an error here. *)
Fixpoint same_names (active scheduled : list name) : result bool :=
  match active, scheduled with
  | [], _ => Ok true
  | x :: active', y :: scheduled' => if x =? y then same_names active' scheduled' else Ok false
  | _ :: _, [] => Err "index out of bounds"
  end.

Definition is_new_schedule_activated (active_schedule : list name) : M sys bool :=
  metrics ← gets (fun s => Schedule.producers_metric (gschedule_metrics s));
  lift (same_names (sort_by Z.leb active_schedule) (sort_by Z.leb (map Metric.bp_name metrics))).

(** The last part of [check_missed_blocks], once the counters are in step. *)
Definition count_block (timestamp : Z) (producer : name) : M sys bool :=
  pitr ← find_row producers producer;
  if match pitr with Some p => negb (Producer.is_active p) | None => false end then
    reset_schedule_metrics 0 ;; update_elected_producers timestamp ;; mret false
  else
    m ← gets gschedule_metrics;
    let cycle_over :=
      match find (fun pm => Metric.bp_name pm =? producer) (Schedule.producers_metric m) with
      | Some pm => negb (Metric.missed_blocks_per_cycle pm =? MAX_BLOCK_PER_CYCLE)
      | None => false
      end in
    if negb (Schedule.last_onblock_caller m =? producer) && cycle_over then
      set_last_caller producer ;; mret true
    else
      update_producer_missed_blocks producer ;; set_last_caller producer ;; mret false.

(** The correction of the counters after a new schedule: [None] to go on. *)
Definition correct_counters (producer : name) : M sys unit :=
  m ← gets gschedule_metrics;
  when (0 <? Schedule.block_counter_correction m)
    ((if Schedule.last_onblock_caller m =? eosio_account then
        modify_metrics (update_first (fun pm => Metric.bp_name pm =? producer)
          (fun pm => pm <| Metric.missed_blocks_per_cycle ::=
             fun z => u32 (z - u32 (Schedule.block_counter_correction m)) |>))
      else
        reset_schedule_metrics 0 ;; set_correction (fun _ => -3)) ;;
     set_last_caller producer).

Definition check_missed_blocks (timestamp : Z) (producer : name) : M sys bool :=
  if producer =? eosio_account then
    set_correction (fun z => i32 (z + 1)) ;; set_last_caller producer ;; mret false
  else
    let producers_schedule := get_active_producers in
    g ← gets gstate;
    is_activated ← (if Global.last_producer_schedule_size g =? Z.of_nat (length producers_schedule)
                    then is_new_schedule_activated producers_schedule else mret false);
    m ← gets gschedule_metrics;
    if negb is_activated then
      (if negb (Schedule.last_onblock_caller m =? producer) then set_correction (fun _ => 1)
       else set_correction (fun z => i32 (z + 1))) ;;
      set_last_caller producer ;; mret false
    else
      correct_counters producer ;;
      m' ← gets gschedule_metrics;
      if Schedule.block_counter_correction m' <? 0 then
        when (negb (Schedule.last_onblock_caller m' =? producer)) (set_correction (fun z => i32 (z + 1))) ;;
        set_last_caller producer ;;
        m2 ← gets gschedule_metrics;
        if Schedule.block_counter_correction m2 <? 0 then mret false
        else count_block timestamp producer
      else count_block timestamp producer.
End rotation.

(** ** The schedule of a rotation *)

(** The indices of the rotation: the one that goes out is a top producer's, or none has
    been chosen yet; the one that comes in is past the top. *)
Definition rotation_ok (s : sys) : Prop :=
  0 <= Rotation.bp_out_index (grotation s) <= TOP_PRODUCERS /\
  TOP_PRODUCERS <= Rotation.sbp_in_index (grotation s).

Section schedule.
Context `{cdt : Cdt} `{libm : Libm} `{host : Host}.
Implicit Types (s : sys) (prods : list producer_location_pair).

(** Where an iterator may point: to the end, or one in the top and one past it. *)
Definition rotates prods (it_bp it_sbp : nat) : Prop :=
  (it_bp < 21)%nat /\ (21 <= it_sbp)%nat \/ prods !! it_bp = None \/ prods !! it_sbp = None.

Lemma take_lookup_lt {A} n (l : list A) i x : take n l !! i = Some x -> l !! i = Some x /\ (i < n)%nat.
Proof.
  intros H. assert (i < n)%nat by (apply lookup_lt_Some in H; rewrite length_take in H; lia).
  by rewrite lookup_take_lt in H.
Qed.

Lemma swap_NoDup n l (bp sbp : producer_location_pair) i j :
  NoDup (map pname l) -> l !! i = Some bp -> l !! j = Some sbp -> (i < n)%nat -> (n <= j)%nat ->
  NoDup (map pname (map (fun p => if pname p =? pname bp then sbp else p) (take n l))).
Proof.
  intros Hnd Hi Hj Hin Hjn. rewrite map_map. apply NoDup_alt. intros a b x Ha Hb.
  assert (forall k p, l !! k = Some p -> map pname l !! k = Some (pname p)) as Hmap
    by (intros k p Hk; by rewrite list_lookup_fmap, Hk).
  assert (forall k1 k2 p1 p2, l !! k1 = Some p1 -> l !! k2 = Some p2 -> pname p1 = pname p2 -> k1 = k2) as Hinj.
  { intros k1 k2 p1 p2 H1%Hmap H2%Hmap Heq. rewrite <- Heq in H2. rewrite NoDup_alt in Hnd. by eapply Hnd. }
  apply list_lookup_fmap_Some in Ha as (pa & -> & [Hpa ?]%take_lookup_lt).
  apply list_lookup_fmap_Some in Hb as (pb & Heq & [Hpb ?]%take_lookup_lt).
  destruct (Z.eqb_spec (pname pa) (pname bp)) as [Ea|Ea], (Z.eqb_spec (pname pb) (pname bp)) as [Eb|Eb].
  - eapply Hinj; [done..|congruence].
  - assert (b = j) by (eapply Hinj; [done..|congruence]). lia.
  - assert (a = j) by (eapply Hinj; [done..|congruence]). lia.
  - eapply Hinj; done.
Qed.

(** A rotated schedule of more than twenty-one candidates has no one twice. *)
Lemma rotate_NoDup prods it_bp it_sbp :
  NoDup (map pname prods) -> rotates prods it_bp it_sbp -> NoDup (map pname (rotate prods it_bp it_sbp)).
Proof.
  intros Hnd Hr. unfold rotate.
  assert (NoDup (map pname (take (Z.to_nat TOP_PRODUCERS) prods))) as Htake.
  { apply (NoDup_app _ (map pname (drop (Z.to_nat TOP_PRODUCERS) prods))). by rewrite <- map_app, take_drop. }
  destruct (prods !! it_bp) as [bp|] eqn:Hbp; [|done]. destruct (prods !! it_sbp) as [sbp|] eqn:Hsbp; [|done].
  destruct Hr as [[Hlt Hge]|[?|?]]; [|congruence..]. by eapply swap_NoDup.
Qed.

Lemma rotate_length prods it_bp it_sbp : length (rotate prods it_bp it_sbp) = Nat.min 21 (length prods).
Proof.
  unfold rotate. change (Z.to_nat TOP_PRODUCERS) with 21%nat.
  destruct (prods !! it_bp), (prods !! it_sbp); rewrite ?length_map, length_take; done.
Qed.

Lemma rotate_members prods it_bp it_sbp : forall p, p ∈ rotate prods it_bp it_sbp -> p ∈ prods.
Proof.
  intros p. assert (p ∈ take (Z.to_nat TOP_PRODUCERS) prods -> p ∈ prods) as Htake
    by (intros (i & Hi)%list_elem_of_lookup; apply take_lookup_lt in Hi as [Hi _]; by eapply list_elem_of_lookup_2).
  unfold rotate. destruct (prods !! it_bp) as [bp|]; [|done]. destruct (prods !! it_sbp) as [sbp|] eqn:Hs; [|done].
  intros (q & -> & Hq)%list_elem_of_fmap. destruct (pname q =? pname bp); [by eapply list_elem_of_lookup_2|].
  apply list_elem_of_lookup in Hq as (i & Hi). apply take_lookup_lt in Hi as [Hi _]. by eapply list_elem_of_lookup_2.
Qed.

Lemma restart_missed_rotation prods : keeps grotation (restart_missed_blocks_per_rotation prods).
Proof. unfold restart_missed_blocks_per_rotation, find_row, set_producer. solve_respects. Qed.

Lemma require_nth_Ok prods i s p s' :
  require_found (prods !! i) "index out of bounds" s = Ok (p, s') -> prods !! i = Some p /\ s' = s.
Proof. apply require_found_Ok. Qed.

Lemma rotation_iterators_ok prods t s it_bp it_sbp s' :
  rotation_ok s -> 21 < Z.of_nat (length prods) <= MAX_PRODUCERS ->
  rotation_iterators prods t s = Ok ((it_bp, it_sbp), s') ->
  rotates prods it_bp it_sbp /\ rotation_ok s'.
Proof.
  intros [Hbp Hsbp] Hlen H. unfold TOP_PRODUCERS, MAX_PRODUCERS in *.
  assert (rotates prods (length prods) (length prods)) as Hend by (right; left; by apply lookup_ge_None).
  unfold rotation_iterators in H. apply bind_Ok in H as (r & s1 & [-> ->]%gets_Ok & H).
  destruct (_ <=? t).
  - apply bind_Ok in H as ([a b] & s1 & Hits & H).
    unfold TOP_PRODUCERS in Hits. rewrite (proj2 (Z.ltb_lt 21 (Z.of_nat (length prods)))) in Hits by lia. cbv zeta in Hits.
    set (bo := if 21 - 1 <=? Rotation.bp_out_index (grotation s) then 0 else u32 (Rotation.bp_out_index (grotation s) + 1)) in *.
    set (si := if u32 (Z.of_nat (length prods) - 1) <=? Rotation.sbp_in_index (grotation s) then 21
               else u32 (Rotation.sbp_in_index (grotation s) + 1)) in *.
    assert (0 <= bo <= 20) as Hbo.
    { unfold bo. destruct (Z.leb_spec (21 - 1) (Rotation.bp_out_index (grotation s))); [lia|].
      rewrite u32_small by (unfold in_u32; lia). lia. }
    assert (21 <= si) as Hsi.
    { unfold si. rewrite u32_small by (unfold in_u32; lia).
      destruct (Z.leb_spec (Z.of_nat (length prods) - 1) (Rotation.sbp_in_index (grotation s))); [lia|].
      rewrite u32_small by (unfold in_u32; lia). lia. }
    unfold set_bps_rotation in Hits. minv Hits. injection E as -> ->.
    unfold update_rotation_time in H. minv H. apply restart_missed_rotation in Hrun. injection E as -> ->.
    split; [left; lia|]. unfold rotation_ok. rewrite Hrun. cbn. unfold TOP_PRODUCERS. lia.
  - destruct (_ && _); [|by apply ret_Ok in H as [[= -> ->] ->]].
    destruct (bool_decide _ || bool_decide _) eqn:Hend'.
    + unfold set_bps_rotation in H. minv H. injection E as -> ->. apply when_Ok in Hrun.
      unfold TOP_PRODUCERS in Hrun. rewrite (proj2 (Z.ltb_ge _ 21)) in Hrun by lia. match type of Hrun with ?x = _ => subst x end. split; [|done].
      apply orb_true_iff in Hend'. rewrite !bool_decide_eq_true in Hend'. right.
      destruct Hend' as [->| ->]; [left|right]; by apply lookup_ge_None.
    + unfold TOP_PRODUCERS in H. rewrite (proj2 (Z.ltb_lt 21 _)) in H by lia. cbn [andb] in H.
      destruct (_ || _) eqn:Hrange in H.
      * unfold set_bps_rotation in H. minv H. by injection E as -> ->.
      * minv H. injection E as -> ->. split; [left|done]. unfold is_in_range in Hrange.
        apply orb_false_iff in Hrange as [H1 H2]. apply negb_false_iff, andb_true_iff in H1, H2. lia.
Qed.

(** C26: with more than twenty-one candidates, no one twice among them, the schedule of a
    rotation has exactly twenty-one members, all of them candidates and no one twice; the
    indices of the rotation stay where the next one needs them. *)
Theorem check_rotation_state_schedule prods t s out s' :
  rotation_ok s -> 21 < Z.of_nat (length prods) <= MAX_PRODUCERS -> NoDup (map pname prods) ->
  check_rotation_state prods t s = Ok (out, s') ->
  rotation_ok s' /\ length out = 21%nat /\ NoDup (map pname out) /\ (forall p, p ∈ out -> p ∈ prods).
Proof.
  intros Hok Hlen Hnd H. unfold check_rotation_state in H. apply bind_Ok in H as ([a b] & s1 & Hits & H).
  apply ret_Ok in H as [-> ->]. apply rotation_iterators_ok in Hits as [Hrot Hok']; [|done..].
  split; [done|]. split; [rewrite rotate_length; lia|]. split; [by apply rotate_NoDup|]. apply rotate_members.
Qed.
End schedule.

(** ** Examples *)
Definition ex_candidate (n : Z) : producer_location_pair := (n, SigningAuthority 1 [(n, 1)], 0).
Definition ex_candidates (n : nat) : list producer_location_pair := map (fun k => ex_candidate (Z.of_nat k)) (seq 1 n).
Definition ex_rotation (out in_ next : Z) : sys :=
  blank_sys <| grotation := Rotation.mk out in_ 3 24 next 0 |>.

Lemma check_rotation_state_schedule_witness :
  exists out s', check_rotation_state (cdt := cdt_model) (ex_candidates 30) 1500000000 (ex_rotation 4 25 1000000000) =
    Ok (out, s') /\ NoDup (map pname out) /\ (map pname out) !! 4%nat = Some 26.
Proof.
  assert (match check_rotation_state (cdt := cdt_model) (ex_candidates 30) 1500000000 (ex_rotation 4 25 1000000000) with
          | Ok (out, _) => bool_decide ((map pname out) !! 4%nat = Some 26) | Err _ => false end = true) as H26
    by (vm_compute; reflexivity).
  destruct (check_rotation_state (cdt := cdt_model) (ex_candidates 30) 1500000000 (ex_rotation 4 25 1000000000))
    as [[out s']|] eqn:H; [|discriminate].
  assert (rotation_ok (ex_rotation 4 25 1000000000)) as Hok
    by (unfold rotation_ok, TOP_PRODUCERS; cbn; lia).
  assert (21 < Z.of_nat (length (ex_candidates 30)) <= MAX_PRODUCERS) as Hlen by (cbn; unfold MAX_PRODUCERS; lia).
  assert (NoDup (map pname (ex_candidates 30))) as Hnd
    by (refine (bool_decide_eq_true_1 _ _); vm_compute; reflexivity).
  destruct (check_rotation_state_schedule (cdt := cdt_model) (ex_candidates 30) 1500000000 (ex_rotation 4 25 1000000000)
    out s' Hok Hlen Hnd H) as (_ & _ & Hout & _).
  exists out, s'. split; [reflexivity|]. split; [exact Hout|]. exact (bool_decide_eq_true_1 _ H26).
Defined.

(** At the positions [i] and [j] of the same list. *)
Lemma index_of_name prods i p : NoDup (map pname prods) -> prods !! i = Some p -> index_of (pname p) prods = i.
Proof.
  revert i. induction prods as [|q prods IH]; intros i Hnd Hi; [done|]. cbn [map] in Hnd. apply NoDup_cons in Hnd as [Hq Hnd].
  cbn [index_of]. destruct i as [|i]; cbn in Hi.
  - injection Hi as ->. by rewrite Z.eqb_refl.
  - rewrite (proj2 (Z.eqb_neq _ _)); [by rewrite (IH i)|]. intros Heq. apply Hq. rewrite Heq.
    apply list_elem_of_fmap. exists p. split; [done|]. by eapply list_elem_of_lookup_2.
Qed.

(** C39: with no more than twenty-one candidates left, the same code repeats one: when the
    producer that is out and the standby that is in are both still candidates before the next
    rotation, the standby is scheduled twice - in its own place and in that of the producer
    that is out - and that producer not at all, though no candidate is there twice. *)
Theorem rotation_repeats_standby `{cdt : Cdt} prods t s i j bp sbp :
  (length prods <= 21)%nat -> NoDup (map pname prods) -> i <> j -> prods !! i = Some bp -> prods !! j = Some sbp ->
  t < Rotation.next_rotation_time (grotation s) ->
  Rotation.bp_currently_out (grotation s) = pname bp -> Rotation.sbp_currently_in (grotation s) = pname sbp ->
  pname bp <> 0 -> pname sbp <> 0 ->
  exists out, check_rotation_state prods t s = Ok (out, s) /\ length out = length prods /\
    out !! i = Some sbp /\ out !! j = Some sbp /\ ~ NoDup (map pname out) /\ pname bp ∉ map pname out /\
    (forall k, k <> i -> out !! k = prods !! k).
Proof.
  intros Hlen Hnd Hij Hi Hj Ht Hbp Hsbp Hb0 Hs0.
  pose proof (index_of_name _ _ _ Hnd Hi) as Ei. pose proof (index_of_name _ _ _ Hnd Hj) as Ej.
  assert (forall k p, prods !! k = Some p -> pname p = pname bp -> k = i) as Hinj.
  { intros k p Hk Heq. rewrite <- Ei, <- Heq. symmetry. by apply index_of_name. }
  set (out := map (fun p => if pname p =? pname bp then sbp else p) prods).
  assert (check_rotation_state prods t s = Ok (out, s)) as Hrun.
  { unfold check_rotation_state, rotation_iterators, gets, mbind, M_bind. cbv zeta beta.
    rewrite (proj2 (Z.leb_gt _ _)) by exact Ht. rewrite Hbp, Hsbp, Ei, Ej.
    rewrite (proj2 (Z.eqb_neq _ _)), (proj2 (Z.eqb_neq (pname sbp) 0)) by done. cbn [negb andb].
    pose proof (lookup_lt_Some _ _ _ Hi). pose proof (lookup_lt_Some _ _ _ Hj). rewrite !bool_decide_false by lia. cbn [orb].
    unfold TOP_PRODUCERS. rewrite (proj2 (Z.ltb_ge 21 _)) by lia. cbn [andb]. unfold mret, M_ret, rotate. rewrite Hi, Hj.
    unfold TOP_PRODUCERS. rewrite take_ge by lia. done. }
  assert (forall k, out !! k = (fun p => if pname p =? pname bp then sbp else p) <$> prods !! k) as Hout
    by (intros k; apply list_lookup_fmap).
  assert (out !! i = Some sbp) as Hoi by (rewrite Hout, Hi; cbn; by rewrite Z.eqb_refl).
  assert (forall k, k <> i -> out !! k = prods !! k) as Hrest.
  { intros k Hk. rewrite Hout. destruct (prods !! k) as [p|] eqn:Hp; [cbn|done].
    destruct (Z.eqb_spec (pname p) (pname bp)) as [Heq|]; [|done]. by destruct Hk; apply (Hinj k p). }
  assert (out !! j = Some sbp) as Hoj by (rewrite Hrest; done).
  exists out. split; [done|]. split; [apply length_map|]. split; [done|]. split; [done|]. split; [|split; [|done]].
  - intros Hnd'. apply Hij. rewrite NoDup_alt in Hnd'. apply (Hnd' i j (pname sbp)); apply list_lookup_fmap_Some; eauto.
  - intros (p & Hp & (k & Hk)%list_elem_of_lookup)%list_elem_of_fmap. destruct (decide (k = i)) as [->|Hki].
    + rewrite Hoi in Hk. injection Hk as <-. apply Hij. symmetry. by apply (Hinj j sbp).
    + rewrite Hrest in Hk by done. by apply Hki, (Hinj k p).
Qed.

Lemma rotation_repeats_standby_witness :
  exists out, check_rotation_state (cdt := cdt_model) (ex_candidates 21) 900000000 (ex_rotation 4 20 1000000000) =
    Ok (out, ex_rotation 4 20 1000000000) /\ ~ NoDup (map pname out) /\ out !! 3%nat = out !! 19%nat.
Proof.
  assert (NoDup (map pname (ex_candidates 21))) as Hnd by (refine (bool_decide_eq_true_1 _ _); vm_compute; reflexivity).
  destruct (rotation_repeats_standby (cdt := cdt_model) (ex_candidates 21) 900000000 (ex_rotation 4 20 1000000000) 3 19
    (ex_candidate 4) (ex_candidate 20) (le_n 21) Hnd ltac:(discriminate) eq_refl eq_refl eq_refl eq_refl eq_refl
    ltac:(discriminate) ltac:(discriminate)) as (out & Hrun & _ & H3 & H19 & Hdup & _).
  exists out. split; [exact Hrun|]. split; [exact Hdup|]. rewrite H3, H19. reflexivity.
Defined.
