(* ===== verification/Election.v ===== *)
(** * Elections (voting.cpp lines 126-186)

    Which producers [update_elected_producers] proposes: the theorem ties the schedule to
    the votes, through the order of the vote index and the rotation. *)
From Stdlib Require Import SpecFloat.
From S2P Require Import Prelude.
From S2P Require Import Cdt.
From S2P Require Import Float64.
From S2P Require Import SysState.
From S2P Require Import Token.
From S2P Require Import Producers.
From S2P Require Import Rotation.
From stdpp Require Import base gmap strings list sorting.
Open Scope Z_scope.

(** ** The order of doubles *)

(** Doubles that are numbers compare as their sign, exponent and mantissa do. *)
Definition rank (x : double) : Z * Z * Z :=
  match x with
  | S754_infinity s => (if s then -2 else 2, 0, 0)
  | S754_finite s m e => if s then (-1, -e, - Z.pos m) else (1, e, Z.pos m)
  | _ => (0, 0, 0)
  end.
Definition is_number (x : double) : Prop := x <> S754_nan.
Definition rank_lt (a b : Z * Z * Z) : Prop :=
  a.1.1 < b.1.1 \/ a.1.1 = b.1.1 /\ (a.1.2 < b.1.2 \/ a.1.2 = b.1.2 /\ a.2 < b.2).

Lemma pos_compare_cont m1 m2 : Pos.compare_cont Eq m1 m2 = (Z.pos m1 ?= Z.pos m2)%Z.
Proof. done. Qed.

Lemma dlt_rank x y : is_number x -> is_number y -> dlt x y = true <-> rank_lt (rank x) (rank y).
Proof.
  unfold dlt, SFltb, is_number, rank_lt.
  destruct x as [s1|s1| |s1 m1 e1], y as [s2|s2| |s2 m2 e2]; try done; intros _ _;
    try (destruct s1, s2; cbn; intuition (lia || done)); try (destruct s1; cbn; intuition (lia || done));
    try (destruct s2; cbn; intuition (lia || done)).
  unfold SFcompare. rewrite !pos_compare_cont.
  destruct s1, s2; cbn [rank fst snd]; try (intuition (lia || done));
    destruct (Z.compare_spec e1 e2), (Z.compare_spec (Z.pos m1) (Z.pos m2)); cbn; intuition (lia || done).
Qed.

Lemma dlt_neg x y : dlt (dneg x) (dneg y) = dlt y x.
Proof.
  unfold dlt, SFltb, dneg. destruct x as [s1|s1| |s1 m1 e1], y as [s2|s2| |s2 m2 e2];
    repeat match goal with s : bool |- _ => destruct s end; try reflexivity;
    cbn [SFopp negb SFcompare]; rewrite !pos_compare_cont, (Z.compare_antisym e1), (Z.compare_antisym (Z.pos m1));
    destruct (e1 ?= e2)%Z; cbn [CompOpp]; try reflexivity; by destruct (Z.pos m1 ?= Z.pos m2)%Z.
Qed.

Lemma dneg_number x : is_number x -> is_number (dneg x).
Proof. by destruct x. Qed.

(** A number that is not negative. *)
Definition not_negative (x : double) : Prop := dle dzero x = true.

Lemma not_negative_number x : not_negative x -> is_number x.
Proof. by destruct x. Qed.

Lemma neg_below v w : dlt dzero v = true -> not_negative w -> dlt (dneg v) w = true.
Proof. by destruct v as [[]|[]| |[] ? ?], w as [[]|[]| |[] ? ?]. Qed.

Lemma neg_below_zero v w : dlt dzero v = true -> not_negative w -> dlt dzero w = false -> dlt (dneg v) (dneg w) = true.
Proof. by destruct v as [[]|[]| |[] ? ?], w as [[]|[]| |[] ? ?]. Qed.

(** ** The order of the vote index *)
Lemma sorted_strongly {A} (R : relation A) (P : A -> Prop) l :
  (forall x y z, P x -> P y -> P z -> R x y -> R y z -> R x z) -> Forall P l -> Sorted R l -> StronglySorted R l.
Proof.
  intros HR HP Hs. induction Hs as [|x l Hs IH Hx]; [constructor|].
  apply Forall_cons in HP as [HPx HP]. specialize (IH HP). constructor; [done|].
  destruct IH as [|y l IH Hy]; [constructor|]. apply Forall_cons in HP as [HPy HP].
  inversion Hx as [|? ? Hxy]; subst. constructor; [done|]. rewrite Forall_forall in Hy, HP |- *.
  intros z Hz. apply (HR x y z); auto.
Qed.

#[local] Instance vote_le_total : Total vote_le.
Proof.
  intros x y. unfold vote_le. destruct (dlt (by_votes x.2) (by_votes y.2)); [by left; left|].
  destruct (dlt (by_votes y.2) (by_votes x.2)); [by right; left|].
  destruct (Z.le_ge_cases x.1 y.1); [left|right]; right; done.
Qed.

Definition numbered_votes (x : name * producer_info) : Prop := is_number (by_votes x.2).

Lemma vote_le_rank x y : numbered_votes x -> numbered_votes y -> vote_le x y <->
  rank_lt (rank (by_votes x.2)) (rank (by_votes y.2)) \/
  ~ rank_lt (rank (by_votes y.2)) (rank (by_votes x.2)) /\ x.1 <= y.1.
Proof.
  intros Hx Hy. unfold vote_le. rewrite <- (dlt_rank _ _ Hx Hy), <- (dlt_rank _ _ Hy Hx).
  by rewrite not_true_iff_false.
Qed.

Lemma vote_index_sorted s : map_Forall (fun _ p => not_negative (Producer.total_votes p)) (producers s) ->
  StronglySorted vote_le (producers_by_votes s).
Proof.
  intros Hnum. apply (sorted_strongly vote_le numbered_votes).
  - intros x y z Hx Hy Hz. rewrite !vote_le_rank by done. unfold rank_lt. lia.
  - apply Forall_forall. intros [n p] Hin. unfold producers_by_votes in Hin.
    rewrite merge_sort_Permutation, elem_of_map_to_list in Hin. specialize (Hnum n p Hin). cbn in Hnum.
    apply not_negative_number in Hnum. unfold numbered_votes, by_votes. cbn.
    destruct (Producer.is_active p); [by apply dneg_number|done].
  - apply Sorted_merge_sort. apply _.
Qed.

Lemma elem_of_vote_index s n p : (n, p) ∈ producers_by_votes s <-> producers s !! n = Some p.
Proof. unfold producers_by_votes. by rewrite merge_sort_Permutation, elem_of_map_to_list. Qed.

(** ** The candidates *)
Definition can_produce (p : producer_info) : bool := dlt dzero (Producer.total_votes p) && Producer.is_active p.
Definition as_candidate (p : producer_info) : producer_location_pair :=
  (Producer.owner p, get_producer_authority p, Producer.location p).

(** The candidates are the first rows of the index, up to one that cannot produce or to
    the limit. *)
Lemma electable_prefix max rows : exists k, electable max rows = map (fun r => as_candidate r.2) (take k rows) /\
  Forall (fun r => can_produce r.2 = true) (take k rows) /\ (k <= max)%nat /\
  (k = max \/ forall r, rows !! k = Some r -> can_produce r.2 = false).
Proof.
  revert rows. induction max as [|max IH]; intros rows; [exists 0%nat; split_and!; [done|constructor|lia|by left]|].
  destruct rows as [|[n p] rows]; [exists 0%nat; split_and!; [done|constructor|lia|by right]|].
  cbn [electable]. change (dlt dzero (Producer.total_votes p) && Producer.is_active p) with (can_produce p).
  destruct (can_produce p) eqn:Hp.
  - destruct (IH rows) as (k & Hk & Hall & Hle & Hend). exists (S k). cbn. rewrite Hk.
    split_and!; [done|by constructor|lia|]. destruct Hend as [->|Hend]; [by left|by right].
  - exists 0%nat. split_and!; [done|constructor|lia|]. right. intros r [= <-]. done.
Qed.

(** An active producer with votes comes before every row that cannot produce. *)
Lemma can_produce_first x y : can_produce x.2 = true -> can_produce y.2 = false ->
  not_negative (Producer.total_votes y.2) -> ~ vote_le y x.
Proof.
  unfold can_produce, vote_le, by_votes. intros [Hv Ha]%andb_true_iff Hy Hnn. rewrite Ha.
  set (v := Producer.total_votes x.2) in *. set (w := Producer.total_votes y.2) in *.
  assert (dlt (dneg v) (if Producer.is_active y.2 then dneg w else w) = true) as Hlt.
  { apply andb_false_iff in Hy as [Hw| ->]; [|by apply neg_below].
    destruct (Producer.is_active y.2); [by apply neg_below_zero|by apply neg_below]. }
  intros [H|[H _]]; [|congruence]. revert H.
  assert (is_number (dneg v)) as Hnv by (apply dneg_number; by destruct v).
  assert (is_number (if Producer.is_active y.2 then dneg w else w)) as Hnw.
  { apply not_negative_number in Hnn. destruct (Producer.is_active y.2); [by apply dneg_number|done]. }
  apply dlt_rank in Hlt; [|done..]. intros H. apply dlt_rank in H; [|done..]. unfold rank_lt in *. lia.
Qed.

Definition candidates (s : sys) : list producer_location_pair :=
  electable (Z.to_nat (Z.min (Z.of_nat (length (producers_by_votes s))) MAX_PRODUCERS)) (producers_by_votes s).

(** Rows are kept by their owners, and votes are numbers, none below zero. *)
Definition rows_ok (s : sys) : Prop :=
  map_Forall (fun n p => Producer.owner p = n /\ not_negative (Producer.total_votes p)) (producers s).

Lemma candidate_row s c : rows_ok s -> c ∈ candidates s ->
  exists p, producers s !! pname c = Some p /\ can_produce p = true /\ c = as_candidate p.
Proof.
  intros Hok Hc. unfold candidates in Hc. revert Hc.
  generalize (Z.to_nat (Z.of_nat (length (producers_by_votes s)) `min` MAX_PRODUCERS)). intros max Hc.
  destruct (electable_prefix max (producers_by_votes s)) as (k & Hk & Hall & _).
  rewrite Hk in Hc. apply list_elem_of_fmap in Hc as ([n p] & -> & Hin). exists p. rewrite Forall_forall in Hall.
  pose proof (Hall _ Hin) as Hp. apply elem_of_take in Hin as (i & Hi & _). apply list_elem_of_lookup_2, elem_of_vote_index in Hi.
  destruct (Hok n p Hi) as [Hn _]. cbn. rewrite Hn. done.
Qed.

(** No one with more votes is passed over. *)
Lemma candidates_lead s n p : rows_ok s -> producers s !! n = Some p -> can_produce p = true ->
  as_candidate p ∈ candidates s \/
  Z.of_nat (length (candidates s)) = MAX_PRODUCERS /\ forall c, c ∈ candidates s ->
    exists q, producers s !! pname c = Some q /\ dlt (Producer.total_votes q) (Producer.total_votes p) = false.
Proof.
  intros Hok Hn Hp. pose proof (vote_index_sorted s ltac:(intros m q Hq; by destruct (Hok m q Hq))) as Hs.
  apply elem_of_vote_index in Hn as Hin. apply list_elem_of_lookup in Hin as (i & Hi).
  assert (forall j x, producers_by_votes s !! j = Some x -> (j < i)%nat -> vote_le x (n, p)) as Hbefore.
  { intros j x Hj Hlt. rewrite <- (take_drop i (producers_by_votes s)) in Hs.
    apply (StronglySorted_app_1_elem_of _ _ _ x (n, p)) in Hs; [done|apply elem_of_take; eauto|].
    apply (list_elem_of_lookup_2 _ 0). by rewrite lookup_drop, Nat.add_0_r. }
  unfold candidates. set (max := Z.to_nat _). destruct (electable_prefix max (producers_by_votes s)) as (k & Hk & Hall & Hle & Hend).
  destruct (decide (i < k)%nat) as [Hik|Hik].
  { left. rewrite Hk. apply list_elem_of_fmap. exists (n, p). split; [done|]. apply elem_of_take. eauto. }
  pose proof (lookup_lt_Some _ _ _ Hi) as Hlen. destruct Hend as [->|Hend].
  - right. rewrite Hk, length_map, length_take. split; [unfold max, MAX_PRODUCERS in *; lia|].
    intros c (x & -> & (j & Hj & Hjk)%elem_of_take)%list_elem_of_fmap. rewrite Forall_forall in Hall.
    assert (can_produce x.2 = true) as Hx by (apply Hall, elem_of_take; eauto).
    pose proof (Hbefore j x Hj ltac:(lia)) as Hxp. destruct x as [m q]. apply list_elem_of_lookup_2, elem_of_vote_index in Hj.
    exists q. destruct (Hok m q Hj) as [Hm _]. cbn [as_candidate pname fst snd]. rewrite Hm. split; [done|].
    unfold can_produce in Hx, Hp. apply andb_true_iff in Hx as [Hx Hxa], Hp as [Hp Hpa].
    cbn in Hx, Hxa. unfold vote_le, by_votes in Hxp. cbn in Hxp. rewrite Hxa, Hpa, !dlt_neg in Hxp.
    destruct Hxp as [H|[H _]]; [|done]. destruct (dlt (Producer.total_votes q) (Producer.total_votes p)) eqn:Hqp; [|done].
    apply dlt_rank in H; [|by destruct (Producer.total_votes p)|by destruct (Producer.total_votes q)].
    apply dlt_rank in Hqp; [|by destruct (Producer.total_votes q)|by destruct (Producer.total_votes p)].
    unfold rank_lt in *. lia.
  - exfalso. destruct (lookup_lt_is_Some_2 (producers_by_votes s) k ltac:(lia)) as [[m q] Hkq].
    pose proof (Hend _ Hkq) as Hq. assert (k <> i) by (intros ->; rewrite Hi in Hkq; injection Hkq as <- <-; cbn in Hq; congruence).
    apply (can_produce_first (n, p) (m, q) Hp Hq); [|by apply (Hbefore k); [done|lia]].
    apply list_elem_of_lookup_2, elem_of_vote_index in Hkq. by destruct (Hok m q Hkq).
Qed.

(** ** The election *)
Section election.
Context `{cdt : Cdt} `{libm : Libm} `{host : Host} (e : Env).
Implicit Types s : sys.

(** What a producer's row says apart from the counters of missed blocks. *)
Definition off_counters (p : producer_info) : producer_info :=
  p <| Producer.times_kicked := 0 |> <| Producer.lifetime_missed_blocks := 0 |>
    <| Producer.missed_blocks_per_rotation := 0 |>.

Lemma restart_missed_rows prods : keeps (fun s => off_counters <$> producers s) (restart_missed_blocks_per_rotation prods).
Proof.
  apply respects_for_each; [apply _|]. intros c s u s' H. apply bind_Ok in H as (itr & s1 & [-> ->]%gets_Ok & H).
  destruct (producers s !! pname c) as [p|] eqn:Hp; [|by apply ret_Ok in H as [_ ->]].
  apply modify_Ok in H as ->. cbn [producers update_field]. rewrite fmap_insert. apply insert_id.
  rewrite lookup_fmap, Hp. cbn [fmap option_fmap option_map]. f_equal. unfold restart_missed.
  by destruct (_ && _).
Qed.

Definition off_rotation s := (off_counters <$> producers s, effects s, gstate s, gschedule_metrics s).

Lemma restart_missed_off prods : keeps off_rotation (restart_missed_blocks_per_rotation prods).
Proof.
  intros s u s' H. pose proof (restart_missed_rows prods s u s' H) as Hrows. cbn in Hrows.
  assert (effects s' = effects s /\ gstate s' = gstate s /\ gschedule_metrics s' = gschedule_metrics s) as (He & Hg & Hm).
  { revert s u s' H Hrows. intros s u s' H _. split_and!; revert s u s' H;
      refine (_ : keeps _ (restart_missed_blocks_per_rotation prods));
      unfold restart_missed_blocks_per_rotation, find_row, set_producer; solve_respects. }
  unfold off_rotation. by rewrite Hrows, He, Hg, Hm.
Qed.

Lemma check_rotation_state_off prods t : keeps off_rotation (check_rotation_state prods t).
Proof.
  unfold check_rotation_state, rotation_iterators, set_bps_rotation, update_rotation_time.
  solve_respects_with ltac:(apply restart_missed_off).
Qed.

Lemma sort_by_location (l : list producer_location_pair) :
  Sorted (fun x y => location x <= location y) (sort_by (fun x y => location x <=? location y) l).
Proof.
  assert (Sorted (fun x y : producer_location_pair => Is_true (location x <=? location y))
    (sort_by (fun x y => location x <=? location y) l)) as Hs.
  { apply Sorted_merge_sort. intros x y.
    destruct (Z.le_ge_cases (location x) (location y)); [left|right]; by apply Is_true_true, Z.leb_le. }
  induction Hs as [|x l' Hs IH Hd]; constructor; [done|]. destruct Hd as [|y l' Hxy]; constructor.
  by apply Is_true_true, Z.leb_le in Hxy.
Qed.

(** The metrics of a new schedule: twelve blocks to produce each. *)
Definition fresh_metrics (schedule : list (name * block_signing_authority)) : list producer_metric :=
  map (fun x => Metric.mk x.1 12) schedule.

(** C12: An election proposes nothing when there is no candidate, or fewer than the last
    schedule has; otherwise exactly one schedule, of at most twenty-one candidates, in the
    order of their locations, signed for with their own keys. A candidate is active and
    has votes, and who has more votes than one is one too. A schedule the chain takes is
    recorded with its size and fresh counters. No row changes but for its counters. *)
Theorem schedule_is_elected t s u s' :
  rows_ok s -> update_elected_producers t s = Ok (u, s') ->
  (forall c, c ∈ candidates s -> exists p,
     producers s !! pname c = Some p /\ can_produce p = true /\ c = as_candidate p) /\
  (forall n p, producers s !! n = Some p -> can_produce p = true ->
     as_candidate p ∈ candidates s \/
     Z.of_nat (length (candidates s)) = MAX_PRODUCERS /\ forall c, c ∈ candidates s ->
       exists q, producers s !! pname c = Some q /\ dlt (Producer.total_votes q) (Producer.total_votes p) = false) /\
  off_counters <$> producers s' = off_counters <$> producers s /\
  let n := Z.of_nat (length (candidates s)) in
  if (n =? 0) || (n <? Global.last_producer_schedule_size (gstate s))
  then effects s' = effects s /\ gschedule_metrics s' = gschedule_metrics s
  else exists top version, effects s' = effects s ++ [ProposeSchedule (map fst top)] /\
    (forall c, c ∈ top -> c ∈ candidates s) /\ length top = Nat.min 21 (length (candidates s)) /\
    Sorted (fun l r => location l <= location r) top /\
    set_proposed_producers (map fst top) = Ok version /\
    if version is Some _
    then Schedule.producers_metric (gschedule_metrics s') = fresh_metrics (map fst top) /\
      Global.last_producer_schedule_size (gstate s') = Z.of_nat (length top)
    else gschedule_metrics s' = gschedule_metrics s /\
      Global.last_producer_schedule_size (gstate s') = Global.last_producer_schedule_size (gstate s).
Proof.
  intros Hok H. split; [by intros c; apply candidate_row|]. split; [by intros n p; apply candidates_lead|].
  unfold update_elected_producers in H. apply bind_Ok in H as (u1 & s1 & ->%modify_Ok & H).
  set (s1 := s <| gstate ::= fun g => g <| Global.last_producer_schedule_update := t |> |>) in *.
  apply bind_Ok in H as (rows & s2 & [-> ->]%gets_Ok & H).
  apply bind_Ok in H as (g & s2 & [-> ->]%gets_Ok & H). cbv zeta in H |- *.
  change (electable _ (producers_by_votes s1)) with (candidates s) in H.
  change (Global.last_producer_schedule_size (gstate s1)) with (Global.last_producer_schedule_size (gstate s)) in H.
  destruct (_ || _); [by apply ret_Ok in H as [_ ->]|].
  apply bind_Ok in H as (rotated & s2 & Hrot & H).
  pose proof (check_rotation_state_off _ _ _ _ _ Hrot) as Hoff. unfold off_rotation in Hoff. injection Hoff as Hrows Heff Hg Hm.
  apply bind_Ok in Hrot as ([a b] & s3 & _ & [-> _]%ret_Ok).
  set (top := sort_by _ _) in H.
  assert (top ≡ₚ Rotation.rotate (candidates s) a b) as Hperm by (unfold top, sort_by; apply merge_sort_Permutation).
  apply bind_Ok in H as (u2 & s4 & ->%modify_Ok & H). apply bind_Ok in H as (version & s5 & [Hver ->]%lift_Ok & H).
  assert (length top = Nat.min 21 (length (candidates s))) as Hlen by (by rewrite Hperm, rotate_length).
  assert (forall c, c ∈ top -> c ∈ candidates s) as Hin by (intros c; rewrite Hperm; apply rotate_members).
  assert (Sorted (fun l r => location l <= location r) top) as Hsorted by apply sort_by_location.
  destruct version as [v|].
  - apply modify_Ok in H as ->. split; [exact Hrows|]. exists top, (Some v). split_and!; try done.
    + cbn. by rewrite Heff.
    + cbn. unfold fresh_metrics. by rewrite map_map.
    + cbn. change (uwrap 16 (Z.of_nat (length top)) = Z.of_nat (length top)). apply uwrap_small. lia.
  - apply ret_Ok in H as [_ ->]. split; [exact Hrows|]. exists top, None. split_and!; try done.
    + cbn. by rewrite Heff.
    + cbn. by rewrite Hg.
Qed.
End election.

(** ** An example: three candidates, ordered by location; one has been kicked *)
Definition ex_elect_producer (n : name) (votes location : Z) (active : bool) : producer_info :=
  Producer.mk n (dint votes) n active "" "" 0 0 3 0 0 location 0 "" 0 0 0 None.
Definition ex_elect_sys : sys :=
  blank_sys <| producers := {[ 4 := ex_elect_producer 4 900 3 true; 5 := ex_elect_producer 5 500 2 true;
    6 := ex_elect_producer 6 700 1 true; 7 := ex_elect_producer 7 800 0 false; 8 := ex_elect_producer 8 0 0 true ]} |>.
Definition ex_elect_host : Host := {|
  set_proposed_producers _ := Ok (Some 2); get_active_producers := []; authority_is_valid _ := true;
  oracle_averages := []; tedp_payouts := []; token_ledger := token_init;
|}.

Lemma schedule_is_elected_witness :
  exists s' (top : list producer_location_pair),
    update_elected_producers (cdt := cdt_model) (host := ex_elect_host) 1500000000 ex_elect_sys = Ok (tt, s') /\
    effects s' = [ProposeSchedule (map fst top)] /\ length top = 3%nat /\
    Schedule.producers_metric (gschedule_metrics s') = [Metric.mk 6 12; Metric.mk 5 12; Metric.mk 4 12].
Proof.
  assert (rows_ok ex_elect_sys) as Hok.
  { intros n p Hn. cbn in Hn. repeat (apply lookup_insert_Some in Hn as [[<- <-]|[_ Hn]]; [split; reflexivity|]).
    apply lookup_singleton_Some in Hn as [<- <-]. split; reflexivity. }
  set (run := update_elected_producers (cdt := cdt_model) (host := ex_elect_host) 1500000000 ex_elect_sys).
  destruct run as [[[] s']|] eqn:Hrun; [|vm_compute in Hrun; discriminate].
  destruct (schedule_is_elected (cdt := cdt_model) (host := ex_elect_host) 1500000000 ex_elect_sys tt s' Hok Hrun)
    as (_ & _ & _ & Hprop).
  assert (length (candidates ex_elect_sys) = 3%nat) as Hthree by (vm_compute; reflexivity).
  rewrite Hthree in Hprop. cbn [Z.of_nat Z.eqb Z.ltb orb] in Hprop.
  destruct Hprop as (top & version & He & _ & Hlen & _). exists s', top.
  split; [reflexivity|]. split; [exact He|]. split; [exact Hlen|].
  assert (match run with Ok (_, s') => Schedule.producers_metric (gschedule_metrics s') | Err _ => [] end =
    [Metric.mk 6 12; Metric.mk 5 12; Metric.mk 4 12]) as Hm by (vm_compute; reflexivity).
  rewrite Hrun in Hm. exact Hm.
Defined.
