(* ===== verification/Voting.v ===== *)
(** * Voting actions (voting.cpp lines 315-366, 506-529, 624-656) *)
From S2P Require Import Prelude.
From S2P Require Import Cdt.
From S2P Require Import Float64.
From S2P Require Import SysState.
From S2P Require Import Votes.
From S2P Require Import RexPool.
From S2P Require Import Rex.
From stdpp Require Import base gmap strings list sorting.
Open Scope Z_scope.

Section voting.
Context `{cdt : Cdt} `{libm : Libm} (e : Env).

(** [vote_stake_updater] runs [update_rex_stake], the only function registered with it. *)
Definition voteproducer (voter_name proxy : name) (producers_ : list name) : M sys unit :=
  require_auth e voter_name ;;
  update_rex_stake voter_name ;;
  update_votes e voter_name proxy producers_ true.

(** The bandwidth an account delegates: the rows of [del_bandwidth_table] in its scope. *)
Definition delegated_by (from : name) (s : sys) : list delegated_bandwidth :=
  map snd (filter (fun r => r.1.1 = from) (map_to_list (delband s))).

Definition voteupdate (voter_name : name) : M sys unit :=
  itr ← find_row voters voter_name;
  check (is_found itr) "no voter found" ;;
  updaterex e voter_name ;;
  rex_itr ← find_row rexbalances voter_name;
  let from_rex := match rex_itr with
    | Some b => if 0 <? amount (RexBal.rex_bal b) then amount (RexBal.vote_stake b) else 0
    | None => 0 end in
  rows ← gets (delegated_by voter_name);
  let new_staked := fold_left (fun z d =>
    i64 (z + i64 (amount (Delband.net_weight d) + amount (Delband.cpu_weight d)))) rows from_rex in
  voter ← get_voter voter_name "no voter found";
  when (negb (Voter.staked voter =? new_staked)) (set_voter voter_name (voter <| Voter.staked := new_staked |>)) ;;
  update_votes e voter_name (Voter.proxy voter) (Voter.producers voter) true.

Definition regproxy (proxy : name) (isproxy : bool) : M sys unit :=
  check (negb isproxy) "proxy voting is disabled" ;;
  pitr ← find_row voters proxy;
  match pitr with
  | Some v =>
    check (negb (Bool.eqb isproxy (Voter.is_proxy v))) "action has no effect" ;;
    check (negb isproxy || (Voter.proxy v =? 0)) "account that uses a proxy is not allowed to become a proxy" ;;
    set_voter proxy (v <| Voter.is_proxy := isproxy |>) ;;
    update_votes e (Voter.owner v) (Voter.proxy v) (Voter.producers v) true
  | None => set_voter proxy ((new_voter proxy) <| Voter.is_proxy := isproxy |>)
  end.

(** [-0.1], the threshold of [recalculate_votes]. *)
Definition reset_threshold : double := dneg (dlit 1 10).

Definition reset_vote (v : voter_info) : voter_info :=
  v <| Voter.last_vote_weight := dzero |> <| Voter.last_stake := 0 |> <| Voter.proxied_vote_weight := dzero |>.

(** One voter of the loop; [done_] is [processed_proxies]. The iterator of the source
    stays on its row while other rows change, so the row is read anew. *)
Definition recalculate_one (done_ : gset name) (n : name) : M sys (gset name) :=
  voter ← get_voter n "unable to find key";
  done1 ← (if negb (Voter.proxy voter =? 0) && negb (bool_decide (Voter.proxy voter ∈ done_)) then
      p ← get_voter (Voter.proxy voter) "cannot pass end iterator to modify";
      set_voter (Voter.proxy voter) (reset_vote p) ;;
      mret ({[ Voter.proxy voter ]} ∪ done_)
    else mret done_);
  voter' ← get_voter n "unable to find key";
  done2 ← (if negb (Voter.is_proxy voter') || negb (bool_decide (Voter.owner voter' ∈ done1)) then
      set_voter n (reset_vote voter') ;;
      mret ({[ Voter.owner voter' ]} ∪ done1)
    else mret done1);
  update_votes e (Voter.owner voter') (Voter.proxy voter') (Voter.producers voter') true ;;
  mret done2.

Definition recalculate_votes : M sys unit :=
  g ← gets gstate;
  when (dle (Global.total_producer_vote_weight g) reset_threshold)
    (modify (fun s => s
       <| gstate ::= fun g => g <| Global.total_producer_vote_weight := dzero |> <| Global.total_activated_stake := 0 |> |>
       <| producers ::= fmap (fun p => p <| Producer.total_votes := dzero |>) |>) ;;
     names ← gets (fun s => map fst (table_rows (voters s)));
     fold_each recalculate_one ∅ names ;; mret tt).
End voting.
