(* ===== verification/BlockInfo.v ===== *)
(** * The window of recent blocks (block_info.cpp, block_info.hpp)

    [onblock] records each block; records older than the window are erased, at most two
    per block. Other contracts find the last batch of blocks in the table. *)
From S2P Require Import Prelude.
From S2P Require Import Cdt.
From S2P Require Import SysState.
From stdpp Require Import base gmap strings list sorting.
Open Scope Z_scope.

Definition rolling_window_size : Z := 10.

(** The height is in the first four bytes of the id, big endian. *)
Definition block_height_from_id (id : list Z) : Z :=
  u32 (Z.lor (Z.lor (Z.lor (Z.shiftl (nth 0 id 0) 24) (Z.shiftl (nth 1 id 0) 16))
               (Z.shiftl (nth 2 id 0) 8)) (nth 3 id 0)).

(** The erasing loop: the first [count] rows at or below the height. *)
Fixpoint prunable (count : nat) (last_prunable : Z) (rows : list (Z * block_info_record)) : list Z :=
  match count, rows with
  | S count', (k, r) :: rows' =>
    if BlockInfo.block_height r <=? last_prunable then k :: prunable count' last_prunable rows' else []
  | _, _ => []
  end.

Definition erase_keys (ks : list Z) (t : gmap Z block_info_record) : gmap Z block_info_record :=
  foldr delete t ks.

(** The new table: the record added, then up to two pruned. *)
Definition record_block (height us : Z) (t : gmap Z block_info_record) : gmap Z block_info_record :=
  let t1 := <[height := BlockInfo.mk 0 height us]> t in
  let last_prunable := Z.max height rolling_window_size - rolling_window_size in
  erase_keys (prunable 2 last_prunable (table_rows t1)) t1.

Section block_info.
Context `{cdt : Cdt}.

Definition add_to_blockinfo_table (previous_block_id : list Z) (timestamp : Z) : M sys unit :=
  let new_block_height := u32 (block_height_from_id previous_block_id + 1) in
  itr ← find_row blockinfo new_block_height;
  check (negb (is_found itr)) "could not insert object, most likely a uniqueness constraint was violated" ;;
  modify (fun s => s <| blockinfo ::= record_block new_block_height (us_of_slot timestamp) |>).
End block_info.

Record block_batch_info := Batch {
  batch_start_height : Z;
  batch_start_timestamp : Z;
  batch_current_end_height : Z;
  batch_current_end_timestamp : Z;
}.
Inductive batch_error := invalid_input | unsupported_version | insufficient_data.

Definition get_latest_block_batch_info (offset batch_size : Z) (t : gmap Z block_info_record)
  : block_batch_info + batch_error :=
  if batch_size =? 0 then inr invalid_input
  else
    match last (table_rows t) with
    | None => inr insufficient_data
    | Some (_, latest) =>
      if negb (BlockInfo.version latest =? 0) then inr unsupported_version
      else
        let end_height := BlockInfo.block_height latest in
        if end_height <? offset then inr insufficient_data
        else
          let start_height := u32 (end_height - u32 (end_height - offset) mod batch_size) in
          if start_height =? end_height then
            inl (Batch start_height (BlockInfo.block_timestamp latest) end_height (BlockInfo.block_timestamp latest))
          else
            match t !! start_height with
            | None => inr insufficient_data
            | Some start =>
              if negb (BlockInfo.block_height start =? start_height) then inr insufficient_data
              else if negb (BlockInfo.version start =? 0) then inr unsupported_version
              else inl (Batch start_height (BlockInfo.block_timestamp start) end_height
                          (BlockInfo.block_timestamp latest))
            end
    end.

(** ** The window and the log of all blocks

    A block of the log is its height and its time; the table keeps the last blocks of the
    log and may have lost only such as have fallen out of the window. *)
Definition row_of (b : Z * Z) : Z * block_info_record := (b.1, BlockInfo.mk 0 b.1 b.2).
Definition below (a b : Z * Z) : Prop := a.1 < b.1.
Definition log_ok (log : list (Z * Z)) : Prop :=
  StronglySorted below log /\ Forall (fun b => 0 < b.1 < 2 ^ 32) log.
Definition fallen_out (log : list (Z * Z)) (b : Z * Z) : Prop :=
  exists l, last log = Some l /\ b.1 <= l.1 - rolling_window_size.
Definition recorded (log : list (Z * Z)) (t : gmap Z block_info_record) : Prop :=
  exists old kept, log = old ++ kept /\ table_rows t = map row_of kept /\
    Z.of_nat (length kept) <= rolling_window_size /\ Forall (fallen_out log) old.

(** What the log itself answers: the batch that contains the last block starts at the
    last height not above it that is a multiple of [size] away from [offset]. *)
Definition batch_in (log : list (Z * Z)) (offset size : Z) : block_batch_info + batch_error :=
  if size =? 0 then inr invalid_input
  else match last log with
  | None => inr insufficient_data
  | Some latest =>
    if latest.1 <? offset then inr insufficient_data
    else match find (fun b => b.1 =? latest.1 - (latest.1 - offset) mod size) log with
    | Some start => inl (Batch start.1 start.2 latest.1 latest.2)
    | None => inr insufficient_data
    end
  end.

#[local] Instance below_trans : Transitive below.
Proof. intros x y z. unfold below. lia. Qed.

Lemma rows_of_sorted l : StronglySorted below l ->
  StronglySorted (fun x y : Z * block_info_record => x.1 < y.1) (map row_of l).
Proof.
  induction 1 as [|b l Hl IH Hb]; [constructor|]. cbn. constructor; [done|].
  apply Forall_map. eapply Forall_impl; [exact Hb|]. by intros x Hx.
Qed.

Lemma table_rows_nodup {V} (t : gmap Z V) : NoDup (table_rows t).*1.
Proof. unfold table_rows. rewrite index_rows_perm. apply NoDup_fst_map_to_list. Qed.

Lemma table_rows_strict {V} (t : gmap Z V) : StronglySorted (fun x y => x.1 < y.1) (table_rows t).
Proof.
  pose proof (table_rows_nodup t) as Hnd. pose proof (index_rows_sorted (fun _ : V => 0) t) as Hs.
  apply Sorted_StronglySorted in Hs; [|apply _]. unfold table_rows in *.
  induction Hs as [|x l Hl IH Hx]; [constructor|]. cbn in Hnd. apply NoDup_cons in Hnd as [Hn Hnd].
  constructor; [by apply IH|]. rewrite Forall_forall in Hx |- *. intros y Hy. destruct (Hx y Hy) as [?|[_ Hle]]; [lia|].
  assert (x.1 <> y.1) as ?; [|lia]. intros Heq. apply Hn. rewrite Heq. by apply list_elem_of_fmap_2.
Qed.

(** The rows of a table are the one sorted list of its rows. *)
Lemma table_rows_eq t l : StronglySorted below l -> (forall k r, t !! k = Some r <-> (k, r) ∈ map row_of l) ->
  table_rows t = map row_of l.
Proof.
  intros Hl Ht. apply (StronglySorted_unique_strong (fun x y : Z * block_info_record => x.1 < y.1)).
  - intros x y _ _ ? ?. lia.
  - apply table_rows_strict.
  - by apply rows_of_sorted.
  - apply NoDup_Permutation.
    + apply (NoDup_fmap_1 fst), table_rows_nodup.
    + clear Ht. induction Hl as [|b l Hl IH Hb]; [constructor|]. cbn. constructor; [|done].
      intros (c & Hc & Hin)%list_elem_of_fmap. rewrite Forall_forall in Hb. specialize (Hb c Hin).
      injection Hc as Hc _. unfold below in Hb. lia.
    + intros [k r]. rewrite <- Ht. apply elem_of_index_rows.
Qed.

Lemma table_rows_lookup t l k r : table_rows t = map row_of l -> t !! k = Some r <-> (k, r) ∈ map row_of l.
Proof. intros <-. symmetry. apply elem_of_index_rows. Qed.

Lemma log_row l k r : (k, r) ∈ map row_of l <-> r = BlockInfo.mk 0 k (BlockInfo.block_timestamp r) /\
  (k, BlockInfo.block_timestamp r) ∈ l.
Proof.
  rewrite list_elem_of_fmap. split.
  - intros ([k' t] & [= -> ->] & Hin). done.
  - intros [-> Hin]. eexists. split; [|exact Hin]. done.
Qed.

Lemma sorted_snoc l b : StronglySorted below l -> Forall (fun x => x.1 < b.1) l -> StronglySorted below (l ++ [b]).
Proof.
  induction 1 as [|x l Hl IH Hx]; intros Hb; cbn; [repeat constructor|].
  apply Forall_cons in Hb as [Hxb Hb]. constructor; [by apply IH|]. apply Forall_app. by repeat constructor.
Qed.

Lemma insert_rows t l b : StronglySorted below l -> Forall (fun x => x.1 < b.1) l ->
  table_rows t = map row_of l -> table_rows (<[b.1 := BlockInfo.mk 0 b.1 b.2]> t) = map row_of (l ++ [b]).
Proof.
  intros Hl Hb Ht. apply table_rows_eq; [by apply sorted_snoc|]. intros k r.
  rewrite map_app, elem_of_app, <- (table_rows_lookup t l) by done. destruct (decide (k = b.1)) as [->|Hne].
  - rewrite lookup_insert_eq. split; [intros [= <-]; right; by constructor|]. intros [Hr|Hr].
    + apply (table_rows_lookup t l) in Hr; [|done]. apply log_row in Hr as [_ Hr].
      rewrite Forall_forall in Hb. specialize (Hb _ Hr). cbn in Hb. lia.
    + apply list_elem_of_singleton in Hr. by injection Hr as ->.
  - rewrite lookup_insert_ne by done. split; [by left|]. intros [?|Hr]; [done|].
    apply list_elem_of_singleton in Hr. by injection Hr.
Qed.

(** The pruning loop takes the first rows that are old enough, [n] at most. *)
Lemma prunable_prefix n lp l : exists j, (j <= n)%nat /\ prunable n lp (map row_of l) = map fst (take j l) /\
  Forall (fun b => b.1 <= lp) (take j l) /\ ((0 < n)%nat -> forall b l', l = b :: l' -> b.1 <= lp -> (0 < j)%nat).
Proof.
  revert l. induction n as [|n IH]; intros l; [exists 0%nat; split_and!; [lia|done|constructor|lia]|].
  destruct l as [|b l]; [exists 0%nat; split_and!; [lia|done|constructor|intros _ ? ? [=]]|].
  cbn. destruct (Z.leb_spec b.1 lp) as [Hb|Hb].
  - destruct (IH l) as (j & Hj & Hp & Hall & _). exists (S j). cbn. rewrite Hp. split_and!; [lia|done|by constructor|lia].
  - exists 0%nat. split_and!; [lia|done|constructor|]. intros _ ? ? [= <- <-]. lia.
Qed.

Lemma erase_lookup ks t k : erase_keys ks t !! k = if bool_decide (k ∈ ks) then None else t !! k.
Proof.
  induction ks as [|x ks IH]; [done|]. change (erase_keys (x :: ks) t) with (delete x (erase_keys ks t)).
  destruct (decide (k = x)) as [->|Hne].
  - rewrite lookup_delete_eq, bool_decide_true by constructor. done.
  - rewrite lookup_delete_ne, IH by done. rewrite (bool_decide_ext (k ∈ x :: ks) (k ∈ ks)); [done|].
    rewrite elem_of_cons. naive_solver.
Qed.

Lemma erase_rows j t l : StronglySorted below l -> table_rows t = map row_of l ->
  table_rows (erase_keys (map fst (take j l)) t) = map row_of (drop j l).
Proof.
  intros Hl Ht. pose proof Hl as Hsplit. rewrite <- (take_drop j l) in Hsplit.
  assert (StronglySorted below (drop j l)) as Hd by by eapply StronglySorted_app_1_r.
  apply table_rows_eq; [done|]. intros k r. rewrite erase_lookup.
  assert (forall b c, b ∈ take j l -> c ∈ drop j l -> b.1 < c.1) as Hlt.
  { intros b c Hb Hc. by apply (StronglySorted_app_1_elem_of below (take j l) (drop j l)). }
  case_bool_decide as Hk.
  - split; [done|]. intros [_ Hr]%log_row. apply list_elem_of_fmap in Hk as (b & Hk & Hb).
    specialize (Hlt b _ Hb Hr). cbn in Hlt. lia.
  - rewrite (table_rows_lookup t l) by done. rewrite !log_row. rewrite <- (take_drop j l) at 1. rewrite elem_of_app.
    split; [|naive_solver]. intros [? [Hin|?]]; [|done]. destruct Hk. by apply (list_elem_of_fmap_2 fst) in Hin.
Qed.

Lemma heights_spread b0 l b : StronglySorted below (b0 :: l ++ [b]) -> b0.1 + Z.of_nat (length l) < b.1.
Proof.
  revert b0. induction l as [|c l IH]; intros b0 Hs; inversion Hs as [|?? Hs' Hall]; subst.
  - apply Forall_cons in Hall as [Hb _]. unfold below in Hb. cbn. lia.
  - apply Forall_cons in Hall as [Hc _]. specialize (IH c Hs'). unfold below in Hc. cbn [length]. lia.
Qed.

Lemma log_ok_snoc log b : log_ok (log ++ [b]) -> log_ok log /\ Forall (fun x => x.1 < b.1) log /\ 0 < b.1 < 2 ^ 32.
Proof.
  intros [Hs [Hr Hb]%Forall_app]. apply Forall_cons in Hb as [Hb _]. split_and!; [|by apply Forall_forall; intros x Hx;
    apply (StronglySorted_app_1_elem_of below log [b] x b Hs Hx); constructor|lia|lia].
  split; [by eapply StronglySorted_app_1_l|done].
Qed.

Lemma record_block_recorded log t b : log_ok (log ++ [b]) -> recorded log t ->
  t !! b.1 = None /\ recorded (log ++ [b]) (record_block b.1 b.2 t).
Proof.
  intros Hlog (old & kept & -> & Ht & Hlen & Hold).
  destruct (log_ok_snoc _ _ Hlog) as (_ & Hbelow & Hb). destruct Hlog as [Hs Hpos].
  assert (last ((old ++ kept) ++ [b]) = Some b) as Hlast by apply last_snoc.
  rewrite <- app_assoc in Hs, Hpos.
  assert (StronglySorted below (kept ++ [b])) as Hl by by eapply StronglySorted_app_1_r.
  assert (StronglySorted below kept) as Hk by by eapply StronglySorted_app_1_l.
  apply Forall_app in Hbelow as [Hbo Hbk]. split.
  { apply eq_None_not_Some. intros [r Hr]. apply (table_rows_lookup t kept) in Hr; [|done].
    apply log_row in Hr as [_ Hr]. rewrite Forall_forall in Hbk. specialize (Hbk _ Hr). cbn in Hbk. lia. }
  pose proof (insert_rows t kept b Hk Hbk Ht) as Ht1. unfold record_block.
  set (t1 := <[b.1 := BlockInfo.mk 0 b.1 b.2]> t) in *. set (lp := Z.max b.1 rolling_window_size - rolling_window_size).
  rewrite Ht1. destruct (prunable_prefix 2 lp (kept ++ [b])) as (j & Hj & -> & Htake & Hfirst).
  exists (old ++ take j (kept ++ [b])), (drop j (kept ++ [b])). split_and!.
  - by rewrite <- !app_assoc, take_drop.
  - by apply erase_rows.
  - rewrite length_drop, length_app. cbn [length].
    destruct (decide (Z.of_nat (length kept) < rolling_window_size)); [lia|].
    destruct kept as [|b0 kept]; [cbn in *; unfold rolling_window_size in *; lia|].
    apply heights_spread in Hl. cbn [length] in *. unfold rolling_window_size in *.
    assert (0 < j)%nat; [|lia]. apply (Hfirst ltac:(lia) b0 (kept ++ [b]) eq_refl). unfold lp. lia.
  - apply Forall_app. split.
    + eapply Forall_impl; [exact Hold|]. intros x (l & Hll & Hx). exists b. split; [done|]. enough (l.1 <= b.1) by lia.
      apply last_Some_elem_of in Hll. apply elem_of_app in Hll as [Hin|Hin];
        [rewrite Forall_forall in Hbo; specialize (Hbo _ Hin)|rewrite Forall_forall in Hbk; specialize (Hbk _ Hin)]; cbn in *; lia.
    + apply Forall_forall. intros x Hx. exists b. split; [done|]. rewrite Forall_forall in Htake. specialize (Htake x Hx).
      cbn in Htake. assert (0 < x.1).
      { apply Forall_app in Hpos as [_ Hpos]. rewrite Forall_forall in Hpos. apply elem_of_take in Hx as (i & Hi & _).
        apply list_elem_of_lookup_2 in Hi. specialize (Hpos x Hi). cbn in Hpos. lia. }
      unfold lp, rolling_window_size in *. lia.
Qed.

Lemma log_unique log x y : StronglySorted below log -> x ∈ log -> y ∈ log -> x.1 = y.1 -> x = y.
Proof.
  intros Hs Hx Hy Heq. induction Hs as [|b l Hl IH Hb]; [by apply elem_of_nil in Hx|].
  rewrite Forall_forall in Hb. unfold below in Hb.
  apply elem_of_cons in Hx as [->|Hx], Hy as [->|Hy]; [done|specialize (Hb _ Hy); lia|specialize (Hb _ Hx); lia|auto].
Qed.

Lemma find_height log h tm : StronglySorted below log -> (h, tm) ∈ log -> find (fun b => b.1 =? h) log = Some (h, tm).
Proof.
  intros Hs Hin. destruct (find _ log) as [b|] eqn:Hf.
  - apply find_some in Hf as [Hb Heq%Z.eqb_eq]. f_equal. apply (log_unique log); [done| |done|done]. by apply list_elem_of_In.
  - exfalso. pose proof (find_none _ _ Hf (h, tm) (proj1 (list_elem_of_In _ _) Hin)) as Hne%Z.eqb_neq. done.
Qed.

Lemma recorded_last log t : recorded log t ->
  last (table_rows t) = row_of <$> last log.
Proof.
  intros (old & kept & -> & -> & _ & Hold). change (last (row_of <$> kept) = row_of <$> last (old ++ kept)).
  rewrite fmap_last, last_app. f_equal.
  destruct (last kept) as [l|] eqn:Hk; [done|]. apply last_None in Hk as ->. rewrite app_nil_r in Hold.
  destruct (last old) as [l|] eqn:Ho; [|done]. pose proof Ho as Hin%last_Some_elem_of. rewrite Forall_forall in Hold.
  destruct (Hold l Hin) as (l' & Hl' & Hle). rewrite Ho in Hl'. injection Hl' as ->. unfold rolling_window_size in Hle. lia.
Qed.

Lemma batch_answers log t offset size : log_ok log -> recorded log t -> in_u32 offset -> in_u32 size ->
  get_latest_block_batch_info offset size t = batch_in log offset size \/
  rolling_window_size < size /\ get_latest_block_batch_info offset size t = inr insufficient_data.
Proof.
  intros [Hs Hpos] Hrec Hoff Hsize. unfold get_latest_block_batch_info, batch_in.
  destruct (Z.eqb_spec size 0) as [|Hsize0]; [by left|]. rewrite (recorded_last log t) by done.
  destruct (last log) as [[h tm]|] eqn:Hlast; [|by left]. cbn [fmap option_fmap option_map row_of fst snd].
  cbn [BlockInfo.version BlockInfo.block_height BlockInfo.block_timestamp Z.eqb negb].
  destruct (Z.ltb_spec h offset) as [|Hge]; [by left|].
  pose proof Hlast as Hin%last_Some_elem_of. rewrite Forall_forall in Hpos. pose proof (Hpos _ Hin) as Hh. cbn in Hh.
  unfold in_u32 in *. pose proof (Z.mod_pos_bound (h - offset) size ltac:(lia)) as Hmod.
  assert ((h - offset) mod size <= h - offset) as Hle by (apply Z.mod_le; lia).
  rewrite (u32_small (h - offset)) by (unfold in_u32; lia). rewrite u32_small by (unfold in_u32; lia).
  set (start := h - (h - offset) mod size) in *.
  destruct (Z.eqb_spec start h) as [Heq|Hne].
  { left. rewrite Heq. by rewrite (find_height log h tm). }
  destruct Hrec as (old & kept & -> & Ht & _ & Hold).
  destruct (t !! start) as [r|] eqn:Hr.
  - left. apply (table_rows_lookup t kept) in Hr; [|done]. apply log_row in Hr as [-> Hr].
    rewrite (find_height _ start (BlockInfo.block_timestamp r)) by (done || (apply elem_of_app; by right)).
    cbn. by rewrite Z.eqb_refl.
  - destruct (find _ (old ++ kept)) as [[h0 t0]|] eqn:Hf; [|by left].
    apply find_some in Hf as [Hf Heq%Z.eqb_eq]. cbn in Heq. subst h0. apply list_elem_of_In, elem_of_app in Hf as [Hf|Hf].
    + right. split; [|done]. rewrite Forall_forall in Hold. destruct (Hold _ Hf) as (l & Hl & Hfar).
      rewrite Hlast in Hl. injection Hl as <-. cbn in Hfar. lia.
    + exfalso. assert (t !! start = Some (BlockInfo.mk 0 start t0)) as Hs0; [|congruence].
      apply (table_rows_lookup t kept); [done|]. apply log_row. done.
Qed.

(** ** Recording blocks *)
Section recording.
Context `{cdt : Cdt}.

(** The block [onblock] records: one after the previous block, at the time of the header. *)
Definition block_of (b : list Z * Z) : Z * Z := (u32 (block_height_from_id b.1 + 1), us_of_slot b.2).
Definition record_blocks (blocks : list (list Z * Z)) : M sys unit :=
  for_each (fun b => add_to_blockinfo_table b.1 b.2) blocks.

Lemma record_blocks_run blocks : forall log s, log_ok (log ++ map block_of blocks) -> recorded log (blockinfo s) ->
  exists t, record_blocks blocks s = Ok (tt, s <| blockinfo := t |>) /\ recorded (log ++ map block_of blocks) t.
Proof.
  induction blocks as [|b blocks IH]; intros log s Hlog Hrec.
  - exists (blockinfo s). rewrite app_nil_r. split; [by destruct s|done].
  - cbn [map] in *. rewrite cons_middle, app_assoc in Hlog |- *.
    assert (log_ok (log ++ [block_of b])) as Hlog1.
    { destruct Hlog as [Hs [Hp _]%Forall_app]. split; [by eapply StronglySorted_app_1_l|done]. }
    destruct (record_block_recorded log (blockinfo s) (block_of b) Hlog1 Hrec) as [Hnew Hrec1].
    set (s1 := s <| blockinfo ::= record_block (block_of b).1 (block_of b).2 |>).
    destruct (IH (log ++ [block_of b]) s1 Hlog Hrec1) as (t & Hrun & Ht). exists t. split; [|done].
    unfold record_blocks. cbn [for_each]. rewrite (bind_run_Ok _ _ _ tt s1); [exact Hrun|].
    unfold add_to_blockinfo_table, find_row. mok. cbn [block_of fst] in Hnew. by rewrite Hnew.
Qed.

(** C28: While heights rise, every block is recorded, whatever blocks are missing in
    between; the table keeps at most the last ten and never drops one less than ten below
    the newest. So for batches of up to ten blocks the table gives the answer the log of
    all blocks would give, and for longer ones that answer or none; the batch it names
    holds the newest block, starts at a recorded block a multiple of the size from the
    offset, and is no longer than the size. *)
Theorem window_answers_for_log blocks s : blockinfo s = ∅ -> log_ok (map block_of blocks) ->
  exists t, record_blocks blocks s = Ok (tt, s <| blockinfo := t |>) /\
    let log := map block_of blocks in
    recorded log t /\
    forall offset size, in_u32 offset -> in_u32 size ->
      (get_latest_block_batch_info offset size t = batch_in log offset size \/
       rolling_window_size < size /\ get_latest_block_batch_info offset size t = inr insufficient_data) /\
      forall b, get_latest_block_batch_info offset size t = inl b ->
        last log = Some (batch_current_end_height b, batch_current_end_timestamp b) /\
        (batch_start_height b, batch_start_timestamp b) ∈ log /\
        offset <= batch_start_height b <= batch_current_end_height b /\
        batch_current_end_height b < batch_start_height b + size /\
        (batch_start_height b - offset) mod size = 0.
Proof.
  intros Hempty Hlog. destruct (record_blocks_run blocks [] s Hlog) as (t & Hrun & Hrec).
  { exists [], []. rewrite Hempty. split_and!; [done|done|done|constructor]. }
  exists t. split; [done|]. split; [done|]. intros offset size Hoff Hsize.
  pose proof (batch_answers _ t offset size Hlog Hrec Hoff Hsize) as Hans. split; [done|].
  intros b Hb. destruct Hans as [Heq|[_ Heq]]; [|congruence]. rewrite Heq in Hb. unfold batch_in in Hb.
  destruct (Z.eqb_spec size 0); [done|]. destruct (last _) as [[h tm]|] eqn:Hlast; [|done]. cbn in Hb.
  destruct (Z.ltb_spec h offset); [done|]. destruct (find _ _) as [[h0 t0]|] eqn:Hf; [|done].
  apply find_some in Hf as [Hf%list_elem_of_In Hh0%Z.eqb_eq]. cbn in Hh0. injection Hb as <-. cbn.
  unfold in_u32 in *. pose proof (Z.mod_pos_bound (h - offset) size ltac:(lia)) as Hmod.
  assert ((h - offset) mod size <= h - offset) as Hle by (apply Z.mod_le; lia).
  split_and!; [done|done|lia|lia|lia|]. rewrite Hh0.
  replace (h - (h - offset) mod size - offset) with (size * ((h - offset) / size)) by (pose proof (Z.div_mod (h - offset) size); lia).
  rewrite Z.mul_comm. apply Z.mod_mul. lia.
Qed.
End recording.

(** ** An example: fourteen blocks, with three missing *)
Definition ex_id (h : Z) : list Z := [0; 0; h / 256; h mod 256] ++ repeat 7 28.
Definition ex_blocks : list (list Z * Z) :=
  map (fun h => (ex_id (h - 1), 2 * h)) [250; 251; 252; 253; 255; 256; 257; 260; 261; 262; 263].

Lemma window_answers_for_log_witness :
  let s := blank_sys in
  exists t, record_blocks (cdt := cdt_model) ex_blocks s = Ok (tt, s <| blockinfo := t |>) /\
    map fst (table_rows t) = [255; 256; 257; 260; 261; 262; 263] /\
    recorded (map (block_of (cdt := cdt_model)) ex_blocks) t.
Proof.
  set (s := blank_sys).
  destruct (window_answers_for_log (cdt := cdt_model) ex_blocks s) as (t & Hrun & Hrec & _).
  - reflexivity.
  - split; [repeat constructor|repeat constructor; cbn; lia].
  - exists t. split; [exact Hrun|]. split; [|exact Hrec].
    assert (map fst (table_rows (blockinfo match record_blocks (cdt := cdt_model) ex_blocks s with Ok (_, s') => s' | Err _ => s end)) =
      [255; 256; 257; 260; 261; 262; 263]) as Hrows by (vm_compute; reflexivity).
    rewrite Hrun in Hrows. exact Hrows.
Defined.
