(* ===== verification/NameBid.v ===== *)
(** * Account names: auctions and new accounts (name_bidding.cpp, eosio.system.cpp lines 471-533)

    Short names are auctioned: the tokens of the highest bid are held by [eosio.names],
    an outbid bidder is owed a refund. Once a day the highest auction may close, and its
    winner may create the account. *)
From S2P Require Import Prelude.
From S2P Require Import Cdt.
From S2P Require Import Float64.
From S2P Require Import SysState.
From stdpp Require Import base gmap strings list.
Open Scope Z_scope.

(** Some of the first twelve five-bit characters is a dot. *)
Fixpoint has_dot (chars : nat) (tmp : Z) : bool :=
  match chars with
  | O => false
  | S n => (Z.land tmp 31 =? 0) || has_dot n (Z.shiftr tmp 5)
  end.

(** The key of the [highbid] index. *)
Definition by_high_bid (b : name_bid) : Z := u64 (- Bid.high_bid b).

Section names.
Context `{cdt : Cdt} (e : Env) (sha256 : list Z -> Z).

Definition bid_row (newname bidder : name) (amt : Z) : name_bid := Bid.mk newname bidder amt (now_us e).

Definition bidname (bidder newname : name) (bid : asset) : M sys unit :=
  require_auth e bidder ;;
  check (name_suffix newname =? newname) "you can only bid on top-level suffix" ;;
  check (negb (newname =? 0)) "the empty name is not a valid account name to bid on" ;;
  check (Z.land newname 15 =? 0) "13 character names are not valid account names to bid on" ;;
  check (Z.land newname 496 =? 0)
    "accounts with 12 character names and no dots can be created without bidding required" ;;
  check (negb (is_account e newname)) "account already exists" ;;
  core ← core_symbol;
  check (symbol_eqb (asset_symbol bid) core) "asset must be system token" ;;
  check (0 <? amount bid) "insufficient bid" ;;
  token_transfer [active_of bidder] bidder names_account bid ("bid name " ++ name_to_string newname) ;;
  current ← find_row namebids newname;
  match current with
  | None => modify (fun s => s <| namebids ::= insert newname (bid_row newname bidder (amount bid)) |>)
  | Some b =>
    check (0 <? Bid.high_bid b) "this auction has already closed" ;;
    check (Z.quot (Bid.high_bid b) 10 <? i64 (amount bid - Bid.high_bid b)) "must increase bid by 10%" ;;
    check (negb (Bid.high_bidder b =? bidder)) "account is already highest bidder" ;;
    it ← find_row bidrefunds (newname, Bid.high_bidder b);
    back ← lift (make_asset (Bid.high_bid b) core);
    owed ← match it with
      | Some r => lift (asset_plus r back)
      | None => mret back
      end;
    modify (fun s => s <| bidrefunds ::= insert (newname, Bid.high_bidder b) owed |>) ;;
    let deferred_id := Z.lor (Z.shiftl newname 64) (Bid.high_bidder b) in
    send (CancelDeferred deferred_id) ;;
    send (SendDeferred deferred_id bidder 0 (DeferredBidRefund (Bid.high_bidder b) newname)) ;;
    modify (fun s => s <| namebids ::= insert newname
      (b <| Bid.high_bidder := bidder |> <| Bid.high_bid := amount bid |> <| Bid.last_bid_time := now_us e |>) |>)
  end.

Definition bidrefund (bidder newname : name) : M sys unit :=
  it ← find_row bidrefunds (newname, bidder);
  r ← require_found it "refund not found";
  token_transfer [active_of names_account; active_of bidder] names_account bidder r
    ("refund bid on name " ++ name_to_string newname) ;;
  modify (fun s => s <| bidrefunds ::= delete (newname, bidder) |>).

(** The check of a new account's name. *)
Definition check_new_name (creator new_account_name : name) : M sys unit :=
  if has_dot 12 (Z.shiftr new_account_name 4) then
    let suffix := name_suffix new_account_name in
    if suffix =? new_account_name then
      itr ← find_row namebids new_account_name;
      current ← require_found itr "no active bid for name";
      check (Bid.high_bidder current =? creator) "only highest bidder can claim" ;;
      check (Bid.high_bid current <? 0) "auction for name is not closed yet" ;;
      modify (fun s => s <| namebids ::= delete new_account_name |>)
    else check (creator =? suffix) "only suffix may create this account"
  else mret tt.

Definition newaccount (creator new_account_name : name) : M sys unit :=
  when (negb (creator =? self e)) (check_new_name creator new_account_name) ;;
  core ← get_core_symbol;
  zero ← lift (make_asset 0 core);
  itr ← find_row userres new_account_name;
  check (negb (is_found itr)) "could not insert object, most likely a uniqueness constraint was violated" ;;
  modify (fun s => s <| userres ::= insert new_account_name (UserRes.mk new_account_name zero zero 0) |>) ;;
  set_resource_limits new_account_name 0 0 0.

Definition setabi (acnt : name) (abi : list Z) : M sys unit :=
  modify (fun s => s <| abihash ::= insert acnt (sha256 abi) |>).
End names.

(** ** Who may create an account *)
Section new_names.
Context `{cdt : Cdt} `{!CdtLaws cdt} (e : Env).
Implicit Types s : sys.

Definition needs_auction (creator n : name) : bool :=
  negb (creator =? self e) && has_dot 12 (Z.shiftr n 4) && (name_suffix n =? n).

(** The creator's right to the name. *)
Definition may_create (creator n : name) (s : sys) : Prop :=
  creator = self e \/ has_dot 12 (Z.shiftr n 4) = false \/
  (name_suffix n <> n /\ creator = name_suffix n) \/
  (name_suffix n = n /\ exists b, namebids s !! n = Some b /\ Bid.high_bidder b = creator /\ Bid.high_bid b < 0).

Definition after_name_check (creator n : name) (s : sys) : sys :=
  if needs_auction creator n then s <| namebids ::= delete n |> else s.

Lemma check_new_name_Ok creator n s u s' :
  when (negb (creator =? self e)) (check_new_name creator n) s = Ok (u, s') <->
  may_create creator n s /\ s' = after_name_check creator n s.
Proof.
  unfold may_create, after_name_check, needs_auction. rewrite when_Ok.
  destruct (Z.eqb_spec creator (self e)) as [Hs|Hs]; cbn [negb andb];
    [split; [intros ->; auto|by intros [_ ->]]|]. unfold check_new_name.
  destruct (has_dot 12 (Z.shiftr n 4)); cbn [negb andb]; [|rewrite ret_Ok; destruct u; split; (intros [_ ->]; auto)].
  destruct (Z.eqb_spec (name_suffix n) n) as [Hx|Hx].
  - split.
    + intros H. unfold find_row in H. apply bind_Ok in H as (it & ? & [-> ->]%gets_Ok & H).
      apply bind_Ok in H as (b & ? & [Hb ->]%require_found_Ok & H).
      apply bind_Ok in H as ([] & ? & [He%Z.eqb_eq ->]%check_Ok & H).
      apply bind_Ok in H as ([] & ? & [Hlt%Z.ltb_lt ->]%check_Ok & ->%modify_Ok).
      split; [|done]. right. right. right. split; [done|]. by exists b.
    + intros [[?|[?|[[? ?]|(_ & b & Hb & <- & Hneg)]]] ->]; [done..|]. destruct u. unfold find_row.
      mok; [exact Hb|by apply Z.eqb_eq|by apply Z.ltb_lt].
  - rewrite check_Ok, Z.eqb_eq. split; [intros [-> ->]; split; [right; right; left; by split|done]|]. by intros [[?|[?|[[? ?]|[? _]]]] ->].
Qed.

(** An account is created exactly when its creator has a right to the name - the
    system, any creator of a full-length name without dots, the account that is the
    name's suffix, or the winner of the closed auction for a short name - and no
    resource row exists; it starts with nothing staked, and a won auction is used up. *)
Theorem newaccount_accepts (creator n : name) (s : sys) :
  (is_ok (newaccount e creator n s) = true <->
   may_create creator n s /\ userres s !! n = None /\ exists y, core_of s = Some y /\ symbol_is_valid y = true) /\
  (forall u s', newaccount e creator n s = Ok (u, s') ->
   namebids s' = (if needs_auction creator n then delete n (namebids s) else namebids s) /\
   exists y, core_of s = Some y /\ userres s' = <[n := UserRes.mk n (Asset 0 y) (Asset 0 y) 0]> (userres s)).
Proof.
  assert (userres (after_name_check creator n s) = userres s /\ core_of (after_name_check creator n s) = core_of s) as [Hu Hc]
    by (unfold after_name_check; by destruct (needs_auction creator n)).
  assert (forall u s', newaccount e creator n s = Ok (u, s') <->
    may_create creator n s /\ userres s !! n = None /\ exists y, core_of s = Some y /\ symbol_is_valid y = true /\
      (modify (fun s => s <| userres ::= insert n (UserRes.mk n (Asset 0 y) (Asset 0 y) 0) |>) ;;
       set_resource_limits n 0 0 0) (after_name_check creator n s) = Ok (u, s')) as Hrun.
  { intros u s'. unfold newaccount. split.
    - intros H. apply bind_Ok in H as (u1 & s1 & [Hmay ->]%check_new_name_Ok & H).
      apply bind_Ok in H as (y & ? & [Hy ->]%core_symbol_Ok & H).
      apply bind_Ok in H as (z & ? & [(_ & Hval & ->)%make_asset_Ok ->]%lift_Ok & H). unfold find_row in H.
      apply bind_Ok in H as (r & ? & [-> ->]%gets_Ok & H). apply bind_Ok in H as ([] & ? & [Hnone ->]%check_Ok & H).
      rewrite Hu in Hnone. rewrite Hc in Hy. destruct (userres s !! n); [done|]. eauto 8.
    - intros (Hmay & Hnone & y & Hy & Hval & H). apply bind_Ok. exists tt, (after_name_check creator n s).
      split; [by apply check_new_name_Ok|]. apply bind_Ok. exists y, (after_name_check creator n s).
      split; [apply core_symbol_Ok; by rewrite Hc|]. apply bind_Ok. exists (Asset 0 y), (after_name_check creator n s).
      split; [apply lift_Ok; split; [|done]; apply make_asset_Ok; split; [unfold amount_in_range, max_amount; lia|done]|].
      unfold find_row. apply bind_Ok. eexists _, (after_name_check creator n s). split; [by apply gets_Ok|].
      rewrite Hu, Hnone. apply bind_Ok. exists tt, (after_name_check creator n s). split; [by apply check_Ok|exact H]. }
  split.
  - split.
    + intros [u [s' H]]%is_ok_run. apply Hrun in H as (? & ? & y & ? & ? & _). eauto.
    + intros (? & ? & y & ? & ?). edestruct (Hrun tt) as [_ Hback].
      erewrite Hback; [done|]. split; [done|]. split; [done|]. exists y. split; [done|]. split; [done|]. reflexivity.
  - intros u s' H. apply Hrun in H as (_ & _ & y & Hy & _ & H).
    apply bind_Ok in H as ([] & ? & ->%modify_Ok & H). unfold set_resource_limits in H. apply modify_Ok in H.
    split; [rewrite H; unfold after_name_check; by destruct (needs_auction creator n)|].
    exists y. split; [done|]. rewrite H. cbn. by rewrite Hu.
Qed.
End new_names.

(** An account with a full-length name. *)
Lemma newaccount_accepts_witness :
  let e := mkEnv 1 [PermissionLevel 5 active_permission] 0 (fun _ => false) in
  let s := blank_sys <| rammarket := Some (Market.mk (Asset 1 ramcore_symbol) (Connector.mk (Asset 1 ram_symbol) (dlit 1 2))
    (Connector.mk (Asset 1 (Symbol 4 4)) (dlit 1 2))) |> in
  exists s', is_ok (newaccount (cdt := cdt_model) e 5 (2 ^ 64 - 16) s) = true /\
    userres s' !! (2 ^ 64 - 16) = Some (UserRes.mk (2 ^ 64 - 16) (Asset 0 (Symbol 4 4)) (Asset 0 (Symbol 4 4)) 0).
Proof.
  intros e s.
  assert (may_create (cdt := cdt_model) e 5 (2 ^ 64 - 16) s /\ userres s !! (2 ^ 64 - 16) = None /\
    exists y, core_of s = Some y /\ symbol_is_valid (Cdt := cdt_model) y = true) as Hmay.
  { split; [right; left; vm_compute; reflexivity|]. split; [vm_compute; reflexivity|]. exists (Symbol 4 4). by split. }
  destruct (newaccount_accepts (cdt := cdt_model) e 5 (2 ^ 64 - 16) s) as [[_ Hback] Hfinal].
  pose proof (Hback Hmay) as Hok. destruct (newaccount (cdt := cdt_model) e 5 (2 ^ 64 - 16) s) as [[u s']|] eqn:H; [|discriminate].
  exists s'. split; [reflexivity|]. destruct (Hfinal u s' eq_refl) as (_ & y & Hy & ->).
  injection Hy as <-. apply lookup_insert_eq.
Defined.
