(* ===== verification/LimitAuth.v ===== *)
(** * Limits on authority changes (limit_auth_changes.cpp, native.hpp)

    An account may name the permissions allowed, or not allowed, to change its
    authorities; the native actions that change authorities ask [check_auth_change]. *)
From S2P Require Import Prelude.
From S2P Require Import Cdt.
From S2P Require Import SysState.
From stdpp Require Import base gmap strings list relations.
Open Scope Z_scope.

Definition has_name (n : name) (l : list name) : bool := existsb (Z.eqb n) l.
Definition is_empty {A} (l : list A) : bool := match l with [] => true | _ => false end.

Section limit_auth.
Context (e : Env).

Definition limitauthchg (account : name) (allow_perms disallow_perms : list name) : M sys unit :=
  require_auth e account ;;
  check (is_empty allow_perms || is_empty disallow_perms) "either allow_perms or disallow_perms must be empty" ;;
  check (is_empty allow_perms || has_name owner_permission allow_perms) "allow_perms does not contain owner" ;;
  check (is_empty disallow_perms || negb (has_name owner_permission disallow_perms)) "disallow_perms contains owner" ;;
  it ← find_row limitauth account;
  if negb (is_empty allow_perms) || negb (is_empty disallow_perms) then
    modify (fun s => s <| limitauth ::= insert account (LimitAuth.mk account allow_perms disallow_perms) |>)
  else when (is_found it) (modify (fun s => s <| limitauth ::= delete account |>)).

(** [authorized_by] is a binary extension: absent, it counts as the empty name. *)
Definition check_auth_change (account : name) (authorized_by : option name) : M sys unit :=
  let by_ := default 0 authorized_by in
  when (negb (by_ =? 0)) (require_permission e (PermissionLevel account by_)) ;;
  it ← find_row limitauth account;
  match it with
  | None => mret tt
  | Some row =>
    check (negb (by_ =? 0)) "authorized_by is required for this account" ;;
    if negb (is_empty (LimitAuth.allow_perms row))
    then check (has_name by_ (LimitAuth.allow_perms row)) "authorized_by does not appear in allow_perms"
    else check (negb (has_name by_ (LimitAuth.disallow_perms row))) "authorized_by appears in disallow_perms"
  end.

(** The native actions: what they change is done by the chain. *)
Definition updateauth (account permission parent : name) (authorized_by : option name) : M sys unit :=
  check_auth_change account authorized_by.
Definition deleteauth (account permission : name) (authorized_by : option name) : M sys unit :=
  check_auth_change account authorized_by.
Definition linkauth (account code type requirement : name) (authorized_by : option name) : M sys unit :=
  check_auth_change account authorized_by.
Definition unlinkauth (account code type : name) (authorized_by : option name) : M sys unit :=
  check_auth_change account authorized_by.
Definition onerror : M sys unit := throw "the onerror action cannot be called directly".
End limit_auth.

(** ** What the limits promise *)
Section limits.
Implicit Types (e : Env) (s : sys).

(** The permissions a row lets change the account's authorities. *)
Definition may_change (row : option limit_auth_change) (p : name) : Prop :=
  match row with
  | None => True
  | Some r => if is_empty (LimitAuth.allow_perms r) then p ∉ LimitAuth.disallow_perms r else p ∈ LimitAuth.allow_perms r
  end.

Lemma has_name_In n l : has_name n l = true <-> n ∈ l.
Proof.
  unfold has_name. rewrite existsb_exists. setoid_rewrite Z.eqb_eq. setoid_rewrite <- list_elem_of_In. naive_solver.
Qed.

Lemma check_auth_change_Ok e account by_ s u s' :
  check_auth_change e account by_ s = Ok (u, s') <->
  s' = s /\
  let p := default 0 by_ in
  (p <> 0 -> has_permission e (PermissionLevel account p) = true) /\
  (p = 0 -> limitauth s !! account = None) /\ may_change (limitauth s !! account) p.
Proof.
  unfold check_auth_change, find_row. set (p := default 0 by_). rewrite bind_Ok. setoid_rewrite when_Ok. cbv zeta.
  assert (forall r, (match r with
    | None => mret tt
    | Some row =>
      check (negb (p =? 0)) "authorized_by is required for this account" ;;
      if negb (is_empty (LimitAuth.allow_perms row))
      then check (has_name p (LimitAuth.allow_perms row)) "authorized_by does not appear in allow_perms"
      else check (negb (has_name p (LimitAuth.disallow_perms row))) "authorized_by appears in disallow_perms"
    end) s = Ok (u, s') <-> s' = s /\ (p = 0 -> r = None) /\ may_change r p) as Hrow.
  { intros [row|]; [|rewrite ret_Ok; destruct u; cbn; tauto]. rewrite bind_Ok. setoid_rewrite check_Ok.
    unfold may_change. destruct (is_empty _); cbn [negb]; rewrite <- has_name_In; split.
    - intros ([] & ? & [Hp%negb_true_iff%Z.eqb_neq ->] & [Hn%negb_true_iff ->]%check_Ok). rewrite Hn. naive_solver.
    - intros (-> & Hp & Hn). exists tt, s. rewrite negb_true_iff, Z.eqb_neq, check_Ok, negb_true_iff.
      destruct (has_name p _); naive_solver.
    - intros ([] & ? & [Hp%negb_true_iff%Z.eqb_neq ->] & [Hn ->]%check_Ok). naive_solver.
    - intros (-> & Hp & Hn). exists tt, s. rewrite negb_true_iff, Z.eqb_neq, check_Ok. naive_solver. }
  split.
  - intros ([] & s1 & H1 & H). assert (s1 = s /\ (p <> 0 -> has_permission e (PermissionLevel account p) = true)) as [-> Hperm].
    { destruct (Z.eqb_spec p 0); cbn [negb] in H1; [done|]. by apply check_Ok in H1 as [? ->]. }
    apply bind_Ok in H as (it & ? & [-> ->]%gets_Ok & H). apply Hrow in H as (-> & ? & ?). done.
  - intros (-> & Hperm & Hz & Hm). exists tt, s. split.
    + destruct (Z.eqb_spec p 0); cbn [negb]; [done|]. apply check_Ok. auto.
    + apply bind_Ok. exists (limitauth s !! account), s. split; [by apply gets_Ok|]. by apply Hrow.
Qed.

Lemma check_auth_change_ok e account by_ s :
  is_ok (check_auth_change e account by_ s) = true <->
  let p := default 0 by_ in
  (p <> 0 -> has_permission e (PermissionLevel account p) = true) /\
  (p = 0 -> limitauth s !! account = None) /\ may_change (limitauth s !! account) p.
Proof.
  split.
  - intros [u [s' H]]%is_ok_run. by apply check_auth_change_Ok in H as [_ ?].
  - intros H. assert (check_auth_change e account by_ s = Ok (tt, s)) as -> by by apply check_auth_change_Ok. done.
Qed.

Lemma is_empty_nil {A} (l : list A) : is_empty l = true <-> l = [].
Proof. by destruct l. Qed.

(** The row a successful [limitauthchg] leaves. *)
Definition limit_row (account : name) (allow_perms disallow_perms : list name) : option limit_auth_change :=
  if is_empty allow_perms && is_empty disallow_perms then None
  else Some (LimitAuth.mk account allow_perms disallow_perms).

Lemma limitauthchg_inv e account allow_perms disallow_perms s u s' :
  limitauthchg e account allow_perms disallow_perms s = Ok (u, s') ->
  limitauth s' !! account = limit_row account allow_perms disallow_perms /\
  (forall a, a <> account -> limitauth s' !! a = limitauth s !! a) /\
  (allow_perms = [] \/ disallow_perms = []) /\
  (allow_perms = [] \/ owner_permission ∈ allow_perms) /\ owner_permission ∉ disallow_perms.
Proof.
  intros H. unfold limitauthchg, find_row in H. apply bind_Ok in H as ([] & ? & [_ ->]%check_Ok & H).
  apply bind_Ok in H as ([] & ? & [H1%orb_true_iff ->]%check_Ok & H).
  apply bind_Ok in H as ([] & ? & [H2%orb_true_iff ->]%check_Ok & H).
  apply bind_Ok in H as ([] & ? & [H3%orb_true_iff ->]%check_Ok & H). apply bind_Ok in H as (it & ? & [-> ->]%gets_Ok & H).
  rewrite !is_empty_nil in H1. rewrite is_empty_nil, has_name_In in H2.
  assert (owner_permission ∉ disallow_perms) as Hown.
  { destruct H3 as [->%is_empty_nil|H3%negb_true_iff]; [apply not_elem_of_nil|].
    intros Hin%has_name_In. congruence. }
  enough (limitauth s' !! account = limit_row account allow_perms disallow_perms /\
    (forall a, a <> account -> limitauth s' !! a = limitauth s !! a)) by tauto.
  unfold limit_row. destruct (is_empty allow_perms), (is_empty disallow_perms); cbn [negb orb andb] in *.
  2-4: apply modify_Ok in H as ->; cbn; split; [apply lookup_insert_eq|intros a Ha; by apply lookup_insert_ne].
  apply when_Ok in H. destruct (limitauth s !! account) eqn:Hl; cbn [is_found] in H; [|by subst].
  apply modify_Ok in H as ->. cbn. split; [apply lookup_delete_eq|intros a Ha; by apply lookup_delete_ne].
Qed.

(** C32: After an account limits its authority changes, a named permission it carries may
    change them exactly when the new lists say so, changes that name no permission are
    refused while any list is set, and no other account is affected. *)
Theorem limits_hold e account allow_perms disallow_perms s u s' :
  limitauthchg e account allow_perms disallow_perms s = Ok (u, s') ->
  (forall e' p, p <> 0 -> has_permission e' (PermissionLevel account p) = true ->
    is_ok (updateauth e' account p 0 (Some p) s') = true <->
    if is_empty allow_perms then p ∉ disallow_perms else p ∈ allow_perms) /\
  (forall e', is_ok (updateauth e' account 0 0 None s') = true <-> allow_perms = [] /\ disallow_perms = []) /\
  (forall e' a p, a <> account -> is_ok (updateauth e' a p 0 (Some p) s') = is_ok (updateauth e' a p 0 (Some p) s)).
Proof.
  intros (Hrow & Hother & Hone & _)%limitauthchg_inv. unfold updateauth. split; [|split].
  - intros e' p Hp Hperm. rewrite check_auth_change_ok. cbn [default]. rewrite Hrow. unfold limit_row, may_change.
    destruct (is_empty allow_perms) eqn:Ha; cbn [andb].
    + destruct (is_empty disallow_perms) eqn:Hd; [|cbn; rewrite Ha; tauto].
      apply is_empty_nil in Hd as ->. pose proof (not_elem_of_nil p). tauto.
    + cbn. rewrite Ha. tauto.
  - intros e'. rewrite check_auth_change_ok. cbn [default]. rewrite Hrow, <- !is_empty_nil. unfold limit_row.
    destruct (is_empty allow_perms), (is_empty disallow_perms); cbn; naive_solver.
  - intros e' a p Ha. apply eq_bool_prop_intro. rewrite !Is_true_true, !check_auth_change_ok, Hother by done. done.
Qed.

Lemma limits_hold_witness :
  is_ok (limitauthchg (mkEnv 1 [PermissionLevel 5 active_permission] 0 (fun _ => true)) 5 [owner_permission; 77] [] blank_sys) = true /\
  exists s', (forall e', has_permission e' (PermissionLevel 5 active_permission) = true ->
    is_ok (updateauth e' 5 active_permission 0 (Some active_permission) s') = true ->
    active_permission ∈ [owner_permission; 77]).
Proof.
  set (e := mkEnv 1 [PermissionLevel 5 active_permission] 0 (fun _ => true)).
  split; [vm_compute; reflexivity|].
  destruct (limitauthchg e 5 [owner_permission; 77] [] blank_sys) as [[u s']|] eqn:H; [|vm_compute in H; discriminate].
  exists s'. intros e' Hperm Hok.
  destruct (limits_hold e 5 [owner_permission; 77] [] blank_sys u s' H) as (Hp & _ & _).
  assert (active_permission <> 0) as Hz by (vm_compute; discriminate).
  exact (proj1 (Hp e' active_permission Hz Hperm) Hok).
Defined.

(** ** The owner is never locked out *)
Inductive limit_step : relation sys :=
| limit_step_intro e account allow_perms disallow_perms s u s' :
    limitauthchg e account allow_perms disallow_perms s = Ok (u, s') -> limit_step s s'.

Definition limits_wf s : Prop :=
  map_Forall (fun a r => LimitAuth.account r = a /\
    (LimitAuth.allow_perms r = [] <-> LimitAuth.disallow_perms r <> []) /\ may_change (Some r) owner_permission) (limitauth s).

Lemma limit_step_wf s s' : limit_step s s' -> limits_wf s -> limits_wf s'.
Proof.
  intros [e account al dis ? u ? (Hrow & Hother & Hone & Hal & Hdis)%limitauthchg_inv] Hwf a r Hr.
  destruct (decide (a = account)) as [->|Hne]; [|rewrite Hother in Hr by done; by apply Hwf].
  rewrite Hrow in Hr. unfold limit_row in Hr. destruct (is_empty al && is_empty dis) eqn:He; [done|].
  injection Hr as <-. apply andb_false_iff in He. unfold may_change. cbn. split; [done|].
  destruct al as [|x al], dis as [|z dis]; cbn in *; naive_solver.
Qed.

(** C33: Starting from no limits, whatever limits accounts set and change, each row names
    its account, uses exactly one of the two lists, and the owner permission of every
    account can still change its authorities. *)
Theorem owner_never_locked_out s0 s :
  limitauth s0 = ∅ -> rtc limit_step s0 s ->
  limits_wf s /\
  forall e account, has_permission e (PermissionLevel account owner_permission) = true ->
    is_ok (updateauth e account owner_permission 0 (Some owner_permission) s) = true.
Proof.
  intros H0 Hrun. assert (limits_wf s) as Hwf.
  { assert (limits_wf s0) as Hwf0 by (intros a r; by rewrite H0).
    clear H0. revert Hwf0. induction Hrun as [|s1 s2 s3 Hstep _ IH]; [done|]. intros Hwf. apply IH. by eapply limit_step_wf. }
  split; [done|]. intros e account Hperm. unfold updateauth. apply check_auth_change_ok. cbn [default].
  split; [done|]. split; [by vm_compute|]. destruct (limitauth s !! account) eqn:Hr; [|done]. by apply (Hwf _ _ Hr).
Qed.

Lemma owner_never_locked_out_witness :
  exists s, limitauth s <> ∅ /\ limits_wf s.
Proof.
  set (e := mkEnv 1 [PermissionLevel 5 active_permission] 0 (fun _ => true)).
  destruct (limitauthchg e 5 [owner_permission; 77] [] blank_sys) as [[u s']|] eqn:H; [|vm_compute in H; discriminate].
  exists s'. split.
  - intros Hempty. destruct (limitauthchg_inv e 5 _ _ _ _ _ H) as [Hrow _]. rewrite Hempty in Hrow. vm_compute in Hrow. discriminate.
  - refine (proj1 (owner_never_locked_out blank_sys s' eq_refl _)). apply rtc_once. exact (limit_step_intro e 5 _ _ _ u s' H).
Defined.
End limits.
