(* ===== verification/Pay.v ===== *)
(** * Blocks and pay (producer_pay.cpp)

    [onblock] runs once per block: it counts blocks, watches for missed ones, renews the
    schedule, closes name auctions and takes the pay snapshot, which shares the block
    bucket among the producers by rank; producers then claim what the snapshot recorded. *)
From S2P Require Import Prelude.
From S2P Require Import Cdt.
From S2P Require Import Float64.
From S2P Require Import SysState.
From S2P Require Import Token.
From S2P Require Import RexPool.
From S2P Require Import Producers.
From S2P Require Import Rotation.
From S2P Require Import BlockInfo.
From S2P Require Import NameBid.
From S2P Require Import Voting.
From stdpp Require Import base gmap strings list sorting.
Open Scope Z_scope.

(** ** The shares of the bucket *)

(** The first loop: active producers from the top of the index, up to the first that is
    not active. *)
Fixpoint count_active (rows : list (name * producer_info)) (activecount : Z) : Z :=
  match rows with
  | (_, p) :: rows' =>
    if Producer.is_active p && (activecount <? MAX_PRODUCERS) then count_active rows' (activecount + 1)
    else activecount
  | [] => activecount
  end.

Definition sum_of_multipliers (activecount : Z) : double :=
  let first := dmul (dint 2) (dlit 12 10) in
  let step k := dmul (dint (u32 (activecount - k))) (dlit 2 100) in
  if activecount <=? 21
  then dmul (dmul (ddiv (dint activecount) (dint 2)) (dsub first (step 1))) (dint 2)
  else dadd (dint 42) (dmul (ddiv (dint (u32 (activecount - 21))) (dint 2)) (dsub first (step 22))).

(** The pay of a rank; [None] ends the loop. *)
Definition rank_pay (shareValue : double) (index : Z) : option (result Z) :=
  if index <=? 21 then
    Some (dto_i64 (dmul (dmul shareValue (dint 2))
      (ddiv (dsub (dint 122) (dmul (dint 2) (dint index))) (dint 100))))
  else if (22 <=? index) && (index <=? MAX_PRODUCERS) then
    Some (dto_i64 (dmul shareValue (ddiv (dsub (dint 164) (dmul (dint 2) (dint index))) (dint 100))))
  else None.

Section pay.
Context `{cdt : Cdt} `{libm : Libm} `{host : Host} (e : Env).

Definition record_pay (prod : name) (pay_amount : Z) : M sys unit :=
  itr ← find_row payments prod;
  core ← core_symbol;
  a ← lift (make_asset pay_amount core);
  match itr with
  | None => modify (fun s => s <| payments ::= insert prod (Payment.mk prod a) |>)
  | Some p =>
    total ← lift (asset_plus (Payment.pay p) a);
    modify (fun s => s <| payments ::= insert prod (p <| Payment.pay := total |>) |>)
  end.

Definition pay_one (prod : name) (p : producer_info) (pay_amount : Z) : M sys unit :=
  modify (fun s => s <| gstate ::= fun g =>
    g <| Global.perblock_bucket ::= fun z => i64 (z - pay_amount) |>
      <| Global.total_unpaid_blocks ::= fun z => u32 (z - Producer.unpaid_blocks p) |> |>) ;;
  set_producer prod (p <| Producer.last_claim_time := now_us e |> <| Producer.unpaid_blocks := 0 |>) ;;
  record_pay (Producer.owner p) pay_amount.

(** The second loop: inactive producers are skipped, the others paid by rank. *)
Fixpoint pay_ranks (shareValue : double) (index : Z) (rows : list (name * producer_info)) : M sys unit :=
  match rows with
  | [] => mret tt
  | (n, p) :: rows' =>
    if negb (Producer.is_active p) then pay_ranks shareValue index rows'
    else
      let index' := index + 1 in
      match rank_pay shareValue index' with
      | None => mret tt
      | Some r => pay_amount ← lift r; pay_one n p pay_amount ;; pay_ranks shareValue index' rows'
      end
  end.

(** The TLOS price: the first average of thirty days, else fourteen, else seven, else 1. *)
Definition get_telos_average_price : Z :=
  let average ty := find (fun a => a.1 =? ty) oracle_averages in
  match average 2 with
  | Some (_, v) => v
  | None => match average 1 with
    | Some (_, v) => v
    | None => match average 0 with Some (_, v) => v | None => 1 end
    end
  end.

(** New tokens for the time since the last fill: for the workers and for the producers. *)
Definition tokens_due (worker_amount usecs tlos_price : Z) : result (Z * Z) :=
  let per_year x := ddiv x (dint useconds_per_year) in
  match dto_i64 (per_year (dmul (dmul (dint 12) (dint worker_amount)) (dint usecs))) with
  | Err m => Err m
  | Ok to_workers =>
    let price := pow (ddiv (dint tlos_price) (dint 10000)) (dlit (-516) 1000) in
    let bp_pay_per_month := dmul (dmin (dmul (dint 189000) price) (dint 315000)) (dint 10000) in
    match dto_i64 (per_year (dmul (dmul bp_pay_per_month (dint 12)) (dint usecs))) with
    | Err m => Err m
    | Ok to_producers => Ok (to_workers, to_producers)
    end
  end.

(** What TEDP covers, and what must be issued. *)
Definition split_issue (tedp_balance new_tokens : Z) : Z * Z :=
  if 0 <? tedp_balance then
    if new_tokens <=? tedp_balance then (new_tokens, 0)
    else (tedp_balance, i64 (new_tokens - tedp_balance))
  else (0, new_tokens).

Definition fill_bucket (usecs : Z) : M sys unit :=
  rates ← gets gpayrate;
  '(to_workers, to_producers) ← lift (tokens_due (PayRates.worker_amount rates) usecs get_telos_average_price);
  let new_tokens := i64 (to_workers + to_producers) in
  core ← core_symbol;
  tedp_balance ← lift (get_balance token_ledger tedp_account (sym_code core));
  let '(transfer_tokens, issue_tokens) := split_issue (amount tedp_balance) new_tokens in
  let self_active := [active_of (self e)] in
  when (0 <? transfer_tokens)
    (a ← lift (make_asset transfer_tokens core);
     token_transfer [active_of tedp_account] tedp_account (self e) a "TEDP: Inflation offset") ;;
  when (0 <? issue_tokens)
    (a ← lift (make_asset issue_tokens core);
     send (TokenIssue self_active (self e) a "Issue new TLOS tokens")) ;;
  when (0 <? to_workers)
    (a ← lift (make_asset to_workers core);
     token_transfer self_active (self e) works_account a
       "Transfer worker proposal share to works.decide account") ;;
  when (0 <? to_producers)
    (a ← lift (make_asset to_producers core);
     token_transfer self_active (self e) bpay_account a "Transfer producer share to per-block bucket") ;;
  modify (fun s => s <| gstate ::= fun g =>
    g <| Global.perblock_bucket ::= fun z => i64 (z + to_producers) |>
      <| Global.last_pervote_bucket_fill := now_us e |> |>).

Definition share_bucket : M sys unit :=
  sortedprods ← gets producers_by_votes;
  g ← gets gstate;
  let activecount := count_active sortedprods 0 in
  let shareValue := ddiv (dint (Global.perblock_bucket g)) (sum_of_multipliers activecount) in
  pay_ranks shareValue 0 sortedprods.

Definition claimrewards_snapshot : M sys unit :=
  g ← gets gstate;
  check (0 <? Global.thresh_activated_stake_time g) "cannot take snapshot until chain is activated" ;;
  if Global.total_unpaid_blocks g <=? 0 then mret tt
  else
    let usecs := i64 (now_us e - Global.last_pervote_bucket_fill g) in
    when ((0 <? usecs) && (0 <? Global.last_pervote_bucket_fill g)) (fill_bucket usecs) ;;
    share_bucket.

Definition claimrewards (owner : name) : M sys unit :=
  require_auth e owner ;;
  prod ← get_producer owner "unable to find key";
  check (Producer.is_active prod) "producer does not have an active key" ;;
  g ← gets gstate;
  check (0 <? Global.thresh_activated_stake_time g)
    "cannot claim rewards until the chain is activated (1,000,000 blocks produced)" ;;
  itr ← find_row payments owner;
  p ← require_found itr "No payment exists for account";
  token_transfer [active_of bpay_account] bpay_account owner (Payment.pay p) "Producer/Standby Payment" ;;
  modify (fun s => s <| payments ::= delete owner |>).

(** ** TEDP payouts *)

(** One row: the tokens due, if any. *)
Definition payout_due (now : Z) (p : payout) : result (option Z) :=
  let since := u64 (now - payout_last p) in
  match cdiv since (payout_interval p) with
  | Err m => Err m
  | Ok payouts_due =>
    if (payouts_due =? 0) || (payout_amount p =? 0) then Ok None
    else Ok (Some (u64 (u64 (payouts_due * payout_amount p) * 10000)))
  end.

Fixpoint payouts_total (now : Z) (rows : list payout) (acc : bool * Z) : result (bool * Z) :=
  match rows with
  | [] => Ok acc
  | p :: rows' =>
    match payout_due now p with
    | Err m => Err m
    | Ok None => payouts_total now rows' acc
    | Ok (Some due) => payouts_total now rows' (true, i64 (acc.2 + due))
    end
  end.

Definition pay : M sys unit :=
  '(payouts_made, new_tokens) ← lift (payouts_total (sec_of_us (now_us e)) tedp_payouts (false, 0));
  check payouts_made "No payouts are due" ;;
  core ← core_symbol;
  tedp_balance ← lift (get_balance token_ledger tedp_account (sym_code core));
  let issue_tokens :=
    if 0 <? amount tedp_balance then
      if amount tedp_balance <? new_tokens then i64 (new_tokens - amount tedp_balance) else 0
    else new_tokens in
  let self_active := [active_of (self e)] in
  when (0 <? issue_tokens)
    (a ← lift (make_asset issue_tokens core);
     send (TokenIssue self_active (self e) a "Issue new TLOS tokens") ;;
     token_transfer self_active (self e) tedp_account a "Transfer issued TLOS to TEDP account") ;;
  send TedpPay.

(** ** Blocks *)

(** The first auction of the index from the middle on: the highest open bid. *)
Definition highest_bid (s : sys) : option (name * name_bid) :=
  find (fun r => (2 ^ 64 - 1) / 2 <=? by_high_bid r.2) (index_rows by_high_bid (namebids s)).

Definition close_auction (timestamp : Z) : M sys unit :=
  highest ← gets highest_bid;
  g ← gets gstate;
  match highest with
  | Some (n, b) =>
    when ((0 <? Bid.high_bid b) && (useconds_per_day <? now_us e - Bid.last_bid_time b) &&
          (0 <? Global.thresh_activated_stake_time g) &&
          (14 * useconds_per_day <? now_us e - Global.thresh_activated_stake_time g))
      (modify (fun s => s <| gstate ::= fun g => g <| Global.last_name_close := timestamp |> |>) ;;
       channel_namebid_to_rex (Bid.high_bid b) ;;
       modify (fun s => s <| namebids ::= insert n (b <| Bid.high_bid ::= fun z => i64 (- z) |>) |>))
  | None => mret tt
  end.

(** The counters of the producer of the block. *)
Definition count_produced (producer : name) : M sys unit :=
  prod ← find_row producers producer;
  match prod with
  | Some p =>
    modify (fun s => s <| gstate ::= fun g => g <| Global.total_unpaid_blocks ::= fun z => u32 (z + 1) |> |>) ;;
    set_producer producer (p <| Producer.unpaid_blocks ::= fun z => u32 (z + 1) |>
      <| Producer.lifetime_produced_blocks ::= fun z => u32 (z + 1) |>)
  | None => mret tt
  end.

(** What follows once the chain is activated. *)
Definition onblock_active (timestamp : Z) (producer : name) : M sys unit :=
  modify (fun s => s <| gstate ::= fun g =>
    g <| Global.last_pervote_bucket_fill ::= fun t => if t =? 0 then now_us e else t |> |>) ;;
  missed ← check_missed_blocks timestamp producer;
  when missed (update_missed_blocks_per_rotation e ;; reset_schedule_metrics producer) ;;
  count_produced producer ;;
  recalculate_votes e ;;
  g ← gets gstate;
  when (120 <? u32 (timestamp - Global.last_producer_schedule_update g))
    (update_elected_producers timestamp ;;
     g1 ← gets gstate;
     when (blocks_per_day <? u32 (timestamp - Global.last_name_close g1)) (close_auction timestamp)) ;;
  g2 ← gets gstate;
  when (u32 (Global.last_claimrewards g2 + 3600) <=? timestamp)
    (claimrewards_snapshot ;;
     modify (fun s => s <| gstate ::= fun g => g <| Global.last_claimrewards := timestamp |> |>)).

Definition onblock (timestamp : Z) (producer : name) (previous_block_id : list Z) : M sys unit :=
  require_auth e (self e) ;;
  add_to_blockinfo_table previous_block_id timestamp ;;
  modify (fun s => s <| gstate2 ::= fun g => g <| Global2.last_block_num := timestamp |> |>
    <| gstate ::= fun g => g <| Global.block_num ::= fun z => u32 (z + 1) |> |>) ;;
  g ← gets gstate;
  if Global.thresh_activated_stake_time g =? 0 then
    when ((block_num_network_activation <=? Global.block_num g) && dlt dzero (Global.total_producer_vote_weight g))
      (modify (fun s => s <| gstate ::= fun g =>
         g <| Global.thresh_activated_stake_time := now_us e |> <| Global.last_claimrewards := timestamp |> |>))
  else onblock_active timestamp producer.
End pay.
