(* ===== verification/NameLedger.v ===== *)
(** * The tokens of the name auctions

    [eosio.names] holds the tokens of the open bids, those owed to bidders who were
    outbid, and those of closed auctions until REX collects them. The theorem here is
    that no action leaves it owing more than it was sent. *)
From S2P Require Import Prelude.
From S2P Require Import Cdt.
From S2P Require Import Float64.
From S2P Require Import SysState.
From S2P Require Import Votes.
From S2P Require Import Exchange.
From S2P Require Import RexPool.
From S2P Require Import Bandwidth.
From S2P Require Import Rex.
From S2P Require Import Solvency.
From S2P Require Import RexLedger.
From S2P Require Import NameBid.
From S2P Require Import Rotation.
From S2P Require Import Pay.
From stdpp Require Import base gmap strings list relations.
Open Scope Z_scope.

(** ** What is owed *)

(** An auction that is closed holds the negated bid. *)
Definition open_bid (b : name_bid) : Z := Z.max 0 (Bid.high_bid b).
Definition proceeds_of (s : sys) : option asset := RexPool.namebid_proceeds <$> rexpool s.
Definition names_owed (s : sys) : Z :=
  msum open_bid (namebids s) + msum amount (bidrefunds s) + from_option amount 0 (proceeds_of s).
(** What [eosio.names] was sent beyond what it owes. *)
Definition surplus (y : symbol) (s : sys) : Z := flow names_account y (effects s) - names_owed s.

(** [held] is what [eosio.names] held before the first effect; the token contract keeps
    no balance above [max_amount]. *)
Record names_ok (y : symbol) (held : Z) (s : sys) : Prop := {
  names_core : core_of s = Some y;
  bids_ok : map_Forall (fun _ b => - 2 ^ 63 < Bid.high_bid b < 2 ^ 63 /\
    Bid.high_bidder b <> names_account) (namebids s);
  bidrefunds_ok : map_Forall (fun k r => holds y r /\ k.2 <> names_account) (bidrefunds s);
  proceeds_ok : forall a, proceeds_of s = Some a -> 0 <= amount a /\ asset_symbol a = y;
  names_covered : 0 <= held + surplus y s;
  names_balance : held + flow names_account y (effects s) <= max_amount;
}.

(** What one bidder is owed is part of what is owed. *)
Lemma bidrefund_within y held s k r : names_ok y held s -> bidrefunds s !! k = Some r -> amount r <= names_owed s.
Proof.
  intros [_ _ Hr Hp _ _] Hk. unfold names_owed.
  assert (0 <= msum open_bid (namebids s)) by (apply msum_nonneg; intros ? ? _; unfold open_bid; lia).
  assert (0 <= from_option amount 0 (proceeds_of s)) by (destruct (proceeds_of s) as [a|]; [by apply (Hp a)|done]).
  enough (amount r <= msum amount (bidrefunds s)) by lia. apply (msum_lookup_le _ _ k); [|done].
  intros ? ? Hx. apply (Hr _ _ Hx).
Qed.

(** ** The actions that move the tokens of auctions *)
Inductive name_action :=
| Bidname (bidder newname : name) (bid : asset)
| Bidrefund (bidder newname : name)
| Newaccount (creator new_account_name : name)
| CloseAuction (timestamp : Z)
| Runrex (max : Z).

Definition name_exec `{cdt : Cdt} `{libm : Libm} (e : Env) (a : name_action) : M sys unit :=
  match a with
  | Bidname b n q => bidname e b n q
  | Bidrefund b n => bidrefund b n
  | Newaccount c n => newaccount e c n
  | CloseAuction t => close_auction e t
  | Runrex max => runrex e max
  end.

(** The account of the auctions does not bid: it could not pay itself. *)
Definition name_args (a : name_action) : Prop :=
  match a with
  | Bidname b _ q => b <> names_account /\ in_i64 (amount q)
  | _ => True
  end.

(** With [rex] the step is taken while REX has been sold, so that proceeds can be passed on. *)
Inductive name_step `{cdt : Cdt} `{libm : Libm} (y : symbol) (held : Z) (rex : bool) : relation sys :=
| name_step_intro e a s u s' :
    name_args a -> (rex = true -> rex_available s = true) -> name_exec e a s = Ok (u, s') ->
    held + flow names_account y (effects s') <= max_amount ->
    name_step y held rex s s'.

Definition naming (y : symbol) (s : sys) :=
  (namebids s, bidrefunds s, proceeds_of s, core_of s, flow names_account y (effects s)).

Section names.
Context `{cdt : Cdt} `{!CdtLaws cdt} `{libm : Libm} (e : Env) (y : symbol).
Implicit Types s : sys.

(** *** Code that leaves the auctions alone *)
Lemma send_naming x : flow_of names_account y x = 0 -> keeps (naming y) (send x).
Proof.
  intros Hx s u s' H. unfold send in H. minv H. unfold naming. cbn. rewrite flow_snoc, Hx. f_equal. lia.
Qed.

Lemma set_pool_naming p p' s u s' :
  rexpool s = Some p -> RexPool.namebid_proceeds p' = RexPool.namebid_proceeds p ->
  set_pool p' s = Ok (u, s') -> naming y s' = naming y s.
Proof. intros Hp Hn H. unfold set_pool in H. minv H. unfold naming, proceeds_of. cbn. rewrite Hp. cbn. by rewrite Hn. Qed.

Ltac naming_with tac :=
  unfold set_ret_pool, get_ret_pool, get_buckets, set_buckets, set_loans, get_rex_balance, set_rex_balance,
    find_row, zero_core, core_symbol, get_core_symbol, get_resource_limits, set_resource_limits;
  solve_respects_with tac.
Ltac naming := naming_with fail.

Lemma grow_unlent_naming change : keeps (naming y)
  (p ← get_pool;
   let p1 := p <| RexPool.total_unlent ::= fun a => a <| amount ::= fun z => i64 (z + change) |> |> in
   lendable ← lift (asset_plus (RexPool.total_unlent p1) (RexPool.total_lent p1));
   set_pool (p1 <| RexPool.total_lendable := lendable |>)).
Proof.
  apply with_pool. intros p s u s' Hp H. cbv zeta in H. minv H. by eapply set_pool_naming in H.
Qed.
Lemma update_rex_pool_naming : keeps (naming y) (update_rex_pool e).
Proof. unfold update_rex_pool. naming_with ltac:(apply grow_unlent_naming). Qed.
Hint Resolve update_rex_pool_naming : respects.
Lemma add_to_rex_return_pool_naming fee : keeps (naming y) (add_to_rex_return_pool e fee).
Proof. unfold add_to_rex_return_pool. naming. Qed.
Hint Resolve add_to_rex_return_pool_naming : respects.
Lemma update_resource_limits_naming a b n c : keeps (naming y) (update_resource_limits a b n c).
Proof. unfold update_resource_limits. naming. Qed.
Lemma transfer_to_fund_naming n q : keeps (naming y) (transfer_to_fund n q).
Proof. unfold transfer_to_fund. naming. Qed.
Lemma remove_loan_naming l : keeps (naming y) (remove_loan_from_rex_pool l).
Proof. apply with_pool. intros p s u s' Hp H. minv H. by eapply set_pool_naming in H. Qed.
Lemma add_loan_naming q z b : keeps (naming y) (add_loan_to_rex_pool e q z b).
Proof.
  unfold add_loan_to_rex_pool. apply respects_bind; [apply _|apply add_to_rex_return_pool_naming|intros _].
  apply with_pool. intros p s u s' Hp H. by eapply set_pool_naming in H.
Qed.
Lemma fill_rex_order_naming o q : keeps (naming y) (fill_rex_order o q).
Proof.
  apply with_pool. intros p s a s' Hp H. unfold get_rex_balance, set_rex_balance, find_row, core_symbol, get_core_symbol in H.
  minv H. destruct (_ <=? _) in H; minv H; [|done].
  match goal with Hs : set_pool _ _ = Ok _ |- _ => eapply set_pool_naming in Hs; [|done..]; exact Hs end.
Qed.
Lemma get_pool_naming : keeps (naming y) get_pool.
Proof. by intros s p s' [_ ->]%get_pool_Ok. Qed.
Hint Resolve update_resource_limits_naming transfer_to_fund_naming remove_loan_naming add_loan_naming
  fill_rex_order_naming get_pool_naming : respects.
Lemma process_expired_loan_naming k n l : keeps (naming y) (process_expired_loan e k n l).
Proof. unfold process_expired_loan, update_renewed_loan. naming; by destruct k. Qed.
Hint Resolve process_expired_loan_naming : respects.
Lemma process_loans_naming k n : keeps (naming y) (process_loans e k n).
Proof.
  induction n as [|n IH]; cbn; [apply respects_ret; apply _|]. unfold update_limits_of.
  naming; by destruct k.
Qed.
Lemma process_orders_naming n l : keeps (naming y) (process_orders n l).
Proof.
  revert l. induction n as [|n IH]; intros l; cbn; [apply respects_ret; apply _|].
  destruct l as [|[o r] l]; [apply respects_ret; apply _|]. naming. by apply send_naming.
Qed.

(** *** Each action *)
Definition names_kept (held : Z) (rex : bool) (s s' : sys) : Prop :=
  names_ok y held s -> held + flow names_account y (effects s') <= max_amount ->
  names_ok y held s' /\ surplus y s <= surplus y s' /\ (rex = true -> surplus y s' = surplus y s).

Lemma naming_kept held rex s s' : naming y s' = naming y s -> names_kept held rex s s'.
Proof.
  unfold naming, names_kept, surplus, names_owed. intros [= Hb Hr Hp Hm Hf] [Hc ?????] _.
  assert (surplus y s' = surplus y s) as Hs by (unfold surplus, names_owed; by rewrite Hb, Hr, Hp, Hf).
  rewrite Hb, Hr, Hp, Hf. split; [|done]. split; rewrite ?Hb, ?Hr, ?Hp, ?Hf, ?Hs, ?Hm; done.
Qed.

(** A bid, seen through the tables: the transfer, the row, and what the outbid is owed. *)
Lemma bidname_inv b n q s u s' :
  bidname e b n q s = Ok (u, s') ->
  core_of s = Some (asset_symbol q) /\ 0 < amount q /\ rexpool s' = rexpool s /\ rammarket s' = rammarket s /\
  flow names_account y (effects s') = flow names_account y (effects s) +
    flow_of names_account y (TokenTransfer [active_of b] b names_account q ("bid name " ++ name_to_string n)) /\
  (exists row, namebids s' = <[n := row]> (namebids s) /\
    Bid.high_bidder row = b /\ Bid.high_bid row = amount q /\ Bid.last_bid_time row = now_us e) /\
  match namebids s !! n with
  | None => bidrefunds s' = bidrefunds s
  | Some b0 => 0 < Bid.high_bid b0 /\ Bid.high_bid b0 `quot` 10 < i64 (amount q - Bid.high_bid b0) /\
    Bid.high_bidder b0 <> b /\ exists owed,
    from_option (fun r => asset_plus r (Asset (Bid.high_bid b0) (asset_symbol q)))
      (make_asset (Bid.high_bid b0) (asset_symbol q)) (bidrefunds s !! (n, Bid.high_bidder b0)) = Ok owed /\
    bidrefunds s' = <[(n, Bid.high_bidder b0) := owed]> (bidrefunds s)
  end.
Proof.
  intros H. unfold bidname, token_transfer, send, find_row, require_auth in H.
  do 6 apply bind_Ok in H as ([] & ? & [_ ->]%check_Ok & H).
  apply bind_Ok in H as (y' & ? & [Hy ->]%core_symbol_Ok & H).
  apply bind_Ok in H as ([] & ? & [<-%symbol_eqb_eq ->]%check_Ok & H).
  apply bind_Ok in H as ([] & ? & [Hpos%Z.ltb_lt ->]%check_Ok & H).
  apply bind_Ok in H as ([] & ? & ->%modify_Ok & H). apply bind_Ok in H as (cur & ? & [-> ->]%gets_Ok & H).
  lazymatch type of H with context [namebids ?x !! n] => change (namebids x) with (namebids s) in H end.
  split; [done|]. split; [done|].
  destruct (namebids s !! n) as [b0|] eqn:Hn.
  - apply bind_Ok in H as ([] & ? & [Hhi%Z.ltb_lt ->]%check_Ok & H).
    apply bind_Ok in H as ([] & ? & [Hraise%Z.ltb_lt ->]%check_Ok & H).
    apply bind_Ok in H as ([] & ? & [Hne%negb_true_iff%Z.eqb_neq ->]%check_Ok & H).
    apply bind_Ok in H as (it & ? & [-> ->]%gets_Ok & H).
    lazymatch type of H with context [bidrefunds ?x !! _] => change (bidrefunds x) with (bidrefunds s) in H end.
    apply bind_Ok in H as (back & ? & [Hback ->]%lift_Ok & H).
    apply bind_Ok in H as (owed & s1 & Howed & H).
    assert (s1 = s <| effects ::= fun l => l ++ [TokenTransfer [active_of b] b names_account q ("bid name " ++ name_to_string n)] |> /\
      from_option (fun r => asset_plus r (Asset (Bid.high_bid b0) (asset_symbol q)))
        (make_asset (Bid.high_bid b0) (asset_symbol q)) (bidrefunds s !! (n, Bid.high_bidder b0)) = Ok owed) as [-> Ho].
    { pose proof Hback as (_ & _ & ->)%make_asset_Ok.
      destruct (bidrefunds s !! _); cbn; [by apply lift_Ok in Howed as [? ->]|by apply ret_Ok in Howed as [-> ->]]. }
    do 2 apply bind_Ok in H as ([] & ? & ->%modify_Ok & H). apply modify_Ok in H.
    eassert (effects s' = ((effects s ++ [_]) ++ [_]) ++ [_]) as -> by (rewrite H; reflexivity).
    rewrite !flow_snoc, H. clear H.
    split; [reflexivity|]. split; [reflexivity|]. split; [cbn [flow_of]; lia|]. split; [by eexists|].
    split; [exact Hhi|]. split; [exact Hraise|]. split; [exact Hne|]. exists owed. split; [exact Ho|reflexivity].
  - apply modify_Ok in H. eassert (effects s' = effects s ++ [_]) as -> by (rewrite H; reflexivity).
    rewrite flow_snoc, H. clear H.
    split; [reflexivity|]. split; [reflexivity|]. split; [reflexivity|]. split; [by eexists|reflexivity].
Qed.

Lemma bidname_kept held rex b n q s u s' :
  b <> names_account -> in_i64 (amount q) -> bidname e b n q s = Ok (u, s') -> names_kept held rex s s'.
Proof.
  intros Hb Hq H Hok Hbal. pose proof Hok as [Hc Hbids Hrefs Hpro Hcov _].
  apply bidname_inv in H as (Hy & Hpos & Hpool & Hram & Hflow & (row & Hrow & Hbr & Hhb & _) & Hcase).
  rewrite Hc in Hy. injection Hy as Hy.
  cbn [flow_of] in Hflow. rewrite <- Hy, symbol_eqb_refl, Z.eqb_refl, (proj2 (Z.eqb_neq _ _) Hb) in Hflow.
  assert (names_owed s' = names_owed s + amount q /\
    map_Forall (fun k r => holds y r /\ k.2 <> names_account) (bidrefunds s')) as [Howed Hrefs'].
  { unfold names_owed, proceeds_of. rewrite Hrow, Hpool, msum_set. unfold open_bid at 3. rewrite Hhb.
    destruct (namebids s !! n) as [b0|] eqn:Hn; cbn [from_option].
    - destruct Hcase as (Hp0 & _ & _ & r & Hr & ->). destruct (Hbids _ _ Hn) as [_ Hbn].
      assert (holds y r /\ amount r = from_option amount 0 (bidrefunds s !! (n, Bid.high_bidder b0)) + Bid.high_bid b0) as [Hh Hs].
      { destruct (bidrefunds s !! (n, Bid.high_bidder b0)) as [r0|] eqn:Hr0; cbn in Hr |- *.
        - destruct (Hrefs _ _ Hr0) as [(? & ? & ?) _]. apply asset_plus_Ok in Hr as (? & ? & ->). cbn in *.
          split; [|done]. split_and!; cbn; [lia|done|done].
        - apply make_asset_Ok in Hr as (? & _ & ->). cbn. split; [|lia]. split_and!; cbn; [lia|done|done]. }
      split; [|by apply map_Forall_insert_2]. rewrite msum_set, Hs. unfold open_bid at 2. lia.
    - rewrite Hcase. split; [lia|done]. }
  assert (surplus y s' = surplus y s) as Hs by (unfold surplus; lia).
  split; [|split; [lia|done]]. split; unfold proceeds_of, core_of in *; rewrite ?Hram, ?Hpool, ?Hs; try done.
  rewrite Hrow. apply map_Forall_insert_2; [|done]. rewrite Hhb, Hbr. unfold in_i64 in Hq. split; [lia|done].
Qed.

Lemma bidrefund_kept held rex b n s u s' : bidrefund b n s = Ok (u, s') -> names_kept held rex s s'.
Proof.
  intros H Hok Hbal. pose proof Hok as [Hc Hbids Hrefs Hpro Hcov _].
  unfold bidrefund, token_transfer, send, find_row in H.
  apply bind_Ok in H as (it & ? & [-> ->]%gets_Ok & H). apply bind_Ok in H as (r & ? & [Hr ->]%require_found_Ok & H).
  apply bind_Ok in H as ([] & ? & ->%modify_Ok & H). apply modify_Ok in H.
  eassert (effects s' = effects s ++ [_]) as Heff by (rewrite H; reflexivity).
  assert (namebids s' = namebids s /\ bidrefunds s' = delete (n, b) (bidrefunds s) /\ proceeds_of s' = proceeds_of s /\
    core_of s' = core_of s) as (Hn & Hd & Hp & Hcore) by (rewrite H; done).
  clear H. destruct (Hrefs _ _ Hr) as [(? & ? & Hsym) Hbn]. cbn in Hbn.
  assert (surplus y s' = surplus y s) as Hs.
  { unfold surplus, names_owed. rewrite Heff, flow_snoc, Hn, Hd, Hp, (msum_delete amount _ _ _ Hr). cbn [flow_of].
    rewrite Hsym, symbol_eqb_refl, Z.eqb_refl, (proj2 (Z.eqb_neq _ _) Hbn). lia. }
  split; [|split; [lia|done]]. split; rewrite ?Hn, ?Hp, ?Hs, ?Hd, ?Hcore; try done. by apply map_Forall_delete.
Qed.

Lemma newaccount_kept held rex c n s u s' : newaccount e c n s = Ok (u, s') -> names_kept held rex s s'.
Proof.
  intros H. assert (naming y s' = naming y s \/ exists b, namebids s !! n = Some b /\ Bid.high_bid b < 0 /\
    naming y s' = naming y (s <| namebids ::= delete n |>)) as [Hv|(b & Hb & Hneg & Hv)].
  { unfold newaccount in H. apply bind_Ok in H as ([] & s1 & Hchk & H).
    assert (naming y s' = naming y s1) as ->.
    { revert H. match goal with |- ?m s1 = _ -> _ => assert (keeps (naming y) m) as Hm by (unfold find_row, get_core_symbol, set_resource_limits; solve_respects) end.
      apply Hm. }
    apply when_Ok in Hchk. destruct (negb _); [|subst; by left]. unfold check_new_name, find_row in Hchk.
    destruct (has_dot _ _); [|apply ret_Ok in Hchk as [_ ->]; by left]. cbv zeta in Hchk.
    destruct (_ =? n); [|apply check_Ok in Hchk as [_ ->]; by left].
    apply bind_Ok in Hchk as (it & ? & [-> ->]%gets_Ok & Hchk). apply bind_Ok in Hchk as (b & ? & [Hb ->]%require_found_Ok & Hchk).
    apply bind_Ok in Hchk as ([] & ? & [_ ->]%check_Ok & Hchk). apply bind_Ok in Hchk as ([] & ? & [Hlt%Z.ltb_lt ->]%check_Ok & Hchk).
    apply modify_Ok in Hchk as ->. right. by exists b. }
  { by apply naming_kept. }
  intros Hok Hbal.
  assert (names_kept held rex (s <| namebids ::= delete n |>) s') as Hk by by apply naming_kept.
  destruct Hok as [Hc Hbids Hrefs Hpro Hcov Hb'].
  assert (surplus y (s <| namebids ::= delete n |>) = surplus y s) as Hs.
  { unfold surplus, names_owed, proceeds_of. cbn. rewrite (msum_delete open_bid (namebids s) n b Hb). unfold open_bid at 2. lia. }
  rewrite <- Hs. apply Hk; [|done]. split; try done; [|by rewrite Hs]. by apply map_Forall_delete.
Qed.

Lemma highest_bid_Some s n b : highest_bid s = Some (n, b) -> namebids s !! n = Some b.
Proof.
  intros [Hin _]%find_some. apply list_elem_of_In in Hin. by apply elem_of_index_rows in Hin.
Qed.

Lemma close_auction_kept held rex t s u s' :
  (rex = true -> rex_available s = true) -> close_auction e t s = Ok (u, s') -> names_kept held rex s s'.
Proof.
  intros Hav H Hok Hbal. pose proof Hok as [Hc Hbids Hrefs Hpro Hcov Hb'].
  unfold close_auction in H. apply bind_Ok in H as (h & ? & [-> ->]%gets_Ok & H). apply bind_Ok in H as (g & ? & [-> ->]%gets_Ok & H).
  destruct (highest_bid s) as [[n b]|] eqn:Hh; [|apply ret_Ok in H as [_ ->]; by apply naming_kept].
  apply highest_bid_Some in Hh. destruct (Hbids _ _ Hh) as [Hrange Hbn].
  apply when_Ok in H. destruct (_ && _) eqn:Hconds; [|subst; by apply naming_kept].
  repeat apply andb_true_iff in Hconds as [Hconds ?]. apply Z.ltb_lt in Hconds.
  apply bind_Ok in H as ([] & s1 & ->%modify_Ok & H). unfold channel_namebid_to_rex in H.
  apply bind_Ok in H as ([] & s2 & Hch & H). apply bind_Ok in Hch as (av & ? & [-> ->]%gets_Ok & Hch). apply modify_Ok in H.
  change (rex_available (s <| gstate ::= fun g => g <| Global.last_name_close := t |> |>)) with (rex_available s) in Hch.
  assert (namebids s' = <[n := b <| Bid.high_bid ::= fun z => i64 (- z) |>]> (namebids s2) /\
    bidrefunds s' = bidrefunds s2 /\ proceeds_of s' = proceeds_of s2 /\ core_of s' = core_of s2 /\
    effects s' = effects s2) as (Hn & Hr & Hp & Hcore & Heff) by (rewrite H; done). clear H.
  set (hb := Bid.high_bid b) in *.
  assert (msum open_bid (<[n := b <| Bid.high_bid ::= fun z => i64 (- z) |>]> (namebids s)) = msum open_bid (namebids s) - hb /\
     - 2 ^ 63 < i64 (- hb) < 2 ^ 63) as [Hm Hneg].
  { rewrite (msum_insert open_bid _ _ _ _ Hh). unfold open_bid at 2 3. cbn. fold hb. rewrite i64_small by (unfold in_i64; lia). lia. }
  assert (0 <= hb <= msum open_bid (namebids s)) as Hle.
  { split; [lia|]. trans (open_bid b); [unfold open_bid; lia|].
    apply (msum_lookup_le open_bid _ n); [|done]. intros ? ? _. unfold open_bid. lia. }
  assert (0 <= msum amount (bidrefunds s)) as Hr0 by (apply msum_nonneg; intros k r Hk; apply (Hrefs _ _ Hk)).
  assert (map_Forall (fun _ b => - 2 ^ 63 < Bid.high_bid b < 2 ^ 63 /\ Bid.high_bidder b <> names_account)
    (<[n := b <| Bid.high_bid ::= fun z => i64 (- z) |>]> (namebids s))) as Hall by (apply map_Forall_insert_2; [|done]; by split).
  apply when_Ok in Hch. destruct (rex_available s) eqn:Hrex.
  - apply bind_Ok in Hch as (p & s3 & [Hpool ->]%get_pool_Ok & Hch). unfold set_pool in Hch. apply modify_Ok in Hch.
    change (rexpool s = Some p) in Hpool.
    assert (namebids s2 = namebids s /\ bidrefunds s2 = bidrefunds s /\ core_of s2 = core_of s /\ effects s2 = effects s /\
      proceeds_of s2 = Some ((RexPool.namebid_proceeds p) <| amount ::= fun z => i64 (z + hb) |>)) as (Hn2 & Hr2 & Hc2 & He2 & Hp2)
      by (rewrite Hch; done). clear Hch.
    destruct (Hpro (RexPool.namebid_proceeds p)) as [Hp0 Hsym]; [unfold proceeds_of; by rewrite Hpool|].
    assert (from_option amount 0 (proceeds_of s) = amount (RexPool.namebid_proceeds p)) as Hpa by (unfold proceeds_of; by rewrite Hpool).
    unfold surplus, names_owed in Hcov. rewrite Hpa in Hcov. unfold max_amount in *.
    assert (i64 (amount (RexPool.namebid_proceeds p) + hb) = amount (RexPool.namebid_proceeds p) + hb) as Hadd
      by (apply i64_small; unfold in_i64; lia).
    assert (surplus y s' = surplus y s) as Hs.
    { unfold surplus, names_owed. rewrite Heff, He2, Hn, Hn2, Hm, Hr, Hr2, Hp, Hp2, Hpa. cbn [from_option amount update_field]. rewrite Hadd. lia. }
    split; [|split; [lia|done]].
    split; rewrite ?Hn, ?Hn2, ?Hr, ?Hr2, ?Hp, ?Hp2, ?Hcore, ?Hc2, ?Hs, ?Heff, ?He2; try done.
    + intros a [= <-]. cbn. rewrite Hadd. split; [lia|done].
    + unfold surplus, names_owed. rewrite Hpa. lia.
  - assert (namebids s2 = namebids s /\ bidrefunds s2 = bidrefunds s /\ core_of s2 = core_of s /\ effects s2 = effects s /\
      proceeds_of s2 = proceeds_of s) as (Hn2 & Hr2 & Hc2 & He2 & Hp2) by (rewrite Hch; done). clear Hch.
    assert (surplus y s' = surplus y s + hb) as Hs.
    { unfold surplus, names_owed. rewrite Heff, Hn, Hr, Hp, He2, Hn2, Hr2, Hp2, Hm. lia. }
    split; [|split; [lia|naive_solver]].
    split; rewrite ?Hn, ?Hr, ?Hp, ?Hcore, ?Hs, ?Heff, ?He2, ?Hn2, ?Hr2, ?Hp2, ?Hc2; try done. lia.
Qed.

(** *** REX collects the proceeds *)
Lemma update_rex_pool_available : keeps rex_available (update_rex_pool e).
Proof.
  unfold update_rex_pool. assert (forall change, keeps rex_available
    (p ← get_pool;
     let p1 := p <| RexPool.total_unlent ::= fun a => a <| amount ::= fun z => i64 (z + change) |> |> in
     lendable ← lift (asset_plus (RexPool.total_unlent p1) (RexPool.total_lent p1));
     set_pool (p1 <| RexPool.total_lendable := lendable |>))) as Hg.
  { intros change. apply with_pool. intros p s u s' Hp H. cbv zeta in H.
    apply bind_Ok in H as (l & ? & [_ ->]%lift_Ok & H). unfold set_pool in H. apply modify_Ok in H.
    unfold rex_available. by rewrite H, Hp. }
  naming_with ltac:(apply Hg).
Qed.

Definition collect_proceeds (pool : rex_pool) : M sys unit :=
  channel_to_rex e names_account (RexPool.namebid_proceeds pool) false ;;
  p ← get_pool; set_pool (p <| RexPool.namebid_proceeds ::= fun a => a <| amount := 0 |> |>).

Lemma collect_kept held rex pool s u s' :
  (rex = true -> rex_available s = true) -> rexpool s = Some pool ->
  collect_proceeds pool s = Ok (u, s') -> names_kept held rex s s'.
Proof.
  intros Hav Hpool H Hok Hbal. pose proof Hok as [Hc Hbids Hrefs Hpro Hcov Hb'].
  destruct (Hpro (RexPool.namebid_proceeds pool)) as [Hp0 Hsym]; [unfold proceeds_of; by rewrite Hpool|].
  set (z := if rex_available s then amount (RexPool.namebid_proceeds pool) else 0).
  unfold collect_proceeds in H. apply bind_Ok in H as ([] & s1 & Hch & H).
  assert (namebids s1 = namebids s /\ bidrefunds s1 = bidrefunds s /\ proceeds_of s1 = proceeds_of s /\
    core_of s1 = core_of s /\ flow names_account y (effects s1) = flow names_account y (effects s) - z) as (Hn & Hr & Hp & Hc1 & Hf).
  { unfold channel_to_rex, token_transfer, send in Hch. apply bind_Ok in Hch as (av & ? & [-> ->]%gets_Ok & Hch).
    subst z. destruct (rex_available s); [|apply check_Ok in Hch as [_ ->]; split_and!; (done || lia)].
    apply bind_Ok in Hch as ([] & s2 & Hret%add_to_rex_return_pool_naming & Hch). apply modify_Ok in Hch.
    injection Hret as Hn Hr Hp Hm Hf. eassert (effects s1 = effects s2 ++ [_]) as -> by (rewrite Hch; reflexivity).
    assert (core_of s1 = core_of s2) as -> by (rewrite Hch; reflexivity).
    rewrite flow_snoc, Hf, Hm. cbn [flow_of].
    rewrite Hsym, symbol_eqb_refl. change (rex_account =? names_account) with false. rewrite Z.eqb_refl.
    rewrite Hch. split_and!; done || lia. }
  apply bind_Ok in H as (p & ? & [Hp1 ->]%get_pool_Ok & H). unfold set_pool in H. apply modify_Ok in H.
  assert (proceeds_of s1 = Some (RexPool.namebid_proceeds p)) as Hpp by (unfold proceeds_of; by rewrite Hp1).
  rewrite Hp in Hpp. unfold proceeds_of in Hpp at 1. rewrite Hpool in Hpp. injection Hpp as Hpp.
  assert (namebids s' = namebids s1 /\ bidrefunds s' = bidrefunds s1 /\ core_of s' = core_of s1 /\ effects s' = effects s1 /\
    proceeds_of s' = Some (Asset 0 (asset_symbol (RexPool.namebid_proceeds p)))) as (Hn2 & Hr2 & Hc2 & He2 & Hp2)
    by (rewrite H; done). clear H.
  assert (surplus y s' = surplus y s + (amount (RexPool.namebid_proceeds pool) - z)) as Hs.
  { unfold surplus, names_owed. rewrite He2, Hn2, Hr2, Hp2, Hf, Hn, Hr. unfold proceeds_of. rewrite Hpool. cbn. lia. }
  assert (0 <= z <= amount (RexPool.namebid_proceeds pool)) as Hz by (subst z; destruct (rex_available s); lia).
  split; [|split; [lia|]].
  - split; rewrite ?Hn2, ?Hr2, ?Hp2, ?Hc2, ?Hs, ?He2, ?Hn, ?Hr, ?Hc1; try done; [|lia..].
    intros a [= <-]. cbn. by rewrite <- Hpp.
  - intros ->. subst z. rewrite Hav in Hs by done. lia.
Qed.

Lemma names_kept_trans held rex s1 s2 s3 :
  names_kept held rex s1 s2 -> naming y s3 = naming y s2 -> names_kept held rex s1 s3.
Proof.
  intros H12 Hv Hok Hbal. assert (flow names_account y (effects s3) = flow names_account y (effects s2)) as Hf by (unfold naming in Hv; congruence).
  rewrite Hf in Hbal. destruct (H12 Hok Hbal) as (Hok2 & Hle & Heq).
  destruct (naming_kept held rex s2 s3 Hv Hok2) as (Hok3 & Hle3 & Heq3); [by rewrite Hf|].
  split; [done|]. split; [lia|]. intros Hr. rewrite Heq3, Heq by done. done.
Qed.

Lemma runrex_kept held rex max s u s' :
  (rex = true -> rex_available s = true) -> runrex e max s = Ok (u, s') -> names_kept held rex s s'.
Proof.
  intros Hav H. unfold runrex in H. apply bind_Ok in H as (b & ? & [-> ->]%gets_Ok & H).
  apply bind_Ok in H as ([] & ? & [_ ->]%check_Ok & H). apply bind_Ok in H as ([] & s1 & Hup & H).
  pose proof (update_rex_pool_naming _ _ _ Hup) as Hv1. pose proof (update_rex_pool_available _ _ _ Hup) as Hav1.
  apply bind_Ok in H as (pool & ? & [Hpool ->]%get_pool_Ok & H). apply bind_Ok in H as ([] & s2 & Hcol & H).
  assert (naming y s' = naming y s2) as Hv3.
  { revert H. match goal with |- ?m s2 = _ -> _ => assert (keeps (naming y) m) as Hm end; [|apply Hm].
    naming_with ltac:(first [apply process_loans_naming | apply process_orders_naming]). }
  intros Hok Hbal. destruct (naming_kept held rex s s1 Hv1 Hok) as (Hok1 & Hle1 & Heq1).
  { injection Hv1 as _ _ _ _ Hf. rewrite Hf. apply Hok. }
  assert (names_kept held rex s1 s2) as Hk.
  { apply when_Ok in Hcol. destruct (_ <? _) in Hcol; [|subst; by apply naming_kept].
    by eapply (collect_kept held rex pool); [rewrite Hav1| |exact Hcol]. }
  destruct (names_kept_trans held rex s1 s2 s' Hk Hv3 Hok1 Hbal) as (Hok' & Hle & Heq).
  split; [done|]. split; [lia|]. intros Hr. rewrite Heq, Heq1 by done. done.
Qed.

Lemma name_exec_kept held rex a s u s' :
  name_args a -> (rex = true -> rex_available s = true) -> name_exec e a s = Ok (u, s') -> names_kept held rex s s'.
Proof.
  intros Ha Hav H. destruct a; cbn [name_exec name_args] in *.
  - by eapply bidname_kept; [apply Ha..|].
  - by eapply bidrefund_kept.
  - by eapply newaccount_kept.
  - by eapply close_auction_kept.
  - by eapply runrex_kept.
Qed.
End names.

(** ** The theorem *)
Section runs.
Context `{cdt : Cdt} `{!CdtLaws cdt} `{libm : Libm}.

(** C9: Over any run of bids, refunds of bids, new accounts, closings of auctions and
    collections by REX, [eosio.names] keeps what it needs for every open bid, every
    refund and the uncollected proceeds; and if REX is available at every step of the
    run, what it holds beyond that does not change. *)
Theorem bids_are_backed (y : symbol) (held : Z) (rex : bool) (s s' : sys) :
  names_ok y held s -> rtc (name_step y held rex) s s' ->
  names_ok y held s' /\ surplus y s <= surplus y s' /\ (rex = true -> surplus y s' = surplus y s).
Proof.
  intros Hok Hrun. induction Hrun as [s|s1 s2 s3 Hstep _ IH]; [done|].
  destruct Hstep as [e a s u s2 Ha Hav H Hbal].
  destruct (name_exec_kept e y held rex a s u s2 Ha Hav H Hok Hbal) as (Hok2 & Hle & Heq).
  destruct (IH Hok2) as (Hok3 & Hle3 & Heq3). split; [done|]. split; [lia|].
  intros Hr. rewrite Heq3, Heq by done. done.
Qed.
End runs.

(** ** An example: two bidders, and the first takes its tokens back *)
Definition ex_bid_env (n : name) : Env := mkEnv eosio_account [active_of n] 1700000000000000 (fun _ => false).
Definition ex_short_name : name := Z.shiftl 6 59.

Lemma ex_rex_sys_names_ok : names_ok core 0 ex_rex_sys.
Proof.
  split; [reflexivity|done|done| |vm_compute; discriminate|vm_compute; discriminate].
  intros a [= <-]. split; [vm_compute; discriminate|reflexivity].
Qed.

Lemma bids_are_backed_witness :
  exists s', names_ok core 0 s' /\ surplus core s' = surplus core ex_rex_sys /\
    msum open_bid (namebids s') = 12000 /\ flow names_account core (effects s') = 12000.
Proof.
  set (run := fun (n : name) (a : name_action) => name_exec (cdt := cdt_model) (libm := libm_model) (ex_bid_env n) a).
  set (a1 := Bidname 5 ex_short_name (tlos 10000)). set (a2 := Bidname 6 ex_short_name (tlos 12000)).
  set (a3 := Bidrefund 5 ex_short_name).
  assert (match (run 5 a1 ;; run 6 a2 ;; run 5 a3) ex_rex_sys with
    | Ok (_, s') => (msum open_bid (namebids s') =? 12000) && (flow names_account core (effects s') =? 12000)
    | Err _ => false end = true) as Hok by (vm_compute; reflexivity).
  destruct ((run 5 a1 ;; run 6 a2 ;; run 5 a3) ex_rex_sys) as [[u s3]|] eqn:H; [|discriminate].
  apply andb_true_iff in Hok as [Hb%Z.eqb_eq Hf%Z.eqb_eq].
  apply bind_Ok in H as (u1 & s1 & H1 & H). apply bind_Ok in H as (u2 & s2 & H2 & H3).
  assert (rex_available s1 = true /\ rex_available s2 = true /\ flow names_account core (effects s1) = 10000 /\
    flow names_account core (effects s2) = 22000) as (Hr1 & Hr2 & Hf1 & Hf2).
  { assert (match run 5 a1 ex_rex_sys with Ok (_, s1) => rex_available s1 && (flow names_account core (effects s1) =? 10000) &&
      match run 6 a2 s1 with Ok (_, s2) => rex_available s2 && (flow names_account core (effects s2) =? 22000) | _ => false end
      | _ => false end = true) as Hc by (vm_compute; reflexivity).
    rewrite H1, H2 in Hc. rewrite !andb_true_iff, !Z.eqb_eq in Hc. tauto. }
  exists s3. destruct (bids_are_backed (cdt := cdt_model) (libm := libm_model) core 0 true ex_rex_sys s3 ex_rex_sys_names_ok)
    as (Hok & _ & Hs).
  { eapply rtc_l; [|eapply rtc_l; [|apply rtc_once]].
    - apply (name_step_intro core 0 true (ex_bid_env 5) a1 _ u1 s1); [split; vm_compute; intuition discriminate|done|exact H1|].
      rewrite Hf1. vm_compute. discriminate.
    - apply (name_step_intro core 0 true (ex_bid_env 6) a2 _ u2 s2); [split; vm_compute; intuition discriminate|done|exact H2|].
      rewrite Hf2. vm_compute. discriminate.
    - apply (name_step_intro core 0 true (ex_bid_env 5) a3 _ u s3); [done|done|exact H3|].
      rewrite Hf. vm_compute. discriminate. }
  split; [exact Hok|]. split; [by apply Hs|]. split; [exact Hb|exact Hf].
Defined.
