(* ===== verification/PayLedger.v ===== *)
(** * The accounts of producer pay

    New tokens for the producers go to [eosio.bpay] and into the block bucket; the
    snapshot moves the bucket into payments, and claiming pays a payment out. The first
    theorem says that the bucket and the payments together change by exactly what
    [eosio.bpay] is sent and pays out, as counters of 64 bits; the second how a snapshot
    divides the bucket, and so when it is left overdrawn. *)
From S2P Require Import Prelude.
From S2P Require Import Cdt.
From S2P Require Import Float64.
From S2P Require Import SysState.
From S2P Require Import Token.
From S2P Require Import Votes.
From S2P Require Import Exchange.
From S2P Require Import RexPool.
From S2P Require Import Solvency.
From S2P Require Import Producers.
From S2P Require Import Rotation.
From S2P Require Import BlockInfo.
From S2P Require Import NameBid.
From S2P Require Import Voting.
From S2P Require Import Pay.
From stdpp Require Import base gmap strings list sorting relations.
Open Scope Z_scope.

Inductive pay_action :=
| Onblock (timestamp : Z) (producer : name) (previous_block_id : list Z)
| Claimrewards (owner : name).

Definition pay_exec `{cdt : Cdt} `{libm : Libm} `{host : Host} (e : Env) (a : pay_action) : M sys unit :=
  match a with
  | Onblock t p id => onblock e t p id
  | Claimrewards o => claimrewards e o
  end.

(** [eosio] and [eosio.bpay] are the contract's own accounts. *)
Definition pay_args (e : Env) (a : pay_action) : Prop :=
  self e = eosio_account /\ match a with Claimrewards o => o <> bpay_account | _ => True end.

Inductive pay_step `{cdt : Cdt} `{libm : Libm} `{host : Host} : relation sys :=
| pay_step_intro e a s u s' : pay_args e a -> pay_exec e a s = Ok (u, s') -> pay_step s s'.

Definition owed (p : payment_info) : Z := amount (Payment.pay p).

(** The bucket and the payments, less the tokens sent to [eosio.bpay]. *)
Definition pay_gap (y : symbol) (s : sys) : Z :=
  (Global.perblock_bucket (gstate s) + msum owed (payments s) - flow bpay_account y (effects s)) mod 2 ^ 64.

(** Payments are in the core token. *)
Definition pay_ok (y : symbol) (s : sys) : Prop :=
  core_of s = Some y /\ map_Forall (fun _ p => asset_symbol (Payment.pay p) = y) (payments s).

Definition pay_kept (y : symbol) (s s' : sys) : Prop :=
  pay_ok y s -> pay_ok y s' /\ pay_gap y s' = pay_gap y s.

(** What the two are made of. *)
Definition pay_view (y : symbol) (s : sys) :=
  (Global.perblock_bucket (gstate s), payments s, core_of s, flow bpay_account y (effects s)).

#[export] Instance pay_kept_preorder y : PreOrder (pay_kept y).
Proof.
  split; [done|]. intros s1 s2 s3 H1 H2 Hok. destruct (H1 Hok) as [Hok2 <-]. apply H2, Hok2.
Qed.

Lemma pay_kept_view y s s' : pay_view y s' = pay_view y s -> pay_kept y s s'.
Proof.
  unfold pay_view. intros [= Hb Hp Hm Hf] [Hc Hall]. unfold pay_ok, pay_gap in *.
  rewrite Hb, Hp, Hm, Hf. done.
Qed.

(** What the pay relies on of the price oracle: its averages are unsigned. *)
Class OracleLaws (host : Host) : Prop := {
  oracle_unsigned : Forall (fun a => 0 <= a.2) oracle_averages;
}.

Section pay_ledger.
Context `{cdt : Cdt} `{!CdtLaws cdt} `{libm : Libm} `{!LibmLaws libm} `{host : Host} `{!OracleLaws host}.
Context (e : Env) (y : symbol).
Implicit Types s : sys.

Ltac pay_frame_with tac :=
  unfold find_row, set_producer, get_producer, get_voter, find_voter, set_voter, modify_metrics, set_last_caller,
    set_correction, get_pool, set_pool;
  solve_respects_with tac.
Ltac pay_frame := pay_frame_with fail.

Lemma send_pay x : flow_of bpay_account y x = 0 -> keeps (pay_view y) (send x).
Proof.
  intros Hx s u s' H. unfold send in H. minv H. unfold pay_view. cbn. rewrite flow_snoc, Hx. f_equal. lia.
Qed.

Lemma update_votes_pay n p l b : keeps (pay_view y) (update_votes e n p l b).
Proof. intros s u s' H%update_votes_votes_only. by destruct H as (? & ? & ? & ? & ->). Qed.
Hint Resolve update_votes_pay : respects.

Lemma recalculate_votes_pay : keeps (pay_view y) (recalculate_votes e).
Proof.
  unfold recalculate_votes, recalculate_one. pay_frame.
Qed.

Lemma reset_schedule_metrics_pay n : keeps (pay_view y) (reset_schedule_metrics n).
Proof. unfold reset_schedule_metrics. pay_frame. Qed.
Lemma restart_missed_pay l : keeps (pay_view y) (restart_missed_blocks_per_rotation l).
Proof. unfold restart_missed_blocks_per_rotation. pay_frame. Qed.
Hint Resolve recalculate_votes_pay reset_schedule_metrics_pay restart_missed_pay : respects.
Lemma update_elected_producers_pay t : keeps (pay_view y) (update_elected_producers t).
Proof.
  unfold update_elected_producers, check_rotation_state, rotation_iterators, set_bps_rotation, update_rotation_time.
  pay_frame_with ltac:(by apply send_pay).
Qed.
Hint Resolve update_elected_producers_pay : respects.

Lemma check_missed_blocks_pay t n : keeps (pay_view y) (check_missed_blocks t n).
Proof.
  unfold check_missed_blocks, is_new_schedule_activated, correct_counters, count_block, update_producer_missed_blocks.
  pay_frame.
Qed.
Lemma kick_worst_pay size max l : keeps (pay_view y) (kick_worst e size max l).
Proof.
  revert max. induction l as [|p l IH]; intros max; cbn; [apply respects_ret; apply _|].
  pay_frame_with ltac:(apply IH).
Qed.
Hint Resolve check_missed_blocks_pay kick_worst_pay : respects.
Lemma update_missed_pay : keeps (pay_view y) (update_missed_blocks_per_rotation e).
Proof. unfold update_missed_blocks_per_rotation, count_missed. pay_frame. Qed.
Hint Resolve update_missed_pay : respects.

Lemma close_auction_pay t : keeps (pay_view y) (close_auction e t).
Proof. unfold close_auction, channel_namebid_to_rex. pay_frame. Qed.
Lemma count_produced_pay n : keeps (pay_view y) (count_produced n).
Proof. unfold count_produced. pay_frame. Qed.
Hint Resolve close_auction_pay count_produced_pay : respects.

Lemma find_average_nonneg ty a : find (fun a => a.1 =? ty) oracle_averages = Some a -> 0 <= a.2.
Proof.
  intros [Hin _]%find_some. pose proof oracle_unsigned as Hall. rewrite Forall_forall in Hall.
  by apply Hall, list_elem_of_In.
Qed.

Lemma average_price_nonneg : 0 <= get_telos_average_price.
Proof.
  unfold get_telos_average_price. cbv zeta.
  destruct (find (fun a => a.1 =? 2) oracle_averages) as [[??]|] eqn:H2; [by apply find_average_nonneg in H2|].
  destruct (find (fun a => a.1 =? 1) oracle_averages) as [[??]|] eqn:H1; [by apply find_average_nonneg in H1|].
  destruct (find (fun a => a.1 =? 0) oracle_averages) as [[??]|] eqn:H0; [by apply find_average_nonneg in H0|done].
Qed.

(** The producers' share of new tokens is never negative. *)
Lemma tokens_due_nonneg worker usecs price w p :
  0 <= usecs -> 0 <= price -> tokens_due worker usecs price = Ok (w, p) -> 0 <= p.
Proof.
  intros Hu Hp H. unfold tokens_due in H. destruct (dto_i64 _) as [w'|] in H; [|done].
  cbv zeta in H. match type of H with match ?x with _ => _ end = _ => destruct x as [p'|] eqn:Hd; [|done] end.
  injection H as -> ->. eapply dto_i64_nonneg; [|exact Hd].
  apply ddiv_nonneg; [|by apply dint_nonneg]. repeat (apply dmul_nonneg); try (apply dint_nonneg; lia).
  apply dmin_nonneg; [|by apply dint_nonneg]. apply dmul_nonneg; [by apply dint_nonneg|]. apply pow_nonneg.
  apply ddiv_nonneg; by apply dint_nonneg.
Qed.

Lemma core_pay s c s' : pay_ok y s -> core_symbol s = Ok (c, s') -> c = y /\ s' = s.
Proof. intros [Hc _] [Hc' ->]%core_symbol_Ok. split; congruence. Qed.

Lemma fill_bucket_kept usecs : self e = eosio_account -> 0 <= usecs -> respects (pay_kept y) (fill_bucket e usecs).
Proof.
  intros Hself Hu s u s' H Hok. unfold fill_bucket in H. apply bind_Ok in H as (r & s1 & [-> ->]%gets_Ok & H).
  apply bind_Ok in H as ([w p] & s1 & [Hdue ->]%lift_Ok & H).
  apply tokens_due_nonneg in Hdue; [|done|apply average_price_nonneg].
  apply bind_Ok in H as (c & s1 & Hc & H). apply core_pay in Hc as [-> ->]; [|done].
  apply bind_Ok in H as (b & s1 & [_ ->]%lift_Ok & H). destruct (split_issue _ _) as [tr iss]. cbv zeta in H.
  rewrite Hself in H. unfold token_transfer in H.
  apply bind_Ok in H as ([] & s1 & H1 & H). apply bind_Ok in H as ([] & s2 & H2 & H). apply bind_Ok in H as ([] & s3 & H3 & H).
  apply bind_Ok in H as ([] & s4 & H4 & H).
  assert (forall x, flow_of bpay_account y x = 0 -> keeps (pay_view y) (send x)) as Hs by apply send_pay.
  assert (pay_view y s3 = pay_view y s) as Hv.
  { trans (pay_view y s2); [revert H3|trans (pay_view y s1); [revert H2|revert H1]].
    all: match goal with |- ?m _ = _ -> _ => assert (keeps (pay_view y) m) as Hm; [|apply Hm] end.
    all: solve_respects_with ltac:(apply Hs; cbn; by case_match). }
  assert (pay_kept y s s3) as Hk by by apply pay_kept_view. destruct (Hk Hok) as [Hok3 <-]. clear Hk Hv H1 H2 H3.
  apply modify_Ok in H as ->. apply when_Ok in H4. destruct (Z.ltb_spec 0 p).
  - unfold send in H4. minv H4. apply make_asset_Ok in Hres as (_ & _ & ->). split; [by destruct Hok3|].
    unfold pay_gap. cbn. rewrite flow_snoc. cbn. rewrite symbol_eqb_refl. mod64.
  - subst s4. split; [by destruct Hok3|]. assert (p = 0) as -> by lia. unfold pay_gap. cbn. mod64.
Qed.

Lemma record_pay_Ok n z s u s' :
  pay_ok y s -> record_pay n z s = Ok (u, s') ->
  exists m, s' = s <| payments := m |> /\ pay_ok y s' /\ msum owed m = msum owed (payments s) + z.
Proof.
  intros Hok H. pose proof Hok as [Hc Hall]. unfold record_pay, find_row in H.
  apply bind_Ok in H as (itr & s1 & [-> ->]%gets_Ok & H). apply bind_Ok in H as (c & s1 & Hcore & H).
  apply core_pay in Hcore as [-> ->]; [|done]. apply bind_Ok in H as (a & s1 & [(_ & _ & ->)%make_asset_Ok ->]%lift_Ok & H).
  destruct (payments s !! n) as [p|] eqn:Hn; minv H.
  - apply asset_plus_Ok in Hres as (Hy & _ & ->). eexists. split; [reflexivity|]. split.
    + split; [done|]. cbn. by apply map_Forall_insert_2.
    + cbn. rewrite (msum_insert owed _ _ _ _ Hn). unfold owed. cbn. lia.
  - eexists. split; [reflexivity|]. split.
    + split; [done|]. cbn. by apply map_Forall_insert_2.
    + cbn. rewrite msum_insert_new by done. unfold owed at 1. cbn. lia.
Qed.

Lemma pay_one_kept n p z : respects (pay_kept y) (pay_one e n p z).
Proof.
  intros s u s' H Hok. unfold pay_one, set_producer in H. apply bind_Ok in H as ([] & s1 & ->%modify_Ok & H).
  apply bind_Ok in H as ([] & s1 & ->%modify_Ok & H).
  apply record_pay_Ok in H as (m & -> & Hok' & Hm); [|by destruct Hok].
  split; [done|]. unfold pay_gap. cbn in *. rewrite Hm. mod64.
Qed.

Lemma pay_ranks_kept v i rows : respects (pay_kept y) (pay_ranks e v i rows).
Proof.
  revert i. induction rows as [|[n p] rows IH]; intros i; cbn; [apply respects_ret; apply _|].
  destruct (negb _); [apply IH|]. destruct (rank_pay v (i + 1)) as [r|]; [|apply respects_ret; apply _].
  apply respects_bind; [apply _|apply respects_lift; apply _|intros z].
  apply respects_bind; [apply _|apply pay_one_kept|intros _; apply IH].
Qed.

Lemma claimrewards_snapshot_kept : self e = eosio_account -> respects (pay_kept y) (claimrewards_snapshot e).
Proof.
  intros Hself. unfold claimrewards_snapshot, share_bucket.
  apply respects_bind; [apply _|apply respects_gets; apply _|intros g].
  apply respects_bind; [apply _|apply respects_check; apply _|intros _].
  destruct (_ <=? 0); [apply respects_ret; apply _|].
  apply respects_bind; [apply _| |intros _].
  - destruct ((0 <? i64 (now_us e - Global.last_pervote_bucket_fill g)) && _) eqn:Hpos; [|apply respects_ret; apply _].
    apply andb_true_iff in Hpos as [Hpos%Z.ltb_lt _]. apply fill_bucket_kept; [done|lia].
  - apply respects_bind; [apply _|apply respects_gets; apply _|intros rows].
    apply respects_bind; [apply _|apply respects_gets; apply _|intros g']. apply pay_ranks_kept.
Qed.

Lemma keeps_pay {A} (m : M sys A) : keeps (pay_view y) m -> respects (pay_kept y) m.
Proof. intros Hm s a s' H. by eapply pay_kept_view, Hm. Qed.

Lemma onblock_kept t p id : self e = eosio_account -> respects (pay_kept y) (onblock e t p id).
Proof.
  intros Hself. pose proof (claimrewards_snapshot_kept Hself) as Hsnap.
  unfold onblock, onblock_active, add_to_blockinfo_table, find_row.
  solve_respects_with ltac:(first [apply Hsnap | apply keeps_pay; eauto with respects]).
  all: by apply pay_kept_view.
Qed.

Lemma claimrewards_kept o : self e = eosio_account -> o <> bpay_account -> respects (pay_kept y) (claimrewards e o).
Proof.
  intros Hself Ho s u s' H Hok. pose proof Hok as [Hc Hall]. unfold claimrewards, find_row, get_producer in H.
  unfold token_transfer, send in H. minv H.
  match goal with Hp : find_row producers _ _ = _ |- _ => unfold find_row in Hp; minv Hp end.
  match goal with Hp : payments s !! o = Some ?q |- _ => rename q into pm, Hp into Hpm end.
  split; [split; [done|]; cbn; by apply map_Forall_delete|].
  unfold pay_gap. cbn. rewrite flow_snoc, (msum_delete owed _ _ _ Hpm). cbn.
  rewrite (Hall _ _ Hpm), symbol_eqb_refl, (proj2 (Z.eqb_neq o bpay_account) Ho).
  change (owed pm) with (amount (Payment.pay pm)). mod64.
Qed.
End pay_ledger.

Section pay_runs.
Context `{cdt : Cdt} `{!CdtLaws cdt} `{libm : Libm} `{!LibmLaws libm} `{host : Host} `{!OracleLaws host} (y : symbol).

(** C10: over any run of blocks and claims, the tokens sent to [eosio.bpay] less those paid
    out of it are the change of the block bucket and the payments recorded (as 64-bit
    counters), and payments stay in the core token. *)
Theorem producer_pay_is_backed s s' :
  pay_ok y s -> rtc pay_step s s' -> pay_ok y s' /\ pay_gap y s' = pay_gap y s.
Proof.
  intros Hok Hsteps. revert Hok. change (pay_kept y s s').
  induction Hsteps as [s|s s1 s2 Hstep _ IH]; [done|]. etrans; [|exact IH]. clear IH.
  destruct Hstep as [e a s u s1 [Hself Ha] H]. destruct a as [t p id|o]; cbn [pay_exec] in H.
  - exact (onblock_kept e y t p id Hself s u s1 H).
  - exact (claimrewards_kept e y o Hself Ha s u s1 H).
Qed.
End pay_runs.

(** ** The shares of a snapshot *)

(** Whom the second loop of the snapshot pays: the active producers from the top of the
    index, as many as there are ranks. *)
Definition paid_producers (rows : list (name * producer_info)) : list producer_info :=
  take (Z.to_nat MAX_PRODUCERS) (List.filter Producer.is_active (map snd rows)).
Definition owed_to (n : name) (s : sys) : Z := from_option owed 0 (payments s !! n).
Definition block_bucket (s : sys) : Z := Global.perblock_bucket (gstate s).

(** From [s] to [s'], the producers [paid] got the pay of their ranks, from [first] on. *)
Record ranks_paid (share : double) (first : Z) (paid : list producer_info) (amounts : list Z) (s s' : sys) : Prop := {
  paid_all : length amounts = length paid;
  paid_rank : forall k z, amounts !! k = Some z -> rank_pay share (first + Z.of_nat k) = Some (Ok z);
  paid_owed : forall n, owed_to n s' = owed_to n s + zsum (fun x => if Producer.owner x.1 =? n then x.2 else 0) (zip paid amounts);
  paid_bucket : block_bucket s' mod 2 ^ 64 = (block_bucket s - zsum id amounts) mod 2 ^ 64;
  paid_range : in_i64 (block_bucket s) -> in_i64 (block_bucket s');
}.

Section shares.
Context `{cdt : Cdt} `{!CdtLaws cdt} `{libm : Libm} `{host : Host} (e : Env) (y : symbol).
Implicit Types s : sys.

Lemma record_pay_owed n z s u s' :
  pay_ok y s -> record_pay n z s = Ok (u, s') ->
  pay_ok y s' /\ gstate s' = gstate s /\ producers s' = producers s /\
  (forall k, owed_to k s' = owed_to k s + if n =? k then z else 0).
Proof.
  intros Hok H. destruct (record_pay_Ok y n z s u s' Hok H) as (_ & _ & Hok' & _). split; [done|]. unfold record_pay, find_row in H.
  apply bind_Ok in H as (itr & s1 & [-> ->]%gets_Ok & H). apply bind_Ok in H as (c & s1 & Hcore & H).
  apply (core_pay y) in Hcore as [-> ->]; [|done]. apply bind_Ok in H as (a & s1 & [(_ & _ & ->)%make_asset_Ok ->]%lift_Ok & H).
  unfold owed_to. destruct (payments s !! n) as [p|] eqn:Hn; minv H; (split; [done|]; split; [done|]); intros k; cbn;
    (destruct (Z.eqb_spec n k) as [->|Hne]; [rewrite lookup_insert_eq, Hn|rewrite lookup_insert_ne by done; lia]).
  - by apply asset_plus_Ok in Hres as (_ & _ & ->).
  - done.
Qed.

(** What the loop pays is what the ranks from [index + 1] on are paid. *)
Lemma pay_ranks_paid share rows : forall index s u s', 0 <= index <= MAX_PRODUCERS -> pay_ok y s ->
  pay_ranks e share index rows s = Ok (u, s') ->
  pay_ok y s' /\ exists amounts,
    ranks_paid share (index + 1) (take (Z.to_nat (MAX_PRODUCERS - index)) (List.filter Producer.is_active (map snd rows))) amounts s s'.
Proof.
  assert (forall index s, ranks_paid share (index + 1) [] [] s s) as Hnone.
  { intros index s. split; [done|done|intros n; change (owed_to n s = owed_to n s + 0); lia|by rewrite Z.sub_0_r|done]. }
  induction rows as [|[n p] rows IH]; intros index s u s' Hi Hok H; cbn [pay_ranks] in H.
  { apply ret_Ok in H as [_ ->]. split; [done|]. exists []. cbn. by rewrite take_nil. }
  cbn [map snd List.filter]. destruct (Producer.is_active p); cbn [negb] in H; [|by apply IH in H].
  cbv zeta in H. destruct (rank_pay share (index + 1)) as [r|] eqn:Hrank.
  - assert (index + 1 <= MAX_PRODUCERS) as Hlt.
    { unfold rank_pay in Hrank. destruct (Z.leb_spec (index + 1) 21); [unfold MAX_PRODUCERS, TOP_PRODUCERS; lia|].
      destruct (Z.leb_spec (index + 1) MAX_PRODUCERS); [done|]. by rewrite andb_false_r in Hrank. }
    apply bind_Ok in H as (z & s1 & [-> ->]%lift_Ok & H). apply bind_Ok in H as (v & s2 & Hone & H).
    unfold pay_one, set_producer in Hone. apply bind_Ok in Hone as ([] & s3 & ->%modify_Ok & Hone).
    apply bind_Ok in Hone as ([] & s3 & ->%modify_Ok & Hone).
    apply record_pay_owed in Hone as (Hok2 & Hg & _ & Howed); [|exact Hok].
    apply IH in H as (Hok' & amounts & [Hl Hr Ho Hb Hw]); [|lia|done]. split; [done|]. exists (z :: amounts).
    replace (Z.to_nat (MAX_PRODUCERS - index)) with (S (Z.to_nat (MAX_PRODUCERS - (index + 1)))) by lia. cbn [take]. split.
    + cbn. by rewrite Hl.
    + intros [|k] z' Hk; cbn in Hk; [injection Hk as <-; by rewrite Z.add_0_r|]. rewrite <- (Hr k z' Hk). f_equal. lia.
    + intros m. cbn [zip zip_with]. rewrite zsum_cons. cbn [fst snd]. rewrite Ho, Howed. unfold owed_to. cbn. lia.
    + rewrite Hb. unfold block_bucket. rewrite Hg, zsum_cons. cbn. generalize (Global.perblock_bucket (gstate s)), (zsum id amounts). clear. intros. mod64.
    + intros _. apply Hw. unfold block_bucket. rewrite Hg. apply i64_range.
  - apply ret_Ok in H as [_ ->]. split; [done|]. exists [].
    assert (index = MAX_PRODUCERS) as ->.
    { unfold rank_pay in Hrank. destruct (Z.leb_spec (index + 1) 21); [done|]. destruct (Z.leb_spec 22 (index + 1)); [|lia].
      destruct (Z.leb_spec (index + 1) MAX_PRODUCERS); [done|]. lia. }
    rewrite Z.sub_diag. apply Hnone.
Qed.

Lemma count_active_range rows : forall acc, 0 <= acc <= MAX_PRODUCERS ->
  acc <= count_active rows acc <= MAX_PRODUCERS /\
  count_active rows acc <= acc + Z.of_nat (length (List.filter Producer.is_active (map snd rows))).
Proof.
  induction rows as [|[n p] rows IH]; intros acc Ha; cbn [count_active map snd List.filter]; [cbn; lia|].
  destruct (Producer.is_active p); cbn [andb]; [|cbn [length]; lia]. cbn [length]. destruct (Z.ltb_spec acc MAX_PRODUCERS); [|lia].
  destruct (IH (acc + 1)); lia.
Qed.

(** Nobody is paid less than nothing. *)
Lemma multipliers_nonneg a : 1 <= a <= MAX_PRODUCERS -> dnonneg (sum_of_multipliers a) = true.
Proof.
  intros Ha. assert (forallb (fun k => dnonneg (sum_of_multipliers (Z.of_nat k))) (seq 1 35) = true) as H by (vm_compute; reflexivity).
  rewrite forallb_forall in H. rewrite <- (Z2Nat.id a) by lia. apply H, in_seq. unfold MAX_PRODUCERS in Ha. lia.
Qed.
Lemma rank_pay_nonneg share index z : dnonneg share = true -> 1 <= index -> rank_pay share index = Some (Ok z) -> 0 <= z.
Proof.
  intros Hs Hi H. unfold rank_pay in H.
  assert (forallb (fun k => dnonneg (ddiv (dsub (dint 122) (dmul (dint 2) (dint (Z.of_nat k)))) (dint 100))) (seq 0 22) &&
    forallb (fun k => dnonneg (ddiv (dsub (dint 164) (dmul (dint 2) (dint (Z.of_nat k)))) (dint 100))) (seq 0 36) = true) as Hf
    by (vm_compute; reflexivity).
  apply andb_true_iff in Hf as [H1 H2]. rewrite forallb_forall in H1, H2. rewrite <- (Z2Nat.id index) in H by lia.
  destruct (Z.leb_spec (Z.of_nat (Z.to_nat index)) 21) as [H21|H21]; [|destruct (_ && _) eqn:Hr; [|done]; apply andb_true_iff in Hr as [_ Hr%Z.leb_le]];
    apply (inj Some) in H; eapply dto_i64_nonneg; [|exact H| |exact H].
  - apply dmul_nonneg; [apply dmul_nonneg; [done|by apply dint_nonneg]|]. apply H1, in_seq. lia.
  - apply dmul_nonneg; [done|]. apply H2, in_seq. unfold MAX_PRODUCERS in Hr. lia.
Qed.

(** The fill before a snapshot, where it is due. *)
Definition fill_due (s : sys) : M sys unit :=
  let usecs := i64 (now_us e - Global.last_pervote_bucket_fill (gstate s)) in
  when ((0 <? usecs) && (0 <? Global.last_pervote_bucket_fill (gstate s))) (fill_bucket e usecs).
Lemma fill_bucket_producers usecs : keeps producers (fill_bucket e usecs).
Proof. unfold fill_bucket, core_symbol, get_core_symbol, token_transfer, send. solve_respects. Qed.

End shares.

(** ** Examples *)
Definition ex_host : Host := {|
  set_proposed_producers _ := Ok None;
  get_active_producers := [];
  authority_is_valid _ := true;
  oracle_averages := [(2, 500)];
  tedp_payouts := [];
  token_ledger := token_init <| accounts := {[ (tedp_account, sym_code core) := Account (tlos 1000) ]} |>;
|}.
#[export] Instance ex_oracle_laws : OracleLaws ex_host.
Proof. split. apply Forall_singleton. cbn. lia. Qed.

Definition ex_pay_sys : sys :=
  ex_chain_sys <| producers := {[ 10 := (ex_producer 10 true) <| Producer.total_votes := dint 100 |> ]} |>
    <| gpayrate := PayRates.mk 0 10000000000 |>
    <| gstate ::= fun g => g <| Global.thresh_activated_stake_time := 1600000000000000 |>
       <| Global.last_producer_schedule_update := 1506630400 |> <| Global.total_unpaid_blocks := 10 |>
       <| Global.perblock_bucket := 0 |> <| Global.last_pervote_bucket_fill := 1699999000000000 |> |>.

Lemma producer_pay_is_backed_witness :
  exists s', pay_ok core s' /\ pay_gap core s' = 0 /\ (0 <? msum owed (payments s')) = true /\
    (0 <? flow bpay_account core (effects s')) = true.
Proof.
  set (e := ex_env_of eosio_account 1700000000000000). set (a := Onblock 1506630400 10 [0; 0; 0; 5]).
  assert (match pay_exec (cdt := cdt_model) (libm := libm_model) (host := ex_host) e a ex_pay_sys with
          | Ok (_, s') => (0 <? msum owed (payments s')) && (0 <? flow bpay_account core (effects s'))
          | Err _ => false end = true) as Hpos by (vm_compute; reflexivity).
  destruct (pay_exec (cdt := cdt_model) (libm := libm_model) (host := ex_host) e a ex_pay_sys) as [[u s']|] eqn:H;
    [|discriminate].
  assert (rtc (pay_step (cdt := cdt_model) (libm := libm_model) (host := ex_host)) ex_pay_sys s') as Hrtc.
  { apply rtc_once. apply (pay_step_intro e a _ u); [split; [reflexivity|exact I]|exact H]. }
  assert (pay_ok core ex_pay_sys) as Hok by (split; [reflexivity|apply map_Forall_empty]).
  destruct (producer_pay_is_backed (cdt := cdt_model) (libm := libm_model) (host := ex_host) core ex_pay_sys s' Hok Hrtc)
    as [Hok' Hgap].
  apply andb_true_iff in Hpos as [Hp Hf].
  exists s'. split; [exact Hok'|]. split; [rewrite Hgap; vm_compute; reflexivity|]. split; [exact Hp|exact Hf].
Defined.

(** A block bucket to share among one producer with votes and one without, with an
    inactive producer between them in the index. *)
Definition ex_snapshot_sys : sys :=
  ex_chain_sys <| producers := {[ 10 := (ex_producer 10 true) <| Producer.total_votes := dint 100 |>;
                                  5 := ex_producer 5 false; 6 := ex_producer 6 true ]} |>
    <| gstate ::= fun g => g <| Global.thresh_activated_stake_time := 1600000000000000 |>
       <| Global.total_unpaid_blocks := 10 |> <| Global.perblock_bucket := 1000000 |> |>.

