(* ===== verification/Powerup.v ===== *)
(** * The PowerUp market (powerup.cpp)

    A market for temporary bandwidth: orders take a share of the weight of a resource
    for a number of days, at a price that grows with its utilization. What is not
    rented is held by [eosio.reserv]. *)
From S2P Require Import Prelude.
From S2P Require Import Cdt.
From S2P Require Import Float64.
From S2P Require Import SysState.
From S2P Require Import Exchange.
From S2P Require Import RexPool.
From stdpp Require Import base gmap strings list sorting relations.
Open Scope Z_scope.

Definition no_symbol : symbol := Symbol 0 0.
Definition no_asset : asset := Asset 0 no_symbol.
Definition is_default_asset (a : asset) : bool := (amount a =? 0) && symbol_eqb (asset_symbol a) no_symbol.

(** The default member values of the structs. *)
Definition default_resource : powerup_state_resource :=
  PowRes.mk 0 0 0 powerup_frac (powerup_frac / 100) 0 0 (dint 2) seconds_per_day no_asset no_asset 0 0 0.
Definition default_powerup_state : powerup_state := PowState.mk default_resource default_resource 30 no_asset.

(** [powerup_config_resource] and [powerup_config]. *)
Record powerup_config_resource := PowConfRes {
  current_weight_ratio : option Z;
  target_weight_ratio : option Z;
  assumed_stake_weight : option Z;
  target_timestamp : option Z;
  exponent : option double;
  decay_secs : option Z;
  min_price : option asset;
  max_price : option asset;
}.
Record powerup_config := PowConf {
  conf_net : powerup_config_resource;
  conf_cpu : powerup_config_resource;
  conf_days : option Z;
  conf_min_fee : option asset;
}.

Section powerup.
Context `{cdt : Cdt} `{libm : Libm} (e : Env).

(** ** Weights, utilization and fees *)

(** The resource, and the weight that becomes available. *)
Definition update_weight (now : Z) (res : powerup_state_resource) : result (powerup_state_resource * Z) :=
  let ratio :=
    if PowRes.target_timestamp res <=? now then Ok (PowRes.target_weight_ratio res)
    else
      match cdiv (i128 (i64 (PowRes.target_weight_ratio res - PowRes.initial_weight_ratio res) *
                        u32 (now - PowRes.initial_timestamp res)))
                 (u32 (PowRes.target_timestamp res - PowRes.initial_timestamp res)) with
      | Ok q => Ok (i64 (PowRes.initial_weight_ratio res + q))
      | Err m => Err m
      end in
  match ratio with
  | Err m => Err m
  | Ok weight_ratio =>
    match cdiv (i128 (PowRes.assumed_stake_weight res * powerup_frac)) weight_ratio with
    | Err m => Err m
    | Ok q =>
      let new_weight := i64 (q - PowRes.assumed_stake_weight res) in
      Ok (res <| PowRes.weight_ratio := weight_ratio |> <| PowRes.weight := new_weight |>,
          i64 (new_weight - PowRes.weight res))
    end
  end.

(** [std::clamp(d, 0, diff)]. *)
Definition clamp (d lo hi : Z) : Z := if d <? lo then lo else if hi <? d then hi else d.

Definition update_utilization (now : Z) (res : powerup_state_resource) : result powerup_state_resource :=
  if now <=? PowRes.utilization_timestamp res then Ok res
  else if PowRes.adjusted_utilization res <=? PowRes.utilization res then
    Ok (res <| PowRes.adjusted_utilization := PowRes.utilization res |> <| PowRes.utilization_timestamp := now |>)
  else
    let diff := i64 (PowRes.adjusted_utilization res - PowRes.utilization res) in
    let x := ddiv (dneg (dint (u32 (now - PowRes.utilization_timestamp res)))) (dint (PowRes.decay_secs res)) in
    match dto_i64 (dmul (dint diff) (dexp x)) with
    | Err m => Err m
    | Ok d => Ok (res <| PowRes.adjusted_utilization := i64 (PowRes.utilization res + clamp d 0 diff) |>
                      <| PowRes.utilization_timestamp := now |>)
    end.

Definition price_integral_delta (st : powerup_state_resource) (start_utilization end_utilization : Z) : double :=
  let coefficient := ddiv (dint (i64 (amount (PowRes.max_price st) - amount (PowRes.min_price st)))) (PowRes.exponent st) in
  let start_u := ddiv (dint start_utilization) (dint (PowRes.weight st)) in
  let end_u := ddiv (dint end_utilization) (dint (PowRes.weight st)) in
  let minp := dint (amount (PowRes.min_price st)) in
  dsub (dadd (dsub (dmul minp end_u) (dmul minp start_u)) (dmul coefficient (pow end_u (PowRes.exponent st))))
    (dmul coefficient (pow start_u (PowRes.exponent st))).

Definition price_function (st : powerup_state_resource) (utilization : Z) : double :=
  let new_exponent := dsub (PowRes.exponent st) (dint 1) in
  if dle new_exponent dzero then dint (amount (PowRes.max_price st))
  else dadd (dint (amount (PowRes.min_price st)))
         (dmul (dint (i64 (amount (PowRes.max_price st) - amount (PowRes.min_price st))))
            (pow (ddiv (dint utilization) (dint (PowRes.weight st))) new_exponent)).

Definition calc_powerup_fee (st : powerup_state_resource) (utilization_increase : Z) : result Z :=
  if utilization_increase <=? 0 then Ok 0
  else
    let start0 := PowRes.utilization st in
    let end_utilization := i64 (start0 + utilization_increase) in
    let adjusted := PowRes.adjusted_utilization st in
    let '(fee, start) :=
      if start0 <? adjusted then
        (dadd dzero (ddiv (dmul (price_function st adjusted)
           (dint (Z.min utilization_increase (i64 (adjusted - start0))))) (dint (PowRes.weight st))), adjusted)
      else (dzero, start0) in
    let fee := if start <? end_utilization then dadd fee (price_integral_delta st start end_utilization) else fee in
    dto_i64 (dceil fee).

(** ** Resources of accounts *)

Definition adjust_resources (payer account : name) (core_symbol : symbol) (net_delta cpu_delta : Z)
    (must_not_be_managed : bool) : M sys unit :=
  if (net_delta =? 0) && (cpu_delta =? 0) then mret tt
  else
    itr ← find_row userres account;
    tot ← match itr with
      | None =>
        net ← lift (make_asset net_delta core_symbol);
        cpu ← lift (make_asset cpu_delta core_symbol);
        mret (UserRes.mk account net cpu 0)
      | Some t => mret (t <| UserRes.net_weight ::= fun a => a <| amount ::= fun z => i64 (z + net_delta) |> |>
          <| UserRes.cpu_weight ::= fun a => a <| amount ::= fun z => i64 (z + cpu_delta) |> |>)
      end;
    modify (fun s => s <| userres ::= insert account tot |>) ;;
    check (0 <=? amount (UserRes.net_weight tot)) "insufficient staked total net bandwidth" ;;
    check (0 <=? amount (UserRes.cpu_weight tot)) "insufficient staked total cpu bandwidth" ;;
    vitr ← find_row voters account;
    let '(ram_managed, net_managed, cpu_managed) := managed_flags vitr in
    check (negb must_not_be_managed || (negb net_managed && negb cpu_managed))
      "something is managed which shouldn't be" ;;
    when (negb (net_managed && cpu_managed))
      ('(ram_bytes, net, cpu) ← get_resource_limits account;
       set_resource_limits account
         (if ram_managed : bool then ram_bytes
          else Z.max (i64 (UserRes.ram_bytes tot + ram_gift_bytes)) ram_bytes)
         (if net_managed : bool then net else amount (UserRes.net_weight tot))
         (if cpu_managed : bool then cpu else amount (UserRes.cpu_weight tot))) ;;
    when (user_resources_is_empty tot) (modify (fun s => s <| userres ::= delete account |>)).

(** ** The order queue *)

(** Expired orders give their weight back: the weights they free. *)
Fixpoint expire_orders (now : Z) (core_symbol : symbol) (max_items : nat) (freed : Z * Z) : M sys (Z * Z) :=
  match max_items with
  | O => mret freed
  | S max' =>
    rows ← gets (fun s => index_rows PowOrder.expires (powerup_orders s));
    match rows with
    | [] => mret freed
    | (id, o) :: _ =>
      if now <? PowOrder.expires o then mret freed
      else
        adjust_resources (self e) (PowOrder.owner o) core_symbol
          (i64 (- PowOrder.net_weight o)) (i64 (- PowOrder.cpu_weight o)) false ;;
        modify (fun s => s <| powerup_orders ::= delete id |>) ;;
        expire_orders now core_symbol max'
          (i64 (freed.1 + PowOrder.net_weight o), i64 (freed.2 + PowOrder.cpu_weight o))
    end
  end.

(** The state after the queue, and the weights that became available. *)
Definition process_powerup_queue (now : Z) (core_symbol : symbol) (state : powerup_state) (max_items : Z)
  : M sys (powerup_state * Z * Z) :=
  net ← lift (update_utilization now (PowState.net state));
  cpu ← lift (update_utilization now (PowState.cpu state));
  '(net_delta, cpu_delta) ← expire_orders now core_symbol (Z.to_nat max_items) (0, 0);
  '(net', dn) ← lift (update_weight now (net <| PowRes.utilization ::= fun z => i64 (z - net_delta) |>));
  '(cpu', dc) ← lift (update_weight now (cpu <| PowRes.utilization ::= fun z => i64 (z - cpu_delta) |>));
  mret (state <| PowState.net := net' |> <| PowState.cpu := cpu' |>, i64 (net_delta + dn), i64 (cpu_delta + dc)).

Definition set_powerup_state (state : powerup_state) : M sys unit :=
  modify (fun s => s <| powerup_state_sing := Some state |>).

(** ** Configuration *)

(** The [update] lambda of [cfgpowerup]: each value is the argument's, or the state's. *)
Definition configure (now : Z) (core_symbol : symbol) (st : powerup_state_resource) (args : powerup_config_resource)
  : M sys powerup_state_resource :=
  let current := default (if PowRes.weight_ratio st =? 0 then PowRes.initial_weight_ratio st
                          else PowRes.weight_ratio st) (current_weight_ratio args) in
  let target := default (PowRes.target_weight_ratio st) (target_weight_ratio args) in
  check (is_found (assumed_stake_weight args) || negb (PowRes.assumed_stake_weight st =? 0))
    "assumed_stake_weight does not have a default value" ;;
  let assumed := default (PowRes.assumed_stake_weight st) (assumed_stake_weight args) in
  target_ts ← (if current =? target then mret now
    else
      check (is_found (target_timestamp args) || negb (PowRes.target_timestamp st =? 0))
        "target_timestamp does not have a default value" ;;
      let t := default (PowRes.target_timestamp st) (target_timestamp args) in
      check (now <? t) "target_timestamp must be in the future" ;;
      mret t);
  let exp := default (PowRes.exponent st) (exponent args) in
  let decay := default (PowRes.decay_secs st) (decay_secs args) in
  check (is_found (max_price args) || negb (is_default_asset (PowRes.max_price st)))
    "max_price does not have a default value" ;;
  let maxp := default (PowRes.max_price st) (max_price args) in
  let minp := default (if is_default_asset (PowRes.min_price st) then maxp <| amount := 0 |>
                       else PowRes.min_price st) (min_price args) in
  check (0 <? current) "current_weight_ratio is too small" ;;
  check (current <=? powerup_frac) "current_weight_ratio is too large" ;;
  check (0 <? target) "target_weight_ratio is too small" ;;
  check (target <=? current) "weight can't grow over time" ;;
  check (1 <=? assumed) "assumed_stake_weight must be at least 1; a much larger value is recommended" ;;
  check (Z.quot (i128 (assumed * powerup_frac)) target <=? i64_max)
    "assumed_stake_weight/target_weight_ratio is too large" ;;
  check (dle (dint 1) exp) "exponent must be >= 1" ;;
  check (1 <=? decay) "decay_secs must be >= 1" ;;
  check (symbol_eqb (asset_symbol maxp) core_symbol) "max_price doesn't match core symbol" ;;
  check (0 <? amount maxp) "max_price must be positive" ;;
  check (symbol_eqb (asset_symbol minp) core_symbol) "min_price doesn't match core symbol" ;;
  check (0 <=? amount minp) "min_price must be non-negative" ;;
  check (amount minp <=? amount maxp) "min_price cannot exceed max_price" ;;
  check (negb (deq exp (dint 1)) || (amount minp =? amount maxp))
    "min_price and max_price must be the same if the exponent is 1" ;;
  mret (st <| PowRes.assumed_stake_weight := assumed |> <| PowRes.initial_weight_ratio := current |>
    <| PowRes.target_weight_ratio := target |> <| PowRes.initial_timestamp := now |>
    <| PowRes.target_timestamp := target_ts |> <| PowRes.exponent := exp |> <| PowRes.decay_secs := decay |>
    <| PowRes.min_price := minp |> <| PowRes.max_price := maxp |>).

(** Bringing a resource to the present before it is configured. *)
Definition refresh (now : Z) (exists_ : bool) (res : powerup_state_resource) : result (powerup_state_resource * Z) :=
  if exists_ then
    match update_utilization now res with Ok r => update_weight now r | Err m => Err m end
  else Ok (res <| PowRes.utilization_timestamp := now |>, 0).

Definition cap_adjusted (res : powerup_state_resource) : powerup_state_resource :=
  res <| PowRes.adjusted_utilization ::= fun a => Z.min a (PowRes.weight res) |>.

Definition cfgpowerup (args : powerup_config) : M sys unit :=
  require_auth e (self e) ;;
  let now := sec_of_us (now_us e) in
  core ← get_core_symbol;
  sing ← gets powerup_state_sing;
  let state := default default_powerup_state sing in
  check (is_account e reserve_account) "eosio.reserv account must first be created" ;;
  '(net0, dn0) ← lift (refresh now (is_found sing) (PowState.net state));
  '(cpu0, dc0) ← lift (refresh now (is_found sing) (PowState.cpu state));
  let days := default (PowState.powerup_days state) (conf_days args) in
  check (is_found (conf_min_fee args) || negb (is_default_asset (PowState.min_powerup_fee state)))
    "min_powerup_fee does not have a default value" ;;
  let min_fee := default (PowState.min_powerup_fee state) (conf_min_fee args) in
  check (0 <? days) "powerup_days must be > 0" ;;
  check (symbol_eqb (asset_symbol min_fee) core) "min_powerup_fee doesn't match core symbol" ;;
  check (0 <? amount min_fee) "min_powerup_fee must be positive" ;;
  net1 ← configure now core net0 (conf_net args);
  cpu1 ← configure now core cpu0 (conf_cpu args);
  '(net2, dn1) ← lift (update_weight now net1);
  '(cpu2, dc1) ← lift (update_weight now cpu1);
  check (PowRes.utilization net2 <=? PowRes.weight net2) "weight can't shrink below utilization" ;;
  check (PowRes.utilization cpu2 <=? PowRes.weight cpu2) "weight can't shrink below utilization" ;;
  adjust_resources (self e) reserve_account core (i64 (dn0 + dn1)) (i64 (dc0 + dc1)) true ;;
  set_powerup_state (PowState.mk (cap_adjusted net2) (cap_adjusted cpu2) days min_fee).

(** ** Renting *)

Definition powerupexec (user : name) (max : Z) : M sys unit :=
  require_auth e user ;;
  sing ← gets powerup_state_sing;
  state ← require_found sing "powerup hasn't been initialized";
  core ← get_core_symbol;
  '(state', net_delta, cpu_delta) ← process_powerup_queue (sec_of_us (now_us e)) core state max;
  adjust_resources (self e) reserve_account core net_delta cpu_delta true ;;
  set_powerup_state state'.

(** The [process] lambda of [powerup]: the amount rented, its fee, and the resource. *)
Definition rent_resource (frac : Z) (res : powerup_state_resource) : M sys (Z * Z * powerup_state_resource) :=
  if frac =? 0 then mret (0, 0, res)
  else
    let amt := i64 (Z.quot (i128 (frac * PowRes.weight res)) powerup_frac) in
    check (negb (PowRes.weight res =? 0)) "market doesn't have resources available" ;;
    check (i64 (PowRes.utilization res + amt) <=? PowRes.weight res) "market doesn't have enough resources available" ;;
    f ← lift (calc_powerup_fee res amt);
    check (0 <? f) "calculated fee is below minimum; try powering up with more resources" ;;
    mret (amt, f, res <| PowRes.utilization ::= fun z => i64 (z + amt) |>).

(** [orders.available_primary_key()]: one more than the last key. *)
Definition available_primary_key (m : gmap Z powerup_order) : Z :=
  match last (table_rows m) with Some (id, _) => id + 1 | None => 0 end.

Definition powerup (payer receiver : name) (days net_frac cpu_frac : Z) (max_payment : asset) : M sys unit :=
  require_auth e payer ;;
  sing ← gets powerup_state_sing;
  state ← require_found sing "powerup hasn't been initialized";
  let now := sec_of_us (now_us e) in
  core ← get_core_symbol;
  check (symbol_eqb (asset_symbol max_payment) core) "max_payment doesn't match core symbol" ;;
  check (days =? PowState.powerup_days state) "days doesn't match configuration" ;;
  check (0 <=? net_frac) "net_frac can't be negative" ;;
  check (0 <=? cpu_frac) "cpu_frac can't be negative" ;;
  check (net_frac <=? powerup_frac) "net can't be more than 100%" ;;
  check (cpu_frac <=? powerup_frac) "cpu can't be more than 100%" ;;
  '(state1, net_delta, cpu_delta) ← process_powerup_queue now core state 2;
  fee0 ← lift (make_asset 0 core);
  '(net_amount, nf, net') ← rent_resource net_frac (PowState.net state1);
  '(cpu_amount, cf, cpu') ← rent_resource cpu_frac (PowState.cpu state1);
  let fee := fee0 <| amount := i64 (nf + cf) |> in
  ok ← lift (asset_le fee max_payment);
  check ok "max_payment is less than calculated fee" ;;
  ok' ← lift (asset_le (PowState.min_powerup_fee state1) fee);
  check ok' "calculated fee is below minimum; try powering up with more resources" ;;
  modify (fun s => let id := available_primary_key (powerup_orders s) in s <| powerup_orders ::= insert id
    (PowOrder.mk id receiver net_amount cpu_amount (u32 (now + days * seconds_per_day))) |>) ;;
  adjust_resources payer receiver core net_amount cpu_amount true ;;
  adjust_resources (self e) reserve_account core (i64 (net_delta - net_amount)) (i64 (cpu_delta - cpu_amount)) true ;;
  channel_to_rex e payer fee true ;;
  set_powerup_state (state1 <| PowState.net := net' |> <| PowState.cpu := cpu' |>) ;;
  send (PowerupResult fee net_amount cpu_amount).
End powerup.

(** ** The books of the market *)

(** What an account has in its resource row; no row is nothing. *)
Definition net_of (a : name) (s : sys) : Z := from_option (fun r => amount (UserRes.net_weight r)) 0 (userres s !! a).
Definition cpu_of (a : name) (s : sys) : Z := from_option (fun r => amount (UserRes.cpu_weight r)) 0 (userres s !! a).
Definition power_state (s : sys) : powerup_state := default default_powerup_state (powerup_state_sing s).

(** What the orders rent to [eosio.reserv] itself: nothing forbids it as a receiver. *)
Definition to_reserve (f : powerup_order -> Z) (o : powerup_order) : Z :=
  if PowOrder.owner o =? reserve_account then f o else 0.
(** What the reserve holds of its own: its row without what it rents. *)
Definition free_net (s : sys) : Z := net_of reserve_account s - msum (to_reserve PowOrder.net_weight) (powerup_orders s).
Definition free_cpu (s : sys) : Z := cpu_of reserve_account s - msum (to_reserve PowOrder.cpu_weight) (powerup_orders s).

(** Utilization is what the orders rent, the rest is held by [eosio.reserv]: as 64-bit
    counters, which wrap. *)
Definition weighs (rented reserved : Z) (res : powerup_state_resource) : Prop :=
  PowRes.utilization res mod 2 ^ 64 = rented mod 2 ^ 64 /\
  (PowRes.weight res - PowRes.utilization res) mod 2 ^ 64 = reserved mod 2 ^ 64.
(** As numbers. *)
Definition weighs_exactly (rented reserved : Z) (res : powerup_state_resource) : Prop :=
  PowRes.utilization res = rented /\ PowRes.weight res - PowRes.utilization res = reserved.
Definition in_range (rented reserved : Z) (res : powerup_state_resource) : Prop :=
  in_i64 (PowRes.utilization res) /\ in_i64 rented /\ in_i64 (PowRes.weight res - PowRes.utilization res) /\ in_i64 reserved.

Definition rented_net (s : sys) : Z := msum PowOrder.net_weight (powerup_orders s).
Definition rented_cpu (s : sys) : Z := msum PowOrder.cpu_weight (powerup_orders s).

Record power_ok (s : sys) : Prop := {
  power_net : weighs (rented_net s) (free_net s) (PowState.net (power_state s));
  power_cpu : weighs (rented_cpu s) (free_cpu s) (PowState.cpu (power_state s));
}.

Lemma weighs_in_range rented reserved res :
  weighs rented reserved res -> in_range rented reserved res -> weighs_exactly rented reserved res.
Proof.
  intros [Hu Hw] (R1 & R2 & R3 & R4). split; [rewrite <- (i64_small (PowRes.utilization res)), <- (i64_small rented) by done|
    rewrite <- (i64_small (_ - _)), <- (i64_small reserved) by done]; by apply i64_mod.
Qed.

Section books.
Context `{cdt : Cdt} `{!CdtLaws cdt} `{libm : Libm} (e : Env).
Implicit Types s : sys.

Lemma adjust_resources_Ok payer a c dn dc b s u s' :
  adjust_resources payer a c dn dc b s = Ok (u, s') ->
  net_of a s' mod 2 ^ 64 = (net_of a s + dn) mod 2 ^ 64 /\
  cpu_of a s' mod 2 ^ 64 = (cpu_of a s + dc) mod 2 ^ 64 /\
  (forall k, k <> a -> userres s' !! k = userres s !! k) /\
  exists m l, s' = s <| userres := m |> <| limits := l |>.
Proof.
  unfold adjust_resources, find_row. destruct ((dn =? 0) && (dc =? 0)) eqn:Hz.
  { intros [_ ->]%ret_Ok. apply andb_true_iff in Hz as [->%Z.eqb_eq ->%Z.eqb_eq].
    rewrite !Z.add_0_r. split_and!; try done. exists (userres s), (limits s). by destruct s. }
  intros H. apply bind_Ok in H as (itr & s1 & [-> ->]%gets_Ok & H). apply bind_Ok in H as (tot & s1 & Htot & H).
  assert (s1 = s /\ amount (UserRes.net_weight tot) mod 2 ^ 64 = (net_of a s + dn) mod 2 ^ 64 /\
    amount (UserRes.cpu_weight tot) mod 2 ^ 64 = (cpu_of a s + dc) mod 2 ^ 64) as (-> & Hn & Hc).
  { unfold net_of, cpu_of. destruct (userres s !! a) as [r|]; minv Htot; cbn.
    - split; [done|]. split; mod64.
    - apply make_asset_Ok in Hres as (_ & _ & ->), Hres0 as (_ & _ & ->). done. }
  clear Htot. apply bind_Ok in H as ([] & s1 & ->%modify_Ok & H).
  apply bind_Ok in H as ([] & s1 & [_ ->]%check_Ok & H). apply bind_Ok in H as ([] & s1 & [_ ->]%check_Ok & H).
  apply bind_Ok in H as (v & s1 & [-> ->]%gets_Ok & H). destruct (managed_flags _) as [[rm nm] cm].
  apply bind_Ok in H as ([] & s1 & [_ ->]%check_Ok & H). apply bind_Ok in H as ([] & s1 & Hlim%when_Ok & H%when_Ok).
  assert (exists l, s1 = s <| userres ::= insert a tot |> <| limits := l |>) as [l ->].
  { destruct (negb (nm && cm)); [|exists (limits s); subst s1; by destruct s].
    unfold get_resource_limits, set_resource_limits in Hlim. apply bind_Ok in Hlim as ([[x1 x2] x3] & s2 & [_ ->]%gets_Ok & Hlim).
    apply modify_Ok in Hlim as ->. by eexists. }
  assert (exists m, s' = s <| userres := m |> <| limits := l |> /\
    m = if user_resources_is_empty tot then delete a (<[a:=tot]> (userres s)) else <[a:=tot]> (userres s)) as (m & -> & Hm).
  { destruct (user_resources_is_empty tot); [apply modify_Ok in H|]; subst s'; by eexists. }
  unfold net_of at 1, cpu_of at 1. cbn. subst m. destruct (user_resources_is_empty tot) eqn:Hemp.
  - unfold user_resources_is_empty in Hemp. apply andb_true_iff in Hemp as [[Hn0%Z.eqb_eq Hc0%Z.eqb_eq]%andb_true_iff _].
    rewrite lookup_delete_eq. cbn. rewrite Hn0 in Hn. rewrite Hc0 in Hc. split_and!; [done..| |by eexists _, _].
    intros k Hk. by rewrite lookup_delete_ne, lookup_insert_ne by done.
  - rewrite lookup_insert_eq. cbn. split_and!; [done..| |by eexists _, _].
    intros k Hk. by rewrite lookup_insert_ne by done.
Qed.

Lemma update_weight_Ok now r r' d :
  update_weight now r = Ok (r', d) ->
  PowRes.utilization r' = PowRes.utilization r /\ d mod 2 ^ 64 = (PowRes.weight r' - PowRes.weight r) mod 2 ^ 64.
Proof.
  unfold update_weight. cbv zeta. match goal with |- match ?x with _ => _ end = _ -> _ => destruct x as [ratio|]; [|done] end.
  destruct (cdiv _ _) as [q|]; [|done]. intros [= <- <-].
  cbn. split; [done|]. mod64.
Qed.

Lemma update_utilization_Ok now r r' :
  update_utilization now r = Ok r' ->
  PowRes.utilization r' = PowRes.utilization r /\ PowRes.weight r' = PowRes.weight r.
Proof.
  unfold update_utilization. destruct (_ <=? _); [by intros [= <-]|]. destruct (_ <=? _); [by intros [= <-]|].
  destruct (dto_i64 _); [|done]. by intros [= <-].
Qed.

(** Expired orders leave the table for the weights they free; what the reserve holds of its
    own stays. *)
Lemma expire_orders_Ok now c max : forall freed s r s',
  expire_orders e now c max freed s = Ok (r, s') ->
  (rented_net s' + r.1) mod 2 ^ 64 = (rented_net s + freed.1) mod 2 ^ 64 /\
  (rented_cpu s' + r.2) mod 2 ^ 64 = (rented_cpu s + freed.2) mod 2 ^ 64 /\
  free_net s' mod 2 ^ 64 = free_net s mod 2 ^ 64 /\ free_cpu s' mod 2 ^ 64 = free_cpu s mod 2 ^ 64.
Proof.
  induction max as [|max IH]; intros freed s r s' H; cbn in H; [apply ret_Ok in H as [-> ->]; done|].
  apply bind_Ok in H as (rows & s1 & [-> ->]%gets_Ok & H).
  destruct (index_rows _ _) as [|[id o] rest] eqn:Hrows; [apply ret_Ok in H as [-> ->]; done|].
  assert (powerup_orders s !! id = Some o) as Hid
    by (apply (elem_of_index_rows PowOrder.expires); rewrite Hrows; left).
  destruct (now <? PowOrder.expires o); [apply ret_Ok in H as [-> ->]; done|].
  apply bind_Ok in H as ([] & s1 & Hadj & H). apply adjust_resources_Ok in Hadj as (Hno & Hco & Hrest & m & l & ->).
  apply bind_Ok in H as ([] & s1 & ->%modify_Ok & H). apply IH in H as (Hn & Hc & Hfn & Hfc).
  unfold rented_net, rented_cpu, free_net, free_cpu, net_of, cpu_of in *. cbn in Hn, Hc, Hfn, Hfc, Hno, Hco, Hrest.
  rewrite Hn, Hc, Hfn, Hfc. rewrite !(msum_delete _ _ _ _ Hid). split; [clear; mod64|]. split; [clear; mod64|].
  assert (forall f, to_reserve f o = if PowOrder.owner o =? reserve_account then f o else 0) as Hown by done. rewrite !Hown.
  destruct (Z.eqb_spec (PowOrder.owner o) reserve_account) as [He|Hne].
  - rewrite He in *. revert Hno Hco. clear. intros Hno Hco. split; [revert Hno|revert Hco]; clear; mod64.
  - rewrite Hrest by done. clear. split; mod64.
Qed.

(** The queue, and what it makes available. *)
Lemma process_queue_Ok now c st max s st' dn dc s' :
  weighs (rented_net s) (free_net s) (PowState.net st) ->
  weighs (rented_cpu s) (free_cpu s) (PowState.cpu st) ->
  process_powerup_queue e now c st max s = Ok ((st', dn, dc), s') ->
  weighs (rented_net s') (free_net s' + dn) (PowState.net st') /\
  weighs (rented_cpu s') (free_cpu s' + dc) (PowState.cpu st').
Proof.
  intros [Hun Hwn] [Huc Hwc] H. unfold process_powerup_queue in H.
  apply bind_Ok in H as (n1 & s1 & [[Hn1 Hn1']%update_utilization_Ok ->]%lift_Ok & H).
  apply bind_Ok in H as (c1 & s1 & [[Hc1 Hc1']%update_utilization_Ok ->]%lift_Ok & H).
  apply bind_Ok in H as ([fn fc] & s1 & Hexp & H). apply expire_orders_Ok in Hexp as (Hn & Hc & Hrn & Hrc).
  apply bind_Ok in H as ([n2 en] & s2 & [[Hn2 Hen]%update_weight_Ok ->]%lift_Ok & H).
  apply bind_Ok in H as ([c2 ec] & s2 & [[Hc2 Hec]%update_weight_Ok ->]%lift_Ok & H).
  apply ret_Ok in H as [[= -> -> ->] ->]. cbn in *. unfold weighs.
  cbn. rewrite Hn2, Hc2, Hn1, Hc1. rewrite Hn1' in Hen. rewrite Hc1' in Hec.
  revert Hun Hwn Huc Hwc Hn Hc Hrn Hrc Hen Hec. clear.
  generalize (PowRes.utilization (PowState.net st)), (PowRes.utilization (PowState.cpu st)),
    (PowRes.weight (PowState.net st)), (PowRes.weight (PowState.cpu st)), (PowRes.weight n2), (PowRes.weight c2),
    (free_net s), (free_cpu s), (free_net s1), (free_cpu s1), (rented_net s), (rented_cpu s), (rented_net s1), (rented_cpu s1).
  intros. split; split; mod64.
Qed.

Lemma available_primary_key_fresh (m : gmap Z powerup_order) : m !! available_primary_key m = None.
Proof.
  unfold available_primary_key. destruct (last (table_rows m)) as [[id v]|] eqn:Hlast.
  - destruct (m !! (id + 1)) as [w|] eqn:Hw; [|done]. exfalso.
    apply (elem_of_index_rows (fun _ => 0)) in Hw. apply last_Some in Hlast as [l Hl].
    pose proof (index_rows_sorted (fun _ => 0) m) as Hs. fold (table_rows m) in Hs, Hw. rewrite Hl in Hs, Hw.
    apply Sorted_StronglySorted in Hs; [|apply _].
    apply elem_of_app in Hw as [Hw|[= Hbad _]%list_elem_of_singleton]; [|lia].
    eapply StronglySorted_app_1_elem_of in Hs; [|exact Hw|by left]. unfold index_le in Hs. cbn in Hs. lia.
  - apply last_None in Hlast. apply index_rows_nil in Hlast as ->. done.
Qed.

Lemma channel_to_rex_view n q b :
  keeps (fun s => (powerup_orders s, userres s)) (channel_to_rex e n q b).
Proof.
  unfold channel_to_rex, token_transfer, send, add_to_rex_return_pool, update_rex_pool, get_pool, set_pool,
    get_ret_pool, set_ret_pool, get_buckets, set_buckets. solve_respects.
Qed.

Lemma rent_resource_Ok frac r s amt f r' s' :
  rent_resource frac r s = Ok ((amt, f, r'), s') ->
  s' = s /\ PowRes.weight r' = PowRes.weight r /\
  PowRes.utilization r' mod 2 ^ 64 = (PowRes.utilization r + amt) mod 2 ^ 64.
Proof.
  unfold rent_resource. destruct (frac =? 0).
  - intros [[= -> -> ->] ->]%ret_Ok. split; [done|]. split; [done|]. f_equal. lia.
  - intros H. minv H. injection E as -> -> ->. cbn. split; [done|]. split; [done|]. mod64.
Qed.

Lemma powerupexec_ok n max s u s' : power_ok s -> powerupexec e n max s = Ok (u, s') -> power_ok s'.
Proof.
  intros [Hn Hc] H. unfold powerupexec in H. apply bind_Ok in H as ([] & s1 & [_ ->]%check_Ok & H).
  apply bind_Ok in H as (sing & s1 & [-> ->]%gets_Ok & H).
  apply bind_Ok in H as (st & s1 & [Hst ->]%require_found_Ok & H). unfold power_state in Hn, Hc. rewrite Hst in Hn, Hc.
  apply bind_Ok in H as (c & s1 & [_ ->]%core_symbol_Ok & H). apply bind_Ok in H as ([[st' dn] dc] & s1 & Hq & H).
  apply process_queue_Ok in Hq as ([Hun Hwn] & [Huc Hwc]); [|done..].
  apply bind_Ok in H as ([] & s2 & Hadj & H). apply adjust_resources_Ok in Hadj as (Hrn & Hrc & _ & m & l & ->).
  unfold set_powerup_state in H. minv H. cbn in Hrn, Hrc.
  split; unfold weighs, rented_net, rented_cpu, free_net, free_cpu, power_state, net_of, cpu_of in *; cbn in *; split; try done.
  - revert Hwn Hrn. clear. mod64.
  - revert Hwc Hrc. clear. mod64.
Qed.

Lemma powerup_ok payer r days nf cf maxp s u s' :
  power_ok s -> powerup e payer r days nf cf maxp s = Ok (u, s') -> power_ok s'.
Proof.
  intros [Hn Hc] H. unfold powerup in H. apply bind_Ok in H as ([] & s1 & [_ ->]%check_Ok & H).
  apply bind_Ok in H as (sing & s1 & [-> ->]%gets_Ok & H).
  apply bind_Ok in H as (st & s1 & [Hst ->]%require_found_Ok & H). unfold power_state in Hn, Hc. rewrite Hst in Hn, Hc.
  apply bind_Ok in H as (c & s1 & [_ ->]%core_symbol_Ok & H).
  do 6 apply bind_Ok in H as ([] & ? & [_ ->]%check_Ok & H).
  apply bind_Ok in H as ([[st' dn] dc] & s1 & Hq & H).
  apply process_queue_Ok in Hq as ([Hun Hwn] & [Huc Hwc]); [|done..].
  apply bind_Ok in H as (fee0 & ? & [_ ->]%lift_Ok & H).
  apply bind_Ok in H as ([[na nfee] n'] & ? & (-> & Hnw & Hnu)%rent_resource_Ok & H).
  apply bind_Ok in H as ([[ca cfee] c'] & ? & (-> & Hcw & Hcu)%rent_resource_Ok & H). cbv zeta in H.
  do 2 (apply bind_Ok in H as (? & ? & [_ ->]%lift_Ok & H); apply bind_Ok in H as ([] & ? & [_ ->]%check_Ok & H)).
  apply bind_Ok in H as ([] & ? & ->%modify_Ok & H).
  apply bind_Ok in H as ([] & s2 & Hadj & H). apply adjust_resources_Ok in Hadj as (Hon & Hoc & Hrest & m & l & ->).
  apply bind_Ok in H as ([] & s3 & Hadj & H). apply adjust_resources_Ok in Hadj as (Hrn & Hrc & _ & m3 & l3 & ->).
  apply bind_Ok in H as ([] & s4 & Hch%channel_to_rex_view & H). injection Hch as Ho Hu.
  unfold set_powerup_state, send in H. minv H. specialize (Hrest reserve_account).
  unfold rented_net, rented_cpu, free_net, free_cpu, net_of, cpu_of in *. cbn in Hrn, Hrc, Hon, Hoc, Hrest, Ho, Hu.
  assert (powerup_orders s1 !! available_primary_key (powerup_orders s1) = None) as Hfresh
    by apply available_primary_key_fresh.
  assert (forall f, msum (to_reserve f) (<[available_primary_key (powerup_orders s1) :=
    PowOrder.mk (available_primary_key (powerup_orders s1)) r na ca (u32 (sec_of_us (now_us e) + days * seconds_per_day))]> (powerup_orders s1)) =
    (if r =? reserve_account then f (PowOrder.mk (available_primary_key (powerup_orders s1)) r na ca (u32 (sec_of_us (now_us e) + days * seconds_per_day))) else 0)
    + msum (to_reserve f) (powerup_orders s1)) as Hown by (intros f; by rewrite msum_insert_new).
  split; unfold weighs, rented_net, rented_cpu, free_net, free_cpu, power_state, net_of, cpu_of; cbn; rewrite ?Ho, ?Hu, Hown.
  - rewrite msum_insert_new by done. cbn. destruct (Z.eqb_spec r reserve_account) as [->|Hne].
    + revert Hun Hwn Hnw Hnu Hon Hrn. clear. intros. split; mod64.
    + rewrite Hrest in Hrn by done. revert Hun Hwn Hnw Hnu Hrn. clear. intros. split; mod64.
  - rewrite msum_insert_new by done. cbn. destruct (Z.eqb_spec r reserve_account) as [->|Hne].
    + revert Huc Hwc Hcw Hcu Hoc Hrc. clear. intros. split; mod64.
    + rewrite Hrest in Hrc by done. revert Huc Hwc Hcw Hcu Hrc. clear. intros. split; mod64.
Qed.

Lemma refresh_Ok now b r r' d :
  refresh now b r = Ok (r', d) ->
  PowRes.utilization r' = PowRes.utilization r /\ d mod 2 ^ 64 = (PowRes.weight r' - PowRes.weight r) mod 2 ^ 64.
Proof.
  unfold refresh. destruct b.
  - destruct (update_utilization now r) as [r1|] eqn:Hu; [|done]. apply update_utilization_Ok in Hu as [<- <-].
    apply update_weight_Ok.
  - intros [= <- <-]. cbn. split; [done|]. f_equal. lia.
Qed.

Lemma configure_Ok now c r args s r' s' :
  configure now c r args s = Ok (r', s') ->
  s' = s /\ PowRes.utilization r' = PowRes.utilization r /\ PowRes.weight r' = PowRes.weight r.
Proof.
  intros H. unfold configure in H. apply bind_Ok in H as ([] & s1 & [_ ->]%check_Ok & H).
  apply bind_Ok in H as (ts & s1 & Hts & H). assert (s1 = s) as -> by (destruct (_ =? _); by minv Hts).
  minv H. done.
Qed.

Lemma cfgpowerup_ok args s u s' : power_ok s -> cfgpowerup e args s = Ok (u, s') -> power_ok s'.
Proof.
  intros [Hn Hc] H. unfold cfgpowerup in H. apply bind_Ok in H as ([] & s1 & [_ ->]%check_Ok & H).
  apply bind_Ok in H as (c & s1 & [_ ->]%core_symbol_Ok & H). apply bind_Ok in H as (sing & s1 & [-> ->]%gets_Ok & H).
  cbv zeta in H. fold (power_state s) in H. apply bind_Ok in H as ([] & s1 & [_ ->]%check_Ok & H).
  apply bind_Ok in H as ([n0 dn0] & ? & [[Hn0 Hdn0]%refresh_Ok ->]%lift_Ok & H).
  apply bind_Ok in H as ([c0 dc0] & ? & [[Hc0 Hdc0]%refresh_Ok ->]%lift_Ok & H).
  do 4 apply bind_Ok in H as ([] & ? & [_ ->]%check_Ok & H).
  apply bind_Ok in H as (n1 & ? & (-> & Hn1 & Hwn1)%configure_Ok & H).
  apply bind_Ok in H as (c1 & ? & (-> & Hc1 & Hwc1)%configure_Ok & H).
  apply bind_Ok in H as ([n2 dn1] & ? & [[Hn2 Hdn1]%update_weight_Ok ->]%lift_Ok & H).
  apply bind_Ok in H as ([c2 dc1] & ? & [[Hc2 Hdc1]%update_weight_Ok ->]%lift_Ok & H).
  do 2 apply bind_Ok in H as ([] & ? & [_ ->]%check_Ok & H).
  apply bind_Ok in H as ([] & s2 & Hadj & H). apply adjust_resources_Ok in Hadj as (Hrn & Hrc & _ & m & l & ->).
  unfold set_powerup_state in H. minv H. cbn in Hrn, Hrc. rewrite Hwn1 in Hdn1. rewrite Hwc1 in Hdc1.
  split; unfold weighs, rented_net, rented_cpu, free_net, free_cpu, power_state, net_of, cpu_of in *; cbn in *.
  - rewrite Hn2, Hn1, Hn0. revert Hn Hdn0 Hdn1 Hrn. clear. intros [??] ???. split; mod64.
  - rewrite Hc2, Hc1, Hc0. revert Hc Hdc0 Hdc1 Hrc. clear. intros [??] ???. split; mod64.
Qed.
End books.

(** ** Runs of the market *)
Inductive power_action :=
| Cfgpowerup (args : powerup_config)
| Powerupexec (user : name) (max : Z)
| Powerup (payer receiver : name) (days net_frac cpu_frac : Z) (max_payment : asset).

Definition power_exec `{cdt : Cdt} `{libm : Libm} (e : Env) (a : power_action) : M sys unit :=
  match a with
  | Cfgpowerup args => cfgpowerup e args
  | Powerupexec n max => powerupexec e n max
  | Powerup p r d n c m => powerup e p r d n c m
  end.

Inductive power_step `{cdt : Cdt} `{libm : Libm} : relation sys :=
| power_step_intro e a s u s' : power_exec e a s = Ok (u, s') -> power_step s s'.

Section runs.
Context `{cdt : Cdt} `{!CdtLaws cdt} `{libm : Libm}.

Lemma power_step_ok s s' : power_step s s' -> power_ok s -> power_ok s'.
Proof.
  intros [e a s0 u s1 H] Hok. destruct a as [args|n max|p r d n c m]; cbn [power_exec] in H.
  - exact (cfgpowerup_ok e args s0 u s1 Hok H).
  - exact (powerupexec_ok e n max s0 u s1 Hok H).
  - exact (powerup_ok e p r d n c m s0 u s1 Hok H).
Qed.

(** C11: however the market is configured, rented from and swept, whoever pays and whoever
    receives, what it counts as used of each resource is what the open orders rent, and the
    rest is the weight [eosio.reserv] holds, not counting what it rents itself. The counters
    are of 64 bits and the equations hold modulo 2^64; where the numbers are within the
    range of the counters they hold exactly. *)
Theorem power_books_agree s s' : power_ok s -> rtc power_step s s' ->
  power_ok s' /\
  (in_range (rented_net s') (free_net s') (PowState.net (power_state s')) ->
   weighs_exactly (rented_net s') (free_net s') (PowState.net (power_state s'))) /\
  (in_range (rented_cpu s') (free_cpu s') (PowState.cpu (power_state s')) ->
   weighs_exactly (rented_cpu s') (free_cpu s') (PowState.cpu (power_state s'))).
Proof.
  intros Hok Hsteps. assert (power_ok s') as Hok'
    by (induction Hsteps as [s|s s1 s2 Hstep _ IH]; [done|]; by apply IH, (power_step_ok s)).
  split; [done|]. destruct Hok' as [Hn Hc]. split; by apply weighs_in_range.
Qed.
End runs.

(** the utilization used for pricing keeps the promise of its comment: it never falls
    below what is in use nor rises above where it was, whatever the decay computes, it
    equals what is in use when that is not below it, and time that has not passed changes
    nothing. *)
Theorem update_utilization_bounds `{libm : Libm} now r r' :
  in_i64 (PowRes.utilization r) -> in_i64 (PowRes.adjusted_utilization r) ->
  in_i64 (PowRes.adjusted_utilization r - PowRes.utilization r) ->
  update_utilization now r = Ok r' ->
  PowRes.utilization r' = PowRes.utilization r /\
  (now <= PowRes.utilization_timestamp r -> r' = r) /\
  (PowRes.utilization_timestamp r < now ->
   PowRes.utilization_timestamp r' = now /\
   PowRes.utilization r <= PowRes.adjusted_utilization r' <=
     Z.max (PowRes.utilization r) (PowRes.adjusted_utilization r)).
Proof.
  intros Hu Ha Hd H. pose proof H as [Hutil _]%update_utilization_Ok. split; [done|]. unfold update_utilization in H.
  destruct (Z.leb_spec now (PowRes.utilization_timestamp r)); [injection H as <-; split; [done|lia]|].
  split; [lia|]. intros _. destruct (Z.leb_spec (PowRes.adjusted_utilization r) (PowRes.utilization r)).
  - injection H as <-. cbn. split; [done|]. lia.
  - destruct (dto_i64 _) as [d|]; [|done]. injection H as <-. cbn. split; [done|].
    rewrite (i64_small (_ - _)) by done.
    assert (0 <= clamp d 0 (PowRes.adjusted_utilization r - PowRes.utilization r) <=
      PowRes.adjusted_utilization r - PowRes.utilization r)
      by (unfold clamp; destruct (Z.ltb_spec d 0), (Z.ltb_spec (PowRes.adjusted_utilization r - PowRes.utilization r) d); lia).
    unfold in_i64 in *. rewrite i64_small; unfold in_i64; lia.
Qed.

(** ** Examples *)
Definition ex_power_sys : sys :=
  blank_sys <| rammarket := Some ex_market |>
    <| rexpool := Some (RexPool.mk (Asset 0 core) (Asset 9000 core) (Asset 200000000 core) (Asset 9000 core)
                          (Asset 90000000 rex_symbol) (Asset 0 core) 0) |>.
Definition ex_conf_resource : powerup_config_resource :=
  PowConfRes (Some 100000000000000) (Some 100000000000000) (Some 1000000000) None None None None (Some (Asset 10000000 core)).
Definition ex_conf : powerup_config := PowConf ex_conf_resource ex_conf_resource None (Some (Asset 1 core)).
Definition ex_power_env (n : name) : Env := mkEnv eosio_account [active_of n] 1700000000000000 (fun _ => true).

(** The reserve is a receiver too. *)
Lemma power_books_agree_witness :
  exists s', power_ok s' /\ cpu_of 6 s' = 180000000 /\ rented_cpu s' = 270000000 /\ free_cpu s' = 8730000000 /\
    weighs_exactly (rented_cpu s') (free_cpu s') (PowState.cpu (power_state s')).
Proof.
  set (e0 := ex_power_env eosio_account). set (e1 := ex_power_env 5).
  set (a0 := Cfgpowerup ex_conf). set (a1 := Powerup 5 6 30 10000000000000 20000000000000 (Asset 1000000 core)).
  set (a2 := Powerup 5 reserve_account 30 10000000000000 10000000000000 (Asset 1000000 core)).
  set (ex := fun e a => power_exec (cdt := cdt_model) (libm := libm_model) e a).
  set (run := (ex e0 a0 ;; ex e1 a1 ;; ex e1 a2) ex_power_sys).
  set (in_range_b := fun z => (- 2 ^ 63 <=? z) && (z <? 2 ^ 63)).
  assert (match run with Ok (_, s') => (cpu_of 6 s' =? 180000000) && (rented_cpu s' =? 270000000) && (free_cpu s' =? 8730000000)
      && in_range_b (PowRes.utilization (PowState.cpu (power_state s')))
      && in_range_b (PowRes.weight (PowState.cpu (power_state s')) - PowRes.utilization (PowState.cpu (power_state s')))
    | Err _ => false end = true) as Hnum by (vm_compute; reflexivity).
  destruct run as [[u s3]|] eqn:H; [|discriminate]. unfold run in H.
  apply bind_Ok in H as (u1 & s1 & H1 & H). apply bind_Ok in H as (u2 & s2 & H2 & H3).
  assert (rtc (power_step (cdt := cdt_model) (libm := libm_model)) ex_power_sys s3) as Hrtc.
  { eapply rtc_l; [exact (power_step_intro e0 a0 _ u1 _ H1)|]. eapply rtc_l; [exact (power_step_intro e1 a1 _ u2 _ H2)|].
    apply rtc_once. exact (power_step_intro e1 a2 _ u _ H3). }
  assert (power_ok ex_power_sys) as Hok by (split; split; reflexivity).
  destruct (power_books_agree (cdt := cdt_model) (libm := libm_model) ex_power_sys s3 Hok Hrtc) as (Hok3 & _ & Hexact).
  apply andb_true_iff in Hnum as [Hnum Hr2]. apply andb_true_iff in Hnum as [Hnum Hr1].
  apply andb_true_iff in Hnum as [Hnum Hc%Z.eqb_eq]. apply andb_true_iff in Hnum as [Ha%Z.eqb_eq Hb%Z.eqb_eq].
  assert (forall z, in_range_b z = true -> in_i64 z) as Hin
    by (intros z Hz; apply andb_true_iff in Hz as [? ?]; unfold in_i64; lia).
  exists s3. split; [exact Hok3|]. split; [exact Ha|]. split; [exact Hb|]. split; [exact Hc|]. apply Hexact.
  split; [exact (Hin _ Hr1)|]. split; [rewrite Hb; unfold in_i64; lia|]. split; [exact (Hin _ Hr2)|rewrite Hc; unfold in_i64; lia].
Defined.

Lemma update_utilization_bounds_witness :
  exists r', update_utilization (libm := libm_model) 86400
      (default_resource <| PowRes.utilization := 100 |> <| PowRes.adjusted_utilization := 1000 |>) = Ok r' /\
    100 <= PowRes.adjusted_utilization r' <= 1000.
Proof.
  set (r := default_resource <| PowRes.utilization := 100 |> <| PowRes.adjusted_utilization := 1000 |>).
  destruct (update_utilization (libm := libm_model) 86400 r) as [r'|] eqn:H; [|vm_compute in H; discriminate].
  exists r'. split; [reflexivity|].
  assert (in_i64 100 /\ in_i64 1000 /\ in_i64 (1000 - 100)) as (H1 & H2 & H3) by (unfold in_i64; lia).
  destruct (update_utilization_bounds (libm := libm_model) 86400 r r' H1 H2 H3 H) as (_ & _ & Hb).
  exact (proj2 (Hb eq_refl)).
Defined.
