(* ===== verification/PriceOracle.v ===== *)
(** * The price oracle (libs/delphioracle/delphioracle.hpp)

    The header the system contract reads prices through carries a good part of the oracle
    contract: its tables, the check of who may push prices and how often, the ring of
    datapoints with its median, the votes the oracle casts, and what it does with tokens
    sent to it. The actions it only declares, among them [write], are not in the repository. *)
From S2P Require Import Prelude.
From S2P Require Import Cdt.
From S2P Require Import Float64.
From S2P Require Import SysState.
From S2P Require Import Votes.
From S2P Require Import Producers.
From S2P Require Import Powerup.
From stdpp Require Import base gmap strings list sorting relations.
Open Scope Z_scope.

(** ** Types *)
Inductive average_types := last_7_days | last_14_days | last_30_days | last_45_days | average_none.
Definition average_type (t : average_types) : Z :=
  match t with last_7_days => 0 | last_14_days => 1 | last_30_days => 2 | last_45_days => 3 | average_none => 255 end.
Inductive median_types := median_day | median_week | median_month | median_current_week | median_none.
Definition median_type (t : median_types) : Z :=
  match t with median_day => 0 | median_week => 1 | median_month => 2 | median_current_week => 4 | median_none => 255 end.

(** [symbol("TLOS", 4)] *)
Definition tlos_symbol : symbol := Symbol 1397703764 4.

(** [global]: the configuration, one row. *)
Module OGlobal.
Record global := mk {
  id : Z;
  total_datapoints_count : Z;
  total_claimed : asset;
  last_daily_average_run : Z;
  datapoints_per_instrument : Z;
  bars_per_instrument : Z;
  vote_interval : Z;
  write_cooldown : Z;
  approver_threshold : Z;
  approving_oracles_threshold : Z;
  approving_custodians_threshold : Z;
  minimum_rank : Z;
  paid : Z;
  min_bounty_delay : Z;
  new_bounty_delay : Z;
  daily_datapoints_per_instrument : Z;
  daily_average_timeout : Z;
}.
#[global] Instance eta : EtaRecord global := fun r =>
  mk (id r) (total_datapoints_count r) (total_claimed r) (last_daily_average_run r) (datapoints_per_instrument r)
    (bars_per_instrument r) (vote_interval r) (write_cooldown r) (approver_threshold r) (approving_oracles_threshold r)
    (approving_custodians_threshold r) (minimum_rank r) (paid r) (min_bounty_delay r) (new_bounty_delay r)
    (daily_datapoints_per_instrument r) (daily_average_timeout r).
(** The values a row starts with, under key [id]. *)
Definition initial (id count last : Z) : global :=
  mk id count (Asset 0 tlos_symbol) last 21 30 10000 (1000000 * 55) 1 1 1 105 21 604800 259200 45 3600.
End OGlobal.

(** [stats]: what an oracle contributed, to one pair or (in the contract's own scope) at all. *)
Module Stat.
Record stats := mk { owner : name; timestamp : Z; count : Z; last_claim : Z; balance : asset }.
#[global] Instance eta : EtaRecord stats := fun r => mk (owner r) (timestamp r) (count r) (last_claim r) (balance r).
(** [by_count]: the largest count first. *)
Definition by_count (r : stats) : Z := u64 (- count r).
End Stat.

(** [datapoints]: one slot of the ring of a pair. *)
Module Point.
Record datapoint := mk { id : Z; owner : name; value : Z; median : Z; timestamp : Z }.
#[global] Instance eta : EtaRecord datapoint := fun r => mk (id r) (owner r) (value r) (median r) (timestamp r).
Definition by_timestamp (r : datapoint) : Z := u64 (Z.quot (timestamp r) 1000000).
Definition by_value (r : datapoint) : Z := value r.
End Point.

Module Donation.
Record donation := mk { id : Z; donator : name; pair : name; timestamp : Z; amount : asset }.
Definition by_donator (r : donation) : Z := donator r.
End Donation.

Module OUser.
Record user := mk { user_name : name; contribution : asset; score : Z; creation_timestamp : Z }.
#[global] Instance eta : EtaRecord user := fun r => mk (user_name r) (contribution r) (score r) (creation_timestamp r).
Definition by_score (r : user) : Z := score r.
End OUser.

(** [pairs]: what is quoted, and the bounty collected for it. *)
Module Pair.
Record pair := mk {
  active : bool;
  bounty_awarded : bool;
  bounty_edited_by_custodians : bool;
  proposer : name;
  pair_name : name;
  bounty_amount : asset;
  approving_custodians : list name;
  approving_oracles : list name;
  base_symbol : symbol;
  base_type : Z;
  base_contract : name;
  quote_symbol : symbol;
  quote_type : Z;
  quote_contract : name;
  quoted_precision : Z;
}.
#[global] Instance eta : EtaRecord pair := fun r =>
  mk (active r) (bounty_awarded r) (bounty_edited_by_custodians r) (proposer r) (pair_name r) (bounty_amount r)
    (approving_custodians r) (approving_oracles r) (base_symbol r) (base_type r) (base_contract r) (quote_symbol r)
    (quote_type r) (quote_contract r) (quoted_precision r).
End Pair.

(** The tables, those with a scope by scope first, and the votes sent: voter, proxy, list. *)
Module Oracle.
Record oracle := mk {
  globals : gmap Z OGlobal.global;
  stats : gmap name (gmap name Stat.stats);
  datapoints : gmap name (gmap Z Point.datapoint);
  donations : gmap name (gmap Z Donation.donation);
  users : gmap name OUser.user;
  pairs : gmap name Pair.pair;
  flag_medians : option bool;
  votes_cast : list (name * name * list name);
}.
#[global] Instance eta : EtaRecord oracle := fun r =>
  mk (globals r) (stats r) (datapoints r) (donations r) (users r) (pairs r) (flag_medians r) (votes_cast r).
End Oracle.
Notation oracle := Oracle.oracle.

(** A table in one scope; a scope no row was written in is empty. *)
Definition scope_of {V} (m : gmap name (gmap Z V)) (scope : name) : gmap Z V := default ∅ (m !! scope).
Definition in_scope {V} (scope : name) (f : gmap Z V -> gmap Z V) (m : gmap name (gmap Z V)) : gmap name (gmap Z V) :=
  <[scope := f (scope_of m scope)]> m.
(** [available_primary_key()]: one more than the last key. *)
Definition next_key {V} (m : gmap Z V) : Z := match last (table_rows m) with Some (k, _) => k + 1 | None => 0 end.

(** [uint64_t(x)]: the machine traps when the integral part is out of range. *)
Definition dto_u64 (x : double) : result Z :=
  match dtrunc x with
  | Some z => if (0 <=? z) && (z <? 2 ^ 64) then Ok z else Err "float to uint64 out of range"
  | None => Err "float to uint64 unrepresentable"
  end.

Section oracle.
(** [sys]: the tables of [eosio], which the oracle reads; [name_of_string]: the constructor of
    [name], which fails on what is not one. *)
Context `{cdt : Cdt} (e : Env) (eosio : sys) (name_of_string : string -> result name).

(** [gtable.begin()], and reading what it points to. *)
Definition first_global (s : oracle) : option OGlobal.global := snd <$> head (table_rows (Oracle.globals s)).
Definition get_global : M oracle OGlobal.global :=
  g ← gets first_global; require_found g "cannot read the end of a table".
Definition stats_in (scope : name) (s : oracle) : gmap name Stat.stats := scope_of (Oracle.stats s) scope.
Definition set_stats (scope owner : name) (r : Stat.stats) : M oracle unit :=
  modify (fun s => s <| Oracle.stats ::= in_scope scope (insert owner r) |>).

(** The candidates looked at are one more than [minimum_rank]: the count is tested after the
    next one has been reached. *)
Fixpoint find_ranked (owner : name) (g : option OGlobal.global) (count : Z) (rows : list (name * producer_info)) : result bool :=
  match rows with
  | [] => Ok false
  | (_, p) :: rows' =>
    if Producer.owner p =? owner then Ok (Producer.is_active p)
    else
      let count := u64 (count + 1) in
      match g with
      | Some r => if OGlobal.minimum_rank r <? count then Ok false else find_ranked owner g count rows'
      | None => Err "cannot read the end of a table"
      end
  end.
Definition check_oracle (owner : name) : M oracle bool :=
  g ← gets first_global; lift (find_ranked owner g 0 (producers_by_votes eosio)).

Definition check_approver (owner : name) : M oracle bool :=
  g ← get_global;
  itr ← gets (fun s => stats_in (self e) s !! owner);
  mret ((OGlobal.approver_threshold g =? 0) ||
        match itr with Some r => OGlobal.approver_threshold g <=? Stat.count r | None => false end).

Definition check_user (owner : name) : M oracle bool :=
  user ← gets (fun s => Oracle.users s !! owner); mret (is_found user).

(** A row counted once more, or started. *)
Definition count_push (scope owner : name) : M oracle unit :=
  itr ← gets (fun s => stats_in scope s !! owner);
  match itr with
  | Some r => set_stats scope owner (r <| Stat.timestamp := now_us e |> <| Stat.count ::= fun z => u64 (z + 1) |>)
  | None => set_stats scope owner (Stat.mk owner (now_us e) 1 0 (Asset 0 tlos_symbol))
  end.
Definition check_last_push (owner pair : name) : M oracle unit :=
  itr ← gets (fun s => stats_in pair s !! owner);
  match itr with
  | Some last =>
    g ← get_global;
    check (i64 (Stat.timestamp last + i64 (OGlobal.write_cooldown g)) <=? now_us e) "can only call every 60 seconds"
  | None => mret tt
  end ;;
  count_push pair owner ;;
  count_push (self e) owner.

(** At most thirty of the oracles, those with the most datapoints first, in the order of names. *)
Fixpoint choose_oracles (room : nat) (rows : list (name * Stat.stats)) : M oracle (list name) :=
  match room, rows with
  | S room', (n, r) :: rows' =>
    ok ← check_oracle (Stat.owner r);
    if ok : bool then rest ← choose_oracles room' rows'; mret (Stat.owner r :: rest)
    else choose_oracles room rows'
  | _, _ => mret []
  end.
Definition oracle_update_votes : M oracle unit :=
  rows ← gets (fun s => index_rows Stat.by_count (stats_in (self e) s));
  bps ← choose_oracles 30 rows;
  modify (fun s => s <| Oracle.votes_cast ::= fun l => l ++ [(self e, 0, merge_sort Z.le bps)] |>).

Definition set_point (pair : name) (id : Z) (f : Point.datapoint -> Point.datapoint) : M oracle unit :=
  modify (fun s => s <| Oracle.datapoints ::= in_scope pair (alter f id) |>).

(** The oldest slot is written anew; the median is the value nine places after the least. *)
Definition update_datapoints (owner : name) (value : Z) (pair : name) : M oracle unit :=
  rows ← gets (fun s => index_rows Point.by_timestamp (scope_of (Oracle.datapoints s) pair));
  match rows with
  | [] => throw "cannot pass end iterator to modify"
  | (id, _) :: _ =>
    set_point pair id (fun r => r <| Point.owner := owner |> <| Point.value := value |> <| Point.timestamp := now_us e |>) ;;
    sorted ← gets (fun s => index_rows Point.by_value (scope_of (Oracle.datapoints s) pair));
    tenth ← require_found (sorted !! 9%nat) "cannot increment past the end of an index";
    set_point pair id (fun r => r <| Point.median := Point.value tenth.2 |>) ;;
    g ← get_global;
    let count := u64 (OGlobal.total_datapoints_count g + 1) in
    modify (fun s => s <| Oracle.globals ::= fun m =>
      match table_rows m with (k, _) :: _ => <[k := g <| OGlobal.total_datapoints_count := count |>]> m | [] => m end |>) ;;
    check (negb (OGlobal.vote_interval g =? 0)) "integer divide by zero" ;;
    when (count mod OGlobal.vote_interval g =? 0) oracle_update_votes
  end.

(** [contribution] is left as an [asset] starts out: nothing, of no symbol. *)
Definition create_user (owner : name) : M oracle unit :=
  itr ← gets (fun s => Oracle.users s !! owner);
  match itr with
  | Some _ => mret tt
  | None => modify (fun s => s <| Oracle.users ::= insert owner (OUser.mk owner (Asset 0 (Symbol 0 0)) 0 (now_us e)) |>)
  end.

(** One oracle's part of a donation. *)
Definition quota (datapoints total_datapoints quantity : Z) : result Z :=
  dto_u64 (dmul (ddiv (dint datapoints) (dint total_datapoints)) (dint quantity)).
Definition pay_oracle (scope owner : name) (payout : asset) : M oracle unit :=
  itr ← gets (fun s => stats_in scope s !! owner);
  r ← require_found itr "cannot pass end iterator to modify";
  b ← lift (asset_plus (Stat.balance r) payout);
  set_stats scope owner (r <| Stat.balance := b |>).

(** From the last of those paid up to the first, who is given what is left. [left] is [amount]. *)
Fixpoint pay_oracles (total quantity left : Z) (rows : list (name * Stat.stats)) : M oracle unit :=
  match rows with
  | [] => mret tt
  | (n, r) :: rows' =>
    uquota ← lift (quota (Stat.count r) total quantity);
    payout ← lift (make_asset (i64 (if bool_decide (rows' = []) then left else uquota)) tlos_symbol);
    pay_oracle (self e) n payout ;;
    pay_oracles total quantity (u64 (left - uquota)) rows'
  end.
Definition process_donation (from scope : name) (quantity : asset) : M oracle unit :=
  create_user from ;;
  uitr ← gets (fun s => Oracle.users s !! from);
  u ← require_found uitr "cannot pass end iterator to modify";
  modify (fun s => s <| Oracle.users ::= insert from (u <| OUser.score ::= fun z => u64 (z + amount quantity) |>) |>) ;;
  modify (fun s => let id := next_key (scope_of (Oracle.donations s) from) in
    s <| Oracle.donations ::= in_scope from (insert id (Donation.mk id from scope (now_us e) quantity)) |>) ;;
  g ← get_global;
  rows ← gets (fun s => index_rows Stat.by_count (stats_in scope s));
  let paid := firstn (Z.to_nat (Z.min (Z.of_nat (length rows)) (OGlobal.paid g))) rows in
  let total := fold_left (fun z r => u64 (z + Stat.count r.2)) paid 0 in
  pay_oracles total (amount quantity) (u64 (amount quantity)) (rev paid).

Definition process_bounty (from pair : name) (quantity : asset) : M oracle unit :=
  itr ← gets (fun s => Oracle.pairs s !! pair);
  p ← require_found itr "cannot pass end iterator to modify";
  b ← lift (asset_plus (Pair.bounty_amount p) quantity);
  modify (fun s => s <| Oracle.pairs ::= insert pair (p <| Pair.bounty_amount := b |>) |>).

Definition is_medians_active : M oracle bool :=
  f ← gets Oracle.flag_medians; mret (default false f).

(** The notification of a transfer. *)
Definition oracle_transfer (from to : name) (quantity : asset) (memo : string) : M oracle unit :=
  when (negb (from =? self e) && (to =? self e) && negb (bool_decide (memo = "system")))
    (n ← lift (name_of_string memo);
     itr ← gets (fun s => Oracle.pairs s !! n);
     match itr with
     | Some p => if Pair.bounty_awarded p then process_donation from (Pair.pair_name p) quantity
                 else process_bounty from (Pair.pair_name p) quantity
     | None => process_donation from (self e) quantity
     end).
End oracle.

(** ** Donations *)
Section donations.
Context `{cdt : Cdt} `{!CdtLaws cdt} (e : Env).
Implicit Types s : oracle.

Lemma stats_in_set scope scope' n r s :
  stats_in scope' (s <| Oracle.stats ::= in_scope scope (insert n r) |>) =
  if decide (scope = scope') then <[n := r]> (stats_in scope s) else stats_in scope' s.
Proof.
  unfold stats_in, scope_of, in_scope. cbn. rewrite lookup_insert. by case_decide.
Qed.

(** What the oracles have to their account. *)
Definition balances (s : oracle) : Z := msum (fun r => amount (Stat.balance r)) (stats_in (self e) s).
(** The rows are those there were, but for balances. *)
Definition same_counts (s s' : oracle) : Prop :=
  forall n, (fun r => (Stat.owner r, Stat.timestamp r, Stat.count r)) <$> (stats_in (self e) s' !! n) =
            (fun r => (Stat.owner r, Stat.timestamp r, Stat.count r)) <$> (stats_in (self e) s !! n).

Lemma pay_oracle_pays n q s u s' : pay_oracle (self e) n q s = Ok (u, s') ->
  balances s' = balances s + amount q /\ same_counts s s'.
Proof.
  unfold pay_oracle, set_stats. intros H. apply bind_Ok in H as (it & s1 & [-> ->]%gets_Ok & H).
  apply bind_Ok in H as (r & s1 & [Hr ->]%require_found_Ok & H).
  apply bind_Ok in H as (b & s1 & [(_ & _ & ->)%asset_plus_Ok ->]%lift_Ok & H). apply modify_Ok in H as ->.
  unfold balances, same_counts. rewrite stats_in_set, decide_True by done. split.
  - rewrite (msum_insert _ _ _ _ _ Hr). cbn. lia.
  - intros m. rewrite lookup_insert. case_decide; [|done]. subst m. by rewrite Hr.
Qed.

Lemma u64_eq a b : u64 a = u64 b <-> (a - b) mod 2 ^ 64 = 0.
Proof.
  unfold u64, uwrap. split; intros H.
  - rewrite Zminus_mod, H, Z.sub_diag. done.
  - apply Z.mod_divide in H as [k Hk]; [|done]. replace a with (b + k * 2 ^ 64) by lia. apply Z.mod_add. done.
Qed.

Lemma pay_oracles_pay total q rows : forall left_ s u s', pay_oracles e total q left_ rows s = Ok (u, s') ->
  (rows = [] -> s' = s) /\ (rows <> [] -> u64 (balances s') = u64 (balances s + left_)) /\ same_counts s s'.
Proof.
  induction rows as [|[n r] rows IH]; intros left_ s u s' H; cbn [pay_oracles] in H.
  - apply ret_Ok in H as [_ ->]. by split_and!.
  - apply bind_Ok in H as (uq & s1 & [_ ->]%lift_Ok & H).
    apply bind_Ok in H as (p & s1 & [(_ & _ & ->)%make_asset_Ok ->]%lift_Ok & H).
    apply bind_Ok in H as ([] & s1 & [Hb Hsame]%pay_oracle_pays & H). cbn in Hb.
    destruct (IH _ _ _ _ H) as (Hnil & Hcons & Hsame'). split; [done|]. split; [intros _|intros m; by rewrite (Hsame' m), (Hsame m)].
    assert (forall z, (i64 z - z) mod 2 ^ 64 = 0) as Hi.
    { intros z. pose proof (i64_mod_eq z) as Hz. by apply u64_eq. }
    apply u64_eq. case_bool_decide as Hr.
    + rewrite (Hnil Hr), Hb. specialize (Hi left_). replace (_ - _) with (i64 left_ - left_) by lia. done.
    + specialize (Hcons Hr). apply u64_eq in Hcons. specialize (Hi uq).
      apply Z.mod_divide in Hcons as [k1 Hk1]; [|done]. apply Z.mod_divide in Hi as [k2 Hk2]; [|done].
      unfold u64, uwrap in Hk1. rewrite (Z.mod_eq (left_ - uq)) in Hk1 by done. apply Z.mod_divide; [done|].
      exists (k1 + k2 - (left_ - uq) / 2 ^ 64). lia.
Qed.

(** Those a donation to [scope] is for. *)
Definition oracles_paid (g : OGlobal.global) (m : gmap name Stat.stats) : list (name * Stat.stats) :=
  let rows := index_rows Stat.by_count m in firstn (Z.to_nat (Z.min (Z.of_nat (length rows)) (OGlobal.paid g))) rows.

(** C23: A donation is divided without remainder: if any oracle counts, the balances of the
    oracles together grow by exactly what was given, whatever the shares are rounded to, and
    nothing but balances changes in their rows; if none counts, no balance changes. (As
    long as the balances together fit in 63 bits, as those of any token do.) *)
Theorem donation_is_divided from scope q s s' :
  in_i64 (amount q) -> 0 <= balances s < 2 ^ 63 -> 0 <= balances s' < 2 ^ 63 ->
  process_donation e from scope q s = Ok (tt, s') ->
  exists g, first_global s = Some g /\ same_counts s s' /\
    balances s' = balances s + (if bool_decide (oracles_paid g (stats_in scope s) = []) then 0 else amount q).
Proof.
  intros Hq Hb Hb' H. unfold process_donation in H. apply bind_Ok in H as ([] & s1 & H1 & H).
  assert (Oracle.stats s1 = Oracle.stats s /\ Oracle.globals s1 = Oracle.globals s) as [Es1 Eg1].
  { unfold create_user in H1. apply bind_Ok in H1 as (it & s2 & [-> ->]%gets_Ok & H1).
    destruct (Oracle.users s !! from); [by apply ret_Ok in H1 as [_ ->]|by apply modify_Ok in H1 as ->]. }
  apply bind_Ok in H as (it & s2 & [-> ->]%gets_Ok & H). apply bind_Ok in H as (v & s2 & [_ ->]%require_found_Ok & H).
  apply bind_Ok in H as ([] & s2 & E2%modify_Ok & H). apply bind_Ok in H as ([] & s3 & E3%modify_Ok & H).
  assert (Oracle.stats s3 = Oracle.stats s /\ Oracle.globals s3 = Oracle.globals s) as [Es Eg] by (by subst s3 s2).
  unfold get_global in H. apply bind_Ok in H as (g & s4 & Hg & H). apply bind_Ok in Hg as (g0 & s5 & [-> ->]%gets_Ok & [Hg ->]%require_found_Ok).
  apply bind_Ok in H as (rows & s4 & [-> ->]%gets_Ok & H). cbv zeta in H.
  exists g. split; [unfold first_global in *; by rewrite <- Eg|].
  assert (forall sc, stats_in sc s3 = stats_in sc s) as Hst by (intros sc; unfold stats_in; by rewrite Es).
  assert (balances s3 = balances s) as Hbal by (unfold balances; by rewrite Hst).
  rewrite Hst in H. apply pay_oracles_pay in H as (Hnil & Hcons & Hsame). fold (oracles_paid g (stats_in scope s)) in Hnil, Hcons.
  split; [intros n; by rewrite (Hsame n), Hst|]. case_bool_decide as Hr.
  - rewrite Hnil, Hbal by (by rewrite Hr). lia.
  - specialize (Hcons ltac:(intros Hn; apply Hr; by apply (f_equal (@rev _)) in Hn; rewrite rev_involutive in Hn)).
    rewrite Hbal in Hcons. apply u64_eq in Hcons. unfold u64, uwrap in Hcons. rewrite (Z.mod_eq (amount q)) in Hcons by done.
    apply Z.mod_divide in Hcons as [k Hk]; [|done]. unfold in_i64 in Hq.
    assert (k + amount q / 2 ^ 64 * -1 = 0 \/ k + amount q / 2 ^ 64 * -1 <> 0) as [Hz|Hz] by lia; nia.
Qed.
End donations.

(** ** The votes of the oracle *)
Section oracle_votes.
Context `{cdt : Cdt} `{libm : Libm} (e : Env) (eosio : sys).
Implicit Types s : oracle.

Lemma find_ranked_active owner g count rows :
  find_ranked owner g count rows = Ok true -> exists r, r ∈ rows /\ Producer.owner r.2 = owner /\ Producer.is_active r.2 = true.
Proof.
  revert count. induction rows as [|[n p] rows IH]; intros count H; [done|]. cbn [find_ranked] in H.
  destruct (Z.eqb_spec (Producer.owner p) owner) as [Ho|_].
  - injection H as Ha. exists (n, p). split; [by left|by split].
  - destruct g as [r|]; [|done]. destruct (_ <? _); [done|]. destruct (IH _ H) as (x & Hx & Hr). exists x. split; [by right|done].
Qed.

Lemma check_oracle_Ok o s b s' : check_oracle eosio o s = Ok (b, s') ->
  s' = s /\ (b = true -> exists n p, producers eosio !! n = Some p /\ Producer.owner p = o /\ Producer.is_active p = true).
Proof.
  unfold check_oracle. intros H. apply bind_Ok in H as (g & s1 & [-> ->]%gets_Ok & [H ->]%lift_Ok). split; [done|]. intros ->.
  apply find_ranked_active in H as ([n p] & Hin & Ho & Ha). unfold producers_by_votes in Hin.
  rewrite merge_sort_Permutation, elem_of_map_to_list in Hin. by exists n, p.
Qed.

Lemma choose_oracles_Ok rows : forall room s l s', choose_oracles eosio room rows s = Ok (l, s') ->
  s' = s /\ (length l <= room)%nat /\ l `sublist_of` (map (fun r => Stat.owner r.2) rows) /\
  (forall p, p ∈ l -> exists n r, producers eosio !! n = Some r /\ Producer.owner r = p /\ Producer.is_active r = true).
Proof.
  induction rows as [|[n r] rows IH]; intros [|room] s l s' H; cbn [choose_oracles] in H;
    try (apply ret_Ok in H as [-> ->]; split; [done|]; split; [cbn; lia|]; split; [apply sublist_nil_l|]; intros p []%elem_of_nil).
  apply bind_Ok in H as (ok & s1 & [-> Hok]%check_oracle_Ok & H). destruct ok.
  - apply bind_Ok in H as (rest & s1 & Hr & [-> ->]%ret_Ok). destruct (IH _ _ _ _ Hr) as (-> & Hlen & Hsub & Hall).
    split; [done|]. split; [cbn; lia|]. split; [by constructor|].
    intros p [->|Hp]%elem_of_cons; [by apply Hok|by apply Hall].
  - destruct (IH _ _ _ _ H) as (-> & Hlen & Hsub & Hall). split; [done|]. split; [done|]. split; [by constructor|done].
Qed.

Lemma sorted_strictly l : StronglySorted Z.le l -> NoDup l -> strictly_sorted l = true.
Proof.
  induction 1 as [|x l Hs IH Hall]; intros Hnd; [done|]. apply NoDup_cons in Hnd as [Hx Hnd]. destruct l as [|y l]; [done|].
  cbn. apply andb_true_iff. split; [|by apply IH]. apply Z.ltb_lt. apply Forall_inv in Hall. cut (x <> y); [lia|]. intros ->. apply Hx. by left.
Qed.

(** C24: The votes the oracle casts are votes the system contract accepts: at most thirty,
    sorted and different, all for producers that are active when they are cast - so that
    whenever the tables of votes are in order and the oracle has staked, its vote succeeds. *)
Theorem oracle_votes_are_accepted s s' :
  map_Forall (fun n r => Stat.owner r = n) (stats_in (self e) s) -> map_Forall (fun n p => Producer.owner p = n) (producers eosio) ->
  oracle_update_votes e eosio s = Ok (tt, s') ->
  exists l, Oracle.votes_cast s' = Oracle.votes_cast s ++ [(self e, 0, l)] /\
    (length l <= 30)%nat /\ strictly_sorted l = true /\
    (forall p, p ∈ l -> is_Some (stats_in (self e) s !! p) /\ exists r, producers eosio !! p = Some r /\ Producer.is_active r = true) /\
    (forall ev, proxy_free eosio -> map_Forall (fun _ v => strictly_sorted (Voter.producers v) = true) (voters eosio) ->
      is_Some (voters eosio !! self e) -> is_ok (update_votes ev (self e) 0 l true eosio) = true).
Proof.
  intros Hown Hkeys H. unfold oracle_update_votes in H. apply bind_Ok in H as (rows & s1 & [-> ->]%gets_Ok & H).
  apply bind_Ok in H as (bps & s1 & Hc & H). apply choose_oracles_Ok in Hc as (-> & Hlen & Hsub & Hall). apply modify_Ok in H as ->.
  exists (merge_sort Z.le bps). set (l := merge_sort Z.le bps). assert (l ≡ₚ bps) as Hperm by apply merge_sort_Permutation.
  assert (map (fun r => Stat.owner r.2) (index_rows Stat.by_count (stats_in (self e) s)) =
          (index_rows Stat.by_count (stats_in (self e) s)).*1) as Hnames.
  { apply map_ext_in. intros [n r] Hin%list_elem_of_In%elem_of_index_rows. exact (Hown n r Hin). }
  rewrite Hnames in Hsub.
  assert (NoDup l) as Hnd.
  { rewrite Hperm. eapply sublist_NoDup; [|exact Hsub]. rewrite index_rows_perm. apply NoDup_fst_map_to_list. }
  assert (strictly_sorted l = true) as Hsort.
  { apply sorted_strictly; [|done]. apply Sorted_StronglySorted; [intros ???; apply Z.le_trans|]. apply Sorted_merge_sort. intros x y. lia. }
  assert (length l <= 30)%nat as Hl by (by rewrite Hperm).
  assert (forall p, p ∈ l -> exists r, producers eosio !! p = Some r /\ Producer.is_active r = true) as Hact.
  { intros p Hp. rewrite Hperm in Hp. destruct (Hall p Hp) as (n & r & Hr & Ho & Ha). pose proof (Hkeys n r Hr) as Hn. cbn in Hn.
    exists r. split; [|done]. congruence. }
  split; [done|]. split; [done|]. split; [done|]. split.
  - intros p Hp. split; [|by apply Hact]. rewrite Hperm in Hp. eapply elem_of_sublist in Hp; [|exact Hsub].
    apply list_elem_of_fmap in Hp as ([n r] & -> & Hin%elem_of_index_rows). by exists r.
  - intros ev Hnp Hs [v Hv]. destruct (update_votes_succeeds ev (self e) l true eosio v Hnp Hs Hl Hsort Hv) as [s2 ->]; [|done].
    intros _ p Hp. destruct (Hact p Hp) as (r & Hr & Ha). by exists r.
Qed.
End oracle_votes.

(** ** The ring of datapoints *)
Section ring.
Context `{cdt : Cdt} (e : Env) (eosio : sys).
Implicit Types s : oracle.

Definition values_of (m : gmap Z Point.datapoint) : list Z := map (fun r => Point.value r.2) (map_to_list m).

Lemma sorted_values m : map (fun r => Point.value r.2) (index_rows Point.by_value m) = merge_sort Z.le (values_of m).
Proof.
  apply (StronglySorted_unique Z.le).
  - pose proof (index_rows_sorted Point.by_value m) as Hs%Sorted_StronglySorted; [|apply _].
    induction Hs as [|x l _ IH Hall]; [constructor|]. cbn. constructor; [exact IH|]. rewrite Forall_map.
    eapply Forall_impl; [exact Hall|]. intros y [Hy|[Hy _]]; unfold Point.by_value in Hy; lia.
  - apply Sorted_StronglySorted; [intros ???; apply Z.le_trans|]. apply Sorted_merge_sort. intros x y. lia.
  - rewrite merge_sort_Permutation. unfold values_of. by rewrite index_rows_perm.
Qed.

Lemma scope_of_in {V} (m : gmap name (gmap Z V)) p f : scope_of (in_scope p f m) p = f (scope_of m p).
Proof. unfold scope_of at 1, in_scope. by rewrite lookup_insert_eq. Qed.

Lemma alter_found {V} (f : V -> V) (m : gmap Z V) k v : m !! k = Some v -> alter f k m = <[k := f v]> m.
Proof.
  intros Hv. apply map_eq. intros j. rewrite lookup_alter, lookup_insert. case_decide; [|done]. subst j. by rewrite Hv.
Qed.

Lemma oracle_votes_keep {B} (f : oracle -> B) : (forall s l, f (s <| Oracle.votes_cast := l |>) = f s) ->
  keeps f (oracle_update_votes e eosio).
Proof.
  intros Hf s u s' H. unfold oracle_update_votes in H. apply bind_Ok in H as (rows & s1 & [-> ->]%gets_Ok & H).
  apply bind_Ok in H as (bps & s1 & Hc & H). apply choose_oracles_Ok in Hc as (-> & _). apply modify_Ok in H as ->. apply Hf.
Qed.

(** A price takes the place of the oldest datapoint of its pair and touches no other; the
    median recorded with it is the tenth least of the values there are, whatever their
    number - with the twenty-one datapoints of the default, one below the middle. *)
Theorem median_is_the_tenth owner value pair s s' :
  update_datapoints e eosio owner value pair s = Ok (tt, s') ->
  exists id r m, let before := scope_of (Oracle.datapoints s) pair in
    before !! id = Some r /\ (forall j w, before !! j = Some w -> index_le Point.by_timestamp (id, r) (j, w)) /\
    scope_of (Oracle.datapoints s') pair = <[id := Point.mk (Point.id r) owner value m (now_us e)]> before /\
    merge_sort Z.le (values_of (scope_of (Oracle.datapoints s') pair)) !! 9%nat = Some m.
Proof.
  intros H. unfold update_datapoints, set_point in H. apply bind_Ok in H as (rows & s1 & [Erows ->]%gets_Ok & H).
  destruct rows as [|[id r] rest]; [done|]. symmetry in Erows.
  apply bind_Ok in H as ([] & s1 & E1%modify_Ok & H). apply bind_Ok in H as (sorted & s2 & [-> ->]%gets_Ok & H).
  apply bind_Ok in H as (tenth & s2 & [Ht ->]%require_found_Ok & H). apply bind_Ok in H as ([] & s2 & E2%modify_Ok & H).
  set (before := scope_of (Oracle.datapoints s) pair) in *.
  assert (before !! id = Some r) as Hid by (apply (elem_of_index_rows Point.by_timestamp); rewrite Erows; by left).
  assert (Oracle.datapoints s' = Oracle.datapoints s2) as ->.
  { apply bind_Ok in H as (g & s3 & Hg & H). unfold get_global in Hg. apply bind_Ok in Hg as (o & s4 & [_ ->]%gets_Ok & [_ ->]%require_found_Ok).
    apply bind_Ok in H as ([] & s4 & E3%modify_Ok & H). apply bind_Ok in H as ([] & s5 & [_ ->]%check_Ok & H).
    apply when_Ok in H. trans (Oracle.datapoints s4); [|by subst s4]. destruct (_ =? _); [|by subst].
    by apply (oracle_votes_keep Oracle.datapoints) in H. }
  exists id, r, (Point.value tenth.2). cbv zeta. split; [done|]. split; [intros j w Hj; by eapply index_rows_head|].
  set (after := <[id := _]> before).
  assert (scope_of (Oracle.datapoints s1) pair = <[id := r <| Point.owner := owner |> <| Point.value := value |> <| Point.timestamp := now_us e |>]> before) as H1.
  { subst s1. cbn. rewrite scope_of_in. fold before. by erewrite alter_found. }
  assert (scope_of (Oracle.datapoints s2) pair = after) as H2.
  { subst s2. cbn. rewrite scope_of_in, H1. erewrite alter_found by apply lookup_insert_eq. by rewrite insert_insert_eq. }
  split; [done|]. rewrite H2. rewrite H1 in Ht. rewrite <- sorted_values in *.
  assert (values_of after ≡ₚ values_of (<[id := r <| Point.owner := owner |> <| Point.value := value |> <| Point.timestamp := now_us e |>]> before)) as Hv.
  { unfold values_of, after. rewrite <- !(insert_delete_eq before). rewrite !map_to_list_insert by apply lookup_delete_eq. reflexivity. }
  assert (merge_sort Z.le (values_of after) = map (fun r => Point.value r.2) (index_rows Point.by_value
    (<[id := r <| Point.owner := owner |> <| Point.value := value |> <| Point.timestamp := now_us e |>]> before))) as Heq.
  { rewrite sorted_values. apply (StronglySorted_unique Z.le).
    - apply Sorted_StronglySorted; [intros ???; apply Z.le_trans|]. apply Sorted_merge_sort. intros x y. lia.
    - apply Sorted_StronglySorted; [intros ???; apply Z.le_trans|]. apply Sorted_merge_sort. intros x y. lia.
    - by rewrite !merge_sort_Permutation. }
  rewrite sorted_values, Heq. change (map ?f ?l) with (f <$> l). by rewrite list_lookup_fmap, Ht.
Qed.
End ring.

(** ** Pushes over time *)
Inductive oracle_action :=
| Push (owner pair : name)
| Datapoint (owner : name) (value : Z) (pair : name)
| Cast_votes
| Create_user (owner : name)
| Received (from to : name) (quantity : asset) (memo : string).

Section pushes.
Context `{cdt : Cdt} (name_of_string : string -> result name) (me : name).
Implicit Types s : oracle.

Definition oracle_exec (e : Env) (eosio : sys) (a : oracle_action) : M oracle unit :=
  match a with
  | Push o p => check_last_push e o p
  | Datapoint o v p => update_datapoints e eosio o v p
  | Cast_votes => oracle_update_votes e eosio
  | Create_user o => create_user e o
  | Received f t q memo => oracle_transfer e name_of_string f t q memo
  end.
(** One of them, not before the last. *)
Inductive oracle_step : relation (Z * oracle) :=
| oracle_step_intro e eosio a t s u s' :
    self e = me -> t <= now_us e -> oracle_exec e eosio a s = Ok (u, s') -> oracle_step (t, s) (now_us e, s').

(** [o] last pushed for [p] between [t0] and [t], and the cooldown is [c]. *)
Definition pushed (o p t0 c t : Z) (s : oracle) : Prop :=
  (exists r, stats_in p s !! o = Some r /\ t0 <= Stat.timestamp r <= t) /\ OGlobal.write_cooldown <$> first_global s = Some c.
Definition push_view (p : name) (s : oracle) := (stats_in p s, OGlobal.write_cooldown <$> first_global s).
Lemma pushed_view o p t0 c t t' s s' : push_view p s' = push_view p s -> t <= t' -> pushed o p t0 c t s -> pushed o p t0 c t' s'.
Proof. unfold push_view, pushed. intros [= -> ->] Ht [(r & Hr & Hle) Hc]. split; [|done]. exists r. split; [done|lia]. Qed.

Lemma first_global_insert (m : gmap Z OGlobal.global) k g g' rest : table_rows m = (k, g) :: rest ->
  snd <$> head (table_rows (<[k := g']> m)) = Some g'.
Proof.
  intros Hrows. assert (m !! k = Some g) as Hk by (apply (elem_of_index_rows (fun _ => 0)); unfold table_rows in Hrows; rewrite Hrows; by left).
  destruct (table_rows (<[k := g']> m)) as [|[j x] l] eqn:Hnew.
  - apply index_rows_nil in Hnew. by apply insert_non_empty in Hnew.
  - cbn. assert (<[k := g']> m !! j = Some x) as Hj by (apply (elem_of_index_rows (fun _ => 0)); unfold table_rows in Hnew; rewrite Hnew; by left).
    pose proof (index_rows_head _ _ _ _ _ k g' Hnew (lookup_insert_eq _ _ _)) as [Hlt|[_ Hle]]; [lia|]. cbn in Hle.
    destruct (decide (j = k)) as [->|Hne]; [rewrite lookup_insert_eq in Hj; by injection Hj as ->|].
    rewrite lookup_insert_ne in Hj by done. pose proof (index_rows_head _ _ _ _ _ j x Hrows Hj) as [Hlt|[_ Hle']]; [lia|]. cbn in Hle'. lia.
Qed.

Lemma stats_in_other scope p n r s : p <> scope -> stats_in p (s <| Oracle.stats ::= in_scope scope (insert n r) |>) = stats_in p s.
Proof. intros Hne. rewrite stats_in_set. by rewrite decide_False. Qed.

Lemma count_push_pushed e sc n o p t0 c : t0 <= now_us e -> preserves (pushed o p t0 c (now_us e)) (count_push e sc n).
Proof.
  intros Ht s u s' H [(r & Hr & Hle) Hc]. unfold count_push, set_stats in H. apply bind_Ok in H as (it & s1 & [-> ->]%gets_Ok & H).
  assert (exists x, s' = s <| Oracle.stats ::= in_scope sc (insert n x) |> /\ Stat.timestamp x = now_us e) as (x & -> & Hx).
  { destruct (stats_in sc s !! n); apply modify_Ok in H as ->; by eexists. }
  split; [|exact Hc]. rewrite stats_in_set. case_decide as Hsc; [|by exists r]. subst sc.
  rewrite lookup_insert. case_decide; [|by exists r]. exists x. split; [done|lia].
Qed.
Lemma check_last_push_pushed e n q o p t0 c : t0 <= now_us e -> preserves (pushed o p t0 c (now_us e)) (check_last_push e n q).
Proof.
  intros Ht. unfold check_last_push, get_global. solve_respects_with ltac:(by apply count_push_pushed).
Qed.

Lemma pay_oracles_view e p total q rows : p <> self e -> forall left_, keeps (push_view p) (pay_oracles e total q left_ rows).
Proof.
  intros Hp. induction rows as [|[n r] rows IH]; intros left_; cbn [pay_oracles]; [apply respects_ret; apply _|].
  unfold pay_oracle, set_stats. solve_respects_with ltac:(apply IH). unfold push_view. by rewrite stats_in_other.
Qed.
Lemma process_donation_view e p f sc q : p <> self e -> keeps (push_view p) (process_donation e f sc q).
Proof.
  intros Hp. unfold process_donation, create_user, get_global. solve_respects_with ltac:(by apply pay_oracles_view).
Qed.
Lemma update_datapoints_view e eosio p o v q : keeps (push_view p) (update_datapoints e eosio o v q).
Proof.
  intros s u s' H. unfold update_datapoints, set_point in H. apply bind_Ok in H as (rows & s1 & [-> ->]%gets_Ok & H).
  destruct (index_rows _ _) as [|[id r] rest]; [done|].
  apply bind_Ok in H as ([] & s1 & E1%modify_Ok & H). apply bind_Ok in H as (sorted & s2 & [-> ->]%gets_Ok & H).
  apply bind_Ok in H as (tenth & s2 & [_ ->]%require_found_Ok & H). apply bind_Ok in H as ([] & s2 & E2%modify_Ok & H).
  apply bind_Ok in H as (g & s3 & Hg & H). unfold get_global in Hg. apply bind_Ok in Hg as (o' & s4 & [-> ->]%gets_Ok & [Hg ->]%require_found_Ok).
  apply bind_Ok in H as ([] & s4 & E3%modify_Ok & H). apply bind_Ok in H as ([] & s5 & [_ ->]%check_Ok & H).
  assert (push_view p s4 = push_view p s2) as Hv.
  { unfold push_view, first_global in *. subst s4. unfold stats_in.
    change (Oracle.stats (s2 <| Oracle.globals ::= _ |>)) with (Oracle.stats s2).
    destruct (table_rows (Oracle.globals s2)) as [|[k g0] l] eqn:Hrows; [done|]. injection Hg as ->. cbn. rewrite Hrows.
    by rewrite (first_global_insert _ _ _ _ _ Hrows). }
  trans (push_view p s2); [|by subst s2 s1]. rewrite <- Hv. apply when_Ok in H. destruct (_ =? _); [|by subst].
  by apply (oracle_votes_keep e eosio (push_view p)) in H.
Qed.

Lemma oracle_step_pushed o p t0 c t s t' s' : p <> me -> oracle_step (t, s) (t', s') -> t0 <= t ->
  pushed o p t0 c t s -> t0 <= t' /\ pushed o p t0 c t' s'.
Proof.
  intros Hp Hstep Ht Hpush. remember (t, s) as x eqn:Hx. remember (t', s') as x' eqn:Hx'.
  destruct Hstep as [e eosio a t1 s1 u s2 Hme Hle H]. injection Hx as -> ->. injection Hx' as <- <-. split; [lia|].
  destruct a; cbn [oracle_exec] in H.
  - apply (check_last_push_pushed e owner pair o p t0 c ltac:(lia) _ _ _ H). by eapply pushed_view.
  - eapply pushed_view; [|exact Hle|exact Hpush]. by eapply update_datapoints_view.
  - eapply pushed_view; [|exact Hle|exact Hpush]. by apply (oracle_votes_keep e eosio (push_view p)) in H.
  - eapply pushed_view; [|exact Hle|exact Hpush]. unfold create_user in H. apply bind_Ok in H as (it & s3 & [-> ->]%gets_Ok & H).
    destruct (Oracle.users s !! owner); [by apply ret_Ok in H as [_ ->]|by apply modify_Ok in H as ->].
  - eapply pushed_view; [|exact Hle|exact Hpush]. revert H.
    match goal with |- ?m s = _ -> _ => assert (keeps (push_view p) m) as Hk; [|apply Hk] end.
    unfold oracle_transfer, process_bounty. solve_respects_with ltac:(apply process_donation_view; congruence).
Qed.

Lemma oracle_run_pushed o p t0 c x x' : p <> me -> rtc oracle_step x x' ->
  t0 <= x.1 -> pushed o p t0 c x.1 x.2 -> t0 <= x'.1 /\ pushed o p t0 c x'.1 x'.2.
Proof.
  intros Hp. induction 1 as [x|[t s] [t1 s1] x' Hstep _ IH]; intros Ht Hpush; [by split|].
  destruct (oracle_step_pushed o p t0 c t s t1 s1 Hp Hstep Ht Hpush) as [Ht1 Hpush1]. by apply IH.
Qed.

(** No oracle pushes prices for a pair faster than the cooldown allows: after a push at one
    time, whatever runs in between, the next by the same account for the same pair succeeds
    only when the cooldown has passed. *)
Theorem pushes_wait e1 e2 o p s s1 t2 s2 s3 g :
  self e1 = me -> self e2 = me -> p <> me -> first_global s1 = Some g ->
  check_last_push e1 o p s = Ok (tt, s1) -> rtc oracle_step (now_us e1, s1) (t2, s2) -> t2 <= now_us e2 ->
  check_last_push e2 o p s2 = Ok (tt, s3) -> 0 <= now_us e1 -> 0 <= OGlobal.write_cooldown g ->
  now_us e2 + OGlobal.write_cooldown g < 2 ^ 63 ->
  now_us e1 + OGlobal.write_cooldown g <= now_us e2.
Proof.
  intros He1 He2 Hp Hg H1 Hrun Ht2 H2 Hpos Hc Hmax.
  assert (pushed o p (now_us e1) (OGlobal.write_cooldown g) (now_us e1) s1) as Hpush.
  { split; [|by rewrite Hg]. unfold check_last_push in H1. apply bind_Ok in H1 as (it & s4 & [-> ->]%gets_Ok & H1).
    apply bind_Ok in H1 as ([] & s4 & H4 & H1). apply bind_Ok in H1 as ([] & s5 & H5 & H1).
    unfold count_push, set_stats in H5, H1. apply bind_Ok in H5 as (it5 & s6 & [-> ->]%gets_Ok & H5).
    apply bind_Ok in H1 as (it1 & s6 & [-> ->]%gets_Ok & H1).
    assert (exists r, stats_in p s5 !! o = Some r /\ Stat.timestamp r = now_us e1) as (r & Hr & Hle).
    { destruct (stats_in p s4 !! o); apply modify_Ok in H5 as ->; rewrite stats_in_set, decide_True, lookup_insert_eq by done; by eexists. }
    exists r. split; [|lia]. rewrite <- Hr. f_equal. rewrite He1 in H1.
    destruct (stats_in me s5 !! o); apply modify_Ok in H1 as ->; by apply stats_in_other. }
  destruct (oracle_run_pushed o p (now_us e1) (OGlobal.write_cooldown g) _ _ Hp Hrun) as [_ [(r & Hr & Hle) Hcool]]; [cbn; lia|done|].
  cbn in Hr, Hle, Hcool. unfold check_last_push in H2. apply bind_Ok in H2 as (it & s4 & [-> ->]%gets_Ok & H2). rewrite Hr in H2.
  apply bind_Ok in H2 as ([] & s4 & H2 & _). unfold get_global in H2. apply bind_Ok in H2 as (g2 & s5 & Hg2 & [Hcheck%Z.leb_le _]%check_Ok).
  apply bind_Ok in Hg2 as (o2 & s6 & [-> ->]%gets_Ok & [Hg2 ->]%require_found_Ok). rewrite Hg2 in Hcool. injection Hcool as Hcool.
  rewrite Hcool, (i64_small (OGlobal.write_cooldown g)), i64_small in Hcheck by (unfold in_i64; lia). lia.
Qed.
End pushes.

(** ** Examples *)
Definition ex_me : name := 77.
Definition ex_oracle_env (t : Z) : Env := mkEnv ex_me [active_of ex_me] t (fun _ => true).
Definition ex_stat (n count : Z) : Stat.stats := Stat.mk n 0 count 0 (Asset 0 tlos_symbol).
Definition ex_pair : name := 88.
Definition ex_point (n : nat) : Z * Point.datapoint := (Z.of_nat n, Point.mk (Z.of_nat n) 5 (100 + Z.of_nat n) 0 (1000000 * Z.of_nat n)).
Definition ex_oracle : oracle := Oracle.mk {[ 0 := OGlobal.initial 0 0 0 ]}
  {[ ex_me := {[ 10 := ex_stat 10 2; 20 := ex_stat 20 1 ]} ]}
  {[ ex_pair := list_to_map (map ex_point (seq 1 21)) ]} ∅ ∅ ∅ None [].
Definition ex_eosio : sys :=
  blank_sys <| producers := {[ 10 := ex_producer 10 true; 20 := ex_producer 20 true; 30 := ex_producer 30 true ]} |>
    <| voters := {[ ex_me := new_voter ex_me ]} |>.

(** Ten are divided as seven and three. *)
Lemma donation_is_divided_witness :
  exists s', process_donation (cdt := cdt_model) (ex_oracle_env 5) 9 ex_me (Asset 10 tlos_symbol) ex_oracle = Ok (tt, s') /\
    balances (ex_oracle_env 5) s' = 10 /\ Stat.balance <$> stats_in ex_me s' !! 20 = Some (Asset 3 tlos_symbol).
Proof.
  destruct (process_donation (cdt := cdt_model) (ex_oracle_env 5) 9 ex_me (Asset 10 tlos_symbol) ex_oracle) as [[[] s']|] eqn:H;
    [|vm_compute in H; discriminate].
  assert (0 <= balances (ex_oracle_env 5) s' < 2 ^ 63 /\ Stat.balance <$> stats_in ex_me s' !! 20 = Some (Asset 3 tlos_symbol)) as [Hb Hs].
  { vm_compute in H. injection H as <-. split; [vm_compute; split; [discriminate|reflexivity]|reflexivity]. }
  destruct (donation_is_divided (cdt := cdt_model) (ex_oracle_env 5) 9 ex_me (Asset 10 tlos_symbol) ex_oracle s') as (g & Hg & _ & Hsum);
    [split; [discriminate|reflexivity]|vm_compute; split; [discriminate|reflexivity]|exact Hb|exact H|].
  exists s'. split; [reflexivity|]. split; [|exact Hs]. rewrite Hsum. vm_compute in Hg. injection Hg as <-. vm_compute. reflexivity.
Defined.

Lemma oracle_votes_are_accepted_witness :
  exists s', oracle_update_votes (ex_oracle_env 5) ex_eosio ex_oracle = Ok (tt, s') /\
    Oracle.votes_cast s' = [(ex_me, 0, [10; 20])] /\
    is_ok (update_votes (cdt := cdt_model) (libm := libm_model) (ex_oracle_env 5) ex_me 0 [10; 20] true ex_eosio) = true.
Proof.
  destruct (oracle_update_votes (ex_oracle_env 5) ex_eosio ex_oracle) as [[[] s']|] eqn:H; [|vm_compute in H; discriminate].
  assert (Oracle.votes_cast s' = [(ex_me, 0, [10; 20])]) as Hl by (vm_compute in H; by injection H as <-).
  destruct (oracle_votes_are_accepted (cdt := cdt_model) (libm := libm_model) (ex_oracle_env 5) ex_eosio ex_oracle s')
    as (l & Hv & _ & _ & _ & Hok); [..|exact H|].
  - by repeat (apply map_Forall_insert_2; [done|]).
  - by repeat (apply map_Forall_insert_2; [done|]).
  - rewrite Hl in Hv. injection Hv as <-. exists s'. split; [reflexivity|]. split; [done|].
    apply Hok; [by apply map_Forall_singleton|by apply map_Forall_singleton|by eexists].
Defined.

(** With the values 102 to 121 and a new 500, the middle would be 112. *)
Lemma median_is_the_tenth_witness :
  exists s' m, update_datapoints (ex_oracle_env 50000000) ex_eosio 10 500 ex_pair ex_oracle = Ok (tt, s') /\
    scope_of (Oracle.datapoints s') ex_pair !! 1 = Some (Point.mk 1 10 500 m 50000000) /\ m = 111.
Proof.
  destruct (update_datapoints (ex_oracle_env 50000000) ex_eosio 10 500 ex_pair ex_oracle) as [[[] s']|] eqn:H; [|vm_compute in H; discriminate].
  destruct (median_is_the_tenth (ex_oracle_env 50000000) ex_eosio 10 500 ex_pair ex_oracle s' H) as (id & r & m & Hid & _ & Hafter & Hm).
  assert (scope_of (Oracle.datapoints s') ex_pair !! 1 = Some (Point.mk 1 10 500 111 50000000)) as H1 by (vm_compute in H; by injection H as <-).
  assert (merge_sort Z.le (values_of (scope_of (Oracle.datapoints s') ex_pair)) !! 9%nat = Some 111) as H2.
  { clear -H. vm_compute in H. injection H as <-. vm_compute. reflexivity. }
  rewrite H2 in Hm. injection Hm as <-. exists s', 111. by split.
Defined.

Lemma pushes_wait_witness :
  let s0 := ex_oracle in
  exists s1 s3, check_last_push (ex_oracle_env 1000000) 10 ex_pair s0 = Ok (tt, s1) /\
    check_last_push (ex_oracle_env 56000000) 10 ex_pair s1 = Ok (tt, s3) /\
    is_ok (check_last_push (ex_oracle_env 55999999) 10 ex_pair s1) = false /\ 1000000 + 55000000 <= 56000000.
Proof.
  intros s0. destruct (check_last_push (ex_oracle_env 1000000) 10 ex_pair s0) as [[[] s1]|] eqn:H1; [|vm_compute in H1; discriminate].
  destruct (check_last_push (ex_oracle_env 56000000) 10 ex_pair s1) as [[[] s3]|] eqn:H3;
    [|vm_compute in H1; injection H1 as <-; vm_compute in H3; discriminate].
  exists s1, s3. split; [reflexivity|]. split; [exact H3|]. split; [vm_compute in H1; injection H1 as <-; vm_compute; reflexivity|].
  apply (pushes_wait (cdt := cdt_model) (fun _ => Ok 0) ex_me (ex_oracle_env 1000000) (ex_oracle_env 56000000) 10 ex_pair s0 s1 1000000 s1 s3
    (OGlobal.initial 0 0 0)); try done.
  vm_compute in H1. injection H1 as <-. reflexivity.
Defined.
