(* ===== verification/Params.v ===== *)
(** * Parameters of the chain and limits on contract code (eosio.system.cpp lines 161-275)

    [setparams] keeps the parameters of the chain in the global row and packs them for the
    host, each behind its number; [wasmcfg] passes one of two sets of limits on contract
    code. The theorem says what the host reads from the packed bytes. *)
From S2P Require Import Prelude.
From S2P Require Import Cdt.
From stdpp Require Import base strings list.
Open Scope Z_scope.

(** [eosio::blockchain_parameters], with the width in bytes each field has in the ABI. *)
Module Chain.
Record blockchain_parameters := mk {
  max_block_net_usage : Z; (* 8 *)
  target_block_net_usage_pct : Z;
  max_transaction_net_usage : Z;
  base_per_transaction_net_usage : Z;
  net_usage_leeway : Z;
  context_free_discount_net_usage_num : Z;
  context_free_discount_net_usage_den : Z;
  max_block_cpu_usage : Z;
  target_block_cpu_usage_pct : Z;
  max_transaction_cpu_usage : Z;
  min_transaction_cpu_usage : Z;
  max_transaction_lifetime : Z;
  deferred_trx_expiration_window : Z;
  max_transaction_delay : Z;
  max_inline_action_size : Z;
  max_inline_action_depth : Z; (* 2 *)
  max_authority_depth : Z; (* 2 *)
}.
End Chain.
Notation blockchain_parameters := Chain.blockchain_parameters.

(** [blockchain_parameters_v1]: one field more, which a caller may leave out. *)
Record blockchain_parameters_v1 := ParamsV1 {
  base : blockchain_parameters;
  max_action_return_value_size : option Z;
}.

Record wasm_parameters := Wasm {
  max_mutable_global_bytes : Z; max_table_elements : Z; max_section_elements : Z;
  max_linear_memory_init : Z; max_func_local_bytes : Z; max_nested_structures : Z;
  max_symbol_bytes : Z; max_module_bytes : Z; max_code_bytes : Z; max_pages : Z; max_call_depth : Z;
}.
Definition default_limits : wasm_parameters :=
  Wasm 1024 1024 8192 (64 * 1024) 8192 1024 8192 (20 * 1024 * 1024) (20 * 1024 * 1024) 528 251.
Definition high_limits : wasm_parameters :=
  Wasm 8192 8192 8192 (16 * 64 * 1024) 8192 1024 8192 (20 * 1024 * 1024) (20 * 1024 * 1024) 528 1024.

(** What the actions hand to the host, and the part of the global row they write. *)
Inductive param_call := SetParametersPacked (buf : list Z) | SetWasmParametersPacked (buf : list Z).
Record params_state := ParamsState { gparams : blockchain_parameters; param_calls : list param_call }.
#[export] Instance eta_params_state : EtaRecord params_state := fun r => ParamsState (gparams r) (param_calls r).

(** The bytes of a number in memory, least significant first. *)
Fixpoint le_bytes (k : nat) (n : Z) : list Z :=
  match k with
  | O => []
  | S k' => n mod 256 :: le_bytes k' (n / 256)
  end.

(** [stream << uint8_t(id) << field], field by field; the last one only when given. *)
Definition base_fields (p : blockchain_parameters) : list (nat * Z) :=
  [(8%nat, Chain.max_block_net_usage p); (4%nat, Chain.target_block_net_usage_pct p);
   (4%nat, Chain.max_transaction_net_usage p); (4%nat, Chain.base_per_transaction_net_usage p);
   (4%nat, Chain.net_usage_leeway p); (4%nat, Chain.context_free_discount_net_usage_num p);
   (4%nat, Chain.context_free_discount_net_usage_den p); (4%nat, Chain.max_block_cpu_usage p);
   (4%nat, Chain.target_block_cpu_usage_pct p); (4%nat, Chain.max_transaction_cpu_usage p);
   (4%nat, Chain.min_transaction_cpu_usage p); (4%nat, Chain.max_transaction_lifetime p);
   (4%nat, Chain.deferred_trx_expiration_window p); (4%nat, Chain.max_transaction_delay p);
   (4%nat, Chain.max_inline_action_size p); (2%nat, Chain.max_inline_action_depth p);
   (2%nat, Chain.max_authority_depth p)].

Definition wasm_fields (w : wasm_parameters) : list Z :=
  [max_mutable_global_bytes w; max_table_elements w; max_section_elements w; max_linear_memory_init w;
   max_func_local_bytes w; max_nested_structures w; max_symbol_bytes w; max_module_bytes w;
   max_code_bytes w; max_pages w; max_call_depth w].

Section params.
(** [datastream::write] appends bytes to a buffer of the given capacity, or fails. *)
Context (write : nat -> list Z -> list Z -> result (list Z)) (sizeof_params : nat) (e : Env).

Definition param_count : nat := 18.
Definition capacity : nat := 1 + sizeof_params + param_count.

Fixpoint put_fields (id : Z) (fs : list (nat * Z)) (buf : list Z) : result (list Z) :=
  match fs with
  | [] => Ok buf
  | (w, v) :: fs' =>
    match write capacity buf (le_bytes 1 id) with
    | Ok buf1 =>
      match write capacity buf1 (le_bytes w v) with
      | Ok buf2 => put_fields (id + 1) fs' buf2
      | Err m => Err m
      end
    | Err m => Err m
    end
  end.

(** The packed parameters: their count, then each behind its number. *)
Definition pack_params (params : blockchain_parameters_v1) : result (list Z) :=
  match write capacity [] (le_bytes 1 17) with
  | Ok buf0 =>
    match put_fields 0 (base_fields (base params)) buf0 with
    | Ok buf =>
      match max_action_return_value_size params with
      | Some size =>
        match put_fields 17 [(4%nat, size)] buf with
        | Ok (b :: rest) => Ok (u8 (b + 1) :: rest)
        | Ok [] => Ok []
        | Err m => Err m
        end
      | None => Ok buf
      end
    | Err m => Err m
    end
  | Err m => Err m
  end.

Definition setparams (params : blockchain_parameters_v1) : M params_state unit :=
  require_auth e (self e) ;;
  modify (fun s => s <| gparams := base params |>) ;;
  p ← gets gparams;
  check (3 <=? Chain.max_authority_depth p) "max_authority_depth should be at least 3" ;;
  buf ← lift (pack_params params);
  modify (fun s => s <| param_calls ::= fun l => l ++ [SetParametersPacked buf] |>).

Definition set_wasm_parameters (params : wasm_parameters) : M params_state unit :=
  modify (fun s => s <| param_calls ::= fun l =>
    l ++ [SetWasmParametersPacked (repeat 0 4 ++ flat_map (le_bytes 4) (wasm_fields params))] |>).

(** The names "default", "low" and "high". *)
Definition default_name : name := 5374603357560242176.
Definition low_name : name := 10175883358043635712.
Definition high_name : name := 7753175456936886272.

Definition wasmcfg (settings : name) : M params_state unit :=
  require_auth e (self e) ;;
  if (settings =? default_name) || (settings =? low_name) then set_wasm_parameters default_limits
  else if settings =? high_name then set_wasm_parameters high_limits
  else check false "Unkown configuration".
End params.

(** ** What the host reads *)
Fixpoint le_value (l : list Z) : Z := match l with [] => 0 | b :: l' => b + 256 * le_value l' end.

Lemma le_bytes_length k n : length (le_bytes k n) = k.
Proof. revert n. induction k as [|k IH]; intros n; cbn; [done|]. by rewrite IH. Qed.

Lemma le_value_bytes k : forall n, 0 <= n < 256 ^ Z.of_nat k -> le_value (le_bytes k n) = n.
Proof.
  induction k as [|k IH]; intros n Hn; [cbn in *; lia|]. cbn [le_bytes le_value].
  rewrite Nat2Z.inj_succ, Z.pow_succ_r in Hn by lia. rewrite IH; [pose proof (Z.div_mod n 256); lia|].
  split; [apply Z.div_pos; lia|apply Z.div_lt_upper_bound; lia].
Qed.

(** The widths the host knows the parameters by, and its reading: a count, then as many
    numbers with their values, and nothing left. *)
Definition param_widths : list nat := [8; 4; 4; 4; 4; 4; 4; 4; 4; 4; 4; 4; 4; 4; 4; 2; 2; 4]%nat.
Fixpoint read_params (n : nat) (l : list Z) : option (list (Z * Z)) :=
  match n, l with
  | O, [] => Some []
  | S n', id :: l' =>
    w ← param_widths !! Z.to_nat id;
    guard (w <= length l')%nat;;
    ((id, le_value (take w l')) ::.) <$> read_params n' (drop w l')
  | _, _ => None
  end.
Definition host_reads (buf : list Z) : option (list (Z * Z)) :=
  match buf with count :: l => read_params (Z.to_nat count) l | [] => None end.

(** The limits follow a version number of four bytes. *)
Fixpoint read_words (n : nat) (l : list Z) : list Z :=
  match n with O => [] | S n' => le_value (take 4 l) :: read_words n' (drop 4 l) end.

Definition all_fields (p : blockchain_parameters_v1) : list (nat * Z) :=
  base_fields (base p) ++ from_option (fun size => [(4%nat, size)]) [] (max_action_return_value_size p).
Definition params_in_range (p : blockchain_parameters_v1) : Prop :=
  Forall (fun f => 0 <= f.2 < 256 ^ Z.of_nat f.1) (all_fields p).
Definition numbered (fs : list (nat * Z)) : list (Z * Z) := imap (fun i f => (Z.of_nat i, f.2)) fs.

(** The bytes of numbered fields. *)
Fixpoint field_bytes (id : Z) (fs : list (nat * Z)) : list Z :=
  match fs with
  | [] => []
  | (w, v) :: fs' => le_bytes 1 id ++ le_bytes w v ++ field_bytes (id + 1) fs'
  end.
Definition fields_length (fs : list (nat * Z)) : nat := foldr (fun f n => (1 + f.1 + n)%nat) 0%nat fs.

Lemma field_bytes_app id fs1 fs2 :
  field_bytes id (fs1 ++ fs2) = field_bytes id fs1 ++ field_bytes (id + Z.of_nat (length fs1)) fs2.
Proof.
  revert id. induction fs1 as [|[w v] fs1 IH]; intros id; cbn [app field_bytes length].
  - f_equal. lia.
  - rewrite IH, <- !app_assoc. do 4 f_equal. lia.
Qed.

Lemma read_field_bytes fs : forall i,
  (i + length fs <= 18)%nat -> (forall j f, fs !! j = Some f -> param_widths !! (i + j)%nat = Some f.1) ->
  Forall (fun f => 0 <= f.2 < 256 ^ Z.of_nat f.1) fs ->
  read_params (length fs) (field_bytes (Z.of_nat i) fs) = Some (imap (fun j f => (Z.of_nat (i + j), f.2)) fs).
Proof.
  induction fs as [|[w v] fs IH]; intros i Hi Hw Hr; [done|].
  apply Forall_cons in Hr as [Hv Hr]. cbn [length] in Hi.
  cbn [length field_bytes le_bytes app read_params]. rewrite Z.mod_small by lia. rewrite Nat2Z.id.
  pose proof (Hw 0%nat (w, v) eq_refl) as Hw0. rewrite Nat.add_0_r in Hw0. rewrite Hw0. cbn [mbind option_bind fst snd].
  rewrite length_app, le_bytes_length. rewrite option_guard_True by lia.
  rewrite take_app_length' by (by rewrite le_bytes_length). rewrite drop_app_length' by (by rewrite le_bytes_length).
  rewrite le_value_bytes by done. replace (Z.of_nat i + 1) with (Z.of_nat (S i)) by lia. rewrite IH; [|lia| |done].
  - cbn. rewrite Nat.add_0_r. do 2 f_equal. apply imap_ext. intros j f _. cbn. by rewrite Nat.add_succ_r.
  - intros j f Hj. specialize (Hw (S j) f Hj). by rewrite Nat.add_succ_r in Hw.
Qed.

Section arrive.
Context (write : nat -> list Z -> list Z -> result (list Z)) (sizeof_params : nat) (e : Env).
(** A stream takes what fits; a structure is no smaller than its fields. *)
Hypothesis write_fits : forall cap buf bs, (length (buf ++ bs) <= cap)%nat -> write cap buf bs = Ok (buf ++ bs).
Hypothesis params_size : (72 <= sizeof_params)%nat.

Lemma put_fields_fits fs : forall id buf,
  (length buf + fields_length fs <= capacity sizeof_params)%nat ->
  put_fields write sizeof_params id fs buf = Ok (buf ++ field_bytes id fs).
Proof.
  induction fs as [|[w v] fs IH]; intros id buf Hlen; cbn [put_fields field_bytes].
  - by rewrite app_nil_r.
  - change (fields_length ((w, v) :: fs)) with (1 + w + fields_length fs)%nat in Hlen.
    rewrite write_fits by (rewrite !length_app, !le_bytes_length; lia).
    rewrite write_fits by (rewrite !length_app, !le_bytes_length; lia).
    rewrite IH by (rewrite !length_app, !le_bytes_length; lia). by rewrite !app_assoc.
Qed.

Lemma pack_params_bytes p :
  pack_params write sizeof_params p = Ok (Z.of_nat (length (all_fields p)) :: field_bytes 0 (all_fields p)).
Proof.
  unfold pack_params. assert (91 <= capacity sizeof_params)%nat as Hcap by (unfold capacity, param_count; lia).
  rewrite write_fits by (rewrite app_nil_l, le_bytes_length; lia).
  rewrite put_fields_fits by (rewrite app_nil_l, le_bytes_length; change (fields_length (base_fields (base p))) with 85%nat; lia).
  unfold all_fields. destruct (max_action_return_value_size p) as [size|]; cbn [from_option].
  - rewrite put_fields_fits; [by rewrite field_bytes_app, <- app_assoc|].
    rewrite !length_app, le_bytes_length. etrans; [|exact Hcap]. cbn. lia.
  - by rewrite app_nil_r.
Qed.

Lemma host_reads_pack p buf : params_in_range p ->
  pack_params write sizeof_params p = Ok buf -> host_reads buf = Some (numbered (all_fields p)).
Proof.
  intros Hr. rewrite pack_params_bytes. intros [= <-]. cbn [host_reads]. rewrite Nat2Z.id.
  apply (read_field_bytes (all_fields p) 0); [| |done].
  - unfold all_fields. rewrite length_app. destruct (max_action_return_value_size p); cbn; lia.
  - intros j f Hj. apply (f_equal (fmap fst)) in Hj. rewrite <- list_lookup_fmap in Hj.
    unfold all_fields in Hj. rewrite fmap_app in Hj.
    destruct (max_action_return_value_size p); cbn [from_option fmap list_fmap app base_fields fst option_map option_fmap] in Hj.
    + exact Hj.
    + assert (j < 17)%nat by (apply lookup_lt_Some in Hj; exact Hj). unfold param_widths.
      change ([8; 4; 4; 4; 4; 4; 4; 4; 4; 4; 4; 4; 4; 4; 4; 2; 2; 4]%nat) with
        ([8; 4; 4; 4; 4; 4; 4; 4; 4; 4; 4; 4; 4; 4; 4; 2; 2]%nat ++ [4%nat]). by rewrite lookup_app_l.
Qed.

(** C34: The contract may set the parameters of the chain whenever authorities may nest
    three deep; the global row then holds them, and the bytes handed to the host read, by
    number and width, as exactly the parameters given, the optional one included when it
    is there. The buffer is never too small. The limits on contract code the host reads
    are those of the settings named, and no other settings are accepted. *)
Theorem parameters_arrive p settings s : params_in_range p ->
  (is_ok (setparams write sizeof_params e p s) = has_auth e (self e) && (3 <=? Chain.max_authority_depth (base p))) /\
  (forall u s', setparams write sizeof_params e p s = Ok (u, s') -> gparams s' = base p /\
    exists buf, param_calls s' = param_calls s ++ [SetParametersPacked buf] /\
      host_reads buf = Some (numbered (all_fields p))) /\
  (forall u s', wasmcfg e settings s = Ok (u, s') -> gparams s' = gparams s /\
    exists w buf, param_calls s' = param_calls s ++ [SetWasmParametersPacked buf] /\
      (settings = high_name /\ w = high_limits \/
       (settings = default_name \/ settings = low_name) /\ w = default_limits) /\
      length buf = 48%nat /\ take 4 buf = [0; 0; 0; 0] /\ read_words 11 (drop 4 buf) = wasm_fields w).
Proof.
  intros Hr. split_and!.
  - unfold setparams, mbind, M_bind, check, modify, gets, lift. destruct (has_auth e (self e)); [|done].
    rewrite pack_params_bytes. cbn. by destruct (_ <=? _).
  - intros u s' H. unfold setparams in H. minv H. split; [done|]. eexists. split; [done|]. by apply host_reads_pack.
  - intros u s' H. unfold wasmcfg, set_wasm_parameters in H.
    apply bind_Ok in H as ([] & s1 & [_ ->]%check_Ok & H).
    destruct ((settings =? default_name) || (settings =? low_name)) eqn:Hd.
    + apply modify_Ok in H as ->. split; [done|]. exists default_limits. eexists. split; [done|].
      split; [right; split; [|done]; apply orb_true_iff in Hd as [?%Z.eqb_eq|?%Z.eqb_eq]; tauto|].
      vm_compute. done.
    + destruct (settings =? high_name) eqn:Hh; [|by apply check_Ok in H as [? _]].
      apply modify_Ok in H as ->. split; [done|]. exists high_limits. eexists. split; [done|].
      split; [left; split; [by apply Z.eqb_eq|done]|]. vm_compute. done.
Qed.
End arrive.

(** ** An example *)
Definition ex_params : blockchain_parameters_v1 :=
  ParamsV1 (Chain.mk 1048576 1000 524288 12 500 20 100 200000 2500 150000 100 3600 600 3888000 524288 4 6) (Some 256).
Definition ex_write (cap : nat) (buf bs : list Z) : result (list Z) :=
  if bool_decide (length (buf ++ bs) <= cap)%nat then Ok (buf ++ bs)
  else Err "datastream attempted to write past the end".

Lemma parameters_arrive_witness :
  exists s' buf, setparams ex_write 72 (mkEnv 1 [PermissionLevel 1 2] 0 (fun _ => true)) ex_params
      (ParamsState (base ex_params) []) = Ok (tt, s') /\
    param_calls s' = [SetParametersPacked buf] /\ length buf = 91%nat /\
    host_reads buf = Some (numbered (all_fields ex_params)).
Proof.
  set (e := mkEnv 1 [PermissionLevel 1 2] 0 (fun _ => true)). set (s := ParamsState (base ex_params) []).
  assert (forall cap buf bs, (length (buf ++ bs) <= cap)%nat -> ex_write cap buf bs = Ok (buf ++ bs)) as Hw
    by (intros cap buf bs Hl; unfold ex_write; by rewrite bool_decide_true).
  assert (params_in_range ex_params) as Hr by (repeat constructor; vm_compute; congruence).
  destruct (parameters_arrive ex_write 72 e Hw ltac:(lia) ex_params high_name s Hr) as (Hok & Hset & _).
  destruct (setparams ex_write 72 e ex_params s) as [[[] s']|] eqn:H; [|vm_compute in Hok; discriminate].
  destruct (Hset tt s' eq_refl) as (_ & buf & Hc & Hreads). exists s', buf.
  split; [reflexivity|]. split; [exact Hc|]. split; [|exact Hreads].
  vm_compute in H. injection H as <-. cbn in Hc. by injection Hc as <-.
Defined.
