(* ===== verification/Rlp.v ===== *)
(** * Recursive length prefix encoding (rlp.hpp)

    A value is a byte string or a list of values. [write] is the encoder of the library
    and [read] its decoder; sizes are 32 bits wide on the machine of the contracts, and
    the lengths read from the input 64. The recursion of the decoder carries fuel: one
    unit per nested value or element, at most the number of bytes. *)
From S2P Require Import Prelude.
From stdpp Require Import base strings list.
Open Scope Z_scope.

Definition RLP_maxUintLen : Z := 8.
Definition RLP_bufferLenStart : Z := 0x80.
Definition RLP_listStart : Z := 0xc0.

(** [RLPValue]: [VBUF] with its bytes, or [VARR] with its values. *)
Inductive rlp_value := VBuf (value : list Z) | VArr (values : list rlp_value).

(** ** Byte strings of integers *)

(** [k] bytes of [n], most significant first. *)
Fixpoint be_bytes (k : nat) (n : Z) : list Z :=
  match k with
  | O => []
  | S k' => (n / 256 ^ Z.of_nat k') mod 256 :: be_bytes k' n
  end.

Fixpoint strip_zeros (bs : list Z) : list Z :=
  match bs with
  | b :: bs' => if b =? 0 then strip_zeros bs' else bs
  | [] => []
  end.

(** [to_byte_string(uint64_t)] and [to_byte_string(uint256_t)]: no leading zero bytes. *)
Definition u64_byte_string (n : Z) : list Z := strip_zeros (be_bytes 8 n).
Definition u256_byte_string (n : Z) : list Z := if n =? 0 then [] else strip_zeros (be_bytes 32 n).

(** [encodeBinary]: the bytes of a 64-bit length, none for 0. *)
Fixpoint encode_binary (fuel : nat) (n : Z) : list Z :=
  match fuel with
  | O => []
  | S f => if n =? 0 then [] else encode_binary f (n / 256) ++ [n mod 256]
  end.

Definition encode_length (n offset : Z) : list Z :=
  if n <? 56 then [u8 (n + offset)]
  else let binlen := encode_binary 8 n in u8 (Z.of_nat (length binlen) + offset + 55) :: binlen.

(** ** Encoding *)
Definition write_buffer (value : list Z) : list Z :=
  match value with
  | [b] => if b <? 0x80 then [b] else encode_length 1 0x80 ++ value
  | _ => encode_length (Z.of_nat (length value)) 0x80 ++ value
  end.

Fixpoint write (v : rlp_value) : list Z :=
  match v with
  | VBuf value => write_buffer value
  | VArr values => let tmp := flat_map write values in encode_length (Z.of_nat (length tmp)) 0xC0 ++ tmp
  end.

(** [rlp::encode]: an array when there is more than one argument. *)
Definition encode (args : list (list Z)) : list Z :=
  if (1 <? Z.of_nat (length args)) then write (VArr (map VBuf args)) else write (VBuf []).

(** ** Decoding *)

(** [toInteger], most significant byte first, modulo 2^64. *)
Definition to_integer (raw : list Z) : Z := fold_left (fun n b => u64 (b + n * 256)) raw 0.

Definition byte_at (l : list Z) (i : nat) : Z := nth i l 0.

(** [read]: the value and the bytes consumed; [None] when the input is not valid. *)
Fixpoint read (fuel : nat) (raw : list Z) {struct fuel} : option (rlp_value * Z) :=
  match fuel, raw with
  | S f, ch :: rest =>
    let len := Z.of_nat (length raw) in
    if ch <=? 0x7f then Some (VBuf [ch], 1)
    else if ch <=? 0xb7 then
      let blen := ch - 0x80 in
      if len <? 1 + blen then None
      else if (blen =? 1) && (byte_at rest 0 <=? 0x7f) then None
      else Some (VBuf (take (Z.to_nat blen) rest), 1 + blen)
    else if ch <=? 0xbf then
      let uintlen := ch - 0xb7 in
      if len <? 1 + uintlen then None
      else if (1 <? uintlen) && (byte_at rest 0 =? 0) then None
      else
        let slen := to_integer (take (Z.to_nat uintlen) rest) in
        let expected := u32 (1 + uintlen + slen) in
        if (slen <? 56) || (len <? expected) || (len <? slen) then None
        else Some (VBuf (take (Z.to_nat slen) (drop (Z.to_nat uintlen) rest)), expected)
    else if ch <=? 0xf7 then
      let payloadlen := ch - 0xc0 in
      match read_array f raw len 0 payloadlen with
      | Some (vs, consumed) => if consumed =? payloadlen then Some (VArr vs, 1 + payloadlen) else None
      | None => None
      end
    else
      let uintlen := ch - 0xf7 in
      if len <? 1 + uintlen then None
      else if (1 <? uintlen) && (byte_at rest 0 =? 0) then None
      else
        let payloadlen := u32 (to_integer (take (Z.to_nat uintlen) rest)) in
        if payloadlen <? 56 then None
        else
          match read_array f raw len uintlen payloadlen with
          | Some (vs, consumed) =>
            if consumed =? payloadlen then Some (VArr vs, u32 (1 + uintlen + payloadlen)) else None
          | None => None
          end
  | _, _ => None
  end
with read_array (fuel : nat) (raw : list Z) (len uintlen payloadlen : Z) {struct fuel}
  : option (list rlp_value * Z) :=
  match fuel with
  | O => None
  | S f =>
    let expected := u32 (1 + uintlen + payloadlen) in
    if (len <? expected) || (len <? payloadlen) then None
    else read_items f (take (Z.to_nat payloadlen) (drop (Z.to_nat (1 + uintlen)) raw))
  end
(** The loop: [ent] is what is left of the payload. *)
with read_items (fuel : nat) (ent : list Z) {struct fuel} : option (list rlp_value * Z) :=
  match ent, fuel with
  | [], _ => Some ([], 0)
  | _, O => None
  | _, S f =>
    match read f ent with
    | None => None
    | Some (v, consumed) =>
      match read_items f (drop (Z.to_nat consumed) ent) with
      | None => None
      | Some (vs, total) => Some (v :: vs, consumed + total)
      end
    end
  end.

(** [rlp::decode]; the fuel is enough for three calls per byte. *)
Definition decode (bytes : list Z) : result rlp_value :=
  match bytes with
  | [] => Err "Invalid Transaction: RLP nothing to decode"
  | _ =>
    match read (3 * length bytes + 3) bytes with
    | Some (v, _) => Ok v
    | None => Err "Invalid Transaction: RLP could not be decoded"
    end
  end.

(** ** Lengths *)

Lemma encode_binary_app f n : 0 < n -> encode_binary (S f) n = encode_binary f (n / 256) ++ [n mod 256].
Proof. intros Hn. cbn [encode_binary]. destruct (Z.eqb_spec n 0); [lia|done]. Qed.

Lemma fold_integer_app l b acc :
  fold_left (fun n b => u64 (b + n * 256)) (l ++ [b]) acc =
  u64 (b + fold_left (fun n b => u64 (b + n * 256)) l acc * 256).
Proof. by rewrite fold_left_app. Qed.

(** The bytes of a length are its base-256 digits: reading them back gives it again, there
    are as many as it needs, and the first is not zero. *)
Lemma encode_binary_spec f : forall n, 0 <= n < 256 ^ Z.of_nat f -> (f <= 8)%nat ->
  to_integer (encode_binary f n) = n /\ (length (encode_binary f n) <= f)%nat /\
  Forall (fun b => 0 <= b < 256) (encode_binary f n) /\
  (0 < n -> exists b bs, encode_binary f n = b :: bs /\ b <> 0).
Proof.
  induction f as [|f IH]; intros n Hn Hf.
  - cbn in *. split_and!; [cbn; lia|lia|done|lia].
  - destruct (Z.eq_dec n 0) as [->|Hn0]; [cbn; split_and!; [done|lia|done|lia]|].
    rewrite encode_binary_app by lia.
    assert (0 <= n / 256 < 256 ^ Z.of_nat f) as Hdiv.
    { split; [apply Z.div_pos; lia|]. apply Z.div_lt_upper_bound; [lia|].
      rewrite <- Z.pow_succ_r by lia. rewrite <- Nat2Z.inj_succ. lia. }
    destruct (IH (n / 256)) as (IH1 & IH2 & IH3 & IH4); [done|lia|].
    pose proof (Z.mod_pos_bound n 256). pose proof (Z.div_mod n 256). split_and!.
    + unfold to_integer in *. rewrite fold_integer_app, IH1.
      replace (n mod 256 + n / 256 * 256) with n by lia. apply u64_small. unfold in_u64.
      assert (256 ^ Z.of_nat (S f) <= 256 ^ 8) by (apply Z.pow_le_mono_r; lia). lia.
    + rewrite length_app. cbn. lia.
    + apply Forall_app. split; [done|]. constructor; [lia|done].
    + intros _. destruct (Z.eq_dec (n / 256) 0) as [Hz|Hz].
      * rewrite Hz. exists (n mod 256), []. split; [by destruct f|]. lia.
      * destruct IH4 as (b & bs & -> & Hb); [lia|]. by exists b, (bs ++ [n mod 256]).
Qed.

(** The header of a payload of [n] bytes, either way. *)
Lemma encode_length_cases n offset :
  0 <= n < 2 ^ 32 -> offset = 0x80 \/ offset = 0xC0 ->
  (n < 56 /\ encode_length n offset = [n + offset]) \/
  (56 <= n /\ exists bl k, encode_length n offset = k + offset + 55 :: bl /\ k = Z.of_nat (length bl) /\
     1 <= k <= 8 /\ to_integer bl = n /\ byte_at bl 0 <> 0).
Proof.
  intros Hn Hoff. unfold encode_length. destruct (Z.ltb_spec n 56) as [Hlt|Hge].
  - left. split; [done|]. f_equal. apply uwrap_small. lia.
  - right. split; [done|]. destruct (encode_binary_spec 8 n) as (H1 & H2 & _ & H4); [lia|lia|].
    destruct H4 as (b & bs & Hb & Hb0); [lia|]. rewrite Hb in *.
    exists (b :: bs), (Z.of_nat (length (b :: bs))). cbn [length] in *. split_and!; [|done|lia|lia|done|done].
    f_equal. apply uwrap_small. lia.
Qed.

(** ** Round trip *)

Lemma small_byte_dec (bs : list Z) : Decision (exists b, bs = [b] /\ b < 0x80).
Proof.
  destruct bs as [|b [|c bs]]; [right|destruct (Z_lt_dec b 0x80); [left|right]|right]; naive_solver.
Qed.

(** Induction on values with the hypothesis on the elements of an array. *)
Lemma rlp_value_nested_ind (P : rlp_value -> Prop) :
  (forall bs, P (VBuf bs)) -> (forall vs, Forall P vs -> P (VArr vs)) -> forall v, P v.
Proof.
  intros Hb Ha. fix IH 1. intros [bs|vs]; [apply Hb|]. apply Ha.
  induction vs as [|v vs IHvs]; constructor; [apply IH|done].
Qed.

Inductive rlp_bytes : rlp_value -> Prop :=
| rlp_bytes_buf bs : Forall (fun b => 0 <= b < 256) bs -> rlp_bytes (VBuf bs)
| rlp_bytes_arr vs : Forall rlp_bytes vs -> rlp_bytes (VArr vs).

Lemma write_length v : (1 <= length (write v))%nat.
Proof.
  assert (forall n off l, (1 <= length (encode_length n off ++ l))%nat) as Hh.
  { intros n off l. unfold encode_length. destruct (n <? 56); cbn; lia. }
  destruct v as [bs|vs]; cbn [write]; [|apply Hh].
  unfold write_buffer. destruct bs as [|b [|]]; [apply Hh| |apply Hh].
  destruct (b <? 128); [cbn; lia|apply Hh].
Qed.

(** What the decoder reads after a header: exactly the payload. *)
Lemma take_payload {A} (l suffix : list A) n : n = Z.of_nat (length l) -> take (Z.to_nat n) (l ++ suffix) = l.
Proof. intros ->. rewrite Nat2Z.id. apply take_app_length. Qed.

Lemma read_small_buffer f bs suffix :
  Forall (fun b => 0 <= b < 256) bs -> Z.of_nat (length bs) < 56 ->
  (forall b, bs = [b] -> 0x80 <= b) ->
  read (S f) (Z.of_nat (length bs) + 0x80 :: bs ++ suffix) = Some (VBuf bs, 1 + Z.of_nat (length bs)).
Proof.
  intros Hbs Hlen Hone. cbn [read]. set (n := Z.of_nat (length bs)).
  destruct (Z.leb_spec (n + 128) 127); [lia|]. destruct (Z.leb_spec (n + 128) 183); [|lia].
  replace (n + 128 - 128) with n by lia.
  assert (Z.of_nat (length (n + 128 :: bs ++ suffix)) = 1 + n + Z.of_nat (length suffix)) as ->.
  { cbn [length]. rewrite length_app. lia. }
  destruct (Z.ltb_spec (1 + n + Z.of_nat (length suffix)) (1 + n)); [lia|].
  destruct (Z.eqb_spec n 1) as [Hn1|Hn1]; cbn [andb].
  - destruct bs as [|b [|]]; cbn in n; try (subst n; lia). specialize (Hone b eq_refl).
    cbn [app byte_at nth]. destruct (Z.leb_spec b 127); [lia|]. rewrite Hn1. done.
  - by rewrite take_payload.
Qed.

Lemma read_long_buffer f bs suffix bl k :
  k = Z.of_nat (length bl) -> 1 <= k <= 8 -> to_integer bl = Z.of_nat (length bs) -> byte_at bl 0 <> 0 ->
  56 <= Z.of_nat (length bs) -> 1 + k + Z.of_nat (length bs) + Z.of_nat (length suffix) < 2 ^ 32 ->
  read (S f) (k + 0x80 + 55 :: bl ++ bs ++ suffix) = Some (VBuf bs, 1 + k + Z.of_nat (length bs)).
Proof.
  intros Hk Hk8 Hint H0 H56 Hlen. cbn [read]. set (n := Z.of_nat (length bs)) in *.
  destruct (Z.leb_spec (k + 128 + 55) 127); [lia|]. destruct (Z.leb_spec (k + 128 + 55) 183); [lia|].
  destruct (Z.leb_spec (k + 128 + 55) 191); [|lia]. replace (k + 128 + 55 - 183) with k by lia.
  assert (Z.of_nat (length (k + 128 + 55 :: bl ++ bs ++ suffix)) = 1 + k + n + Z.of_nat (length suffix)) as ->.
  { cbn [length]. rewrite !length_app. lia. }
  destruct (Z.ltb_spec (1 + k + n + Z.of_nat (length suffix)) (1 + k)); [lia|].
  assert (byte_at (bl ++ bs ++ suffix) 0 = byte_at bl 0) as ->.
  { unfold byte_at. rewrite app_nth1; [done|lia]. }
  rewrite (proj2 (Z.eqb_neq _ _) H0), andb_false_r, (take_payload bl), Hint by done.
  rewrite (u32_small (1 + k + n)) by (unfold in_u32; lia).
  destruct (Z.ltb_spec n 56); [lia|]. destruct (Z.ltb_spec (1 + k + n + Z.of_nat (length suffix)) (1 + k + n)); [lia|].
  destruct (Z.ltb_spec (1 + k + n + Z.of_nat (length suffix)) n); [lia|]. cbn [orb].
  rewrite Hk, Nat2Z.id, drop_app_length. by rewrite take_payload.
Qed.

Lemma read_array_payload f raw uintlen payload header suffix vs :
  raw = header ++ payload ++ suffix -> Z.of_nat (length header) = 1 + uintlen -> 0 <= uintlen ->
  Z.of_nat (length raw) < 2 ^ 32 ->
  read_items f payload = Some (vs, Z.of_nat (length payload)) ->
  read_array (S f) raw (Z.of_nat (length raw)) uintlen (Z.of_nat (length payload)) =
  Some (vs, Z.of_nat (length payload)).
Proof.
  intros Hraw Hhead Hu Hlen Hitems. cbn [read_array].
  assert (Z.of_nat (length raw) = 1 + uintlen + Z.of_nat (length payload) + Z.of_nat (length suffix)) as Hl.
  { rewrite Hraw, !length_app. lia. }
  rewrite (u32_small (1 + uintlen + _)) by (unfold in_u32; lia).
  destruct (Z.ltb_spec (Z.of_nat (length raw)) (1 + uintlen + Z.of_nat (length payload))); [lia|].
  destruct (Z.ltb_spec (Z.of_nat (length raw)) (Z.of_nat (length payload))); [lia|]. cbn [orb].
  rewrite <- Hhead, !Nat2Z.id, Hraw, drop_app_length, take_app_length. exact Hitems.
Qed.

(** An array is read when its elements are. *)
Lemma read_array_value f vs payload suffix :
  let n := Z.of_nat (length payload) in
  Z.of_nat (length (encode_length n 0xC0 ++ payload ++ suffix)) < 2 ^ 32 ->
  read_items f payload = Some (vs, n) ->
  read (S (S f)) (encode_length n 0xC0 ++ payload ++ suffix) =
  Some (VArr vs, Z.of_nat (length (encode_length n 0xC0 ++ payload))).
Proof.
  intros n Hlen Hitems. rewrite !length_app in Hlen.
  destruct (encode_length_cases n 0xC0) as [[Hn Henc]|(Hn & bl & k & Henc & Hk & Hk8 & Hint & H0)];
    [lia|by right|..]; rewrite Henc in *; cbn [length app] in Hlen.
  - pose proof (read_array_payload f (n + 192 :: payload ++ suffix) 0 payload [n + 192] suffix vs eq_refl eq_refl
      ltac:(lia) ltac:(cbn [length]; rewrite length_app; lia) Hitems) as Harr. fold n in Harr.
    cbn [app]. remember (n + 192 :: payload ++ suffix) as raw eqn:Hraw. cbn [read].
    rewrite Hraw. cbn [app]. rewrite <- Hraw.
    destruct (Z.leb_spec (n + 192) 127); [lia|]. destruct (Z.leb_spec (n + 192) 183); [lia|].
    destruct (Z.leb_spec (n + 192) 191); [lia|]. destruct (Z.leb_spec (n + 192) 247); [|lia].
    replace (n + 192 - 192) with n by lia. rewrite Harr, Z.eqb_refl. f_equal. f_equal. cbn [length]. lia.
  - pose proof (read_array_payload f (k + 192 + 55 :: bl ++ payload ++ suffix) k payload
      (k + 192 + 55 :: bl) suffix vs eq_refl ltac:(cbn [length]; lia)
      ltac:(lia) ltac:(cbn [length]; rewrite !length_app; lia) Hitems) as Harr. fold n in Harr.
    cbn [app]. remember (k + 192 + 55 :: bl ++ payload ++ suffix) as raw eqn:Hraw. cbn [read].
    rewrite Hraw. rewrite <- Hraw.
    destruct (Z.leb_spec (k + 192 + 55) 127); [lia|]. destruct (Z.leb_spec (k + 192 + 55) 183); [lia|].
    destruct (Z.leb_spec (k + 192 + 55) 191); [lia|]. destruct (Z.leb_spec (k + 192 + 55) 247); [lia|].
    replace (k + 192 + 55 - 247) with k by lia.
    assert (Z.of_nat (length raw) = 1 + k + n + Z.of_nat (length suffix)) as Hl.
    { rewrite Hraw. cbn [length]. rewrite !length_app. lia. }
    destruct (Z.ltb_spec (Z.of_nat (length raw)) (1 + k)); [lia|].
    assert (byte_at (bl ++ payload ++ suffix) 0 = byte_at bl 0) as ->.
    { unfold byte_at. rewrite app_nth1; [done|lia]. }
    rewrite (proj2 (Z.eqb_neq _ _) H0), andb_false_r, (take_payload bl), Hint by done.
    rewrite (u32_small n) by (unfold in_u32; lia). destruct (Z.ltb_spec n 56); [lia|].
    rewrite Harr, Z.eqb_refl, (u32_small (1 + k + n)) by (unfold in_u32; lia).
    f_equal. f_equal. cbn [length]. rewrite length_app. lia.
Qed.

Lemma read_items_values vs :
  Forall (fun v => forall f suffix, (3 * length (write v) <= f)%nat ->
    Z.of_nat (length (write v ++ suffix)) < 2 ^ 32 ->
    read f (write v ++ suffix) = Some (v, Z.of_nat (length (write v)))) vs ->
  forall f, (3 * length (flat_map write vs) + 1 <= f)%nat ->
  Z.of_nat (length (flat_map write vs)) < 2 ^ 32 ->
  read_items f (flat_map write vs) = Some (vs, Z.of_nat (length (flat_map write vs))).
Proof.
  induction 1 as [|v vs Hv _ IH]; intros f Hf Hlen; [by destruct f|].
  cbn [flat_map] in *. rewrite length_app in Hf, Hlen. pose proof (write_length v).
  destruct (write v ++ flat_map write vs) as [|c rest] eqn:Hent; [destruct (write v); cbn in *; [lia|done]|].
  destruct f as [|f]; [lia|]. cbn [read_items]. rewrite <- Hent.
  rewrite Hv by (lia || (rewrite length_app; lia)).
  rewrite Nat2Z.id, drop_app_length, IH by lia. rewrite length_app. f_equal. f_equal. lia.
Qed.

Lemma read_write v : rlp_bytes v -> forall f suffix, (3 * length (write v) <= f)%nat ->
  Z.of_nat (length (write v ++ suffix)) < 2 ^ 32 ->
  read f (write v ++ suffix) = Some (v, Z.of_nat (length (write v))).
Proof.
  induction v as [bs|vs IH] using rlp_value_nested_ind; intros Hwf f suffix Hf Hlen; inversion Hwf as [? Hbs|? Hvs]; subst.
  - pose proof (write_length (VBuf bs)). destruct f as [|f]; [lia|]. rewrite length_app in Hlen.
    assert (forall b, bs = [b] -> b < 0x80 -> read (S f) (write (VBuf bs) ++ suffix) =
      Some (VBuf bs, Z.of_nat (length (write (VBuf bs))))) as Hsingle.
    { intros b -> Hb. cbn [write write_buffer] in *. rewrite (proj2 (Z.ltb_lt _ _) Hb) in *. cbn.
      destruct (Z.leb_spec b 127); [done|lia]. }
    destruct (small_byte_dec bs) as [(b & Hb & Hlt)|Hns]; [by eapply Hsingle|].
    assert (write (VBuf bs) = encode_length (Z.of_nat (length bs)) 0x80 ++ bs) as Hw.
    { cbn [write write_buffer]. unfold write_buffer. destruct bs as [|b [|]]; [done| |done].
      destruct (Z.ltb_spec b 128); [|done]. exfalso. apply Hns. by exists b. }
    rewrite Hw in *. rewrite length_app in Hlen.
    destruct (encode_length_cases (Z.of_nat (length bs)) 0x80)
      as [[Hn Henc]|(Hn & bl & k & Henc & Hk & Hk8 & Hint & H0)]; [lia|by left|..]; rewrite Henc in *.
    + cbn [app]. rewrite read_small_buffer; [f_equal; f_equal; cbn [length]; lia|done|done|].
      intros b ->. destruct (Z.lt_ge_cases b 0x80); [|done]. exfalso. apply Hns. by exists b.
    + cbn [app]. rewrite <- app_assoc. cbn [length] in Hlen.
      rewrite (read_long_buffer f bs suffix bl k) by (done || lia).
      f_equal. f_equal. cbn [length]. rewrite length_app. lia.
  - cbn [write] in *. pose proof (write_length (VArr vs)) as Hw. cbn [write] in Hw.
    repeat rewrite length_app in Hlen. rewrite length_app in Hf.
    assert (1 <= length (encode_length (Z.of_nat (length (flat_map write vs))) 192))%nat as He.
    { unfold encode_length. destruct (_ <? _); cbn; lia. }
    destruct f as [|[|f]]; [lia..|]. rewrite <- app_assoc. apply read_array_value.
    { rewrite !length_app. lia. }
    apply read_items_values; [|lia|lia].
    apply Forall_forall. intros v Hv. rewrite Forall_forall in IH, Hvs. apply IH; [done|by apply Hvs].
Qed.

(** C35: decoding inverts encoding: what the encoder writes for a value of proper bytes, with
    anything after it, the decoder reads back whole, as long as the input is addressable
    in 32 bits. The fuel [decode] gives is enough. *)
Theorem decode_write v suffix :
  rlp_bytes v -> Z.of_nat (length (write v ++ suffix)) < 2 ^ 32 ->
  decode (write v ++ suffix) = Ok v.
Proof.
  intros Hv Hlen. unfold decode. pose proof (write_length v).
  destruct (write v ++ suffix) as [|c rest] eqn:Hw; [destruct (write v); cbn in *; [lia|done]|].
  rewrite <- Hw. rewrite read_write; [done|done|rewrite length_app; lia|by rewrite Hw].
Qed.

Definition ex_rlp : rlp_value :=
  VArr [VBuf [0x83; 1]; VBuf []; VArr [VBuf [7]; VBuf [200]]; VBuf (repeat 9 60)].

Lemma decode_write_witness : decode (write ex_rlp) = Ok ex_rlp.
Proof.
  rewrite <- (app_nil_r (write ex_rlp)). apply decode_write.
  - repeat (constructor; try lia).
  - vm_compute. reflexivity.
Defined.
