(* ===== verification/Intx.v ===== *)
(** * Wide integers (libs/intx: int128.hpp, intx.hpp, div.hpp, base.hpp)

    The library the contract computes with beyond 64 bits: 128-bit numbers as two words,
    256-bit numbers as two 128-bit halves, long division by a precomputed reciprocal.
    Words are numbers below 2^64, lists of words start with the least significant. Where
    the source has a version on the compiler's 128-bit integers and a portable one, the
    first is what the contract is built with; the portable multiplication is here too. *)
From S2P Require Import Prelude.
From stdpp Require Import base list.
Open Scope Z_scope.

(** ** 128-bit numbers *)
Record uint128 := U128 { hi : Z; lo : Z }.
Record with_carry (A : Type) := WithCarry { cvalue : A; carry : bool }.
Arguments WithCarry {A}. Arguments cvalue {A}. Arguments carry {A}.
Record div_result (A : Type) := DivResult { quot : A; rem : A }.
Arguments DivResult {A}. Arguments quot {A}. Arguments rem {A}.

(** The value of a number, and the number of a value: the casts from and to the
    compiler's 128-bit integer. *)
Definition value128 (x : uint128) : Z := hi x * 2 ^ 64 + lo x.
Definition of_value128 (z : Z) : uint128 := U128 (u64 (z / 2 ^ 64)) (u64 z).
Definition word128 (w : Z) : uint128 := U128 0 w.

Definition add_with_carry128 (a b : uint128) : with_carry uint128 :=
  let l := u64 (lo a + lo b) in
  let lo_carry := l <? lo a in
  let t := u64 (hi a + hi b) in
  let carry1 := t <? hi a in
  let h := u64 (t + Z.b2z lo_carry) in
  let carry2 := h <? t in
  WithCarry (U128 h l) (carry1 || carry2).
Definition add128 (x y : uint128) : uint128 := cvalue (add_with_carry128 x y).

Definition sub_with_carry128 (a b : uint128) : with_carry uint128 :=
  let l := u64 (lo a - lo b) in
  let lo_borrow := lo a <? l in
  let t := u64 (hi a - hi b) in
  let borrow1 := hi a <? t in
  let h := u64 (t - Z.b2z lo_borrow) in
  let borrow2 := t <? h in
  WithCarry (U128 h l) (borrow1 || borrow2).
Definition sub128 (x y : uint128) : uint128 := cvalue (sub_with_carry128 x y).

Definition fast_add (x y : uint128) : uint128 := of_value128 (u128 (value128 x + value128 y)).

Definition lt128 (x y : uint128) : bool := (hi x <? hi y) || ((hi x =? hi y) && (lo x <? lo y)).
Definition or128 (x y : uint128) : uint128 := U128 (Z.lor (hi x) (hi y)) (Z.lor (lo x) (lo y)).

Definition shl128 (x : uint128) (shift : Z) : uint128 :=
  if shift <? 64 then
    U128 (Z.lor (u64 (Z.shiftl (hi x) shift)) (Z.shiftr (Z.shiftr (lo x) 1) (63 - shift))) (u64 (Z.shiftl (lo x) shift))
  else if shift <? 128 then U128 (u64 (Z.shiftl (lo x) (shift - 64))) 0
  else U128 0 0.

(** The portable product of two words, and the one on the compiler's integers. *)
Definition constexpr_umul (x y : Z) : uint128 :=
  let xl := Z.land x 0xffffffff in
  let xh := Z.shiftr x 32 in
  let yl := Z.land y 0xffffffff in
  let yh := Z.shiftr y 32 in
  let t0 := u64 (xl * yl) in
  let t1 := u64 (xh * yl) in
  let t2 := u64 (xl * yh) in
  let t3 := u64 (xh * yh) in
  let u1 := u64 (t1 + Z.shiftr t0 32) in
  let u2 := u64 (t2 + Z.land u1 0xffffffff) in
  U128 (u64 (u64 (t3 + Z.shiftr u2 32) + Z.shiftr u1 32)) (Z.lor (u64 (Z.shiftl u2 32)) (Z.land t0 0xffffffff)).
Definition umul (x y : Z) : uint128 := of_value128 (x * y).

Definition mul128 (x y : uint128) : uint128 :=
  let p := umul (lo x) (lo y) in
  U128 (u64 (hi p + u64 (u64 (lo x * hi y) + u64 (hi x * lo y)))) (lo p).

Definition clz64 (x : Z) : Z := if x =? 0 then 64 else 63 - Z.log2 x.

(** ** 256-bit numbers *)
Record uint256 := U256 { hi256 : uint128; lo256 : uint128 }.
Definition value256 (x : uint256) : Z := value128 (hi256 x) * 2 ^ 128 + value128 (lo256 x).
Definition word256 (w : Z) : uint256 := U256 (U128 0 0) (word128 w).

Definition add_with_carry256 (a b : uint256) : with_carry uint256 :=
  let l := add_with_carry128 (lo256 a) (lo256 b) in
  let tt := add_with_carry128 (hi256 a) (hi256 b) in
  let h := add_with_carry128 (cvalue tt) (word128 (Z.b2z (carry l))) in
  WithCarry (U256 (cvalue h) (cvalue l)) (carry tt || carry h).
Definition add256 (x y : uint256) : uint256 := cvalue (add_with_carry256 x y).

Definition sub_with_carry256 (a b : uint256) : with_carry uint256 :=
  let l := sub_with_carry128 (lo256 a) (lo256 b) in
  let tt := sub_with_carry128 (hi256 a) (hi256 b) in
  let h := sub_with_carry128 (cvalue tt) (word128 (Z.b2z (carry l))) in
  WithCarry (U256 (cvalue h) (cvalue l)) (carry tt || carry h).
Definition sub256 (x y : uint256) : uint256 := cvalue (sub_with_carry256 x y).

(** The full product of two 128-bit numbers, and the product modulo 2^256. *)
Definition umul128 (x y : uint128) : uint256 :=
  let t0 := umul (lo x) (lo y) in
  let t1 := umul (hi x) (lo y) in
  let t2 := umul (lo x) (hi y) in
  let t3 := umul (hi x) (hi y) in
  let u1 := add128 t1 (word128 (hi t0)) in
  let u2 := add128 t2 (word128 (lo u1)) in
  U256 (add128 (add128 t3 (word128 (hi u2))) (word128 (hi u1))) (or128 (shl128 u2 64) (word128 (lo t0))).
Definition mul256 (a b : uint256) : uint256 :=
  let t := umul128 (lo256 a) (lo256 b) in
  U256 (add128 (add128 (mul128 (lo256 a) (hi256 b)) (mul128 (hi256 a) (lo256 b))) (hi256 t)) (lo256 t).

(** ** Division *)
Definition reciprocal_table_item (d9 : Z) : Z := u16 (0x7fd00 / Z.lor 0x100 d9).

Definition reciprocal_2by1 (d : Z) : Z :=
  let d9 := u8 (Z.shiftr d 55) in
  let v0 := reciprocal_table_item d9 in
  let d40 := u64 (Z.shiftr d 24 + 1) in
  let v1 := u64 (u64 (u64 (Z.shiftl v0 11) - Z.shiftr (u64 (u64 (v0 * v0) * d40)) 40) - 1) in
  let v2 := u64 (u64 (Z.shiftl v1 13) + Z.shiftr (u64 (v1 * u64 (0x1000000000000000 - u64 (v1 * d40)))) 47) in
  let d0 := d mod 2 in
  let d63 := u64 (d / 2 + d0) in
  let nd0 := u64 (- d0) in
  let e := u64 (Z.land (v2 / 2) nd0 - u64 (v2 * d63)) in
  let mh := hi (umul v2 e) in
  let v3 := u64 (u64 (Z.shiftl v2 31) + Z.shiftr mh 1) in
  let m := fast_add (umul v3 d) (word128 d) in
  let v3a := u64 (hi m + d) in
  u64 (v3 - v3a).

Definition udivrem_2by1 (u : uint128) (d v : Z) : div_result Z :=
  let q := fast_add (umul v (hi u)) u in
  let q1 := u64 (hi q + 1) in
  let r := u64 (lo u - u64 (q1 * d)) in
  let '(q1, r) := if lo q <? r then (u64 (q1 - 1), u64 (r + d)) else (q1, r) in
  let '(q1, r) := if d <=? r then (u64 (q1 + 1), u64 (r - d)) else (q1, r) in
  DivResult q1 r.

Definition reciprocal_3by2 (d : uint128) : Z :=
  let v := reciprocal_2by1 (hi d) in
  let p := u64 (u64 (hi d * v) + lo d) in
  let '(v, p) :=
    if p <? lo d then
      let v := u64 (v - 1) in
      let '(v, p) := if hi d <=? p then (u64 (v - 1), u64 (p - hi d)) else (v, p) in
      (v, u64 (p - hi d))
    else (v, p) in
  let t := umul v (lo d) in
  let p := u64 (p + hi t) in
  if p <? hi t then
    let v := u64 (v - 1) in
    if negb (lt128 (U128 p (lo t)) d) then u64 (v - 1) else v
  else v.

Definition udivrem_3by2 (u2 u1 u0 : Z) (d : uint128) (v : Z) : div_result uint128 :=
  let q := fast_add (umul v u2) (U128 u2 u1) in
  let r1 := u64 (u1 - u64 (hi q * hi d)) in
  let t := umul (lo d) (hi q) in
  let r := sub128 (sub128 (U128 r1 u0) t) d in
  let r1 := hi r in
  let q1 := u64 (hi q + 1) in
  let '(q1, r) := if lo q <=? r1 then (u64 (q1 - 1), add128 r d) else (q1, r) in
  let '(q1, r) := if negb (lt128 r d) then (u64 (q1 + 1), sub128 r d) else (q1, r) in
  DivResult (word128 q1) r.

(** ** Long division on arrays of words

    [word u i] is [u[i]]. The array of the numerator has one word more than the number:
    the member [numerator_ex] that follows it in the struct. *)
Definition word (u : list Z) (i : nat) : Z := nth i u 0.
Fixpoint words_value (l : list Z) : Z :=
  match l with [] => 0 | w :: l' => w + 2 ^ 64 * words_value l' end.

Fixpoint by1_loop (d v : Z) (j : nat) (u : list Z) (r : Z) : list Z * Z :=
  match j with
  | O => (u, r)
  | S j' =>
    let x := udivrem_2by1 (U128 r (word u j')) d v in
    by1_loop d v j' (<[j' := quot x]> u) (rem x)
  end.
Definition udivrem_by1 (u : list Z) (m : nat) (d : Z) : list Z * Z :=
  by1_loop d (reciprocal_2by1 d) m (<[m := 0]> u) (word u m).

Fixpoint by2_loop (d : uint128) (v : Z) (j : nat) (u : list Z) (r : uint128) : list Z * uint128 :=
  match j with
  | O => (u, r)
  | S j' =>
    let x := udivrem_3by2 (hi r) (lo r) (word u j') d v in
    by2_loop d v j' (<[j' := lo (quot x)]> u) (rem x)
  end.
Definition udivrem_by2 (u : list Z) (m : nat) (d : uint128) : list Z * uint128 :=
  by2_loop d (reciprocal_3by2 d) (m - 1) (<[m := 0]> (<[Nat.pred m := 0]> u)) (U128 (word u m) (word u (m - 1))).

(** The words up to the last that is not 0. *)
Fixpoint significant_words (l : list Z) : nat :=
  match l with
  | [] => 0
  | w :: l' => match significant_words l' with O => if w =? 0 then 0 else 1 | S k => S (S k) end
  end.

(** The words shifted left by less than a word, with the bits shifted out of the last. *)
Definition shifted_word (s : Z) (l : list Z) (i : nat) : Z :=
  match i with
  | O => u64 (Z.shiftl (word l 0) s)
  | S i' => Z.lor (u64 (Z.shiftl (word l i) s)) (Z.shiftr (word l i') (64 - s))
  end.
Definition shl_words (s : Z) (l : list Z) : list Z := map (shifted_word s l) (seq 0 (length l)).

Record normalized_div_args := NormArgs {
  denominator : list Z;
  (** the numerator and [numerator_ex] *)
  numerator : list Z;
  num_denominator_words : nat;
  num_numerator_words : nat;
  shift : Z;
}.
(** A denominator of 0 is read before its first word; callers exclude it. *)
Definition normalize (u v : list Z) : normalized_div_args :=
  let m := significant_words u in
  let n := significant_words v in
  let s := clz64 (word v (n - 1)) in
  if s =? 0 then NormArgs v (u ++ [0]) n m s
  else NormArgs (shl_words s v) (shl_words s u ++ [Z.shiftr (word u (length u - 1)) (64 - s)]) n m s.

(** One digit of the schoolbook division: the estimate from the leading words. *)
Definition estimate (u2 u1 u0 : Z) (divisor : uint128) (reciprocal : Z) : Z :=
  let too_big qhat rhat := lt128 (U128 (lo rhat) u0) (umul qhat (lo divisor)) in
  let dividend := U128 u2 u1 in
  if hi divisor <=? hi dividend then
    let qhat := 2 ^ 64 - 1 in
    let rhat := add128 (sub128 dividend (U128 (hi divisor) 0)) (word128 (hi divisor)) in
    if (hi rhat =? 0) && too_big qhat rhat then u64 (qhat - 1) else qhat
  else
    let res := udivrem_2by1 dividend (hi divisor) reciprocal in
    let qhat := quot res in
    let rhat := word128 (rem res) in
    if too_big qhat rhat then
      let qhat := u64 (qhat - 1) in
      let rhat := add128 rhat (word128 (hi divisor)) in
      if (hi rhat =? 0) && too_big qhat rhat then u64 (qhat - 1) else qhat
    else qhat.

(** The loops that subtract the divisor times the digit, and add it back; [n] words left
    from index [i]. *)
Fixpoint multiply_subtract (qhat : Z) (vn : list Z) (j i n : nat) (un : list Z) (borrow : Z) : list Z * Z :=
  match n with
  | O => (un, borrow)
  | S n' =>
    let p := umul qhat (word vn i) in
    let s := sub128 (sub128 (word128 (word un (i + j))) (word128 borrow)) (word128 (lo p)) in
    multiply_subtract qhat vn j (S i) n' (<[(i + j)%nat := lo s]> un) (u64 (hi p - hi s))
  end.
Fixpoint add_back (vn : list Z) (j i n : nat) (un : list Z) (c : Z) : list Z * Z :=
  match n with
  | O => (un, c)
  | S n' =>
    let s := add128 (add128 (word128 (word un (i + j))) (word128 (word vn i))) (word128 c) in
    add_back vn j (S i) n' (<[(i + j)%nat := lo s]> un) (hi s)
  end.

Definition knuth_digit (vn : list Z) (n : nat) (divisor : uint128) (reciprocal : Z) (j : nat) (q un : list Z)
  : list Z * list Z :=
  let u2 := word un (j + n) in
  let qhat := estimate u2 (word un (j + n - 1)) (word un (j + n - 2)) divisor reciprocal in
  let '(un, borrow) := multiply_subtract qhat vn j 0 n un 0 in
  let un := <[(j + n)%nat := u64 (u2 - borrow)]> un in
  if u2 <? borrow then
    let '(un, c) := add_back vn j 0 n un 0 in
    (<[j := u64 (qhat - 1)]> q, <[(j + n)%nat := u64 (word un (j + n) + c)]> un)
  else (<[j := qhat]> q, un).

Fixpoint knuth_loop (vn : list Z) (n : nat) (divisor : uint128) (reciprocal : Z) (j : nat) (q un : list Z)
  : list Z * list Z :=
  match j with
  | O => (q, un)
  | S j' => let '(q, un) := knuth_digit vn n divisor reciprocal j' q un in
    knuth_loop vn n divisor reciprocal j' q un
  end.
Definition udivrem_knuth (q un : list Z) (m : nat) (vn : list Z) (n : nat) : list Z * list Z :=
  let divisor := U128 (word vn (n - 1)) (word vn (n - 2)) in
  knuth_loop vn n divisor (reciprocal_2by1 (hi divisor)) (m - n + 1) q un.

(** [udivrem]: quotient and remainder, as many words as the arguments. *)
Definition udivrem_words (u v : list Z) : div_result (list Z) :=
  let na := normalize u v in
  let k := length u in
  let fill l := l ++ repeat 0 (k - length l) in
  let m := num_numerator_words na in
  let s := shift na in
  match num_denominator_words na with
  | 1%nat =>
    if (m <? 1)%nat then DivResult (repeat 0 k) u
    else
      let '(q, r) := udivrem_by1 (numerator na) m (word (denominator na) 0) in
      DivResult (take k q) (fill [Z.shiftr r s])
  | 2%nat =>
    if (m <? 2)%nat then DivResult (repeat 0 k) u
    else
      let '(q, r) := udivrem_by2 (numerator na) m (U128 (word (denominator na) 1) (word (denominator na) 0)) in
      let r' := of_value128 (Z.shiftr (value128 r) s) in
      DivResult (take k q) (fill [lo r'; hi r'])
  | n =>
    if (m <? n)%nat then DivResult (repeat 0 k) u
    else
      let '(q, un) := udivrem_knuth (repeat 0 k) (numerator na) m (denominator na) n in
      let r i := if s =? 0 then word un i
        else Z.lor (Z.shiftr (word un i) s) (u64 (Z.shiftl (word un (S i)) (64 - s))) in
      DivResult q (fill (map r (seq 0 n)))
  end.

(** [operator/] and [operator%] of 256-bit numbers. *)
Definition as_words (x : uint256) : list Z := [lo (lo256 x); hi (lo256 x); lo (hi256 x); hi (hi256 x)].
Definition of_words (l : list Z) : uint256 := U256 (U128 (word l 3) (word l 2)) (U128 (word l 1) (word l 0)).
Definition div256 (x y : uint256) : uint256 := of_words (quot (udivrem_words (as_words x) (as_words y))).
Definition mod256 (x y : uint256) : uint256 := of_words (rem (udivrem_words (as_words x) (as_words y))).

(** ** Bytes *)
Definition to_bytes_le (w : Z) : list Z := map (fun i => Z.shiftr w (8 * Z.of_nat i) mod 256) (seq 0 8).
Fixpoint of_bytes_le (l : list Z) : Z := match l with [] => 0 | b :: l' => b + 256 * of_bytes_le l' end.
