(* ===== verification/IntxDiv.v ===== *)
(** * The division of the wide integers is division

    The reciprocal of a word is computed by a table and three steps of refinement, each
    wrapping at 64 bits; the quotient of two words by one is a product with it and two
    corrections. The first part shows that the reciprocal is the exact floor for every
    divisor; the second that the division by a word, of two words and of numbers of any
    length, gives the quotient and the remainder. *)
From S2P Require Import Prelude.
From S2P Require Import Intx.
From stdpp Require Import base list.
Open Scope Z_scope.

(** ** 128-bit values *)
Lemma of_value128_value z : 0 <= z < 2 ^ 128 -> value128 (of_value128 z) = z.
Proof.
  intros Hz. unfold value128, of_value128. cbn [hi lo]. rewrite u64_small.
  - unfold u64, uwrap. pose proof (Z.div_mod z (2 ^ 64)). lia.
  - unfold in_u64. split; [apply Z.div_pos; lia|]. apply Z.div_lt_upper_bound; lia.
Qed.

Lemma hi_of_value128 z : 0 <= z < 2 ^ 128 -> hi (of_value128 z) = z / 2 ^ 64.
Proof.
  intros Hz. apply u64_small. split; [apply Z.div_pos; lia|]. apply Z.div_lt_upper_bound; lia.
Qed.

Lemma mul_words_range x y : in_u64 x -> in_u64 y -> 0 <= x * y < 2 ^ 128.
Proof. unfold in_u64. nia. Qed.

Lemma hi_umul x y : in_u64 x -> in_u64 y -> hi (umul x y) = x * y / 2 ^ 64.
Proof. intros Hx Hy. by apply hi_of_value128, mul_words_range. Qed.
Lemma value_umul x y : in_u64 x -> in_u64 y -> value128 (umul x y) = x * y.
Proof. intros Hx Hy. by apply of_value128_value, mul_words_range. Qed.

Lemma fast_add_value x y :
  0 <= value128 x + value128 y < 2 ^ 128 -> fast_add x y = of_value128 (value128 x + value128 y).
Proof. intros H. unfold fast_add, u128. by rewrite (uwrap_small 128) by done. Qed.

Lemma u64_eq_mod a b : in_u64 b -> a mod 2 ^ 64 = b mod 2 ^ 64 -> u64 a = b.
Proof. intros Hb H. unfold u64, uwrap. rewrite H. by apply Z.mod_small. Qed.

Lemma u64_mul_l a b : u64 (u64 a * b) = u64 (a * b).
Proof. unfold u64, uwrap. apply Zmult_mod_idemp_l. Qed.
Lemma u64_sub_r a b : u64 (a - u64 b) = u64 (a - b).
Proof. unfold u64, uwrap. apply Zminus_mod_idemp_r. Qed.

(** ** The reciprocal of a word *)

(** What is checked of each of the 256 leading bytes of a divisor: bounds of the errors of
    the first two steps, from which the third follows. *)
Definition table_ok (D : Z) : bool :=
  let v0 := reciprocal_table_item (D - 256) in
  let e0 := Z.max (Z.abs (2 ^ 50 - v0 * (2 ^ 31 * D + 1))) (Z.abs (2 ^ 50 - v0 * (2 ^ 31 * (D + 1)))) in
  let d40_max := 2 ^ 31 * (D + 1) in
  let e1 := (e0 * e0 + 2 ^ 40 * d40_max) / 2 ^ 40 + 1 in
  let e2 := (2 ^ 24 * (e1 * e1) + 2 ^ 71 * d40_max + 2 ^ 105) / 2 ^ 47 + 1 in
  (1024 <=? v0) && (v0 <=? 2045) && (e1 <? 2 ^ 43) && (e2 <? 2 ^ 65) &&
  (e2 * e2 + (2 ^ 34 + 2 ^ 66) * (2 ^ 55 * D) <? 2 ^ 67 * (2 ^ 55 * D)).

Lemma table_checked : forallb (fun n => table_ok (256 + Z.of_nat n)) (seq 0 256) = true.
Proof. vm_compute. reflexivity. Qed.

Lemma table_ok_all D : 256 <= D < 512 -> table_ok D = true.
Proof.
  intros HD. pose proof table_checked as Ht. rewrite forallb_forall in Ht.
  specialize (Ht (Z.to_nat (D - 256))). replace (256 + Z.of_nat (Z.to_nat (D - 256))) with D in Ht by lia.
  apply Ht, in_seq. lia.
Qed.

(** Products of bounded factors, for goals where the factors are large expressions. *)
Lemma square_le x B : Z.abs x <= B -> 0 <= x * x <= B * B.
Proof. nia. Qed.
Lemma square_pos_le x B : 0 < x < B -> 0 < x * x <= B * B.
Proof. nia. Qed.
Lemma product_le a b A B : 0 <= a <= A -> 0 <= b <= B -> 0 <= a * b <= A * B.
Proof. nia. Qed.
Lemma product_pos a b : 0 < a -> 0 < b -> 0 < a * b.
Proof. nia. Qed.
Lemma factor_pos a b c : 0 < b -> 0 < a * b -> a * b < c * b -> 0 < a < c.
Proof. nia. Qed.

Section reciprocal.
Context (d : Z) (Hd : 2 ^ 63 <= d < 2 ^ 64).

Let D := d / 2 ^ 55.
Let v0 := reciprocal_table_item (D - 256).
Let d40 := d / 2 ^ 24 + 1.
Let v1 := 2 ^ 11 * v0 - v0 * v0 * d40 / 2 ^ 40 - 1.
Let e1 := 2 ^ 60 - v1 * d40.
Let v2 := 2 ^ 13 * v1 + v1 * e1 / 2 ^ 47.
Let e2 := 2 ^ 97 - v2 * d.
Let V3 := 2 ^ 31 * v2 + v2 * (e2 / 2) / 2 ^ 65.

Lemma lead_range : 256 <= D < 512.
Proof. subst D. split; [apply Z.div_le_lower_bound; lia|apply Z.div_lt_upper_bound; lia]. Qed.

Lemma d40_range : 2 ^ 31 * D + 1 <= d40 <= 2 ^ 31 * (D + 1).
Proof.
  subst d40 D. replace (2 ^ 55) with (2 ^ 24 * 2 ^ 31) by lia. rewrite <- Z.div_div by lia.
  pose proof (Z.div_mod (d / 2 ^ 24) (2 ^ 31)). pose proof (Z.mod_pos_bound (d / 2 ^ 24) (2 ^ 31)). lia.
Qed.

(** [d40] is [d] without its last 24 bits, rounded up. *)
Lemma d_of_d40 : exists delta, 1 <= delta <= 2 ^ 24 /\ d = 2 ^ 24 * d40 - delta.
Proof.
  exists (2 ^ 24 - d mod 2 ^ 24). subst d40. pose proof (Z.div_mod d (2 ^ 24)). pose proof (Z.mod_pos_bound d (2 ^ 24)). lia.
Qed.

(** The bounds of the check, as numbers. *)
Lemma table_bounds : exists B E1 E2,
  Z.abs (2 ^ 50 - v0 * d40) <= B /\ 1024 <= v0 <= 2045 /\
  B * B + 2 ^ 40 * d40 < 2 ^ 40 * E1 /\ E1 < 2 ^ 43 /\
  2 ^ 24 * (E1 * E1) + 2 ^ 71 * d40 + 2 ^ 105 < 2 ^ 47 * E2 /\ E2 < 2 ^ 65 /\
  E2 * E2 + (2 ^ 34 + 2 ^ 66) * d < 2 ^ 67 * d.
Proof.
  pose proof (table_ok_all D lead_range) as Ht. unfold table_ok in Ht. fold v0 in Ht. cbv zeta in Ht.
  set (B := Z.max _ _) in Ht. set (E1 := _ / 2 ^ 40 + 1) in Ht. set (E2 := _ / 2 ^ 47 + 1) in Ht.
  rewrite !andb_true_iff, !Z.leb_le, !Z.ltb_lt in Ht. destruct Ht as ((((Hv1 & Hv2) & HE1) & HE2) & H3).
  pose proof d40_range as Hr. exists B, E1, E2.
  assert (2 ^ 55 * D <= d) as HD by (subst D; apply Z.mul_div_le; lia).
  split_and!; try lia.
  - subst B. nia.
  - assert (B * B + 2 ^ 40 * (2 ^ 31 * (D + 1)) < 2 ^ 40 * E1) as H.
    { subst E1. rewrite Z.add_1_r. apply Z.mul_succ_div_gt. lia. } lia.
  - assert (2 ^ 24 * (E1 * E1) + 2 ^ 71 * (2 ^ 31 * (D + 1)) + 2 ^ 105 < 2 ^ 47 * E2) as H.
    { unfold E2. rewrite Z.add_1_r. apply Z.mul_succ_div_gt. lia. } lia.
Qed.

(** Each step squares the error, up to the rounding of its shift. *)
Lemma e1_identity : exists rho, 0 <= rho < 2 ^ 40 /\
  2 ^ 40 * e1 = (2 ^ 50 - v0 * d40) * (2 ^ 50 - v0 * d40) + (2 ^ 40 - rho) * d40.
Proof.
  exists (v0 * v0 * d40 mod 2 ^ 40). split; [apply Z.mod_pos_bound; lia|].
  pose proof (Z.div_mod (v0 * v0 * d40) (2 ^ 40)) as Hdiv. subst e1 v1. set (q := v0 * v0 * d40 / 2 ^ 40) in *.
  set (rho := v0 * v0 * d40 mod 2 ^ 40) in *. assert (rho = v0 * v0 * d40 - 2 ^ 40 * q) as -> by lia. ring.
Qed.

Lemma e2_identity : exists rho delta, 0 <= rho < 2 ^ 47 /\ 1 <= delta <= 2 ^ 24 /\
  2 ^ 47 * e2 = 2 ^ 24 * (e1 * e1) + 2 ^ 24 * (rho * d40) + 2 ^ 47 * (v2 * delta).
Proof.
  destruct d_of_d40 as (delta & Hdelta & Hdd). exists (v1 * e1 mod 2 ^ 47), delta.
  split; [apply Z.mod_pos_bound; lia|]. split; [done|].
  pose proof (Z.div_mod (v1 * e1) (2 ^ 47)) as Hdiv. subst e2 v2. set (q := v1 * e1 / 2 ^ 47) in *.
  set (rho := v1 * e1 mod 2 ^ 47) in *. assert (rho = v1 * e1 - 2 ^ 47 * q) as -> by lia.
  replace (2 ^ 97 - (2 ^ 13 * v1 + q) * d) with (2 ^ 97 - (2 ^ 13 * v1 + q) * (2 ^ 24 * d40 - delta)) by (rewrite Hdd; reflexivity).
  unfold e1. ring.
Qed.

Lemma e3_identity : exists rho p, 0 <= rho < 2 ^ 65 /\ 0 <= p <= 1 /\
  2 ^ 66 * (2 ^ 128 - V3 * d) = e2 * e2 + (p * v2 + 2 * rho) * d.
Proof.
  exists (v2 * (e2 / 2) mod 2 ^ 65), (e2 mod 2).
  split; [apply Z.mod_pos_bound; lia|]. split; [pose proof (Z.mod_pos_bound e2 2); lia|].
  pose proof (Z.div_mod (v2 * (e2 / 2)) (2 ^ 65)) as Hdiv. pose proof (Z.div_mod e2 2) as Hhalf. unfold V3.
  set (q := v2 * (e2 / 2) / 2 ^ 65) in *. set (rho := v2 * (e2 / 2) mod 2 ^ 65) in *.
  set (h := e2 / 2) in *. set (p := e2 mod 2) in *.
  assert (rho = v2 * h - 2 ^ 65 * q) as -> by lia. assert (v2 * d = 2 ^ 97 - e2) as Hv2d by (unfold e2; ring).
  assert (p = e2 - 2 * h) as -> by lia.
  transitivity (2 ^ 194 - (2 ^ 97 - e2) * (2 ^ 97 + e2) + (2 ^ 97 - e2) * (2 ^ 97 + e2) - 2 ^ 97 * (v2 * d) - 2 ^ 66 * q * d); [ring|].
  rewrite Hv2d. transitivity (e2 * e2 + (e2 * (v2 * d) - 2 ^ 66 * q * d)); [rewrite Hv2d; ring|ring].
Qed.

Lemma step_bounds :
  1024 <= v0 <= 2045 /\ 0 < v1 < 2 ^ 21 /\ 0 < e1 < 2 ^ 43 /\ 0 <= v2 < 2 ^ 34 /\ 0 < e2 < 2 ^ 65 /\
  2 ^ 128 - 2 * d < V3 * d < 2 ^ 128.
Proof.
  destruct table_bounds as (B & E1 & E2 & HB & Hv0 & HE1 & HE1' & HE2 & HE2' & H3).
  pose proof d40_range as Hd40. pose proof lead_range as HD.
  assert (2 ^ 39 < d40 <= 2 ^ 40) as Hd40' by lia.
  destruct e1_identity as (r1 & Hr1 & H1).
  assert (0 < e1 < E1) as He1.
  { pose proof (square_le _ _ HB) as Hsq. pose proof (product_le (2 ^ 40 - r1) d40 (2 ^ 40) d40).
    pose proof (product_pos (2 ^ 40 - r1) d40). clear HB HE2 H3. lia. }
  assert (0 < v1 < 2 ^ 21) as Hv1.
  { assert (v1 * d40 = 2 ^ 60 - e1) as Hv by (unfold e1; ring). apply (factor_pos v1 d40 (2 ^ 21)); [lia|rewrite Hv; lia|rewrite Hv; lia]. }
  assert (0 <= v2) as Hv2pos.
  { unfold v2. pose proof (product_pos v1 e1). assert (0 <= v1 * e1 / 2 ^ 47) by (apply Z.div_pos; lia). lia. }
  destruct e2_identity as (r2 & delta & Hr2 & Hdelta & H2).
  pose proof (square_pos_le e1 E1 He1) as Hsq1. pose proof (product_le r2 d40 (2 ^ 47) d40) as Hr2d.
  pose proof (product_le v2 delta v2 (2 ^ 24)) as Hv2d.
  assert (0 < e2) as He2pos by (clear HB HE2 H3; lia).
  assert (v2 < 2 ^ 34) as Hv2.
  { assert (v2 * d = 2 ^ 97 - e2) as Hv by (unfold e2; ring). destruct (Z.eq_dec v2 0) as [->|]; [lia|].
    pose proof (product_le v2 (2 ^ 63) v2 d). lia. }
  assert (e2 < E2) as He2 by (clear HB H3; lia).
  destruct e3_identity as (r3 & p & Hr3 & Hp & H3').
  pose proof (square_pos_le e2 E2 (conj He2pos He2)) as Hsq2. pose proof (product_le p v2 1 (2 ^ 34)) as Hpv.
  pose proof (product_le (p * v2 + 2 * r3) d (2 ^ 34 + 2 ^ 66) d) as Hlast.
  split; [done|]. split; [done|]. split; [lia|]. split; [lia|]. split; [lia|]. clear HB HE2 H2 Hsq1 H1. lia.
Qed.

(** The wrapped steps of the code are these. *)
Lemma code_d9 : u8 (Z.shiftr d 55) = D - 256.
Proof.
  pose proof lead_range as HD. rewrite Z.shiftr_div_pow2 by lia. fold D. unfold u8, uwrap.
  symmetry. apply (Z.mod_unique _ _ 1); lia.
Qed.

Lemma code_d40 : u64 (Z.shiftr d 24 + 1) = d40.
Proof.
  pose proof d40_range as H. pose proof lead_range. rewrite Z.shiftr_div_pow2 by lia. fold d40. apply u64_small. unfold in_u64. lia.
Qed.

Lemma code_v1 : u64 (u64 (u64 (Z.shiftl v0 11) - Z.shiftr (u64 (u64 (v0 * v0) * d40)) 40) - 1) = v1.
Proof.
  destruct step_bounds as (Hv0 & Hv1 & _). pose proof d40_range. pose proof lead_range.
  rewrite Z.shiftl_mul_pow2, Z.shiftr_div_pow2 by lia.
  pose proof (product_le v0 v0 2045 2045) as Hsq. rewrite (u64_small (v0 * v0)) by (unfold in_u64; lia).
  pose proof (product_le (v0 * v0) d40 (2045 * 2045) (2 ^ 40)) as Hp.
  rewrite (u64_small (v0 * v0 * d40)), (u64_small (v0 * 2 ^ 11)) by (unfold in_u64; lia). unfold v1 in *.
  rewrite (u64_small (v0 * 2 ^ 11 - _)) by (unfold in_u64; lia). rewrite u64_small; [lia|unfold in_u64; lia].
Qed.

Lemma code_e1 : u64 (0x1000000000000000 - u64 (v1 * d40)) = e1.
Proof.
  destruct step_bounds as (Hv0 & Hv1 & He1 & _). assert (v1 * d40 = 2 ^ 60 - e1) as -> by (unfold e1; ring).
  rewrite (u64_small (2 ^ 60 - e1)) by (unfold in_u64; lia). rewrite u64_small; [lia|unfold in_u64; lia].
Qed.

Lemma code_v2 : u64 (u64 (Z.shiftl v1 13) + Z.shiftr (u64 (v1 * e1)) 47) = v2.
Proof.
  destruct step_bounds as (Hv0 & Hv1 & He1 & Hv2 & _). pose proof (product_le v1 e1 (2 ^ 21 - 1) (2 ^ 43)) as Hp.
  rewrite Z.shiftl_mul_pow2, Z.shiftr_div_pow2 by lia. rewrite (u64_small (v1 * e1)), (u64_small (v1 * 2 ^ 13)) by (unfold in_u64; lia).
  rewrite Z.mul_comm. apply u64_small. unfold in_u64. fold v2. lia.
Qed.

Lemma code_e : u64 (Z.land (v2 / 2) (u64 (- (d mod 2))) - u64 (v2 * u64 (d / 2 + d mod 2))) = e2 / 2.
Proof.
  destruct step_bounds as (_ & _ & _ & Hv2 & He2 & _).
  pose proof (Z.div_mod d 2) as Hdm. pose proof (Z.mod_pos_bound d 2). set (k := d / 2) in *. set (b := d mod 2) in *.
  apply u64_eq_mod; [unfold in_u64; split; [apply Z.div_pos; lia|apply Z.div_lt_upper_bound; lia]|].
  rewrite (u64_small (k + b)) by (unfold in_u64; lia).
  assert (e2 = 2 ^ 97 - v2 * (2 * k + b)) as -> by (unfold e2; rewrite Hdm at 1; lia).
  assert (b = 0 \/ b = 1) as [-> | ->] by lia.
  - replace (u64 (Z.opp 0)) with 0 by reflexivity. rewrite Z.land_0_r.
    assert ((2 ^ 97 - v2 * (2 * k + 0)) / 2 = 2 ^ 96 - v2 * k) as -> by (symmetry; apply Z.div_unique_exact; [lia|ring]).
    rewrite Z.add_0_r. generalize (v2 * k). intros x. mod64.
  - replace (u64 (Z.opp 1)) with (Z.ones 64) by reflexivity. rewrite Z.land_ones by lia.
    rewrite (Z.mod_small (v2 / 2)) by (split; [apply Z.div_pos; lia|apply Z.div_lt_upper_bound; lia]).
    pose proof (Z.div_mod v2 2) as Hv. pose proof (Z.mod_pos_bound v2 2). set (h := v2 / 2) in *. set (c := v2 mod 2) in *.
    assert ((2 ^ 97 - v2 * (2 * k + 1)) / 2 = 2 ^ 96 + h - v2 * (k + 1)) as ->.
    { symmetry. apply (Z.div_unique _ _ _ c); [lia|]. assert (c = v2 - 2 * h) as -> by lia. ring. }
    generalize (v2 * (k + 1)). intros x. mod64.
Qed.

Lemma V3_range : 2 ^ 64 <= V3 < 2 ^ 65.
Proof.
  destruct step_bounds as (_ & _ & _ & _ & _ & Hlo & Hhi). split.
  - destruct (Z.lt_ge_cases V3 (2 ^ 64)); [|done]. pose proof (product_le (V3 + 2) d (2 ^ 64 + 1) (2 ^ 64 - 1)).
    assert ((V3 + 2) * d = V3 * d + 2 * d) by ring. destruct (Z.lt_ge_cases V3 (-2)); [|lia].
    pose proof (product_pos (- V3) d). lia.
  - destruct (Z.lt_ge_cases V3 (2 ^ 65)); [done|]. pose proof (product_le (2 ^ 65) (2 ^ 63) V3 d). lia.
Qed.

Lemma code_v3 : u64 (u64 (Z.shiftl v2 31) + Z.shiftr (hi (umul v2 (e2 / 2))) 1) = V3 - 2 ^ 64.
Proof.
  destruct step_bounds as (_ & _ & _ & Hv2 & He2 & _). pose proof V3_range as HV.
  assert (in_u64 (e2 / 2)) by (unfold in_u64; split; [apply Z.div_pos; lia|apply Z.div_lt_upper_bound; lia]).
  rewrite hi_umul by (unfold in_u64 in *; lia). rewrite Z.shiftl_mul_pow2, Z.shiftr_div_pow2, Z.div_div by lia.
  apply u64_eq_mod; [unfold in_u64; lia|]. unfold V3. rewrite (Z.mul_comm v2 (2 ^ 31)).
  change (2 ^ 64 * 2 ^ 1) with (2 ^ 65). generalize (v2 * (e2 / 2) / 2 ^ 65) (2 ^ 31 * v2). intros x z. mod64.
Qed.

(** The reciprocal is the floor of (2^128 - 1) / d, less 2^64. *)
Lemma reciprocal_2by1_value : reciprocal_2by1 d = (2 ^ 128 - 1) / d - 2 ^ 64.
Proof.
  destruct step_bounds as (_ & _ & _ & Hv2 & He2 & Hlo & Hhi). pose proof V3_range as HV.
  unfold reciprocal_2by1. rewrite code_d9, code_d40. fold v0. rewrite code_v1, code_e1, code_v2, code_e, code_v3.
  set (v3 := V3 - 2 ^ 64). assert ((v3 + 1) * d = V3 * d + d - 2 ^ 64 * d) as Hm by (unfold v3; ring).
  assert (0 <= (v3 + 1) * d < 2 ^ 128) as Hrange by (pose proof (product_le (v3 + 1) d (2 ^ 64) (2 ^ 64 - 1)); subst v3; lia).
  assert (fast_add (umul v3 d) (word128 d) = of_value128 ((v3 + 1) * d)) as ->.
  { assert (value128 (umul v3 d) + value128 (word128 d) = (v3 + 1) * d) as Hv.
    { rewrite value_umul by (unfold in_u64; subst v3; lia). unfold value128, word128. cbn [hi lo]. ring. }
    rewrite fast_add_value; rewrite Hv; done. }
  rewrite hi_of_value128 by done.
  assert (V3 <= (2 ^ 128 - 1) / d < V3 + 2) as HW.
  { split; [apply Z.div_le_lower_bound; lia|apply Z.div_lt_upper_bound; lia]. }
  destruct (Z.le_gt_cases (2 ^ 128) (V3 * d + d)) as [Hcase|Hcase].
  - assert ((v3 + 1) * d / 2 ^ 64 = 2 ^ 64 - d) as ->.
    { symmetry. apply (Z.div_unique _ _ _ (V3 * d + d - 2 ^ 128)); lia. }
    assert ((2 ^ 128 - 1) / d = V3) as -> by (symmetry; apply (Z.div_unique _ _ _ (2 ^ 128 - 1 - V3 * d)); lia).
    apply u64_eq_mod; [unfold in_u64; subst v3; lia|]. fold v3. mod64.
  - assert ((v3 + 1) * d / 2 ^ 64 = 2 ^ 64 - d - 1) as ->.
    { symmetry. apply (Z.div_unique _ _ _ (V3 * d + d - 2 ^ 128 + 2 ^ 64)); lia. }
    assert ((2 ^ 128 - 1) / d = V3 + 1) as ->.
    { symmetry. apply (Z.div_unique _ _ _ (2 ^ 128 - 1 - (V3 + 1) * d)); lia. }
    apply u64_eq_mod; [|subst v3; mod64]. unfold in_u64. subst v3. split; [lia|].
    destruct (Z.eq_dec V3 (2 ^ 65 - 1)) as [->|]; [|lia]. lia.
Qed.
End reciprocal.

(** ** Two words by one *)
Section two_by_one.
Context (d : Z) (Hd : 2 ^ 63 <= d < 2 ^ 64) (u1 u0 : Z) (Hu1 : 0 <= u1 < d) (Hu0 : in_u64 u0).

Let W := (2 ^ 128 - 1) / d.
Let P := W * u1 + u0.
Let q0 := P mod 2 ^ 64.
Let Q := P / 2 ^ 64.
Let R := u1 * 2 ^ 64 + u0 - (Q + 1) * d.

Lemma W_error : 1 <= 2 ^ 128 - W * d <= d /\ 2 ^ 64 <= W < 2 ^ 65.
Proof.
  pose proof (Z.div_mod (2 ^ 128 - 1) d) as Hdm. pose proof (Z.mod_pos_bound (2 ^ 128 - 1) d) as Hm. fold W in Hdm.
  rewrite (Z.mul_comm d W) in Hdm. split; [lia|]. subst W.
  split; [apply Z.div_le_lower_bound; lia|apply Z.div_lt_upper_bound; lia].
Qed.

Lemma P_range : 0 <= P < 2 ^ 128.
Proof.
  destruct W_error as [He HW]. unfold P, in_u64 in *. pose proof (product_le W u1 W (d - 1)).
  assert (W * (d - 1) = W * d - W) by ring. pose proof (product_le 0 0 0 0). nia.
Qed.

(** The error of the estimate, by what it is made of. *)
Lemma R_identity :
  2 ^ 64 * R = (2 ^ 128 - W * d) * u1 + (2 ^ 64 - d) * u0 + q0 * d - 2 ^ 64 * d.
Proof.
  pose proof (Z.div_mod P (2 ^ 64)) as Hdm. fold q0 Q in Hdm. unfold R.
  assert (q0 = W * u1 + u0 - 2 ^ 64 * Q) as -> by (unfold P in Hdm; lia). ring.
Qed.

Lemma R_bounds : - d <= R /\ q0 - 2 ^ 64 < R /\ (q0 < R -> R < 2 ^ 64 - d) /\ R < 2 ^ 64 /\ 0 <= q0 < 2 ^ 64.
Proof.
  destruct W_error as [He HW]. pose proof R_identity as Hr. assert (0 <= q0 < 2 ^ 64) as Hq0 by (apply Z.mod_pos_bound; lia).
  unfold in_u64 in Hu0. set (e := 2 ^ 128 - W * d) in *.
  pose proof (product_le e u1 d (d - 1)) as H1. pose proof (product_le (2 ^ 64 - d) u0 (2 ^ 64 - d) (2 ^ 64 - 1)) as H2.
  pose proof (product_le q0 d q0 d) as H3. pose proof (product_pos (2 ^ 64 - d) (2 ^ 64 - q0)) as H4.
  assert ((2 ^ 64 - d) * (2 ^ 64 - q0) = 2 ^ 128 - 2 ^ 64 * d - 2 ^ 64 * q0 + q0 * d) as H5 by ring.
  assert (d * (d - 1) + (2 ^ 64 - d) * (2 ^ 64 - 1) - 2 ^ 64 * d < (2 ^ 64 - d) * (2 ^ 64 - d)) as H6 by lia.
  split; [lia|]. split; [lia|]. split; [|split; [|done]].
  - intros Hlt. destruct (Z.lt_ge_cases R (2 ^ 64 - d)) as [|Hge]; [done|].
    pose proof (product_le (2 ^ 64 - d) (2 ^ 64 - d) R (2 ^ 64 - d)) as H7. pose proof (product_le q0 d R d) as H8.
    assert (R * (2 ^ 64 - d) = 2 ^ 64 * R - R * d) by ring. nia.
  - pose proof (product_le q0 d (2 ^ 64 - 1) d). pose proof (product_le (2 ^ 64 - d) (2 ^ 64 - d) (2 ^ 64) (2 ^ 64 - d)). lia.
Qed.

Lemma udivrem_2by1_value :
  udivrem_2by1 (U128 u1 u0) d (reciprocal_2by1 d) =
  DivResult ((u1 * 2 ^ 64 + u0) / d) ((u1 * 2 ^ 64 + u0) mod d).
Proof.
  destruct W_error as [_ HW]. pose proof R_bounds as (HR1 & HR2 & HR3 & HR4 & Hq0). pose proof P_range as HP.
  unfold in_u64 in Hu0. unfold udivrem_2by1. rewrite (reciprocal_2by1_value d Hd). fold W. cbn [hi lo].
  assert (value128 (umul (W - 2 ^ 64) u1) + value128 (U128 u1 u0) = P) as HPv.
  { rewrite value_umul by (unfold in_u64; lia). unfold value128, P. cbn [hi lo]. ring. }
  rewrite fast_add_value; rewrite HPv; [|done]. rewrite hi_of_value128 by done. fold Q.
  change (lo (of_value128 P)) with q0.
  (* whatever the quotient is modulo 2^64, a remainder below d makes it the true one *)
  assert (forall q k, 0 <= R + k * d < d -> q mod 2 ^ 64 = (Q + 1 - k) mod 2 ^ 64 -> in_u64 q ->
    DivResult q (R + k * d) = DivResult ((u1 * 2 ^ 64 + u0) / d) ((u1 * 2 ^ 64 + u0) mod d)) as Hfinal.
  { intros q k Hr Hq Hqr. assert (u1 * 2 ^ 64 + u0 = d * (Q + 1 - k) + (R + k * d)) as Heq by (unfold R; ring).
    assert ((u1 * 2 ^ 64 + u0) / d = Q + 1 - k) as Hdiv by (symmetry; apply (Z.div_unique _ _ _ (R + k * d)); lia).
    assert ((u1 * 2 ^ 64 + u0) mod d = R + k * d) as -> by (symmetry; apply (Z.mod_unique _ _ (Q + 1 - k)); lia).
    f_equal. rewrite Hdiv. assert (0 <= Q + 1 - k < 2 ^ 64) as Hb.
    { rewrite <- Hdiv. split; [apply Z.div_pos; lia|apply Z.div_lt_upper_bound; [lia|]].
      pose proof (product_le u1 (2 ^ 64) (d - 1) (2 ^ 64)). lia. }
    unfold in_u64 in Hqr. rewrite !Z.mod_small in Hq; lia. }
  rewrite u64_mul_l, u64_sub_r.
  assert (u64 (u0 - (Q + 1) * d) = u64 R) as ->.
  { unfold R. generalize ((Q + 1) * d). intros x. apply u64_eq_mod; [apply u64_range|]. mod64. }
  destruct (Z.lt_ge_cases R 0) as [Hneg|Hpos].
  - assert (u64 R = R + 2 ^ 64) as -> by (apply u64_eq_mod; [unfold in_u64; lia|mod64]).
    rewrite (proj2 (Z.ltb_lt _ _)) by lia. assert (u64 (R + 2 ^ 64 + d) = R + 1 * d) as ->
      by (apply u64_eq_mod; [unfold in_u64; lia|mod64]).
    rewrite (proj2 (Z.leb_gt _ _)) by lia. apply Hfinal; [lia|mod64|apply u64_range].
  - rewrite (u64_small R) by (unfold in_u64; lia). destruct (Z.ltb_spec q0 R) as [Hlt|Hge].
    + specialize (HR3 Hlt). rewrite (u64_small (R + d)) by (unfold in_u64; lia). rewrite (proj2 (Z.leb_le _ _)) by lia.
      assert (u64 (R + d - d) = R + 0 * d) as -> by (rewrite u64_small; [lia|unfold in_u64; lia]).
      apply Hfinal; [lia|mod64|apply u64_range].
    + destruct (Z.leb_spec d R) as [Hle|Hgt].
      * assert (u64 (R - d) = R + (-1) * d) as -> by (rewrite u64_small; [lia|unfold in_u64; lia]).
        apply Hfinal; [lia|mod64|apply u64_range].
      * replace R with (R + 0 * d) at 1 by ring. apply Hfinal; [lia|mod64|apply u64_range].
Qed.
End two_by_one.

(** ** Arrays of words *)
Notation words := (Forall in_u64).

Lemma words_value_app l1 l2 : words_value (l1 ++ l2) = words_value l1 + 2 ^ (64 * Z.of_nat (length l1)) * words_value l2.
Proof.
  induction l1 as [|w l1 IH]; cbn [app words_value length]; [by rewrite Z.mul_1_l|].
  rewrite IH, Nat2Z.inj_succ. replace (64 * Z.succ (Z.of_nat (length l1))) with (64 + 64 * Z.of_nat (length l1)) by lia.
  rewrite Z.pow_add_r by lia. ring.
Qed.

Lemma words_value_range l : words l -> 0 <= words_value l < 2 ^ (64 * Z.of_nat (length l)).
Proof.
  induction 1 as [|w l Hw _ IH]; cbn [words_value length]; [lia|]. rewrite Nat2Z.inj_succ.
  replace (64 * Z.succ (Z.of_nat (length l))) with (64 + 64 * Z.of_nat (length l)) by lia. rewrite Z.pow_add_r by lia.
  unfold in_u64 in Hw. lia.
Qed.

Lemma words_value_split k l : words_value l = words_value (take k l) + 2 ^ (64 * Z.of_nat (length (take k l))) * words_value (drop k l).
Proof. by rewrite <- words_value_app, take_drop. Qed.

Lemma words_value_zeros k : words_value (repeat 0 k) = 0.
Proof. induction k as [|k IH]; cbn [repeat words_value]; [done|]. by rewrite IH. Qed.

Lemma word_lookup l i : (i < length l)%nat -> l !! i = Some (word l i).
Proof. intros Hi. unfold word. rewrite nth_lookup. by destruct (lookup_lt_is_Some_2 l i Hi) as [x ->]. Qed.

Lemma words_word l i : words l -> in_u64 (word l i).
Proof.
  intros Hl. destruct (decide (i < length l)%nat) as [Hi|Hi].
  - rewrite Forall_forall in Hl. apply Hl. by eapply list_elem_of_lookup_2, word_lookup.
  - unfold word. rewrite nth_overflow by lia. unfold in_u64. lia.
Qed.

Lemma take_S_word l i : (i < length l)%nat -> take (S i) l = take i l ++ [word l i].
Proof. intros Hi. by apply take_S_r, word_lookup. Qed.

Lemma pow64_S (j : nat) : 2 ^ (64 * Z.of_nat (S j)) = 2 ^ (64 * Z.of_nat j) * 2 ^ 64.
Proof. rewrite <- Z.pow_add_r by lia. f_equal. lia. Qed.

(** *** Division by a word *)
Section by_one.
Context (d v : Z) (Hd : 2 ^ 63 <= d < 2 ^ 64).
Context (Hv : forall u1 u0, 0 <= u1 < d -> in_u64 u0 ->
  udivrem_2by1 (U128 u1 u0) d v = DivResult ((u1 * 2 ^ 64 + u0) / d) ((u1 * 2 ^ 64 + u0) mod d)).

Lemma by1_loop_value j : forall u r u' r',
  words u -> (j <= length u)%nat -> 0 <= r < d -> by1_loop d v j u r = (u', r') ->
  words u' /\ length u' = length u /\ drop j u' = drop j u /\ 0 <= r' < d /\
  words_value (take j u) + r * 2 ^ (64 * Z.of_nat j) = words_value (take j u') * d + r'.
Proof.
  induction j as [|j IH]; intros u r u' r' Hu Hj Hr H; cbn [by1_loop] in H.
  { injection H as <- <-. rewrite !take_0. cbn. split_and!; try done; lia. }
  rewrite (Hv r (word u j) Hr (words_word u j Hu)) in H. cbn [quot rem] in H.
  pose proof (words_word u j Hu) as Hw. unfold in_u64 in Hw.
  set (x := r * 2 ^ 64 + word u j) in *. pose proof (Z.div_mod x d) as Hx. pose proof (Z.mod_pos_bound x d) as Hm.
  assert (in_u64 (x / d)) as Hq.
  { split; [apply Z.div_pos; lia|apply Z.div_lt_upper_bound; [lia|]]. pose proof (product_le r (2 ^ 64) (d - 1) (2 ^ 64)). lia. }
  apply IH in H as (Hu' & Hlen & Hdrop & Hr' & Heq); [|by apply Forall_insert|rewrite length_insert; lia|lia].
  rewrite length_insert in Hlen. split; [done|]. split; [done|].
  assert (word u' j = x / d) as Hwj.
  { assert (drop j u' !! 0%nat = drop j (<[j := x / d]> u) !! 0%nat) as H0 by by rewrite Hdrop.
    rewrite !lookup_drop, Nat.add_0_r, list_lookup_insert_eq, word_lookup in H0 by lia. by injection H0. }
  split; [|split; [done|]].
  - apply (f_equal (drop 1)) in Hdrop. rewrite !drop_drop, Nat.add_1_r, drop_insert_lt in Hdrop by lia. done.
  - rewrite !take_S_word, !words_value_app, !length_take_le, pow64_S by lia. cbn [words_value].
    rewrite take_insert_ge in Heq by lia. rewrite Hwj. subst x. set (B := 2 ^ (64 * Z.of_nat j)) in *.
    set (q := (r * 2 ^ 64 + word u j) / d) in *. set (t := (r * 2 ^ 64 + word u j) mod d) in *.
    assert (word u j = q * d + t - r * 2 ^ 64) as -> by lia. lia.
Qed.

Lemma by1_value u m u' r :
  words u -> (m < length u)%nat -> word u m < d -> by1_loop d v m (<[m := 0]> u) (word u m) = (u', r) ->
  words u' /\ length u' = length u /\ 0 <= r < d /\ words_value u - words_value (drop (S m) u) * 2 ^ (64 * Z.of_nat (S m)) =
    (words_value u' - words_value (drop (S m) u) * 2 ^ (64 * Z.of_nat (S m))) * d + r.
Proof.
  intros Hu Hm Hw H. pose proof (words_word u m Hu) as [Hw0 _].
  apply by1_loop_value in H as (Hu' & Hlen & Hdrop & Hr & Heq); [|by apply Forall_insert; [|unfold in_u64; lia]|rewrite length_insert; lia|lia].
  rewrite length_insert in Hlen. split; [done|]. split; [done|]. split; [done|].
  rewrite take_insert_ge in Heq by lia.
  assert (words_value u = words_value (take m u) + 2 ^ (64 * Z.of_nat m) * word u m + 2 ^ (64 * Z.of_nat (S m)) * words_value (drop (S m) u)) as Hsplit.
  { rewrite (words_value_split (S m) u), take_S_word, words_value_app, length_app, !length_take_le by lia. cbn [words_value length].
    rewrite Nat.add_1_r. ring. }
  assert (words_value u' = words_value (take m u') + 2 ^ (64 * Z.of_nat (S m)) * words_value (drop (S m) u)) as Hsplit'.
  { rewrite (words_value_split m u'), Hdrop, length_take_le by lia. rewrite drop_insert_ge by lia. rewrite Nat.sub_diag.
    assert (drop m u = word u m :: drop (S m) u) as -> by (by apply drop_S, word_lookup). cbn [insert list_insert words_value].
    rewrite pow64_S. ring. }
  rewrite Hsplit, Hsplit'. lia.
Qed.
End by_one.

(** *** Normalization *)
Lemma lor_shifted x b s : 0 <= s -> 0 <= b < 2 ^ s -> Z.lor (x * 2 ^ s) b = x * 2 ^ s + b.
Proof.
  intros Hs Hb. rewrite <- Z.add_lor_land.
  assert (Z.land (x * 2 ^ s) b = 0) as ->; [|lia]. apply Z.bits_inj'. intros n Hn. rewrite Z.land_spec, Z.bits_0.
  destruct (Z.lt_ge_cases n s); [by rewrite Z.mul_pow2_bits_low|]. rewrite <- (Z.mod_small b (2 ^ s)) by done.
  by rewrite Z.mod_pow2_bits_high, andb_false_r by lia.
Qed.

(** The bits of a word moved left, and those it loses. *)
Lemma shl_word w s : in_u64 w -> 0 < s < 64 ->
  u64 (Z.shiftl w s) + 2 ^ 64 * Z.shiftr w (64 - s) = w * 2 ^ s /\ 0 <= Z.shiftr w (64 - s) < 2 ^ s /\
  exists x, u64 (Z.shiftl w s) = x * 2 ^ s /\ 0 <= x <= 2 ^ (64 - s) - 1.
Proof.
  intros Hw Hs. rewrite Z.shiftl_mul_pow2, Z.shiftr_div_pow2 by lia. unfold in_u64 in Hw.
  assert (2 ^ 64 = 2 ^ (64 - s) * 2 ^ s) as Hpow by (rewrite <- Z.pow_add_r by lia; f_equal; lia).
  assert (0 < 2 ^ s) by lia. assert (0 < 2 ^ (64 - s)) by lia. unfold u64, uwrap.
  assert ((w * 2 ^ s) mod 2 ^ 64 = (w mod 2 ^ (64 - s)) * 2 ^ s) as Hmod by (rewrite Hpow; by apply Z.mul_mod_distr_r; lia).
  pose proof (Z.div_mod w (2 ^ (64 - s))) as Hdm. pose proof (Z.mod_pos_bound w (2 ^ (64 - s))) as Hmb. rewrite Hmod.
  split; [rewrite Hpow; rewrite Hdm at 3 by lia; ring|]. split.
  - split; [apply Z.div_pos; lia|]. apply Z.div_lt_upper_bound; lia.
  - exists (w mod 2 ^ (64 - s)). split; [done|lia].
Qed.

Lemma shifted_word_value s l i : words l -> 0 < s < 64 ->
  shifted_word s l (S i) = u64 (Z.shiftl (word l (S i)) s) + Z.shiftr (word l i) (64 - s) /\ in_u64 (shifted_word s l (S i)).
Proof.
  intros Hl Hs. destruct (shl_word (word l (S i)) s (words_word _ _ Hl) Hs) as (_ & _ & x & Hx & Hxr).
  destruct (shl_word (word l i) s (words_word _ _ Hl) Hs) as (_ & Hc & _). cbn [shifted_word].
  assert (2 ^ 64 = 2 ^ (64 - s) * 2 ^ s) as Hpow by (rewrite <- Z.pow_add_r by lia; f_equal; lia).
  rewrite Hx, lor_shifted by lia. split; [done|]. unfold in_u64. rewrite Hpow.
  assert (x * 2 ^ s <= (2 ^ (64 - s) - 1) * 2 ^ s) by (apply Z.mul_le_mono_nonneg_r; lia).
  assert ((2 ^ (64 - s) - 1) * 2 ^ s = 2 ^ (64 - s) * 2 ^ s - 2 ^ s) by ring. pose proof (Z.mul_nonneg_nonneg x (2 ^ s)). lia.
Qed.

Lemma shl_prefix s l k : words l -> 0 < s < 64 -> (k < length l)%nat ->
  let m := map (shifted_word s l) (seq 0 (S k)) in
  words m /\ words_value m + 2 ^ (64 * Z.of_nat (S k)) * Z.shiftr (word l k) (64 - s) = 2 ^ s * words_value (take (S k) l).
Proof.
  intros Hl Hs. induction k as [|k IH]; intros Hk; cbv zeta.
  - destruct (shl_word (word l 0) s (words_word _ _ Hl) Hs) as (Heq & _). rewrite take_S_word by lia. cbn [seq map words_value].
    split; [constructor; [apply u64_range|done]|]. cbn [take app words_value shifted_word].
    change (2 ^ (64 * Z.of_nat 1)) with (2 ^ 64). rewrite take_0. cbn [app words_value]. rewrite !Z.mul_0_r, !Z.add_0_r, Heq. apply Z.mul_comm.
  - destruct IH as [Hw Hv]; [lia|]. destruct (shifted_word_value s l k Hl Hs) as [Hsv Hsr].
    destruct (shl_word (word l (S k)) s (words_word _ _ Hl) Hs) as (Heq & _).
    rewrite seq_S, map_app, Nat.add_0_l. split; [apply Forall_app; split; [done|by constructor]|].
    rewrite (take_S_word l (S k)), !words_value_app by lia. rewrite length_map, length_seq, length_take_le by lia.
    cbn [map words_value]. rewrite Hsv, (pow64_S (S k)). set (B := 2 ^ (64 * Z.of_nat (S k))) in *.
    set (c := Z.shiftr (word l k) (64 - s)) in *. set (c' := Z.shiftr (word l (S k)) (64 - s)) in *.
    set (a := u64 (Z.shiftl (word l (S k)) s)) in *. set (A := words_value (map _ _)) in *.
    transitivity (A + B * c + B * (a + 2 ^ 64 * c')); [ring|]. rewrite Heq, Hv. ring.
Qed.

Lemma shl_words_value s l : words l -> 0 < s < 64 -> (0 < length l)%nat ->
  let m := shl_words s l ++ [Z.shiftr (word l (length l - 1)) (64 - s)] in
  words m /\ length m = S (length l) /\ words_value m = 2 ^ s * words_value l.
Proof.
  intros Hl Hs Hlen. destruct (shl_prefix s l (length l - 1) Hl Hs ltac:(lia)) as [Hw Hv].
  replace (S (length l - 1)) with (length l) in Hw, Hv by lia. rewrite firstn_all in Hv. cbv zeta. unfold shl_words.
  destruct (shl_word (word l (length l - 1)) s (words_word _ _ Hl) Hs) as (_ & Hc & _).
  assert (2 ^ s <= 2 ^ 64) by (apply Z.pow_le_mono_r; lia).
  split; [apply Forall_app; split; [done|constructor; [unfold in_u64; lia|done]]|].
  rewrite length_app, length_map, length_seq. split; [cbn; lia|]. rewrite words_value_app, length_map, length_seq. cbn [words_value]. lia.
Qed.

Lemma significant_words_value l : words l ->
  (significant_words l <= length l)%nat /\ words_value l = words_value (take (significant_words l) l).
Proof.
  induction 1 as [|w l Hw _ [IHl IHv]]; [by split|]. cbn [significant_words].
  destruct (significant_words l) as [|k] eqn:Hs.
  - rewrite take_0 in IHv. cbn [words_value] in IHv. cbn [words_value length]. rewrite IHv.
    destruct (Z.eqb_spec w 0) as [->|]; (split; [lia|]); [done|]. cbn [take]. by rewrite take_0.
  - cbn [take words_value length]. rewrite IHv. cbn in IHl |- *. split; [lia|done].
Qed.

Lemma clz64_spec w : 0 < w < 2 ^ 64 -> 0 <= clz64 w < 64 /\ 2 ^ 63 <= w * 2 ^ clz64 w < 2 ^ 64.
Proof.
  intros Hw. unfold clz64. rewrite (proj2 (Z.eqb_neq _ _)) by lia. pose proof (Z.log2_spec w) as Hl.
  assert (Z.log2 w < 64) by (apply Z.log2_lt_pow2; lia). pose proof (Z.log2_nonneg w). set (k := Z.log2 w) in *.
  split; [lia|].
  assert (2 ^ k * 2 ^ (63 - k) = 2 ^ 63) as H1 by (rewrite <- Z.pow_add_r by lia; f_equal; lia).
  assert (2 ^ Z.succ k * 2 ^ (63 - k) = 2 ^ 64) as H2 by (rewrite <- Z.pow_add_r by lia; f_equal; lia).
  assert (0 < 2 ^ (63 - k)) by lia. rewrite <- H1 at 1. rewrite <- H2. split; [apply Z.mul_le_mono_nonneg_r; lia|apply Z.mul_lt_mono_pos_r; lia].
Qed.

(** *** The division of numbers of any length by one word *)
Lemma words_zero l : words l -> words_value l = 0 -> forall i, word l i = 0.
Proof.
  induction 1 as [|w l Hw Hl IH]; intros H0 i; [by destruct i|]. cbn [words_value] in H0.
  pose proof (words_value_range l Hl) as [Hr _]. unfold in_u64 in Hw. destruct i as [|i]; [unfold word; cbn; lia|].
  apply IH. lia.
Qed.

Lemma take_value k l : words l -> words_value l < 2 ^ (64 * Z.of_nat k) -> words_value (take k l) = words_value l.
Proof.
  intros Hl Hv. destruct (Nat.le_gt_cases (length l) k) as [Hk|Hk]; [by rewrite take_ge|].
  pose proof (words_value_split k l) as Hs. rewrite length_take_le in Hs by lia.
  pose proof (words_value_range (take k l) (Forall_take _ k _ Hl)) as [H0 _].
  pose proof (words_value_range (drop k l) (Forall_drop _ k _ Hl)) as [H1 _].
  set (B := 2 ^ (64 * Z.of_nat k)) in *. assert (0 < B) by (subst B; lia). set (x := words_value (drop k l)) in *.
  assert (x = 0) as Hx by (destruct (Z.eq_dec x 0); [done|]; pose proof (product_le B 1 B x); lia). rewrite Hx in Hs. lia.
Qed.

Lemma drop_value k l : words l -> words_value l < 2 ^ (64 * Z.of_nat k) -> words_value (drop k l) = 0.
Proof.
  intros Hl Hv. destruct (Nat.le_gt_cases (length l) k) as [Hk|Hk]; [by rewrite drop_ge|].
  pose proof (words_value_split k l) as Hs. rewrite (take_value k l Hl Hv), length_take_le in Hs by lia.
  assert (0 < 2 ^ (64 * Z.of_nat k)) by lia. nia.
Qed.

(** A numerator shifted along with its denominator: the quotient stays, the remainder
    is shifted. *)
Lemma shifted_division u v s q r : 0 < v -> 0 <= s -> 2 ^ s * u = q * (v * 2 ^ s) + r -> 0 <= r < v * 2 ^ s ->
  q = u / v /\ Z.shiftr r s = u mod v.
Proof.
  intros Hv Hs Heq Hr. assert (0 < 2 ^ s) as Hpos by lia. rewrite Z.shiftr_div_pow2 by done.
  assert (r = 2 ^ s * (u - q * v)) as -> by (transitivity (2 ^ s * u - q * (v * 2 ^ s)); [lia|ring]).
  rewrite Z.mul_comm, Z.div_mul by lia. assert (0 <= u - q * v < v) by nia.
  split; [apply (Z.div_unique _ _ _ (u - q * v)); lia|apply (Z.mod_unique _ _ q); lia].
Qed.

Lemma normalized u v : words u -> words v -> length u = length v -> significant_words v = 1%nat ->
  let na := normalize u v in let s := Intx.shift na in let N := numerator na in
  0 < words_value v < 2 ^ 64 /\ 0 <= s < 64 /\ word (denominator na) 0 = words_value v * 2 ^ s /\
  2 ^ 63 <= words_value v * 2 ^ s < 2 ^ 64 /\
  words N /\ length N = S (length u) /\ words_value N = 2 ^ s * words_value u /\
  num_denominator_words na = 1%nat /\ num_numerator_words na = significant_words u.
Proof.
  intros Hu Hv Hlen Hn. destruct (significant_words_value v Hv) as [Hle Hval]. rewrite Hn in Hle, Hval.
  destruct v as [|w v]; [done|]. cbn [take words_value] in Hval.
  assert (words_value (w :: v) = w) as Hvw by (rewrite take_0 in Hval; cbn [words_value] in *; lia).
  assert (in_u64 w) as Hw by by inversion Hv. assert (w <> 0) as Hw0.
  { intros ->. cbn [significant_words] in Hn. destruct (significant_words v) as [|k] eqn:Hk; [done|].
    destruct (significant_words_value v ltac:(by inversion Hv)) as [Hk' _]. rewrite Hk in Hk'. discriminate Hn. }
  unfold in_u64 in Hw. pose proof (clz64_spec w ltac:(lia)) as [Hs Hd]. rewrite Hvw.
  cbv zeta. unfold normalize. rewrite Hn. change (word (w :: v) (1 - 1)) with w. destruct (Z.eqb_spec (clz64 w) 0) as [H0|H0].
  - cbn [Intx.shift numerator denominator num_denominator_words num_numerator_words]. rewrite H0 in *.
    rewrite words_value_app, length_app. cbn [words_value length]. change (word (w :: v) 0) with w.
    split_and!; try lia; try done. apply Forall_app. split; [done|]. constructor; [unfold in_u64; lia|done].
  - cbn [Intx.shift numerator denominator num_denominator_words num_numerator_words].
    destruct (shl_words_value (clz64 w) u Hu ltac:(lia) ltac:(cbn in Hlen; lia)) as (HN & HNl & HNv).
    assert (word (shl_words (clz64 w) (w :: v)) 0 = w * 2 ^ clz64 w) as ->.
    { unfold shl_words, word at 1. cbn [length seq map nth shifted_word]. change (word (w :: v) 0) with w.
      rewrite Z.shiftl_mul_pow2 by lia. apply u64_small. unfold in_u64. lia. }
    split_and!; try lia; done.
Qed.

Lemma udivrem_words_by1 u v :
  words u -> words v -> length u = length v -> significant_words v = 1%nat ->
  let x := udivrem_words u v in
  words_value (quot x) = words_value u / words_value v /\ words_value (rem x) = words_value u mod words_value v /\
  words (quot x) /\ length (quot x) = length u.
Proof.
  intros Hu Hv Hlen Hn. destruct (normalized u v Hu Hv Hlen Hn) as (Hvr & Hs & Hd0 & Hd & HN & HNl & HNv & Hnd & Hnn).
  cbv zeta. unfold udivrem_words. cbv zeta. rewrite Hnd, Hnn.
  set (m := significant_words u) in *. set (N := numerator (normalize u v)) in *. set (s := Intx.shift (normalize u v)) in *.
  destruct (significant_words_value u Hu) as [Hm Hum]. fold m in Hm, Hum.
  assert (words (take m u)) as Htm by by apply Forall_take. pose proof (words_value_range _ Htm) as Hur.
  rewrite length_take_le, <- Hum in Hur by lia.
  assert (words (repeat 0 (length u))) as Hz by (apply Forall_forall; intros x Hx%list_elem_of_In%repeat_spec; subst; unfold in_u64; lia).
  destruct (Nat.ltb_spec m 1) as [Hm0|Hm1].
  { assert (words_value u = 0) as Hu0 by (replace m with 0%nat in Hur by lia; change (2 ^ (64 * Z.of_nat 0)) with 1 in Hur; lia).
    cbn [quot rem]. rewrite words_value_zeros, Hu0, repeat_length. split; [by rewrite Z.div_0_l by lia|].
    split; [by rewrite Z.mod_0_l by lia|]. done. }
  rewrite Hd0. set (d := words_value v * 2 ^ s) in *.
  destruct (udivrem_by1 N m d) as [q r] eqn:Hby. cbn [quot rem].
  assert (0 < 2 ^ s <= 2 ^ 63) as Hps by (split; [lia|apply Z.pow_le_mono_r; lia]).
  assert (words_value N < 2 ^ s * 2 ^ (64 * Z.of_nat m)) as HNb.
  { rewrite HNv. apply Z.mul_lt_mono_pos_l; lia. }
  assert (words_value (drop (S m) N) = 0) as Hdrop.
  { apply drop_value; [done|]. rewrite pow64_S. assert (0 < 2 ^ (64 * Z.of_nat m)) by lia.
    assert (2 ^ s * 2 ^ (64 * Z.of_nat m) <= 2 ^ 64 * 2 ^ (64 * Z.of_nat m)) by (apply Z.mul_le_mono_nonneg_r; lia). lia. }
  assert (word N m < d) as Htop.
  { pose proof (words_value_split m N) as Hsp. rewrite length_take_le in Hsp by lia.
    assert (drop m N = word N m :: drop (S m) N) as Hcons by (apply drop_S, word_lookup; lia).
    rewrite Hcons in Hsp. cbn [words_value] in Hsp. rewrite Hdrop in Hsp.
    pose proof (words_value_range (take m N) (Forall_take _ m _ HN)) as [Ht _].
    assert (0 < 2 ^ (64 * Z.of_nat m)) by lia.
    assert (word N m * 2 ^ (64 * Z.of_nat m) < 2 ^ s * 2 ^ (64 * Z.of_nat m)) as Hlt by lia.
    apply Z.mul_lt_mono_pos_r in Hlt; lia. }
  unfold udivrem_by1 in Hby. apply (by1_value d _ Hd (udivrem_2by1_value d Hd)) in Hby as (Hq & Hql & Hr & Heq); [|done|lia|done].
  rewrite Hdrop, HNv, Z.mul_0_l, !Z.sub_0_r in Heq.
  destruct (shifted_division (words_value u) (words_value v) s (words_value q) r) as [Hquot Hrem]; [lia|lia|done|done|].
  assert (words_value q < 2 ^ (64 * Z.of_nat (length u))) as Hqb.
  { rewrite Hquot. pose proof (words_value_range u Hu). apply Z.div_lt_upper_bound; [lia|]. nia. }
  split; [by rewrite take_value|]. split; [|split; [by apply Forall_take|rewrite length_take_le; lia]].
  rewrite words_value_app, words_value_zeros. cbn [words_value length]. lia.
Qed.
