(* ===== verification/Evm.v ===== *)
(** * Votes cast on the EVM (eosio.system.cpp lines 586-842, eosio.evm/tables.hpp, util.hpp)

    Votes cast in a contract of the EVM are read from its storage, as the tables of the
    EVM account hold it, and added to the producers' totals; the status of a producer
    and the decay parameters are sent the other way, as EVM transactions. *)
From S2P Require Import Prelude.
From S2P Require Import Cdt.
From S2P Require Import Float64.
From S2P Require Import SysState.
From S2P Require Import Votes.
From S2P Require Import Rlp.
From stdpp Require Import base gmap strings list.
Open Scope Z_scope.

(** [Account]: addresses are numbers of 160 bits, as the fields of the rows below are
    numbers of 256. *)
Record evm_account_row := EvmAccount {
  evm_index : Z;
  evm_address : Z;
  evm_owner : name;
  evm_nonce : Z;
}.

(** The tables of the EVM account, in primary-key order, and the host's hash. *)
Class EvmHost := {
  evm_accounts : list evm_account_row;
  (** the rows of [accountstate] in the scope of an account: key and value *)
  evm_states : Z -> list (Z * Z);
  keccak : list Z -> Z;
}.

Definition VOTE_STORAGE_SLOT : Z := 3.
Definition STATUS_STORAGE_SLOT : Z := 4.
Definition DEFAULT_GAS_LIMIT : Z := 100000.
Definition SET_DECAY_PARAMS_SELECTOR : list Z := [0x5d; 0x32; 0xff; 0x31].
Definition REGISTER_BP_SELECTOR : list Z := [21; 144; 113; 236].
Definition UNREGISTER_BP_SELECTOR : list Z := [171; 46; 42; 196].

(** The mapping slot of a producer: 24 zero bytes, the name, and the slot in the last byte. *)
Definition storage_location (bp slot : Z) : list Z := repeat 0 24 ++ be_bytes 8 bp ++ repeat 0 31 ++ [slot].

(** A vote in units of 1e14, its low 64 bits. *)
Definition normalized_vote (v : Z) : Z := u64 (v / 10 ^ 14).

Section evm.
Context `{cdt : Cdt} `{evm : EvmHost} (e : Env).

Definition find_voting_account (contract : Z) : M sys evm_account_row :=
  require_found (find (fun a => evm_address a =? contract) evm_accounts) "EVM voting contract not found".
Definition find_eosio_account : M sys evm_account_row :=
  require_found (find (fun a => evm_owner a =? self e) evm_accounts) "eosio EVM address not found".
Definition find_state (index key : Z) (msg : string) : M sys Z :=
  r ← require_found (find (fun kv => kv.1 =? key) (evm_states index)) msg; mret (snd r).

(** One producer of [getevmvote]: whether anything has changed. *)
Definition apply_evm_vote (voting_account : evm_account_row) (is_changed : bool) (bp : name) : M sys bool :=
  total ← find_state (evm_index voting_account) (keccak (storage_location bp VOTE_STORAGE_SLOT))
            "BP vote not found in EVM state";
  evm_vote ← find_row evm_votes bp;
  pitr ← find_row producers bp;
  p ← require_found pitr "BP not found";
  match evm_vote with
  | None =>
    let v := dint (normalized_vote total) in
    modify (fun s => s <| producers ::= insert bp (p <| Producer.total_votes ::= fun t => dadd t v |>) |>
      <| gstate ::= fun g => g <| Global.total_producer_vote_weight ::= fun w => dadd w v |> |>
      <| evm_votes ::= insert bp total |>) ;;
    mret true
  | Some previous =>
    (** the difference of two [uint64_t] values, before the conversion to double *)
    let vote_delta := dint (u64 (normalized_vote total - normalized_vote previous)) in
    let clamped x := if dlt x dzero then dzero else x in
    modify (fun s => s
      <| producers ::= insert bp (p <| Producer.total_votes ::= fun t => clamped (dadd t vote_delta) |>) |>
      <| gstate ::= fun g => g <| Global.total_producer_vote_weight ::= fun w => clamped (dadd w vote_delta) |> |>
      <| evm_votes ::= insert bp total |>) ;;
    mret (is_changed || negb (previous =? total))
  end.

Definition getevmvote (bps : list name) : M sys unit :=
  cfg ← gets gvoting_config;
  check (negb (Voting.evm_voting_contract cfg =? 0)) "EVM voting contract not set" ;;
  check (bool_decide (length bps <= 30)%nat) "attempt to update EVM vote for too many BPs" ;;
  check (strictly_sorted bps) "list of BPs that need to be updated must be unique and sorted" ;;
  account ← find_voting_account (Voting.evm_voting_contract cfg);
  is_changed ← fold_each (apply_evm_vote account) false bps;
  check is_changed "None of the BPs EVM votes has been changed".

(** The transaction the contract sends to the voting contract. *)
Definition evm_transaction (nonce contract : Z) (tx_data : list Z) : list Z :=
  Rlp.encode [u256_byte_string nonce; u256_byte_string 0; u256_byte_string DEFAULT_GAS_LIMIT;
          be_bytes 20 contract; u256_byte_string 0; tx_data; u64_byte_string 0;
          u256_byte_string 0; u256_byte_string 0].

Definition send_evm (contract : Z) (tx_data : list Z) : M sys unit :=
  account ← find_eosio_account;
  send (EvmRaw (evm_transaction (evm_nonce account) contract tx_data) (evm_address account)).

Definition setbpevmstat (bp : name) : M sys unit :=
  cfg ← gets gvoting_config;
  check (negb (Voting.evm_voting_contract cfg =? 0)) "EVM voting contract not set" ;;
  pitr ← find_row producers bp;
  p ← require_found pitr "BP not found";
  account ← find_voting_account (Voting.evm_voting_contract cfg);
  status ← find_state (evm_index account) (keccak (storage_location bp STATUS_STORAGE_SLOT))
             "BP status not found in EVM state";
  let bp_status_in_evm := negb (status mod 256 =? 0) in
  check (negb (Bool.eqb (Producer.is_active p) bp_status_in_evm)) "The status of BP is not changed" ;;
  let selector := if Producer.is_active p then REGISTER_BP_SELECTOR else UNREGISTER_BP_SELECTOR in
  send_evm (Voting.evm_voting_contract cfg) (selector ++ repeat 0 24 ++ be_bytes 8 bp).

(** A 256-bit word of a 64-bit value. *)
Definition word_of_u64 (v : Z) : list Z := repeat 0 24 ++ be_bytes 8 v.

Definition setvotedecay (decay_start_epoch decay_increase_yearly : Z) : M sys unit :=
  require_auth e (self e) ;;
  cfg ← gets gvoting_config;
  check (negb (Voting.evm_voting_contract cfg =? 0)) "EVM voting contract not set" ;;
  check (decay_increase_yearly <=? 100) "decay_increase_yearly must be <= 100 (100%)" ;;
  modify (fun s => s <| gvoting_config ::= fun c =>
    c <| Voting.decay_start_epoch := decay_start_epoch |>
      <| Voting.decay_increase_yearly := decay_increase_yearly |> |>) ;;
  let SCALE_FACTOR := 10000000000000000 in
  check (decay_increase_yearly <=? (2 ^ 64 - 1) / SCALE_FACTOR)
    "decay_increase_yearly too large, would cause overflow" ;;
  send_evm (Voting.evm_voting_contract cfg)
    (SET_DECAY_PARAMS_SELECTOR ++ word_of_u64 decay_start_epoch ++
     word_of_u64 (u64 (decay_increase_yearly * SCALE_FACTOR))).

Definition setvotecontr (contract : Z) : M sys unit :=
  require_auth e (self e) ;;
  modify (fun s => s <| gvoting_config ::= fun c => c <| Voting.evm_voting_contract := contract |> |>).

Definition setselfstake (self_stake_boost_multiplier : Z) : M sys unit :=
  require_auth e (self e) ;;
  check (self_stake_boost_multiplier <=? 1000) "self_stake_boost_multiplier must be <= 1000" ;;
  modify (fun s => s <| gvoting_config ::= fun c =>
    c <| Voting.self_stake_boost_multiplier := self_stake_boost_multiplier |> |>).
End evm.

(** ** What reading votes does *)

(** The storage word of a producer's votes. *)
Definition evm_total `{evm : EvmHost} (a : evm_account_row) (bp : name) : option Z :=
  snd <$> find (fun kv => kv.1 =? keccak (storage_location bp VOTE_STORAGE_SLOT)) (evm_states (evm_index a)).

(** What is added to the votes of a producer whose word was [previous] and is [total]. *)
Definition evm_delta (previous : option Z) (total : Z) : double :=
  match previous with
  | None => dint (normalized_vote total)
  | Some p => dint (u64 (normalized_vote total - normalized_vote p))
  end.
Definition add_evm_vote (previous : option Z) (total : Z) (votes : double) : double :=
  let votes' := dadd votes (evm_delta previous total) in
  match previous with
  | None => votes'
  | Some _ => if dlt votes' dzero then dzero else votes'
  end.

(** The store after one producer, and after all of a list. *)
Definition evm_counted `{evm : EvmHost} (a : evm_account_row) (s : sys) (bp : name) : sys :=
  match evm_total a bp, producers s !! bp with
  | Some total, Some p =>
    let add := add_evm_vote (evm_votes s !! bp) total in
    s <| producers ::= insert bp (p <| Producer.total_votes ::= add |>) |>
      <| gstate ::= fun g => g <| Global.total_producer_vote_weight ::= add |> |>
      <| evm_votes ::= insert bp total |>
  | _, _ => s
  end.
Definition evm_ready `{evm : EvmHost} (a : evm_account_row) (s : sys) (bp : name) : bool :=
  bool_decide (is_Some (evm_total a bp)) && bool_decide (is_Some (producers s !! bp)).
Definition evm_news `{evm : EvmHost} (a : evm_account_row) (s : sys) (bp : name) : bool :=
  bool_decide (evm_votes s !! bp <> evm_total a bp).

Section reading.
Context `{cdt : Cdt} `{evm : EvmHost} (e : Env) (a : evm_account_row).
Implicit Types s : sys.

Lemma apply_evm_vote_run c bp s :
  (evm_ready a s bp = true -> apply_evm_vote a c bp s = Ok (c || evm_news a s bp, evm_counted a s bp)) /\
  (evm_ready a s bp = false -> is_ok (apply_evm_vote a c bp s) = false).
Proof.
  unfold apply_evm_vote, find_state, find_row, evm_ready, evm_news, evm_counted, evm_total.
  destruct (find _ (evm_states _)) as [[k total]|]; [|done]. cbn [fmap option_fmap option_map snd].
  destruct (producers s !! bp) as [p|] eqn:Hp;
    unfold mbind, M_bind, gets, require_found, mret, M_ret, throw; cbn [snd]; rewrite Hp; [|done].
  split; [|done]. intros _. destruct (evm_votes s !! bp) as [previous|]; unfold modify; do 2 f_equal.
  - case_bool_decide as Hd; [destruct (Z.eqb_spec previous total); [congruence|done]|].
    injection Hd as ->. by rewrite Z.eqb_refl.
  - rewrite bool_decide_true by done. by rewrite orb_true_r.
Qed.

Lemma evm_counted_other s bp bp' : bp' <> bp ->
  evm_ready a (evm_counted a s bp) bp' = evm_ready a s bp' /\ evm_news a (evm_counted a s bp) bp' = evm_news a s bp'.
Proof.
  intros Hne. unfold evm_ready, evm_news, evm_counted.
  destruct (evm_total a bp), (producers s !! bp); [|done..].
  cbn [producers evm_votes update_field]. by rewrite !lookup_insert_ne by done.
Qed.

Lemma apply_evm_votes_run bps : NoDup bps -> forall c s,
  (forallb (evm_ready a s) bps = true ->
   fold_each (apply_evm_vote a) c bps s = Ok (c || existsb (evm_news a s) bps, foldl (evm_counted a) s bps)) /\
  (forallb (evm_ready a s) bps = false -> is_ok (fold_each (apply_evm_vote a) c bps s) = false).
Proof.
  induction 1 as [|bp bps Hbp _ IH]; intros c s; [split; [by rewrite orb_false_r|done]|].
  assert (forall s', s' = evm_counted a s bp -> forallb (evm_ready a s') bps = forallb (evm_ready a s) bps /\
    existsb (evm_news a s') bps = existsb (evm_news a s) bps) as Hsame.
  { intros s' ->. clear IH. induction bps as [|x bps IHl]; [done|]. cbn. apply not_elem_of_cons in Hbp as [Hne Hbp].
    destruct (evm_counted_other s bp x) as [-> ->]; [done|]. by destruct (IHl Hbp) as [-> ->]. }
  destruct (apply_evm_vote_run c bp s) as [Hrun Hfail].
  destruct (IH (c || evm_news a s bp) (evm_counted a s bp)) as [IHrun IHfail].
  destruct (Hsame _ eq_refl) as [Hr Hn]. rewrite Hr in IHrun, IHfail. rewrite Hn in IHrun.
  cbn [forallb existsb foldl fold_each]. split.
  - intros [Hb Hbs]%andb_true_iff. rewrite (bind_run_Ok _ _ _ _ _ (Hrun Hb)). rewrite orb_assoc. by apply IHrun.
  - intros [Hb|Hbs]%andb_false_iff; destruct (evm_ready a s bp) eqn:Hd; try done.
    + unfold mbind, M_bind. by destruct (apply_evm_vote a c bp s); [discriminate (Hfail eq_refl)|].
    + rewrite (bind_run_Ok _ _ _ _ _ (Hrun eq_refl)). by apply IHfail.
    + unfold mbind, M_bind. by destruct (apply_evm_vote a c bp s); [discriminate (Hfail eq_refl)|].
Qed.

(** The rows after counting a list of producers. *)
Lemma evm_counted_rows bps : NoDup bps -> forall s, forallb (evm_ready a s) bps = true ->
  let s' := foldl (evm_counted a) s bps in
  (forall bp, evm_votes s' !! bp = if bool_decide (bp ∈ bps) then evm_total a bp else evm_votes s !! bp) /\
  (forall bp, producers s' !! bp = (if bool_decide (bp ∈ bps)
     then (fun p => p <| Producer.total_votes ::= add_evm_vote (evm_votes s !! bp) (from_option id 0 (evm_total a bp)) |>)
     else id) <$> producers s !! bp).
Proof.
  induction 1 as [|bp bps Hbp Hnd IH]; intros s Hready s'; [split; [done|]; intros bp; cbn; by destruct (producers s !! bp)|].
  cbn [forallb] in Hready. apply andb_true_iff in Hready as [Hb Hready]. subst s'. cbn [foldl].
  assert (forallb (evm_ready a (evm_counted a s bp)) bps = true) as Hready'.
  { rewrite forallb_forall in Hready |- *. intros x Hx. destruct (evm_counted_other s bp x) as [-> _]; [|by apply Hready].
    intros ->. apply Hbp. by apply list_elem_of_In. }
  destruct (IH _ Hready') as [Hv Hp]. unfold evm_ready in Hb. apply andb_true_iff in Hb as [[total Ht]%bool_decide_eq_true [p Hrow]%bool_decide_eq_true].
  assert (evm_counted a s bp = s <| producers ::= insert bp (p <| Producer.total_votes ::= add_evm_vote (evm_votes s !! bp) total |>) |>
    <| gstate ::= fun g => g <| Global.total_producer_vote_weight ::= add_evm_vote (evm_votes s !! bp) total |> |>
    <| evm_votes ::= insert bp total |>) as Hs1 by (unfold evm_counted; by rewrite Ht, Hrow).
  set (s1 := evm_counted a s bp) in *.
  assert (evm_votes s1 = <[bp := total]> (evm_votes s)) as Hv1 by (by rewrite Hs1).
  assert (producers s1 = <[bp := p <| Producer.total_votes ::= add_evm_vote (evm_votes s !! bp) total |>]> (producers s)) as Hp1
    by (by rewrite Hs1).
  split; intros x; [rewrite Hv|rewrite Hp].
  - rewrite Hv1. destruct (decide (x = bp)) as [->|Hne].
    + rewrite bool_decide_false by done. rewrite (bool_decide_true (bp ∈ bp :: bps)) by constructor.
      by rewrite lookup_insert_eq.
    + rewrite lookup_insert_ne by done. rewrite (bool_decide_ext (x ∈ bp :: bps) (x ∈ bps)); [done|]. set_solver.
  - rewrite Hp1, Hv1. destruct (decide (x = bp)) as [->|Hne].
    + rewrite bool_decide_false by done. rewrite (bool_decide_true (bp ∈ bp :: bps)) by constructor.
      rewrite lookup_insert_eq, Hrow, Ht. done.
    + rewrite !lookup_insert_ne by done. rewrite (bool_decide_ext (x ∈ bp :: bps) (x ∈ bps)); [done|]. set_solver.
Qed.
End reading.

Section counting.
Context `{cdt : Cdt} `{evm : EvmHost} (e : Env).
Implicit Types s : sys.

Definition voting_account s : option evm_account_row :=
  find (fun a => evm_address a =? Voting.evm_voting_contract (gvoting_config s)) evm_accounts.

Lemma getevmvote_run bps s :
  getevmvote bps s =
    (check (negb (Voting.evm_voting_contract (gvoting_config s) =? 0)) "EVM voting contract not set" ;;
     check (bool_decide (length bps <= 30)%nat) "attempt to update EVM vote for too many BPs" ;;
     check (strictly_sorted bps) "list of BPs that need to be updated must be unique and sorted" ;;
     a ← require_found (voting_account s) "EVM voting contract not found";
     is_changed ← fold_each (apply_evm_vote a) false bps;
     check is_changed "None of the BPs EVM votes has been changed") s.
Proof. reflexivity. Qed.

(** All of the store but what the votes change. *)
Definition off_evm s : sys :=
  s <| producers := ∅ |> <| evm_votes := ∅ |> <| gstate ::= fun g => g <| Global.total_producer_vote_weight := dzero |> |>.

Lemma evm_counted_frame a bps : forall s, off_evm (foldl (evm_counted a) s bps) = off_evm s.
Proof.
  induction bps as [|bp bps IH]; intros s; [done|]. cbn [foldl]. rewrite IH. unfold evm_counted.
  by destruct (evm_total a bp), (producers s !! bp).
Qed.

(** C29: [getevmvote] succeeds exactly when the contract of the votes is set and known, at
    most thirty names are given in order, each names a producer and a word of that
    contract's storage, and one of the words is news. Then each producer named counts the
    change since its word was last read, once, in its votes; the words are remembered, and
    nothing else is touched but the sum of the votes. But the change is a difference of
    unsigned numbers: a word that fell by [k] votes adds [2 ^ 64 - k]. *)
Theorem getevmvote_counts_changes bps s :
  is_ok (getevmvote bps s) =
    (negb (Voting.evm_voting_contract (gvoting_config s) =? 0) && bool_decide (length bps <= 30)%nat &&
     strictly_sorted bps &&
     from_option (fun a => forallb (evm_ready a s) bps && existsb (evm_news a s) bps) false (voting_account s)) /\
  (forall a u s', voting_account s = Some a -> getevmvote bps s = Ok (u, s') ->
     (forall bp, evm_votes s' !! bp = if bool_decide (bp ∈ bps) then evm_total a bp else evm_votes s !! bp) /\
     (forall bp, producers s' !! bp = (if bool_decide (bp ∈ bps)
        then (fun p => p <| Producer.total_votes ::= add_evm_vote (evm_votes s !! bp) (from_option id 0 (evm_total a bp)) |>)
        else id) <$> producers s !! bp) /\
     off_evm s' = off_evm s) /\
  (forall previous total, normalized_vote total < normalized_vote previous ->
     evm_delta (Some previous) total = dint (2 ^ 64 - (normalized_vote previous - normalized_vote total))).
Proof.
  split_and!.
  - rewrite getevmvote_run. destruct (negb _); [|done]. destruct (bool_decide _); [|done].
    destruct (strictly_sorted bps) eqn:Hs; [|done]. destruct (voting_account s) as [a|] eqn:Ha; [|done].
    cbn [from_option andb]. destruct (apply_evm_votes_run a bps (strictly_sorted_NoDup _ Hs) false s) as [Hrun Hfail].
    unfold mbind, M_bind, check, require_found, mret, M_ret. cbn.
    destruct (forallb (evm_ready a s) bps); [rewrite (Hrun eq_refl); cbn; by destruct (existsb _ _)|].
    specialize (Hfail eq_refl). by destruct (fold_each _ _ _ _).
  - intros a0 u s' Ha H. rewrite getevmvote_run, Ha in H. minv H. lazymatch goal with E : Some a0 = Some ?x |- _ => injection E as E; subst x end. rename a0 into a.
    destruct (apply_evm_votes_run a bps (strictly_sorted_NoDup _ ltac:(eassumption)) false s) as [Hrun' Hfail].
    destruct (forallb (evm_ready a s) bps) eqn:Hready; [|by specialize (Hfail eq_refl); rewrite Hrun in Hfail].
    rewrite (Hrun' eq_refl) in Hrun. injection Hrun as _ <-.
    destruct (evm_counted_rows a bps (strictly_sorted_NoDup _ ltac:(eassumption)) s Hready) as [Hv Hp].
    split_and!; [exact Hv|exact Hp|apply evm_counted_frame].
  - intros previous total Hlt. unfold evm_delta. f_equal. pose proof (u64_range (previous / 10 ^ 14)) as Hp.
    pose proof (u64_range (total / 10 ^ 14)) as Ht. unfold normalized_vote in *.
    set (x := u64 (total / 10 ^ 14)) in *. set (y := u64 (previous / 10 ^ 14)) in *. unfold u64, uwrap, in_u64 in *.
    replace (x - y) with (2 ^ 64 - (y - x) + (-1) * 2 ^ 64) by lia. rewrite Z.mod_add by lia. apply Z.mod_small. lia.
Qed.
End counting.

(** ** An example: a vote that falls by one *)
Definition ex_evm : EvmHost := {|
  evm_accounts := [EvmAccount 7 77 1 0];
  evm_states n := if n =? 7 then [(70, 5 * 10 ^ 14); (71, 3 * 10 ^ 14)] else [];
  keccak l := 64 + nth 31 l 0;
|}.
Definition ex_producer (n : name) (votes : Z) : producer_info :=
  Producer.mk n (dint votes) 0 true "" "" 0 0 0 0 0 0 0 "" 0 0 0 None.
Definition ex_evm_sys : sys :=
  blank_sys <| gvoting_config ::= fun c => c <| Voting.evm_voting_contract := 77 |> |>
    <| producers := {[ 6 := ex_producer 6 100; 7 := ex_producer 7 100 ]} |> <| evm_votes := {[ 7 := 4 * 10 ^ 14 ]} |>.

Lemma getevmvote_counts_changes_witness :
  exists s', getevmvote (evm := ex_evm) [6; 7] ex_evm_sys = Ok (tt, s') /\
    Producer.total_votes <$> producers s' !! 6 = Some (dint 105) /\
    Producer.total_votes <$> producers s' !! 7 = Some (dadd (dint 100) (dint (2 ^ 64 - 1))) /\
    evm_votes s' !! 7 = Some (3 * 10 ^ 14).
Proof.
  destruct (getevmvote_counts_changes (evm := ex_evm) [6; 7] ex_evm_sys) as (Hok & Hrows & Hfall).
  assert (is_ok (getevmvote (evm := ex_evm) [6; 7] ex_evm_sys) = true) as Hyes by (rewrite Hok; vm_compute; reflexivity).
  destruct (is_ok_run _ _ Hyes) as ([] & s' & Hrun). exists s'. split; [exact Hrun|].
  destruct (Hrows (EvmAccount 7 77 1 0) tt s' ltac:(vm_compute; reflexivity) Hrun) as (Hv & Hp & _).
  split; [rewrite Hp; vm_compute; reflexivity|]. split; [|rewrite Hv; vm_compute; reflexivity].
  rewrite Hp. trans (Some (add_evm_vote (Some (4 * 10 ^ 14)) (3 * 10 ^ 14) (dint 100))); [vm_compute; reflexivity|].
  unfold add_evm_vote. rewrite (Hfall (4 * 10 ^ 14) (3 * 10 ^ 14)) by (vm_compute; reflexivity).
  vm_compute. reflexivity.
Defined.
