(* ===== verification/IntxArith.v ===== *)
(** * The arithmetic of the wide integers is arithmetic modulo 2^128 and 2^256

    Addition and subtraction by words with carries, multiplication by partial products,
    the portable product of two words, and division by a number of one word; and the two
    places where the contract computes with them: the decay of votes and the votes of the
    EVM, whose models in other files are on plain numbers. *)
From S2P Require Import Prelude.
From S2P Require Import Intx.
From S2P Require Import IntxDiv.
From S2P Require Import Votes.
From S2P Require Import Evm.
From stdpp Require Import base list.
Open Scope Z_scope.

Record ok128 (x : uint128) : Prop := { hi_word : in_u64 (hi x); lo_word : in_u64 (lo x) }.
Record ok256 (x : uint256) : Prop := { hi_ok : ok128 (hi256 x); lo_ok : ok128 (lo256 x) }.

Lemma value128_range x : ok128 x -> 0 <= value128 x < 2 ^ 128.
Proof. intros [[] []]. unfold value128. lia. Qed.
Lemma value256_range x : ok256 x -> 0 <= value256 x < 2 ^ 256.
Proof. intros [?%value128_range ?%value128_range]. unfold value256. lia. Qed.
Lemma ok_of_value128 z : ok128 (of_value128 z).
Proof. split; apply u64_range. Qed.
Lemma ok_word128 w : in_u64 w -> ok128 (word128 w).
Proof. intros H. split; [unfold in_u64; cbn; lia|done]. Qed.
Lemma value_word128 w : value128 (word128 w) = w.
Proof. unfold value128. cbn. lia. Qed.
Lemma ok_word256 w : in_u64 w -> ok256 (word256 w).
Proof. intros H. split; [apply (ok_word128 0); unfold in_u64; lia|by apply ok_word128]. Qed.
Lemma value_word256 w : value256 (word256 w) = w.
Proof. unfold value256. cbn [hi256 lo256 word256]. rewrite value_word128. unfold value128. cbn. lia. Qed.

(** ** Addition and subtraction *)

(** A sum that wrapped is below its first operand; a difference that wrapped, above. *)
Lemma add_word a b : in_u64 a -> in_u64 b ->
  in_u64 (u64 (a + b)) /\ u64 (a + b) + 2 ^ 64 * Z.b2z (u64 (a + b) <? a) = a + b.
Proof.
  unfold in_u64. intros Ha Hb. pose proof (u64_range (a + b)) as Hr. unfold in_u64 in Hr. split; [done|].
  destruct (Z.lt_ge_cases (a + b) (2 ^ 64)).
  - rewrite u64_small by (unfold in_u64; lia). rewrite (proj2 (Z.ltb_ge _ _)) by lia. cbn. lia.
  - assert (u64 (a + b) = a + b - 2 ^ 64) as -> by (apply u64_eq_mod; [unfold in_u64; lia|mod64]).
    rewrite (proj2 (Z.ltb_lt _ _)) by lia. cbn. lia.
Qed.

Lemma sub_word a b : in_u64 a -> in_u64 b ->
  in_u64 (u64 (a - b)) /\ u64 (a - b) - 2 ^ 64 * Z.b2z (a <? u64 (a - b)) = a - b.
Proof.
  unfold in_u64. intros Ha Hb. pose proof (u64_range (a - b)) as Hr. unfold in_u64 in Hr. split; [done|].
  destruct (Z.lt_ge_cases (a - b) 0).
  - assert (u64 (a - b) = a - b + 2 ^ 64) as -> by (apply u64_eq_mod; [unfold in_u64; lia|mod64]).
    rewrite (proj2 (Z.ltb_lt _ _)) by lia. cbn. lia.
  - rewrite u64_small by (unfold in_u64; lia). rewrite (proj2 (Z.ltb_ge _ _)) by lia. cbn. lia.
Qed.

Lemma b2z_word b : in_u64 (Z.b2z b).
Proof. unfold in_u64. destruct b; cbn; lia. Qed.

Lemma b2z_or b c : Z.b2z b + Z.b2z c <= 1 -> Z.b2z (b || c) = Z.b2z b + Z.b2z c.
Proof. destruct b, c; cbn; lia. Qed.

Lemma add_with_carry128_value a b : ok128 a -> ok128 b ->
  let r := add_with_carry128 a b in
  ok128 (cvalue r) /\ value128 (cvalue r) + 2 ^ 128 * Z.b2z (carry r) = value128 a + value128 b.
Proof.
  intros [Hah Hal] [Hbh Hbl]. unfold add_with_carry128. cbv zeta. cbn [cvalue carry].
  destruct (add_word (lo a) (lo b) Hal Hbl) as [Hl El]. set (l := u64 (lo a + lo b)) in *. set (c0 := l <? lo a) in *.
  destruct (add_word (hi a) (hi b) Hah Hbh) as [Ht Et]. set (t := u64 (hi a + hi b)) in *. set (c1 := t <? hi a) in *.
  destruct (add_word t (Z.b2z c0) Ht (b2z_word c0)) as [Hh Eh]. set (h := u64 (t + Z.b2z c0)) in *. set (c2 := h <? t) in *.
  split; [by split|]. unfold in_u64 in *. unfold value128. cbn [hi lo].
  rewrite b2z_or; [lia|]. destruct c0, c1, c2; cbn in *; lia.
Qed.

Lemma sub_with_carry128_value a b : ok128 a -> ok128 b ->
  let r := sub_with_carry128 a b in
  ok128 (cvalue r) /\ value128 (cvalue r) - 2 ^ 128 * Z.b2z (carry r) = value128 a - value128 b.
Proof.
  intros [Hah Hal] [Hbh Hbl]. unfold sub_with_carry128. cbv zeta. cbn [cvalue carry].
  destruct (sub_word (lo a) (lo b) Hal Hbl) as [Hl El]. set (l := u64 (lo a - lo b)) in *. set (c0 := lo a <? l) in *.
  destruct (sub_word (hi a) (hi b) Hah Hbh) as [Ht Et]. set (t := u64 (hi a - hi b)) in *. set (c1 := hi a <? t) in *.
  destruct (sub_word t (Z.b2z c0) Ht (b2z_word c0)) as [Hh Eh]. set (h := u64 (t - Z.b2z c0)) in *. set (c2 := t <? h) in *.
  split; [by split|]. unfold in_u64 in *. unfold value128. cbn [hi lo].
  rewrite b2z_or; [lia|]. destruct c0, c1, c2; cbn in *; lia.
Qed.

Lemma add128_value a b : ok128 a -> ok128 b ->
  ok128 (add128 a b) /\ value128 (add128 a b) = (value128 a + value128 b) mod 2 ^ 128.
Proof.
  intros Ha Hb. destruct (add_with_carry128_value a b Ha Hb) as [Hok Heq]. split; [done|].
  pose proof (value128_range _ Hok). apply (Z.mod_unique _ _ (Z.b2z (carry (add_with_carry128 a b)))); unfold add128; lia.
Qed.

(** A 256-bit number is two digits of 128 bits: the same steps one level up. *)
Lemma add_with_carry256_value a b : ok256 a -> ok256 b ->
  let r := add_with_carry256 a b in
  ok256 (cvalue r) /\ value256 (cvalue r) + 2 ^ 256 * Z.b2z (carry r) = value256 a + value256 b.
Proof.
  intros [Hah Hal] [Hbh Hbl]. unfold add_with_carry256. cbv zeta. cbn [cvalue carry].
  destruct (add_with_carry128_value _ _ Hal Hbl) as [Hl El]. set (l := add_with_carry128 (lo256 a) (lo256 b)) in *.
  destruct (add_with_carry128_value _ _ Hah Hbh) as [Ht Et]. set (t := add_with_carry128 (hi256 a) (hi256 b)) in *.
  destruct (add_with_carry128_value _ _ Ht (ok_word128 _ (b2z_word (carry l)))) as [Hh Eh]. rewrite value_word128 in Eh.
  set (h := add_with_carry128 (cvalue t) _) in *. split; [by split|].
  apply value128_range in Hah, Hal, Hbh, Hbl, Hl, Ht, Hh. unfold value256. cbn [hi256 lo256].
  rewrite b2z_or; [lia|]. destruct (carry l), (carry t), (carry h); cbn in *; lia.
Qed.

Lemma sub_with_carry256_value a b : ok256 a -> ok256 b ->
  let r := sub_with_carry256 a b in
  ok256 (cvalue r) /\ value256 (cvalue r) - 2 ^ 256 * Z.b2z (carry r) = value256 a - value256 b.
Proof.
  intros [Hah Hal] [Hbh Hbl]. unfold sub_with_carry256. cbv zeta. cbn [cvalue carry].
  destruct (sub_with_carry128_value _ _ Hal Hbl) as [Hl El]. set (l := sub_with_carry128 (lo256 a) (lo256 b)) in *.
  destruct (sub_with_carry128_value _ _ Hah Hbh) as [Ht Et]. set (t := sub_with_carry128 (hi256 a) (hi256 b)) in *.
  destruct (sub_with_carry128_value _ _ Ht (ok_word128 _ (b2z_word (carry l)))) as [Hh Eh]. rewrite value_word128 in Eh.
  set (h := sub_with_carry128 (cvalue t) _) in *. split; [by split|].
  apply value128_range in Hah, Hal, Hbh, Hbl, Hl, Ht, Hh. unfold value256. cbn [hi256 lo256].
  rewrite b2z_or; [lia|]. destruct (carry l), (carry t), (carry h); cbn in *; lia.
Qed.

(** ** Multiplication *)
Lemma umul_parts x y : in_u64 x -> in_u64 y -> ok128 (umul x y) /\ hi (umul x y) * 2 ^ 64 + lo (umul x y) = x * y.
Proof. intros Hx Hy. split; [apply ok_of_value128|exact (value_umul x y Hx Hy)]. Qed.

(** The portable product agrees with the one on the compiler's integers. *)
Lemma constexpr_umul_value x y : in_u64 x -> in_u64 y -> constexpr_umul x y = umul x y.
Proof.
  unfold in_u64. intros Hx Hy. unfold constexpr_umul. cbv zeta.
  change 0xffffffff with (Z.ones 32). rewrite !Z.land_ones, !Z.shiftr_div_pow2 by lia.
  pose proof (Z.div_mod x (2 ^ 32)) as Ex. pose proof (Z.div_mod y (2 ^ 32)) as Ey.
  pose proof (Z.mod_pos_bound x (2 ^ 32)) as Bx. pose proof (Z.mod_pos_bound y (2 ^ 32)) as By.
  assert (0 <= x / 2 ^ 32 < 2 ^ 32) as Cx by (split; [apply Z.div_pos; lia|apply Z.div_lt_upper_bound; lia]).
  assert (0 <= y / 2 ^ 32 < 2 ^ 32) as Cy by (split; [apply Z.div_pos; lia|apply Z.div_lt_upper_bound; lia]).
  set (xh := x / 2 ^ 32) in *. set (xl := x mod 2 ^ 32) in *. set (yh := y / 2 ^ 32) in *. set (yl := y mod 2 ^ 32) in *.
  assert (forall a b, 0 <= a < 2 ^ 32 -> 0 <= b < 2 ^ 32 -> 0 <= a * b <= (2 ^ 32 - 1) * (2 ^ 32 - 1)) as Hprod
    by (intros; apply product_le; lia).
  pose proof (Hprod xl yl) as P0. pose proof (Hprod xh yl) as P1. pose proof (Hprod xl yh) as P2. pose proof (Hprod xh yh) as P3.
  assert (x * y = xl * yl + 2 ^ 32 * (xh * yl + xl * yh) + 2 ^ 64 * (xh * yh)) as Exy.
  { rewrite Ex, Ey by lia. ring. }
  unfold umul. rewrite Exy. clear Hprod Exy.
  rewrite (u64_small (xl * yl)), (u64_small (xh * yl)), (u64_small (xl * yh)), (u64_small (xh * yh)) by (unfold in_u64; lia).
  set (t0 := xl * yl) in *. set (t1 := xh * yl) in *. set (t2 := xl * yh) in *. set (t3 := xh * yh) in *.
  pose proof (Z.div_mod t0 (2 ^ 32)) as E0. pose proof (Z.mod_pos_bound t0 (2 ^ 32)) as B0.
  set (a0 := t0 / 2 ^ 32) in *. set (b0 := t0 mod 2 ^ 32) in *.
  rewrite (u64_small (t1 + a0)) by (unfold in_u64; lia).
  pose proof (Z.div_mod (t1 + a0) (2 ^ 32)) as E1. pose proof (Z.mod_pos_bound (t1 + a0) (2 ^ 32)) as B1.
  set (a1 := (t1 + a0) / 2 ^ 32) in *. set (b1 := (t1 + a0) mod 2 ^ 32) in *.
  rewrite (u64_small (t2 + b1)) by (unfold in_u64; lia).
  pose proof (Z.div_mod (t2 + b1) (2 ^ 32)) as E2. pose proof (Z.mod_pos_bound (t2 + b1) (2 ^ 32)) as B2.
  set (a2 := (t2 + b1) / 2 ^ 32) in *. set (b2 := (t2 + b1) mod 2 ^ 32) in *.
  rewrite (u64_small (t3 + a2)), (u64_small (t3 + a2 + a1)) by (unfold in_u64; lia).
  rewrite Z.shiftl_mul_pow2 by lia.
  assert (u64 ((t2 + b1) * 2 ^ 32) = b2 * 2 ^ 32) as -> by (apply u64_eq_mod; [unfold in_u64; lia|rewrite E2 by lia; mod64]).
  rewrite lor_shifted by lia. unfold of_value128.
  assert (t0 + 2 ^ 32 * (t1 + t2) + 2 ^ 64 * t3 = (t3 + a2 + a1) * 2 ^ 64 + (b2 * 2 ^ 32 + b0)) as -> by lia.
  rewrite Z.div_add_l, Z.div_small, Z.add_0_r by lia. f_equal; symmetry.
  - apply u64_small. unfold in_u64. lia.
  - apply u64_eq_mod; [unfold in_u64; lia|]. rewrite Z.add_comm, Z.mod_add by lia. done.
Qed.

Lemma umul128_value x y : ok128 x -> ok128 y -> ok256 (umul128 x y) /\ value256 (umul128 x y) = value128 x * value128 y.
Proof.
  intros [Hxh Hxl] [Hyh Hyl]. unfold umul128. cbv zeta.
  destruct (umul_parts _ _ Hxl Hyl) as [O0 E0]. destruct (umul_parts _ _ Hxh Hyl) as [O1 E1].
  destruct (umul_parts _ _ Hxl Hyh) as [O2 E2]. destruct (umul_parts _ _ Hxh Hyh) as [O3 E3].
  assert (value128 x * value128 y = lo x * lo y + 2 ^ 64 * (hi x * lo y + lo x * hi y) + 2 ^ 128 * (hi x * hi y)) as ->
    by (unfold value128; ring).
  unfold in_u64 in *.
  pose proof (product_le (hi x) (lo y) (2 ^ 64 - 1) (2 ^ 64 - 1)) as P1. pose proof (product_le (lo x) (hi y) (2 ^ 64 - 1) (2 ^ 64 - 1)) as P2.
  pose proof (product_le (hi x) (hi y) (2 ^ 64 - 1) (2 ^ 64 - 1)) as P3.
  set (t0 := umul (lo x) (lo y)) in *. set (t1 := umul (hi x) (lo y)) in *. set (t2 := umul (lo x) (hi y)) in *. set (t3 := umul (hi x) (hi y)) in *.
  rewrite <- E0, <- E1, <- E2, <- E3 in *. clear E0 E1 E2 E3.
  destruct (add128_value t1 (word128 (hi t0)) O1 (ok_word128 _ (hi_word _ O0))) as [OU1 EU1]. set (u1 := add128 t1 _) in *.
  rewrite value_word128 in EU1. destruct O0 as [O0h O0l]. unfold in_u64 in *. unfold value128 in EU1 at 2.
  rewrite Z.mod_small in EU1 by lia.
  destruct (add128_value t2 (word128 (lo u1)) O2 (ok_word128 _ (lo_word _ OU1))) as [OU2 EU2]. set (u2 := add128 t2 _) in *.
  rewrite value_word128 in EU2. destruct OU1 as [OU1h OU1l]. unfold in_u64 in *. unfold value128 in EU2 at 2.
  rewrite Z.mod_small in EU2 by lia.
  destruct (add128_value t3 (word128 (hi u2)) O3 (ok_word128 _ (hi_word _ OU2))) as [OA EA]. set (a := add128 t3 _) in *.
  rewrite value_word128 in EA. destruct OU2 as [OU2h OU2l]. unfold in_u64 in *. unfold value128 in EA at 2.
  rewrite Z.mod_small in EA by lia.
  destruct (add128_value a (word128 (hi u1)) OA (ok_word128 _ OU1h)) as [OB EB]. set (b := add128 a _) in *.
  rewrite value_word128, EA, Z.mod_small in EB by lia.
  assert (or128 (shl128 u2 64) (word128 (lo t0)) = U128 (lo u2) (lo t0)) as ->.
  { unfold or128, shl128, word128. cbn [hi lo]. change (64 <? 64) with false. change (64 <? 128) with true. cbn [hi lo].
    rewrite Z.lor_0_r, Z.lor_0_l, Z.sub_diag, Z.shiftl_0_r. by rewrite u64_small. }
  split; [split; [done|by split]|]. unfold value256. cbn [hi256 lo256]. rewrite EB. unfold value128 in EU1, EU2 |- *. cbn [hi lo]. lia.
Qed.

Lemma mul128_value x y : ok128 x -> ok128 y ->
  ok128 (mul128 x y) /\ value128 (mul128 x y) = (value128 x * value128 y) mod 2 ^ 128.
Proof.
  intros [Hxh Hxl] [Hyh Hyl]. unfold mul128. cbv zeta. destruct (umul_parts _ _ Hxl Hyl) as [O0 E0].
  set (p := umul (lo x) (lo y)) in *.
  assert (ok128 (U128 (u64 (hi p + u64 (u64 (lo x * hi y) + u64 (hi x * lo y)))) (lo p))) as Hok by (split; [apply u64_range|apply O0]).
  split; [done|]. apply value128_range in Hok. unfold value128 at 1 in Hok. unfold value128 at 1. cbn [hi lo] in Hok |- *.
  assert (value128 x * value128 y = lo x * lo y + 2 ^ 64 * (hi x * lo y + lo x * hi y) + 2 ^ 128 * (hi x * hi y)) as ->
    by (unfold value128; ring). rewrite <- E0.
  assert (exists k, u64 (hi p + u64 (u64 (lo x * hi y) + u64 (hi x * lo y))) = hi p + lo x * hi y + hi x * lo y + 2 ^ 64 * k) as [k Ek].
  { generalize (hi x * lo y) (lo x * hi y) (hi p). intros t1 t2 h. change (2 ^ 64) with 18446744073709551616.
    destruct (u64_shift t1) as [k1 ->], (u64_shift t2) as [k2 ->].
    destruct (u64_shift (t2 + 18446744073709551616 * k2 + (t1 + 18446744073709551616 * k1))) as [k3 ->].
    match goal with |- context [u64 ?z] => destruct (u64_shift z) as [k4 ->] end. exists (k1 + k2 + k3 + k4). ring. }
  rewrite Ek in Hok |- *. apply (Z.mod_unique _ _ (hi x * hi y - k)); [by left|]. ring.
Qed.

Lemma mul256_value a b : ok256 a -> ok256 b ->
  ok256 (mul256 a b) /\ value256 (mul256 a b) = (value256 a * value256 b) mod 2 ^ 256.
Proof.
  intros [Hah Hal] [Hbh Hbl]. unfold mul256. cbv zeta.
  destruct (umul128_value _ _ Hal Hbl) as [[Oth Otl] Et]. set (t := umul128 (lo256 a) (lo256 b)) in *.
  destruct (mul128_value _ _ Hal Hbh) as [O1 E1]. destruct (mul128_value _ _ Hah Hbl) as [O2 E2].
  destruct (add128_value _ _ O1 O2) as [O3 E3]. destruct (add128_value _ _ O3 Oth) as [O4 E4].
  split; [by split|]. set (h := add128 (add128 _ _) _) in *.
  assert (value128 h = (value128 (lo256 a) * value128 (hi256 b) + value128 (hi256 a) * value128 (lo256 b) + value128 (hi256 t)) mod 2 ^ 128) as Eh.
  { rewrite E4, E3, E1, E2. rewrite <- Z.add_mod by lia. rewrite Zplus_mod_idemp_l. done. }
  apply value128_range in O4. apply value128_range in Otl. clearbody h t. clear - Et Eh O4 Otl.
  unfold value256 in Et |- *. cbn [hi256 lo256].
  revert Et Eh O4 Otl. generalize (value128 (hi256 t)) (value128 (lo256 t)) (value128 h) (value128 (hi256 a)) (value128 (lo256 a))
    (value128 (hi256 b)) (value128 (lo256 b)). clear. intros th tl h ah al bh bl Et Eh Hh Htl.
  pose proof (Z.div_mod (al * bh + ah * bl + th) (2 ^ 128)) as Hdm. rewrite <- Eh in Hdm.
  apply (Z.mod_unique _ _ ((al * bh + ah * bl + th) / 2 ^ 128 + ah * bh)); [lia|].
  set (k := (al * bh + ah * bl + th) / 2 ^ 128) in *.
  assert (h = al * bh + ah * bl + th - 2 ^ 128 * k) as -> by lia.
  transitivity (ah * bh * 2 ^ 256 + 2 ^ 128 * (al * bh + ah * bl) + al * bl); [ring|]. rewrite <- Et. ring.
Qed.

(** ** Division by a number of one word *)
Lemma as_words_value x : words_value (as_words x) = value256 x.
Proof. unfold as_words, value256, value128. cbn [words_value]. ring. Qed.
Lemma as_words_ok x : ok256 x -> words (as_words x).
Proof. intros [[? ?] [? ?]]. unfold as_words. by repeat (apply Forall_cons; split). Qed.

Lemma of_words_value l : words l -> length l = 4%nat -> ok256 (of_words l) /\ value256 (of_words l) = words_value l.
Proof.
  intros Hl Hlen. destruct l as [|a [|b [|c [|x [|]]]]]; try done.
  rewrite !Forall_cons in Hl. destruct Hl as (? & ? & ? & ? & _). split; [split; by split|].
  unfold of_words, value256, value128, word. cbn [nth hi256 lo256 hi lo words_value]. ring.
Qed.

Lemma one_word w : in_u64 w -> w <> 0 -> significant_words (as_words (word256 w)) = 1%nat.
Proof. intros Hw Hne. cbn. by rewrite (proj2 (Z.eqb_neq _ _) Hne). Qed.

Lemma div256_value x w : ok256 x -> in_u64 w -> w <> 0 ->
  ok256 (div256 x (word256 w)) /\ value256 (div256 x (word256 w)) = value256 x / w.
Proof.
  intros Hx Hw Hne. unfold div256.
  destruct (udivrem_words_by1 (as_words x) (as_words (word256 w)) (as_words_ok x Hx) (as_words_ok _ (ok_word256 w Hw)) eq_refl (one_word w Hw Hne))
    as (Hq & _ & Hqw & Hql). rewrite !as_words_value, value_word256 in Hq. rewrite <- Hq. by apply of_words_value.
Qed.

(** ** The theorems *)

(** For every divisor with its top bit set, the table and the three wrapping steps of
    [reciprocal_2by1] compute the floor of (2^128 - 1) / d, less 2^64. *)
Theorem reciprocal_is_floor (d : Z) : 2 ^ 63 <= d < 2 ^ 64 -> reciprocal_2by1 d = (2 ^ 128 - 1) / d - 2 ^ 64.
Proof. apply reciprocal_2by1_value. Qed.

Lemma reciprocal_is_floor_witness : 2 ^ 63 <= 2 ^ 63 + 12345 < 2 ^ 64 /\
  reciprocal_2by1 (2 ^ 63 + 12345) = (2 ^ 128 - 1) / (2 ^ 63 + 12345) - 2 ^ 64.
Proof. split; [split; vm_compute; [discriminate|reflexivity]|]. apply reciprocal_is_floor. split; vm_compute; [discriminate|reflexivity]. Defined.

(** Long division by a number of one word, as the library does it - normalizing,
    dividing from the top word down with the reciprocal, and shifting the remainder back -
    gives the quotient and the remainder of the values, for numerators of any length. *)
Theorem udivrem_by_word (u v : list Z) :
  Forall in_u64 u -> Forall in_u64 v -> length u = length v -> significant_words v = 1%nat ->
  words_value (quot (udivrem_words u v)) = words_value u / words_value v /\
  words_value (rem (udivrem_words u v)) = words_value u mod words_value v.
Proof. intros Hu Hv Hlen Hn. by destruct (udivrem_words_by1 u v Hu Hv Hlen Hn) as (? & ? & _). Qed.

Lemma udivrem_by_word_witness :
  words_value (quot (udivrem_words [1; 2; 3; 4] [1000; 0; 0; 0])) = words_value [1; 2; 3; 4] / 1000.
Proof.
  refine (proj1 (udivrem_by_word [1; 2; 3; 4] [1000; 0; 0; 0] _ _ eq_refl eq_refl)).
  all: repeat (apply Forall_cons; split; [split; [vm_compute; discriminate|reflexivity]|]); apply Forall_nil_2.
Defined.

(** Sums, differences and products of 256-bit numbers, computed by words with carries
    and partial products, are those of the values modulo 2^256; and the portable product
    of two words is the one on the compiler's integers. *)
Theorem wide_arithmetic (a b : uint256) (x y : Z) :
  ok256 a -> ok256 b -> in_u64 x -> in_u64 y ->
  value256 (add256 a b) = (value256 a + value256 b) mod 2 ^ 256 /\
  value256 (sub256 a b) = (value256 a - value256 b) mod 2 ^ 256 /\
  value256 (mul256 a b) = (value256 a * value256 b) mod 2 ^ 256 /\
  constexpr_umul x y = umul x y /\ value128 (umul x y) = x * y.
Proof.
  intros Ha Hb Hx Hy. destruct (add_with_carry256_value a b Ha Hb) as [Oa Ea]. destruct (sub_with_carry256_value a b Ha Hb) as [Os Es].
  apply value256_range in Oa, Os. split; [|split; [|split; [|split]]].
  - apply (Z.mod_unique _ _ (Z.b2z (carry (add_with_carry256 a b)))); unfold add256; lia.
  - apply (Z.mod_unique _ _ (- Z.b2z (carry (sub_with_carry256 a b)))); unfold sub256; lia.
  - by apply mul256_value.
  - by apply constexpr_umul_value.
  - by apply value_umul.
Qed.

Definition ex_wide : uint256 := U256 (U128 5 (2 ^ 64 - 1)) (U128 (2 ^ 64 - 1) 7).
Lemma ex_wide_ok : ok256 ex_wide.
Proof. repeat split; vm_compute; done. Qed.

Lemma wide_arithmetic_witness :
  value256 (mul256 ex_wide ex_wide) = (value256 ex_wide * value256 ex_wide) mod 2 ^ 256 /\ constexpr_umul (2 ^ 64 - 1) 3 = umul (2 ^ 64 - 1) 3.
Proof.
  destruct (wide_arithmetic ex_wide ex_wide (2 ^ 64 - 1) 3 ex_wide_ok ex_wide_ok) as (_ & _ & Hm & Hc & _).
  - split; vm_compute; [discriminate|reflexivity].
  - split; vm_compute; [discriminate|reflexivity].
  - split; [exact Hm|exact Hc].
Defined.

(** ** Where the contract uses them *)

(** The fixed-point multiplier of [apply_decay_multiplier], in the library's numbers. *)
Definition decay_multiplier_words (decay_increase_yearly_pct seconds_of_decay : Z) : uint256 :=
  let decay_precision := word256 1000000000000000000 in
  let yearly_rate_scaled := div256 (mul256 (word256 decay_increase_yearly_pct) decay_precision) (word256 100) in
  let increment_fp := div256 (mul256 yearly_rate_scaled (word256 seconds_of_decay)) (word256 31536000) in
  add256 decay_precision increment_fp.

(** C36: The numbers the contract computes with the library are those of its models: the
    multiplier of the vote decay, and the votes of the EVM in units of 1e14. *)
Theorem models_of_wide_numbers (pct seconds : Z) (x : uint256) :
  in_u64 pct -> in_u64 seconds -> ok256 x ->
  value256 (decay_multiplier_words pct seconds) =
    decay_multiplier_fp pct seconds /\
  lo (lo256 (div256 x (word256 (10 ^ 14)))) = normalized_vote (value256 x).
Proof.
  intros Hp Hs Hx.
  assert (in_u64 1000000000000000000 /\ in_u64 100 /\ in_u64 31536000 /\ in_u64 (10 ^ 14)) as (W1 & W2 & W3 & W4) by (unfold in_u64; lia).
  split.
  - unfold decay_multiplier_words, decay_multiplier_fp, u256. cbv zeta.
    destruct (mul256_value _ _ (ok_word256 pct Hp) (ok_word256 _ W1)) as [O1 E1]. rewrite !value_word256 in E1.
    destruct (div256_value _ 100 O1 W2 ltac:(lia)) as [O2 E2]. rewrite E1 in E2.
    destruct (mul256_value _ _ O2 (ok_word256 seconds Hs)) as [O3 E3]. rewrite value_word256, E2 in E3.
    destruct (div256_value _ 31536000 O3 W3 ltac:(lia)) as [O4 E4]. rewrite E3 in E4.
    destruct (add_with_carry256_value _ _ (ok_word256 _ W1) O4) as [O5 E5]. rewrite value_word256, E4 in E5.
    apply value256_range in O5. unfold uwrap in *.
    match type of E5 with _ + _ * Z.b2z ?c = _ => apply (Z.mod_unique _ _ (Z.b2z c)) end; unfold add256; lia.
  - destruct (div256_value x (10 ^ 14) Hx W4 ltac:(lia)) as [[Oh [Olh Oll]] E]. unfold normalized_vote. rewrite <- E.
    symmetry. apply u64_eq_mod; [done|]. unfold value256, value128. mod64.
Qed.

Lemma models_of_wide_numbers_witness :
  value256 (decay_multiplier_words 50 31536000) = 1500000000000000000 /\
  lo (lo256 (div256 ex_wide (word256 (10 ^ 14)))) = normalized_vote (value256 ex_wide).
Proof.
  destruct (models_of_wide_numbers 50 31536000 ex_wide) as [Hd Hn].
  - split; vm_compute; [discriminate|reflexivity].
  - split; vm_compute; [discriminate|reflexivity].
  - exact ex_wide_ok.
  - split; [rewrite Hd; vm_compute; reflexivity|exact Hn].
Defined.
