(* ===== verification/IntxBy2.v ===== *)
(** * Division of three words by two, and by divisors of two words

    The reciprocal of a divisor of two words is that of its upper word, lowered by what the
    lower word adds; with it three words are divided by two with at most two corrections. *)
From S2P Require Import Prelude.
From S2P Require Import Intx.
From S2P Require Import IntxDiv.
From S2P Require Import IntxArith.
From stdpp Require Import base list.
Open Scope Z_scope.

(** ** 128-bit numbers that stand for a value modulo 2^128 *)
Definition stands_for (x : uint128) (z : Z) : Prop := ok128 x /\ exists k, value128 x = z + 2 ^ 128 * k.

Lemma stands_word w : in_u64 w -> stands_for (word128 w) w.
Proof. intros Hw. split; [by apply ok_word128|]. exists 0. rewrite value_word128. lia. Qed.
Lemma stands_value x : ok128 x -> stands_for x (value128 x).
Proof. intros Hx. split; [done|]. exists 0. lia. Qed.
Lemma stands_add a b x y : stands_for a x -> stands_for b y -> stands_for (add128 a b) (x + y).
Proof.
  intros [Ha [k Hk]] [Hb [l Hl]]. destruct (add_with_carry128_value a b Ha Hb) as [Hok Heq]. split; [done|].
  exists (k + l - Z.b2z (carry (add_with_carry128 a b))). unfold add128. lia.
Qed.
Lemma stands_sub a b x y : stands_for a x -> stands_for b y -> stands_for (sub128 a b) (x - y).
Proof.
  intros [Ha [k Hk]] [Hb [l Hl]]. destruct (sub_with_carry128_value a b Ha Hb) as [Hok Heq]. split; [done|].
  exists (k - l + Z.b2z (carry (sub_with_carry128 a b))). unfold sub128. lia.
Qed.
Lemma stands_mod x z z' : stands_for x z -> (exists k, z = z' + 2 ^ 128 * k) -> stands_for x z'.
Proof. intros [Hx [k Hk]] [l ->]. split; [done|]. exists (l + k). lia. Qed.
Lemma stands_small x z : stands_for x z -> 0 <= z < 2 ^ 128 -> value128 x = z.
Proof. intros [Hx [k Hk]] Hz. apply value128_range in Hx. assert (k = 0) as -> by lia. lia. Qed.

Lemma value128_inj x y : ok128 x -> ok128 y -> value128 x = value128 y -> x = y.
Proof.
  destruct x as [xh xl], y as [yh yl]. intros [Hxh Hxl] [Hyh Hyl]. unfold value128, in_u64 in *. cbn [hi lo] in *. intros H.
  assert (xh = yh) as -> by lia. f_equal. lia.
Qed.
Lemma lt128_value x y : ok128 x -> ok128 y -> lt128 x y = (value128 x <? value128 y).
Proof.
  intros [Hxh Hxl] [Hyh Hyl]. unfold lt128, value128, in_u64 in *.
  destruct (Z.ltb_spec (hi x) (hi y)); cbn [orb]; [symmetry; apply Z.ltb_lt; lia|].
  destruct (Z.eqb_spec (hi x) (hi y)) as [->|]; cbn [andb]; [|symmetry; apply Z.ltb_ge; lia].
  destruct (Z.ltb_spec (lo x) (lo y)); symmetry; [apply Z.ltb_lt|apply Z.ltb_ge]; lia.
Qed.
Lemma hi_value x : ok128 x -> hi x = value128 x / 2 ^ 64.
Proof. intros [_ Hl]. unfold value128, in_u64 in *. apply (Z.div_unique _ _ _ (lo x)); lia. Qed.

(** ** The reciprocal of two words *)
(** A word decreased where it cannot be 0. *)
Lemma u64_pred v : 0 < v < 2 ^ 64 -> u64 (v - 1) = v - 1.
Proof. intros Hv. apply u64_small. unfold in_u64. lia. Qed.

Section reciprocal_of_two.
Context (d1 d0 : Z) (Hd1 : 2 ^ 63 <= d1 < 2 ^ 64) (Hd0 : in_u64 d0).
Let D := d1 * 2 ^ 64 + d0.

(** What the first part computes: the most that, times the upper word, leaves room for the
    lower one. *)
Definition fits_upper (v p : Z) : Prop :=
  0 <= v < 2 ^ 64 /\ 0 <= p < 2 ^ 64 /\ 2 ^ 64 - d1 <= p /\ (2 ^ 64 + v) * d1 + d0 = 2 ^ 128 - 2 ^ 64 + p.

Definition upper_part : Z * Z :=
  let v := reciprocal_2by1 d1 in
  let p := u64 (u64 (d1 * v) + d0) in
  if p <? d0 then
    let v := u64 (v - 1) in
    let '(v, p) := if d1 <=? p then (u64 (v - 1), u64 (p - d1)) else (v, p) in
    (v, u64 (p - d1))
  else (v, p).

Lemma floor_error : let W := (2 ^ 128 - 1) / d1 in 1 <= 2 ^ 128 - W * d1 <= d1 /\ 2 ^ 64 <= W < 2 ^ 65.
Proof. apply (W_error d1 Hd1 0 0); unfold in_u64; lia. Qed.

Lemma upper_part_fits : fits_upper upper_part.1 upper_part.2.
Proof.
  unfold upper_part. rewrite (reciprocal_2by1_value d1 Hd1).
  destruct floor_error as [He HW]. set (W := (2 ^ 128 - 1) / d1) in *. unfold in_u64 in Hd0. cbv zeta.
  set (e := 2 ^ 128 - W * d1) in *.
  assert (u64 (d1 * (W - 2 ^ 64)) = 2 ^ 64 - e) as -> by (apply u64_eq_mod; [unfold in_u64; lia|subst e; mod64]).
  destruct (Z.lt_ge_cases d0 e) as [Hlt|Hge].
  - rewrite u64_small by (unfold in_u64; lia). rewrite (proj2 (Z.ltb_ge _ _)) by lia. unfold fits_upper. cbn [fst snd]. lia.
  - assert (u64 (2 ^ 64 - e + d0) = d0 - e) as -> by (apply u64_eq_mod; [unfold in_u64; lia|mod64]).
    rewrite (proj2 (Z.ltb_lt _ _)) by lia.
    assert (2 ^ 64 < W) as HW1.
    { destruct (Z.eq_dec W (2 ^ 64)) as [HWe|]; [|lia]. subst e. rewrite HWe in *. lia. }
    rewrite (u64_pred (W - 2 ^ 64)) by lia. destruct (Z.leb_spec d1 (d0 - e)) as [Hle|Hgt].
    + assert (2 ^ 64 + 1 < W) as HW2.
      { destruct (Z.eq_dec W (2 ^ 64 + 1)) as [HWe|]; [|lia]. subst e. rewrite HWe in *. lia. }
      rewrite u64_pred, (u64_small (d0 - e - d1)) by (unfold in_u64; lia). cbn [fst snd].
      assert (u64 (d0 - e - d1 - d1) = 2 ^ 64 + d0 - e - 2 * d1) as -> by (apply u64_eq_mod; [unfold in_u64; lia|mod64]).
      unfold fits_upper. lia.
    + cbn [fst snd]. assert (u64 (d0 - e - d1) = 2 ^ 64 + d0 - e - d1) as -> by (apply u64_eq_mod; [unfold in_u64; lia|mod64]).
      unfold fits_upper. lia.
Qed.

Lemma reciprocal_is v : 0 <= v -> (2 ^ 64 + v) * D < 2 ^ 192 <= (2 ^ 64 + v + 1) * D -> v = (2 ^ 192 - 1) / D - 2 ^ 64.
Proof.
  intros Hv Hb. assert ((2 ^ 192 - 1) / D = 2 ^ 64 + v) as ->; [|lia].
  symmetry. apply (Z.div_unique _ _ _ (2 ^ 192 - 1 - (2 ^ 64 + v) * D)); lia.
Qed.

Lemma reciprocal_3by2_value : reciprocal_3by2 (U128 d1 d0) = (2 ^ 192 - 1) / D - 2 ^ 64.
Proof.
  pose proof upper_part_fits as Hfit. unfold in_u64 in Hd0.
  assert (reciprocal_3by2 (U128 d1 d0) = let '(v, p) := upper_part in
    let t := umul v d0 in let p := u64 (p + hi t) in
    if p <? hi t then let v := u64 (v - 1) in if negb (lt128 (U128 p (lo t)) (U128 d1 d0)) then u64 (v - 1) else v else v) as ->.
  { unfold reciprocal_3by2, upper_part. cbn [hi lo]. cbv zeta. by repeat case_match. }
  destruct upper_part as [v p]. cbn [fst snd] in Hfit. destruct Hfit as (Hv & Hp & Hmax & Heq). cbv zeta.
  destruct (umul_parts v d0) as [[Hh Hl] Hprod]; [unfold in_u64; lia|done|]. unfold in_u64 in Hh, Hl.
  set (th := hi (umul v d0)) in *. set (tl := lo (umul v d0)) in *. clearbody th tl.
  assert ((2 ^ 64 + v) * D = 2 ^ 192 - 2 ^ 128 + (p + th) * 2 ^ 64 + tl) as HD.
  { unfold D. transitivity (2 ^ 64 * ((2 ^ 64 + v) * d1 + d0) + v * d0); [ring|]. rewrite Heq, <- Hprod. ring. }
  assert (2 ^ 63 * 2 ^ 64 <= D < 2 ^ 128) as HDr by (unfold D; lia).
  destruct (Z.lt_ge_cases (p + th) (2 ^ 64)) as [Hlt|Hge].
  - rewrite u64_small by (unfold in_u64; lia). rewrite (proj2 (Z.ltb_ge _ _)) by lia. apply reciprocal_is; [lia|].
    split; [lia|]. assert (2 ^ 128 <= (2 ^ 64 + v + 1) * d1 + d0) by lia.
    assert ((2 ^ 64 + v + 1) * D = 2 ^ 64 * ((2 ^ 64 + v + 1) * d1 + d0) + (v + 1) * d0) as -> by (unfold D; ring).
    assert (0 <= (v + 1) * d0) by (apply Z.mul_nonneg_nonneg; lia). lia.
  - assert (u64 (p + th) = p + th - 2 ^ 64) as -> by (apply u64_eq_mod; [unfold in_u64; lia|mod64]).
    rewrite (proj2 (Z.ltb_lt _ _)) by lia.
    assert (0 < v) as Hv0 by (destruct (Z.eq_dec v 0) as [->|]; [lia|lia]). rewrite (u64_pred v) by lia.
    rewrite lt128_value by (split; cbn [hi lo]; unfold in_u64; lia). unfold value128 at 1 2. cbn [hi lo]. fold D.
    destruct (Z.ltb_spec ((p + th - 2 ^ 64) * 2 ^ 64 + tl) D) as [HE|HE]; cbn [negb].
    + apply reciprocal_is; lia.
    + assert (1 < v) by (destruct (Z.eq_dec v 1) as [->|]; [lia|lia]). rewrite (u64_pred (v - 1)) by lia. apply reciprocal_is; lia.
Qed.
End reciprocal_of_two.

(** ** Three words by two *)
Section three_by_two.
Context (d1 d0 : Z) (Hd1 : 2 ^ 63 <= d1 < 2 ^ 64) (Hd0 : in_u64 d0).
Let D := d1 * 2 ^ 64 + d0.
Context (u2 u1 u0 : Z) (Hu2 : in_u64 u2) (Hu1 : in_u64 u1) (Hu0 : in_u64 u0) (Hu : u2 * 2 ^ 64 + u1 < D).

Let W := (2 ^ 192 - 1) / D.
Let P := W * u2 + u1.
Let q0 := P mod 2 ^ 64.
Let Q := P / 2 ^ 64.
Let U := u2 * 2 ^ 128 + u1 * 2 ^ 64 + u0.
Let R := U - (Q + 1) * D.
Let e := 2 ^ 192 - W * D.

Lemma D_range : 2 ^ 127 <= D < 2 ^ 128.
Proof. unfold D, in_u64 in *. lia. Qed.
Lemma W3_error : 1 <= e <= D /\ 2 ^ 64 <= W < 2 ^ 65.
Proof.
  pose proof D_range as HD. pose proof (Z.div_mod (2 ^ 192 - 1) D) as Hdm. pose proof (Z.mod_pos_bound (2 ^ 192 - 1) D) as Hm.
  fold W in Hdm. unfold e. rewrite (Z.mul_comm D W) in Hdm. split; [lia|]. subst W.
  split; [apply Z.div_le_lower_bound; lia|apply Z.div_lt_upper_bound; lia].
Qed.

Lemma P3_range : 0 <= P < 2 ^ 128.
Proof.
  destruct W3_error as [He HW]. pose proof D_range as HD. unfold P, in_u64 in *. split; [nia|].
  assert (W * (u2 * 2 ^ 64 + u1) <= W * (D - 1)) as H by (apply Z.mul_le_mono_nonneg_l; lia).
  assert (u1 * 2 ^ 64 <= u1 * W) by (apply Z.mul_le_mono_nonneg_l; lia). unfold e in He. lia.
Qed.

Lemma R3_identity : 2 ^ 64 * R = e * u2 + (2 ^ 128 - D) * u1 + 2 ^ 64 * u0 + q0 * D - 2 ^ 64 * D.
Proof.
  pose proof (Z.div_mod P (2 ^ 64)) as Hdm. fold q0 Q in Hdm. unfold R, U, e.
  assert (q0 = W * u2 + u1 - 2 ^ 64 * Q) as -> by (unfold P in Hdm; lia). ring.
Qed.

(** The sum of the first three terms, when the divisor is not among the largest. *)
Lemma head_bound : 2 ^ 64 <= 2 ^ 128 - D ->
  2 ^ 64 * (e * u2 + (2 ^ 128 - D) * u1 + 2 ^ 64 * u0 - 2 ^ 64 * D) < (2 ^ 128 - D) * (2 ^ 128 - D).
Proof.
  intros HM. destruct W3_error as [He _]. pose proof D_range as HD. unfold in_u64 in *. set (M := 2 ^ 128 - D) in *.
  assert (e * u2 <= D * u2) as H1 by (apply Z.mul_le_mono_nonneg_r; lia).
  assert (D * (u2 * 2 ^ 64 + u1) <= D * (D - 1)) as H2 by (apply Z.mul_le_mono_nonneg_l; lia).
  assert ((2 ^ 64 * M - D) * u1 <= (2 ^ 64 * M - D) * (2 ^ 64 - 1)) as H3 by (apply Z.mul_le_mono_nonneg_l; lia).
  assert (M * M = 2 ^ 256 - 2 ^ 129 * D + D * D) as HMM by (unfold M; ring).
  assert (2 ^ 64 * (2 ^ 64 * u0) <= 2 ^ 128 * (2 ^ 64 - 1)) as H4 by lia.
  rewrite HMM. subst M. lia.
Qed.

(** For the largest divisors the reciprocal is 2^64. *)
Lemma large_divisor : 2 ^ 128 - D < 2 ^ 64 -> e = 2 ^ 64 * (2 ^ 128 - D).
Proof.
  intros HM. pose proof D_range as HD. unfold e. assert (W = 2 ^ 64) as ->; [|lia].
  symmetry. apply (Z.div_unique _ _ _ (2 ^ 192 - 1 - 2 ^ 64 * D)); lia.
Qed.

Lemma R3_bounds : - D <= R /\ (q0 - 2 ^ 64) * 2 ^ 64 < R /\ (q0 * 2 ^ 64 <= R -> R < 2 ^ 128 - D) /\ 0 <= q0 < 2 ^ 64.
Proof.
  destruct W3_error as [He HW]. pose proof R3_identity as Hr. pose proof D_range as HD.
  assert (0 <= q0 < 2 ^ 64) as Hq0 by (apply Z.mod_pos_bound; lia). unfold in_u64 in *.
  assert (0 <= e * u2) as H1 by (apply Z.mul_nonneg_nonneg; lia).
  assert (0 <= (2 ^ 128 - D) * u1) as H2 by (apply Z.mul_nonneg_nonneg; lia).
  assert (0 <= q0 * D) as H3 by (apply Z.mul_nonneg_nonneg; lia).
  split; [lia|]. split; [|split; [|done]].
  - assert ((2 ^ 64 - q0) * D < (2 ^ 64 - q0) * 2 ^ 128) by (apply Z.mul_lt_mono_pos_l; lia). lia.
  - intros Hle. destruct (Z.lt_ge_cases R (2 ^ 128 - D)) as [|Hge]; [done|]. exfalso.
    assert (q0 * 2 ^ 64 * D <= R * D) as H4 by (apply Z.mul_le_mono_nonneg_r; lia).
    set (M := 2 ^ 128 - D) in *. assert (M * M <= R * M) as H5 by (apply Z.mul_le_mono_nonneg_r; lia).
    assert (R * M = 2 ^ 128 * R - R * D) as H6 by (unfold M; ring).
    destruct (Z.le_gt_cases (2 ^ 64) M) as [HM|HM].
    + pose proof (head_bound HM) as Hb. fold M in Hb. lia.
    + pose proof (large_divisor HM) as Hl. fold M in Hl. rewrite Hl in Hr.
      assert (M * (u2 * 2 ^ 64 + u1) <= M * (D - 1)) as H7 by (apply Z.mul_le_mono_nonneg_l; lia).
      assert (M * D <= (2 ^ 64 - 1) * D) as H8 by (apply Z.mul_le_mono_nonneg_r; lia). lia.
Qed.

Let d := U128 d1 d0.
Lemma ok_d : ok128 d.
Proof. split; [unfold in_u64; cbn; lia|done]. Qed.
Lemma value_d : value128 d = D.
Proof. done. Qed.

(** The remainder before the corrections. *)
Lemma remainder_stands t : ok128 t -> value128 t = d0 * Q ->
  stands_for (sub128 (sub128 (U128 (u64 (u1 - u64 (Q * d1))) u0) t) d) R.
Proof.
  intros Ht Hv. rewrite u64_sub_r. destruct (u64_shift (u1 - Q * d1)) as [k Hk]. change 18446744073709551616 with (2 ^ 64) in Hk.
  eapply stands_mod; [apply stands_sub; [apply stands_sub; apply stands_value|apply stands_value, ok_d]|].
  - split; [apply u64_range|done].
  - done.
  - rewrite Hv, value_d. unfold value128. cbn [hi lo]. rewrite Hk. exists (k - u2). unfold R, U, D. ring.
Qed.

(** A remainder below the divisor makes the quotient the true one. *)
Lemma quotient_of q r k : 0 <= R + k * D < D -> q = u64 (Q + 1 - k) -> ok128 r -> value128 r = R + k * D ->
  DivResult (word128 q) r = DivResult (word128 (U / D)) (of_value128 (U mod D)).
Proof.
  intros Hr -> Hok Hv. pose proof D_range as HD. unfold in_u64 in *.
  assert (U = D * (Q + 1 - k) + (R + k * D)) as Heq by (unfold R; ring).
  assert (U / D = Q + 1 - k) as Hdiv by (symmetry; apply (Z.div_unique _ _ _ (R + k * D)); lia).
  assert (U mod D = R + k * D) as Hmod by (symmetry; apply (Z.mod_unique _ _ (Q + 1 - k)); lia).
  f_equal.
  - f_equal. rewrite Hdiv. apply u64_small. unfold in_u64. rewrite <- Hdiv.
    split; [apply Z.div_pos; unfold U; lia|apply Z.div_lt_upper_bound; unfold U; lia].
  - apply value128_inj; [done|apply ok_of_value128|]. rewrite Hv, Hmod, of_value128_value; lia.
Qed.

Lemma udivrem_3by2_value :
  udivrem_3by2 u2 u1 u0 d (reciprocal_3by2 d) = DivResult (word128 (U / D)) (of_value128 (U mod D)).
Proof.
  destruct W3_error as [_ HW]. pose proof R3_bounds as (HR1 & HR2 & HR3 & Hq0). pose proof P3_range as HP. pose proof D_range as HD.
  assert (reciprocal_3by2 d = W - 2 ^ 64) as Hrec by by apply reciprocal_3by2_value. rewrite Hrec. unfold udivrem_3by2. cbv zeta.
  assert (value128 (umul (W - 2 ^ 64) u2) + value128 (U128 u2 u1) = P) as HPv.
  { rewrite value_umul by (unfold in_u64; lia || done). unfold value128, P. cbn [hi lo]. ring. }
  rewrite fast_add_value; rewrite HPv; [|done]. rewrite hi_of_value128 by done. fold Q. change (lo (of_value128 P)) with q0. assert (in_u64 Q) as HQ by (split; [apply Z.div_pos; lia|apply Z.div_lt_upper_bound; lia]).
  destruct (umul_parts d0 Q Hd0 HQ) as [Hto Htv].
  pose proof (remainder_stands (umul d0 Q) Hto (value_umul d0 Q Hd0 HQ)) as Hr.
  change (hi d) with d1. change (lo d) with d0.
  set (r := sub128 (sub128 (U128 (u64 (u1 - u64 (Q * d1))) u0) (umul d0 Q)) d) in *. clearbody r.
  assert (forall q x k, 0 <= R + k * D < D -> q = u64 (Q + 1 - k) -> stands_for x (R + k * D) ->
    DivResult (word128 q) x = DivResult (word128 (U / D)) (of_value128 (U mod D))) as Hfinal.
  { intros q x k Hb Hq Hx. apply (quotient_of q x k Hb Hq); [by apply Hx|]. apply stands_small; [done|]. split; [lia|]. lia. }
  assert (forall x z, stands_for x z -> 0 <= z < 2 ^ 128 -> lt128 x d = (z <? D)) as Hlt.
  { intros x z Hx Hz. rewrite lt128_value, value_d by (apply Hx || apply ok_d). by rewrite (stands_small x z). }
  destruct (Z.lt_ge_cases R 0) as [Hneg|Hpos].
  - assert (value128 r = R + 2 ^ 128) as Hv.
    { apply stands_small; [|lia]. eapply stands_mod; [done|]. exists (-1). lia. }
    rewrite (hi_value r) by apply Hr. rewrite Hv. rewrite (proj2 (Z.leb_le _ _)) by (apply Z.div_le_lower_bound; lia).
    assert (stands_for (add128 r d) (R + 1 * D)) as Hrd.
    { eapply stands_mod; [apply stands_add; [exact Hr|apply stands_value, ok_d]|]. exists 0. rewrite value_d. lia. }
    rewrite (Hlt _ _ Hrd) by lia. rewrite (proj2 (Z.ltb_lt _ _)) by lia. cbn [negb]. apply (Hfinal _ _ 1); [lia| |done].
    apply u64_eq_mod; [apply u64_range|]. mod64.
  - assert (value128 r = R) as Hv.
    { apply stands_small; [done|]. split; [done|]. unfold in_u64 in *. destruct (Z.lt_ge_cases R (q0 * 2 ^ 64)); lia. }
    rewrite (hi_value r) by apply Hr. rewrite Hv. destruct (Z.leb_spec q0 (R / 2 ^ 64)) as [Hle|Hgt].
    + assert (q0 * 2 ^ 64 <= R) as HqR by (pose proof (Z.mul_div_le R (2 ^ 64)); lia). specialize (HR3 HqR).
      assert (stands_for (add128 r d) (R + D)) as Hrd by (apply stands_add; [exact Hr|apply stands_value, ok_d]).
      rewrite (Hlt _ _ Hrd) by lia. rewrite (proj2 (Z.ltb_ge _ _)) by lia. cbn [negb].
      assert (stands_for (sub128 (add128 r d) d) R) as Hrr.
      { eapply stands_mod; [apply stands_sub; [exact Hrd|apply stands_value, ok_d]|]. exists 0. rewrite value_d. lia. }
      destruct (Z.lt_ge_cases R D) as [HRD|HRD].
      * apply (Hfinal _ _ 0); [lia| |by rewrite Z.mul_0_l, Z.add_0_r]. apply u64_eq_mod; [apply u64_range|]. mod64.
      * exfalso. lia.
    + rewrite (Hlt _ _ Hr) by (destruct Hr as [Hok _]; apply value128_range in Hok; lia).
      destruct (Z.ltb_spec R D) as [HRD|HRD]; cbn [negb].
      * apply (Hfinal _ _ 0); [lia| |by rewrite Z.mul_0_l, Z.add_0_r]. apply u64_eq_mod; [apply u64_range|]. mod64.
      * apply (Hfinal _ _ (-1)); [destruct Hr as [Hok _]; apply value128_range in Hok; lia| |].
        -- apply u64_eq_mod; [apply u64_range|]. mod64.
        -- eapply stands_mod; [apply stands_sub; [exact Hr|apply stands_value, ok_d]|]. exists 0. rewrite value_d. lia.
Qed.
End three_by_two.

(** ** Parts of arrays of words *)
Definition radix (n : nat) : Z := 2 ^ (64 * Z.of_nat n).
Lemma radix_S n : radix (S n) = 2 ^ 64 * radix n.
Proof. unfold radix. rewrite <- Z.pow_add_r by lia. f_equal. lia. Qed.
Lemma radix_pos n : 0 < radix n.
Proof. unfold radix. lia. Qed.
Lemma radix_add n m : radix (n + m) = radix n * radix m.
Proof. unfold radix. rewrite <- Z.pow_add_r by lia. f_equal. lia. Qed.

(** The number the [n] words from index [a] make. *)
Fixpoint seg (l : list Z) (a n : nat) : Z :=
  match n with O => 0 | S n' => word l a + 2 ^ 64 * seg l (S a) n' end.

Lemma seg_app l n m : forall a, seg l a (n + m) = seg l a n + radix n * seg l (a + n) m.
Proof.
  induction n as [|n IH]; intros a; cbn [seg plus].
  - rewrite Nat.add_0_r. unfold radix. change (2 ^ (64 * Z.of_nat 0)) with 1. ring.
  - rewrite IH, radix_S. replace (S a + n)%nat with (a + S n)%nat by lia. ring.
Qed.
Lemma seg_last l a n : seg l a (S n) = seg l a n + radix n * word l (a + n).
Proof. rewrite <- Nat.add_1_r, seg_app. cbn [seg]. ring. Qed.
Lemma seg_ext l l' n : forall a, (forall i, (a <= i < a + n)%nat -> word l i = word l' i) -> seg l a n = seg l' a n.
Proof. induction n as [|n IH]; intros a H; cbn [seg]; [done|]. rewrite H, IH by lia || (intros; apply H; lia). done. Qed.
Lemma seg_range l n : words l -> forall a, 0 <= seg l a n < radix n.
Proof.
  intros Hl. induction n as [|n IH]; intros a; cbn [seg]; [by unfold radix|]. rewrite radix_S.
  pose proof (words_word l a Hl) as Hw. unfold in_u64 in Hw. specialize (IH (S a)). lia.
Qed.
Lemma seg_zero l n : forall a, (forall i, (a <= i < a + n)%nat -> word l i = 0) -> seg l a n = 0.
Proof. induction n as [|n IH]; intros a H; cbn [seg]; [done|]. rewrite H, IH by lia || (intros; apply H; lia). done. Qed.

Lemma word_insert l i j x : word (<[i := x]> l) j = if bool_decide (i = j /\ (i < length l)%nat) then x else word l j.
Proof.
  unfold word. rewrite !nth_lookup. case_bool_decide as H.
  - destruct H as [-> H]. by rewrite list_lookup_insert_eq.
  - destruct (decide (i = j)) as [->|Hne]; [|by rewrite list_lookup_insert_ne].
    rewrite list_insert_ge by lia. done.
Qed.
Lemma word_insert_eq l i x : (i < length l)%nat -> word (<[i := x]> l) i = x.
Proof. intros H. rewrite word_insert. by rewrite bool_decide_true. Qed.
Lemma word_insert_ne l i j x : i <> j -> word (<[i := x]> l) j = word l j.
Proof. intros H. rewrite word_insert. rewrite bool_decide_false; [done|naive_solver]. Qed.
Lemma seg_insert l i x a n : (i < a \/ a + n <= i)%nat -> seg (<[i := x]> l) a n = seg l a n.
Proof. intros H. apply seg_ext. intros j Hj. apply word_insert_ne. lia. Qed.
Lemma words_insert l i x : words l -> in_u64 x -> words (<[i := x]> l).
Proof. intros. by apply Forall_insert. Qed.

Lemma seg_skip w l n : forall a, seg (w :: l) (S a) n = seg l a n.
Proof. induction n as [|n IH]; intros a; cbn [seg]; [done|]. by rewrite IH. Qed.
Lemma words_value_take l n : words_value (take n l) = seg l 0 n.
Proof.
  revert n. induction l as [|w l IH]; intros [|n]; cbn [take words_value seg]; try done.
  - rewrite seg_zero; [done|]. intros i _. by destruct i.
  - by rewrite seg_skip, IH.
Qed.
Lemma words_value_seg l n : (length l <= n)%nat -> words_value l = seg l 0 n.
Proof. intros H. by rewrite <- words_value_take, take_ge. Qed.
Lemma word_take l n i : (i < n)%nat -> word (take n l) i = word l i.
Proof. intros H. unfold word. rewrite !nth_lookup, lookup_take. by rewrite decide_True. Qed.
Lemma word_ge l i : (length l <= i)%nat -> word l i = 0.
Proof. intros H. unfold word. by rewrite nth_overflow. Qed.

(** ** Divisors of two words *)
Definition divides_3by2 (d : uint128) (v : Z) : Prop := forall r w, ok128 r -> in_u64 w -> value128 r < value128 d ->
  lo (quot (udivrem_3by2 (hi r) (lo r) w d v)) = (value128 r * 2 ^ 64 + w) / value128 d /\
  ok128 (rem (udivrem_3by2 (hi r) (lo r) w d v)) /\
  value128 (rem (udivrem_3by2 (hi r) (lo r) w d v)) = (value128 r * 2 ^ 64 + w) mod value128 d.

Lemma divide_3by2 d : ok128 d -> 2 ^ 63 <= hi d -> divides_3by2 d (reciprocal_3by2 d).
Proof.
  destruct d as [d1 d0]. intros [Hd1 Hd0] Htop [u2 u1] w [Hu2 Hu1] Hw Hlt. cbn [hi lo] in *.
  rewrite (udivrem_3by2_value d1 d0 ltac:(unfold in_u64 in Hd1; lia) Hd0 u2 u1 w Hu2 Hu1 Hw Hlt). cbn [quot rem].
  assert (value128 (U128 u2 u1) * 2 ^ 64 + w = u2 * 2 ^ 128 + u1 * 2 ^ 64 + w) as -> by (unfold value128; cbn [hi lo]; ring).
  split; [done|]. split; [apply ok_of_value128|]. apply of_value128_value.
  assert (2 ^ 127 <= d1 * 2 ^ 64 + d0 < 2 ^ 128) as HD by (unfold in_u64 in *; lia).
  pose proof (Z.mod_pos_bound (u2 * 2 ^ 128 + u1 * 2 ^ 64 + w) (d1 * 2 ^ 64 + d0)) as Hm. change (value128 (U128 d1 d0)) with (d1 * 2 ^ 64 + d0). lia.
Qed.

Section by_two.
Context (d : uint128) (v : Z) (Hd : ok128 d) (Htop : 2 ^ 63 <= hi d) (Hv : divides_3by2 d v).
Notation D := (value128 d).

Lemma D_normal : 2 ^ 127 <= D < 2 ^ 128.
Proof. pose proof (value128_range d Hd). destruct Hd as [_ Hl]. unfold value128, in_u64 in *. lia. Qed.

Lemma by2_loop_value j : forall u r u' r',
  words u -> (j <= length u)%nat -> ok128 r -> value128 r < D -> by2_loop d v j u r = (u', r') ->
  words u' /\ length u' = length u /\ (forall i, (j <= i)%nat -> word u' i = word u i) /\ ok128 r' /\ value128 r' < D /\
  seg u 0 j + value128 r * radix j = seg u' 0 j * D + value128 r'.
Proof.
  induction j as [|j IH]; intros u r u' r' Hu Hj Hok Hr H; cbn [by2_loop] in H.
  { injection H as <- <-. cbn [seg]. change (radix 0) with 1. split_and!; done || lia. }
  pose proof (words_word u j Hu) as Hw. destruct (Hv r (word u j) Hok Hw Hr) as (Hquot & Hrok & Hrem).
  cbv zeta in H. rewrite Hquot in H. set (r1 := rem _) in *. clearbody r1. remember (value128 r * 2 ^ 64 + word u j) as x eqn:Hxe.
  pose proof D_normal as HD.
  pose proof (Z.div_mod x D) as Hx. pose proof (Z.mod_pos_bound x D) as Hm.
  pose proof (value128_range r Hok) as Hr0.
  assert (in_u64 (x / D)) as Hq.
  { unfold in_u64 in *. split; [apply Z.div_pos; lia|apply Z.div_lt_upper_bound; lia]. }
  apply IH in H as (Hu' & Hlen & Hsame & Hok' & Hr' & Hval);
    [|by apply words_insert|rewrite length_insert; lia|done|lia].
  rewrite length_insert in Hlen. rewrite Hrem, seg_insert in Hval by lia.
  split; [done|]. split; [done|]. split.
  { intros i Hi. rewrite Hsame by lia. apply word_insert_ne. lia. }
  split; [done|]. split; [done|]. rewrite !seg_last, radix_S. cbn [plus]. rewrite Hsame, word_insert_eq by lia.
  assert (word u j = (x / D) * D + x mod D - value128 r * 2 ^ 64) as -> by lia.
  transitivity ((seg u 0 j + x mod D * radix j) + radix j * (x / D) * D); [ring|]. rewrite Hval. ring.
Qed.

Lemma by2_value u m u' r :
  words u -> (0 < m < length u)%nat -> seg u (m - 1) 2 < D -> by2_loop d v (m - 1) (<[m := 0]> (<[(m - 1)%nat := 0]> u)) (U128 (word u m) (word u (m - 1))) = (u', r) ->
  words u' /\ length u' = length u /\ (forall i, (m < i)%nat -> word u' i = word u i) /\ word u' m = 0 /\
  ok128 r /\ value128 r < D /\ seg u 0 (S m) = seg u' 0 (S m) * D + value128 r.
Proof.
  intros Hu Hm Hlt H.
  assert (seg u (m - 1) 2 = value128 (U128 (word u m) (word u (m - 1)))) as Hseg.
  { cbn [seg]. replace (S (m - 1)) with m by lia. unfold value128. cbn [hi lo]. ring. }
  assert (in_u64 0) as H0 by (unfold in_u64; lia).
  apply by2_loop_value in H as (Hu' & Hlen & Hsame & Hok & Hr & Heq);
    [|by repeat apply words_insert|rewrite !length_insert; lia|split; by apply words_word|by rewrite <- Hseg].
  rewrite !length_insert in Hlen. rewrite !seg_insert, <- Hseg in Heq by lia.
  split; [done|]. split; [done|]. split.
  { intros i Hi. rewrite Hsame, !word_insert_ne by lia. done. }
  assert (word u' m = 0) as Hm0 by (rewrite Hsame, word_insert_eq by (rewrite ?length_insert; lia); done).
  assert (word u' (m - 1) = 0) as Hm1 by (rewrite Hsame, word_insert_ne, word_insert_eq by (rewrite ?length_insert; lia); done).
  split; [done|]. split; [done|]. split; [done|].
  replace (S m) with ((m - 1) + 2)%nat by lia. rewrite !seg_app. cbn [plus].
  replace (seg u' (m - 1) 2) with 0 by (cbn [seg]; replace (S (m - 1)) with m by lia; rewrite Hm0, Hm1; done). lia.
Qed.
End by_two.
