(* ===== verification/IntxLong.v ===== *)
(** * Long division by numbers of any length

    Schoolbook division: every digit of the quotient is estimated from three words of the
    numerator and two of the divisor, is at most one too large, and is corrected when the
    product cannot be subtracted. Put together with the divisions by one and by two words,
    the library's division is division for every divisor but 0. *)
From S2P Require Import Prelude.
From S2P Require Import Intx.
From S2P Require Import IntxDiv.
From S2P Require Import IntxArith.
From S2P Require Import IntxBy2.
From stdpp Require Import base list.
Open Scope Z_scope.

(** ** The estimate of a digit *)
Section estimate.
Context (v1 v0 : Z) (Hv1 : 2 ^ 63 <= v1 < 2 ^ 64) (Hv0 : in_u64 v0).
Notation D2 := (v1 * 2 ^ 64 + v0).
Context (u2 u1 u0 : Z) (Hu2 : in_u64 u2) (Hu1 : in_u64 u1) (Hu0 : in_u64 u0) (Hu : u2 * 2 ^ 64 + u1 <= D2).
Notation U3 := (u2 * 2 ^ 128 + u1 * 2 ^ 64 + u0).

Lemma quotient_is q : q * D2 <= U3 < (q + 1) * D2 -> U3 / D2 = q.
Proof. intros H. symmetry. apply (Z.div_unique _ _ _ (U3 - q * D2)); lia. Qed.

(** The test that a digit is too large, by its remainder [rhat]. *)
Lemma too_big_spec q rhat : 0 <= q < 2 ^ 64 -> stands_for rhat (u2 * 2 ^ 64 + u1 - q * v1) -> 0 <= u2 * 2 ^ 64 + u1 - q * v1 < 2 ^ 65 ->
  (hi rhat =? 0) && lt128 (U128 (lo rhat) u0) (umul q v0) = (U3 <? q * D2).
Proof.
  intros Hq Hr Hb. pose proof (stands_small _ _ Hr ltac:(lia)) as Hv. destruct Hr as [[Hh Hl] _]. unfold in_u64 in *.
  rewrite lt128_value by (apply umul_parts; unfold in_u64; lia) || (split; cbn [hi lo]; unfold in_u64; lia).
  rewrite value_umul by (unfold in_u64; lia). unfold value128 in *. cbn [hi lo].
  assert (q * v0 <= 2 ^ 64 * v0) as Hqv by (apply Z.mul_le_mono_nonneg_r; lia).
  destruct (Z.eqb_spec (hi rhat) 0) as [H0|H0]; cbn [andb].
  - rewrite H0 in Hv. destruct (Z.ltb_spec (lo rhat * 2 ^ 64 + u0) (q * v0)); symmetry; [apply Z.ltb_lt|apply Z.ltb_ge]; lia.
  - symmetry. apply Z.ltb_ge. lia.
Qed.

Lemma estimate_overflow : v1 <= u2 -> estimate u2 u1 u0 (U128 v1 v0) (reciprocal_2by1 v1) = Z.min (2 ^ 64 - 1) (U3 / D2).
Proof.
  intros Hle. unfold in_u64 in *. unfold estimate. cbn [hi lo]. rewrite (proj2 (Z.leb_le _ _)) by lia. cbv zeta.
  set (rhat := add128 _ _). assert (stands_for rhat (u2 * 2 ^ 64 + u1 - (2 ^ 64 - 1) * v1)) as Hr.
  { eapply stands_mod; [apply stands_add; [apply stands_sub; apply stands_value|apply stands_word]|].
    1-3: try split; cbn [hi lo]; unfold in_u64; lia. exists 0. unfold value128. cbn [hi lo]. lia. }
  clearbody rhat. change (2 ^ 64 - 1) with 18446744073709551615 in *.
  rewrite (too_big_spec 18446744073709551615 rhat) by lia || done.
  assert (u2 = v1) as He by lia.
  destruct (Z.ltb_spec U3 (18446744073709551615 * D2)) as [Hlt|Hge].
  - rewrite (quotient_is 18446744073709551614) by lia. reflexivity.
  - rewrite Z.min_l; [done|]. apply Z.div_le_lower_bound; lia.
Qed.

Lemma estimate_divided : u2 < v1 -> estimate u2 u1 u0 (U128 v1 v0) (reciprocal_2by1 v1) = Z.min (2 ^ 64 - 1) (U3 / D2).
Proof.
  intros Hlt. unfold estimate. cbn [hi lo]. rewrite (proj2 (Z.leb_gt _ _)) by lia. cbv zeta.
  rewrite (udivrem_2by1_value v1 Hv1 u2 u1 ltac:(unfold in_u64 in *; lia) Hu1). cbn [quot rem].
  unfold in_u64 in *. set (x := u2 * 2 ^ 64 + u1) in *. set (q := x / v1). set (r := x mod v1).
  assert (x = v1 * q + r /\ 0 <= r < v1) as [Hx Hr] by (split; [apply Z.div_mod; lia|apply Z.mod_pos_bound; lia]).
  assert (0 <= q < 2 ^ 64) as Hq by (split; [apply Z.div_pos; lia|apply Z.div_lt_upper_bound; lia]).
  clearbody q r. assert (stands_for (word128 r) (u2 * 2 ^ 64 + u1 - q * v1)) as Hr1.
  { fold x. replace (x - q * v1) with r by lia. apply stands_word. unfold in_u64. lia. }
  pose proof (too_big_spec q (word128 r) Hq Hr1 ltac:(fold x; lia)) as T1.
  change (hi (word128 r) =? 0) with true in T1. cbn [andb] in T1. rewrite T1.
  assert (q * v1 <= x) by lia. assert (U3 < (q + 1) * D2) as Hup by (subst x; lia).
  destruct (Z.ltb_spec U3 (q * D2)) as [Hbig|Hok].
  - assert (0 < q) as Hq0 by (destruct (Z.eq_dec q 0) as [->|]; [subst x; lia|lia]).
    rewrite (u64_pred q) by lia.
    assert (stands_for (add128 (word128 r) (word128 v1)) (u2 * 2 ^ 64 + u1 - (q - 1) * v1)) as Hr2.
    { eapply stands_mod; [apply stands_add; apply stands_word; unfold in_u64; lia|]. exists 0. fold x. lia. }
    rewrite (too_big_spec (q - 1) _ ltac:(lia) Hr2) by (fold x; lia).
    destruct (Z.ltb_spec U3 ((q - 1) * D2)) as [Hbig2|Hok2].
    + assert (1 < q) as Hq1 by (destruct (Z.eq_dec q 1) as [->|]; [subst x; lia|lia]). rewrite (u64_pred (q - 1)) by lia.
      assert ((q - 2) * v0 <= 2 ^ 64 * 2 ^ 64) by nia.
      rewrite (quotient_is (q - 2)) by (subst x; lia). lia.
    + rewrite (quotient_is (q - 1)) by lia. lia.
  - rewrite (quotient_is q) by lia. lia.
Qed.

Lemma estimate_value : estimate u2 u1 u0 (U128 v1 v0) (reciprocal_2by1 v1) = Z.min (2 ^ 64 - 1) (U3 / D2).
Proof. destruct (Z.lt_ge_cases u2 v1); [by apply estimate_divided|apply estimate_overflow; lia]. Qed.
End estimate.

(** ** Subtracting the product, and adding the divisor back *)
Lemma carry_digit a b c : in_u64 a -> in_u64 b -> in_u64 c ->
  let s := sub128 (sub128 (word128 a) (word128 b)) (word128 c) in
  exists k, 0 <= k <= 2 /\ in_u64 (lo s) /\ lo s = a - b - c + 2 ^ 64 * k /\ hi s = u64 (- k).
Proof.
  intros Ha Hb Hc. pose proof Ha as Ha'. pose proof Hb as Hb'. pose proof Hc as Hc'. unfold in_u64 in Ha', Hb', Hc'. intros s.
  assert (stands_for s (a - b - c)) as [[Hh Hl] [k Hk]] by (repeat apply stands_sub; by apply stands_word).
  unfold value128 in Hk. unfold in_u64 in Hh, Hl. clearbody s.
  assert (exists j, 0 <= j <= 2 /\ lo s = a - b - c + 2 ^ 64 * j) as (j & Hj & Hlo).
  { exists (2 ^ 64 * k - hi s). split; [|lia]. split; [|lia]. lia. }
  exists j. split; [done|]. split; [done|]. split; [done|]. symmetry. apply u64_eq_mod; [done|].
  assert (hi s = - j + k * 2 ^ 64) as -> by lia. rewrite Z.mod_add by lia. done.
Qed.

Lemma multiply_subtract_value qhat vn j n : in_u64 qhat -> words vn -> forall i un borrow un' b',
  words un -> in_u64 borrow -> (i + n + j <= length un)%nat -> multiply_subtract qhat vn j i n un borrow = (un', b') ->
  words un' /\ in_u64 b' /\ length un' = length un /\
  (forall k, (k < i + j \/ i + j + n <= k)%nat -> word un' k = word un k) /\
  seg un' (i + j) n - radix n * b' = seg un (i + j) n - qhat * seg vn i n - borrow.
Proof.
  intros Hq Hvn. induction n as [|n IH]; intros i un borrow un' b' Hun Hb Hlen H; cbn [multiply_subtract] in H.
  { injection H as <- <-. cbn [seg]. change (radix 0) with 1. split_and!; done || lia. }
  destruct (umul_parts qhat (word vn i) Hq (words_word vn i Hvn)) as [[Hph Hpl] Hp].
  destruct (carry_digit (word un (i + j)) borrow (lo (umul qhat (word vn i))) (words_word _ _ Hun) Hb Hpl) as (c & Hc & Hs & Hlo & Hhi).
  set (s := sub128 _ _) in *. set (p := umul qhat (word vn i)) in *. cbv zeta in H. clearbody s p.
  pose proof (words_word vn i Hvn) as Hv. pose proof (words_word un (i + j) Hun) as Hu. unfold in_u64 in *.
  assert (qhat * word vn i <= (2 ^ 64 - 1) * (2 ^ 64 - 1)) as Hpmax by (apply Z.mul_le_mono_nonneg; lia).
  assert (u64 (hi p - hi s) = hi p + c) as Hb'.
  { rewrite Hhi, u64_sub_r. replace (hi p - - c) with (hi p + c) by lia. apply u64_small. unfold in_u64. lia. }
  rewrite Hb' in H. apply IH in H as (Hun' & Hbr & Hl & Hsame & Hval);
    [|apply words_insert; [done|unfold in_u64; lia]|lia|rewrite length_insert; lia].
  rewrite length_insert in Hl. split; [done|]. split; [done|]. split; [done|]. split.
  { intros k Hk. rewrite Hsame, word_insert_ne by lia. done. }
  cbn [seg]. rewrite radix_S. change (S i + j)%nat with (S (i + j)) in *. rewrite seg_insert in Hval by lia.
  rewrite Hsame, word_insert_eq, Hlo by lia. set (X := seg un' (S (i + j)) n) in *. set (Y := seg un (S (i + j)) n) in *.
  set (V := seg vn (S i) n) in *. assert (radix n * b' = X - Y + qhat * V + (hi p + c)) as HR by lia.
  transitivity (word un (i + j) - borrow - lo p + 2 ^ 64 * c + 2 ^ 64 * X - 2 ^ 64 * (radix n * b')); [ring|]. rewrite HR.
  transitivity (word un (i + j) + 2 ^ 64 * Y - (hi p * 2 ^ 64 + lo p) - 2 ^ 64 * (qhat * V) - borrow); [ring|]. rewrite Hp. ring.
Qed.

Lemma add_digit a b c : in_u64 a -> in_u64 b -> in_u64 c ->
  let s := add128 (add128 (word128 a) (word128 b)) (word128 c) in in_u64 (lo s) /\ in_u64 (hi s) /\ hi s * 2 ^ 64 + lo s = a + b + c.
Proof.
  intros Ha Hb Hc s. assert (stands_for s (a + b + c)) as Hs by (repeat apply stands_add; by apply stands_word).
  unfold in_u64 in Ha, Hb, Hc. pose proof (stands_small _ _ Hs ltac:(lia)) as Hv. destruct Hs as [[Hh Hl] _]. done.
Qed.

Lemma add_back_value vn j n : words vn -> forall i un c un' c',
  words un -> in_u64 c -> (i + n + j <= length un)%nat -> add_back vn j i n un c = (un', c') ->
  words un' /\ in_u64 c' /\ length un' = length un /\
  (forall k, (k < i + j \/ i + j + n <= k)%nat -> word un' k = word un k) /\
  seg un' (i + j) n + radix n * c' = seg un (i + j) n + seg vn i n + c.
Proof.
  intros Hvn. induction n as [|n IH]; intros i un c un' c' Hun Hc Hlen H; cbn [add_back] in H.
  { injection H as <- <-. cbn [seg]. change (radix 0) with 1. split_and!; done || lia. }
  destruct (add_digit (word un (i + j)) (word vn i) c (words_word _ _ Hun) (words_word _ _ Hvn) Hc) as (Hlo & Hhi & Hval).
  set (s := add128 _ _) in *. cbv zeta in H. clearbody s. apply IH in H as (Hun' & Hbr & Hl & Hsame & Heq);
    [|by apply words_insert|done|rewrite length_insert; lia].
  rewrite length_insert in Hl. split; [done|]. split; [done|]. split; [done|]. split.
  { intros k Hk. rewrite Hsame, word_insert_ne by lia. done. }
  cbn [seg]. rewrite radix_S. change (S i + j)%nat with (S (i + j)) in *. rewrite seg_insert in Heq by lia.
  rewrite Hsame, word_insert_eq by lia.
  transitivity (lo s + 2 ^ 64 * (seg un' (S (i + j)) n + radix n * c')); [ring|]. rewrite Heq.
  transitivity (hi s * 2 ^ 64 + lo s + 2 ^ 64 * (seg un (S (i + j)) n + seg vn (S i) n)); [ring|]. rewrite Hval. ring.
Qed.

(** ** One digit *)
Section digit.
Context (vn : list Z) (n : nat) (Hvn : words vn) (Hn : (2 <= n <= length vn)%nat) (Htop : 2 ^ 63 <= word vn (n - 1)).
Notation D := (seg vn 0 n).
Notation D2 := (word vn (n - 1) * 2 ^ 64 + word vn (n - 2)).

Lemma divisor_split : D = seg vn 0 (n - 2) + radix (n - 2) * D2.
Proof.
  replace n with (S (S (n - 2))) at 1 by lia. rewrite !seg_last. rewrite radix_S. cbn [plus].
  replace (S (n - 2)) with (n - 1)%nat by lia. ring.
Qed.
Lemma divisor_range : 0 <= seg vn 0 (n - 2) < radix (n - 2) /\ 2 ^ 127 <= D2 < 2 ^ 128 /\ 0 < D < radix n.
Proof.
  pose proof (seg_range vn (n - 2) Hvn 0) as H0. pose proof (seg_range vn n Hvn 0) as H1.
  pose proof (words_word vn (n - 1) Hvn) as Hw1. pose proof (words_word vn (n - 2) Hvn) as Hw2. unfold in_u64 in *.
  split; [done|]. split; [lia|]. split; [|lia]. rewrite divisor_split. pose proof (radix_pos (n - 2)). nia.
Qed.

(** The estimate is the digit or one more. *)
Lemma estimate_digit un j : words un -> seg un j (S n) < 2 ^ 64 * D ->
  let q := estimate (word un (j + n)) (word un (j + n - 1)) (word un (j + n - 2)) (U128 (word vn (n - 1)) (word vn (n - 2)))
    (reciprocal_2by1 (word vn (n - 1))) in
  in_u64 q /\ seg un j (S n) / D <= q <= seg un j (S n) / D + 1.
Proof.
  intros Hun Hlt. destruct divisor_range as (Hdl & HD2 & HD). pose proof (radix_pos (n - 2)) as HB. set (K := radix (n - 2)) in *.
  assert (seg un j (S n) = seg un j (n - 2) + K *
    (word un (j + n) * 2 ^ 128 + word un (j + n - 1) * 2 ^ 64 + word un (j + n - 2))) as HU.
  { replace (S n) with (S (S (S (n - 2)))) by lia. rewrite !seg_last, !radix_S. fold K.
    replace (j + (n - 2))%nat with (j + n - 2)%nat by lia. replace (j + S (n - 2))%nat with (j + n - 1)%nat by lia.
    replace (j + S (S (n - 2)))%nat with (j + n)%nat by lia. ring. }
  pose proof (seg_range un (n - 2) Hun j) as Hul. fold K in Hul. rewrite HU in Hlt |- *.
  pose proof divisor_split as HDs. fold K in HDs. rewrite HDs in Hlt, HD |- *.
  pose proof (words_word un (j + n) Hun) as H2. pose proof (words_word un (j + n - 1) Hun) as H1. pose proof (words_word un (j + n - 2) Hun) as H0.
  pose proof (words_word vn (n - 1) Hvn) as Hw1. pose proof (words_word vn (n - 2) Hvn) as Hw2.
  set (u2 := word un (j + n)) in *. set (u1 := word un (j + n - 1)) in *. set (u0 := word un (j + n - 2)) in *.
  set (v1 := word vn (n - 1)) in *. set (v0 := word vn (n - 2)) in *. set (Ul := seg un j (n - 2)) in *. set (Dl := seg vn 0 (n - 2)) in *.
  unfold in_u64 in *. set (U3 := u2 * 2 ^ 128 + u1 * 2 ^ 64 + u0) in *. set (d2 := v1 * 2 ^ 64 + v0) in *.
  assert (U3 < 2 ^ 64 * (d2 + 1)) as HU3 by (apply (Z.mul_lt_mono_pos_l K); [done|]; lia).
  rewrite estimate_value by (unfold in_u64; subst U3 d2; lia). fold U3 d2. set (D := Dl + K * d2) in *. cbv zeta.
  pose proof (Z.div_mod U3 d2) as Hdm. pose proof (Z.mod_pos_bound U3 d2) as Hm. set (e := U3 / d2) in *.
  assert (0 <= e) as He by (apply Z.div_pos; unfold U3; lia).
  pose proof (Z.div_mod (Ul + K * U3) D) as Hdm'. pose proof (Z.mod_pos_bound (Ul + K * U3) D) as Hm'. set (Q := (Ul + K * U3) / D) in *.
  assert (Q < 2 ^ 64) as HQ by (apply Z.div_lt_upper_bound; lia).
  split; [lia|]. split.
  - apply Z.min_glb; [lia|]. apply Z.div_le_lower_bound; [lia|].
    assert (K * (d2 * Q) < K * (U3 + 1)) as H.
    { assert (0 <= Dl * Q) by (apply Z.mul_nonneg_nonneg; [lia|apply Z.div_pos; lia]). unfold D in Hdm', Hm'. lia. }
    apply Z.mul_lt_mono_pos_l in H; lia.
  - set (m := Z.min (2 ^ 64 - 1) e). assert (0 <= m <= e /\ m < 2 ^ 64) as Hme by lia.
    cut (m - 1 < Q + 1); [lia|]. apply (Z.mul_lt_mono_pos_r D); [lia|].
    assert (m * d2 <= U3) as H1' by (transitivity (e * d2); [apply Z.mul_le_mono_nonneg_r; lia|lia]).
    assert (m * Dl <= 2 ^ 64 * K) as H2' by (apply Z.mul_le_mono_nonneg; lia).
    assert (K * (m * d2) <= K * U3) as H3' by (apply Z.mul_le_mono_nonneg_l; lia).
    assert (K * 2 ^ 64 < K * d2) as H4' by (apply Z.mul_lt_mono_pos_l; lia). unfold D. unfold D in Hdm', Hm'. lia.
Qed.

Notation divisor := (U128 (word vn (n - 1)) (word vn (n - 2))).
Notation reciprocal := (reciprocal_2by1 (word vn (n - 1))).

Lemma knuth_digit_value q un j q' un' :
  words un -> (j + n < length un)%nat -> seg un j (S n) < 2 ^ 64 * D -> knuth_digit vn n divisor reciprocal j q un = (q', un') ->
  words un' /\ length un' = length un /\ (forall k, (k < j \/ j + n < k)%nat -> word un' k = word un k) /\
  q' = <[j := seg un j (S n) / D]> q /\ in_u64 (seg un j (S n) / D) /\ seg un' j (S n) = seg un j (S n) mod D.
Proof.
  intros Hun Hlen Hlt H. destruct divisor_range as (_ & _ & HD). unfold knuth_digit in H.
  destruct (estimate_digit un j Hun Hlt) as [He Heb]. set (qhat := estimate _ _ _ _ _) in *. clearbody qhat.
  pose proof (Z.div_mod (seg un j (S n)) D) as Hdm. pose proof (Z.mod_pos_bound (seg un j (S n)) D) as Hm.
  set (Q := seg un j (S n) / D) in *. set (T := seg un j (S n) mod D) in *.
  assert (0 <= Q) as HQ by (apply Z.div_pos; [apply seg_range|]; done || lia).
  destruct (multiply_subtract qhat vn j 0 n un 0) as [un1 b] eqn:Hms.
  apply multiply_subtract_value in Hms as (Hun1 & Hb & Hl1 & Hsame1 & Hv1); [|done|done|done|unfold in_u64; lia|lia].
  cbn [plus] in Hv1, Hsame1. rewrite Z.sub_0_r in Hv1. pose proof (words_word un (j + n) Hun) as Hu2.
  assert (seg un j (S n) = seg un j n + radix n * word un (j + n)) as HU by apply seg_last.
  set (u2 := word un (j + n)) in *. pose proof (seg_range un1 n Hun1 j) as Hr1. pose proof (radix_pos n) as HB.
  assert (seg un1 j n + radix n * (u2 - b) = (Q - qhat) * D + T) as Hkey.
  { transitivity (seg un1 j n - radix n * b + radix n * u2); [ring|]. rewrite Hv1. lia. }
  unfold in_u64 in *. assert (forall z, in_u64 (u64 z)) as Hw by apply u64_range.
  destruct (Z.ltb_spec u2 b) as [Hneg|Hpos].
  - assert (qhat = Q + 1) as ->.
    { destruct (Z.eq_dec qhat Q) as [->|]; [|lia]. assert (radix n * (u2 - b) <= radix n * -1) by (apply Z.mul_le_mono_nonneg_l; lia). lia. }
    destruct (add_back vn j 0 n _ 0) as [un2 c] eqn:Hab. injection H as <- <-.
    apply add_back_value in Hab as (Hun2 & Hc & Hl2 & Hsame2 & Hv2);
      [|done|by apply words_insert|unfold in_u64; lia|rewrite length_insert; lia].
    cbn [plus] in Hv2, Hsame2. rewrite length_insert in Hl2. rewrite seg_insert, Z.add_0_r in Hv2 by lia.
    pose proof (seg_range un2 n Hun2 j) as Hr2. unfold in_u64 in Hc.
    rewrite (Hsame2 (j + n)%nat), word_insert_eq by lia.
    assert (seg un2 j n + radix n * (u2 - b + c) = T) as Hkey2.
    { transitivity ((seg un2 j n + radix n * c) + radix n * (u2 - b)); [ring|]. rewrite Hv2. lia. }
    assert (u2 - b + c = 0) as Hz by nia. rewrite Hz, Z.mul_0_r, Z.add_0_r in Hkey2.
    assert (u64 (u64 (u2 - b) + c) = 0) as -> by (apply u64_eq_mod; [unfold in_u64; lia|mod64]).
    split; [by apply words_insert; [|unfold in_u64; lia]|]. rewrite length_insert. split; [lia|]. split.
    { intros k Hk. rewrite word_insert_ne, Hsame2, word_insert_ne, Hsame1 by lia. done. }
    rewrite (u64_small (Q + 1 - 1)) by (unfold in_u64; lia). replace (Q + 1 - 1) with Q by lia. split; [done|]. split; [lia|].
    rewrite seg_last, seg_insert, word_insert_eq by lia. rewrite Hkey2. ring.
  - assert (qhat = Q) as ->.
    { destruct (Z.eq_dec qhat Q) as [|Hne]; [done|]. assert (qhat = Q + 1) as -> by lia.
      assert (0 <= radix n * (u2 - b)) by (apply Z.mul_nonneg_nonneg; lia). lia. }
    injection H as <- <-. rewrite (u64_small (u2 - b)) by (unfold in_u64; lia).
    split; [apply words_insert; [done|unfold in_u64; lia]|]. rewrite length_insert. split; [lia|]. split.
    { intros k Hk. rewrite word_insert_ne, Hsame1 by lia. done. }
    split; [done|]. split; [lia|]. rewrite seg_last, seg_insert, word_insert_eq by lia. lia.
Qed.

Lemma knuth_loop_value j : forall q un q' un',
  words un -> words q -> (j + n <= length un)%nat -> (j <= length q)%nat -> (0 < j)%nat -> seg un j n < D ->
  knuth_loop vn n divisor reciprocal j q un = (q', un') ->
  words un' /\ words q' /\ length q' = length q /\ length un' = length un /\ (forall k, (j <= k)%nat -> word q' k = word q k) /\
  word un' n = 0 /\ seg un' 0 n < D /\ seg un 0 (j + n) = seg q' 0 j * D + seg un' 0 n.
Proof.
  destruct divisor_range as (_ & _ & HD).
  induction j as [|j IH]; intros q un q' un' Hun Hq Hlen Hlq Hj Hlt H; [lia|]. cbn [knuth_loop] in H.
  destruct (knuth_digit vn n divisor reciprocal j q un) as [q1 un1] eqn:Hd.
  assert (seg un j (S n) < 2 ^ 64 * D) as HU.
  { cbn [seg]. pose proof (words_word un j Hun). unfold in_u64 in *. lia. }
  apply knuth_digit_value in Hd as (Hun1 & Hl1 & Hsame1 & -> & HQ & Hm); [|done|lia|done].
  pose proof (Z.mod_pos_bound (seg un j (S n)) D ltac:(lia)) as Hmb. pose proof (Z.div_mod (seg un j (S n)) D ltac:(lia)) as Hdm.
  set (Q := seg un j (S n) / D) in *. rewrite <- Hm in Hmb, Hdm. clear Hm. rewrite seg_last in Hmb.
  pose proof (words_word un1 (j + n) Hun1) as Htop1. pose proof (seg_range un1 n Hun1 j) as Hr1. unfold in_u64 in Htop1.
  assert (word un1 (j + n) = 0) as Hz.
  { destruct (Z.eq_dec (word un1 (j + n)) 0) as [|Hne]; [done|]. assert (radix n * 1 <= radix n * word un1 (j + n)) by
      (apply Z.mul_le_mono_nonneg_l; [pose proof (radix_pos n)|]; lia). lia. }
  rewrite Hz, Z.mul_0_r, Z.add_0_r in Hmb. rewrite (seg_last un1), Hz, Z.mul_0_r, Z.add_0_r in Hdm.
  assert (seg un 0 (S j + n) = seg un1 0 (j + n) + radix j * Q * D) as Hsplit.
  { replace (S j + n)%nat with (j + S n)%nat by lia. rewrite !seg_app. cbn [plus]. rewrite Hdm.
    rewrite (seg_ext un un1 j 0%nat) by (intros i Hi; rewrite Hsame1 by lia; done). ring. }
  destruct (Nat.eq_dec j 0%nat) as [->|Hj0].
  - cbn [knuth_loop] in H. injection H as <- <-. rewrite length_insert.
    split; [done|]. split; [by apply words_insert|]. split; [done|]. split; [done|]. split.
    { intros k Hk. apply word_insert_ne. lia. }
    split; [done|]. split; [lia|]. rewrite Hsplit. cbn [seg plus]. rewrite word_insert_eq by lia. change (radix 0) with 1. ring.
  - apply IH in H as (Hun' & Hq' & Hlq' & Hlun' & Hsq & Hz' & Hrem & Hval);
      [|done|by apply words_insert|lia|rewrite length_insert; lia|lia|lia].
    rewrite length_insert in Hlq'. split; [done|]. split; [done|]. split; [done|]. split; [lia|]. split.
    { intros k Hk. rewrite Hsq, word_insert_ne by lia. done. }
    split; [done|]. split; [done|]. rewrite Hsplit, Hval, seg_last. cbn [plus]. rewrite Hsq, word_insert_eq by lia. ring.
Qed.
End digit.

(** ** Normalization *)
Lemma significant_word l k : significant_words l = S k -> word l k <> 0.
Proof.
  revert k. induction l as [|w l IH]; intros k H; cbn [significant_words] in H; [done|].
  destruct (significant_words l) as [|j] eqn:Hl.
  - destruct (Z.eqb_spec w 0); [done|]. by injection H as <-.
  - injection H as <-. by apply IH.
Qed.
Lemma significant_seg l : words l -> words_value l = seg l 0 (significant_words l).
Proof. intros Hl. destruct (significant_words_value l Hl) as [_ ->]. apply words_value_take. Qed.
Lemma take_seg l n : words l -> words_value l < radix n -> seg l 0 n = words_value l.
Proof. intros Hl Hv. rewrite <- words_value_take. by apply take_value. Qed.
Lemma high_words l n i : words l -> words_value l < radix n -> (n <= i)%nat -> word l i = 0.
Proof.
  intros Hl Hv Hi. pose proof (words_zero (drop n l) (Forall_drop _ n _ Hl) (drop_value n l Hl Hv) (i - n)) as H.
  unfold word in *. rewrite !nth_lookup, lookup_drop in *. by replace (n + (i - n))%nat with i in H by lia.
Qed.

Record is_normalized (u v : list Z) (na : normalized_div_args) (k n m : nat) (s : Z) : Prop := {
  n_words : num_denominator_words na = n; m_words : num_numerator_words na = m; s_shift : Intx.shift na = s;
  n_range : (1 <= n <= k)%nat; m_range : (m <= k)%nat; s_range : 0 <= s < 64;
  den_words : words (denominator na); den_length : length (denominator na) = k;
  den_value : seg (denominator na) 0 n = words_value v * 2 ^ s;
  den_top : 2 ^ 63 <= word (denominator na) (n - 1) < 2 ^ 64;
  num_words : words (numerator na); num_length : length (numerator na) = S k;
  num_value : words_value (numerator na) = 2 ^ s * words_value u;
}.

Lemma shifted_top V n s x w : words V -> (1 <= n)%nat -> seg V 0 n = (x + radix (n - 1) * w) * 2 ^ s -> 0 <= x -> 0 <= s ->
  2 ^ 63 <= w * 2 ^ s -> 2 ^ 63 <= word V (n - 1).
Proof.
  intros HV Hn Heq Hx Hs Hw. replace n with (S (n - 1)) in Heq at 1 by lia. rewrite seg_last in Heq. cbn [plus] in Heq.
  pose proof (seg_range V (n - 1) HV 0) as Hr. set (K := radix (n - 1)) in *. set (t := word V (n - 1)) in *.
  assert (0 <= x * 2 ^ s) as H1 by (apply Z.mul_nonneg_nonneg; lia).
  assert (K * 2 ^ 63 <= K * (w * 2 ^ s)) as H2 by (apply Z.mul_le_mono_nonneg_l; lia).
  assert (K * 2 ^ 63 < K * (t + 1)) as H3 by lia. apply Z.mul_lt_mono_pos_l in H3; lia.
Qed.

Lemma normalize_ok u v : words u -> words v -> length u = length v -> words_value v <> 0 ->
  is_normalized u v (normalize u v) (length u) (significant_words v) (significant_words u) (clz64 (word v (significant_words v - 1))).
Proof.
  intros Hu Hv Hlen Hnz. destruct (significant_words_value v Hv) as [Hn _]. destruct (significant_words_value u Hu) as [Hm _].
  pose proof (significant_seg v Hv) as Hvs. destruct (significant_words v) as [|n'] eqn:Hsig; [done|].
  pose proof (significant_word v n' Hsig) as Hw0. pose proof (words_word v n' Hv) as Hw. unfold in_u64 in Hw.
  destruct (clz64_spec (word v n') ltac:(lia)) as [Hs Hd]. rewrite seg_last in Hvs. cbn [plus] in Hvs.
  pose proof (seg_range v n' Hv 0) as Hr. replace (S n' - 1)%nat with n' by lia.
  unfold normalize. rewrite Hsig. replace (S n' - 1)%nat with n' by lia. set (s := clz64 (word v n')) in *. cbv zeta.
  destruct (Z.eqb_spec s 0) as [H0|H0].
  - rewrite H0 in *. split; cbn [num_denominator_words num_numerator_words Intx.shift denominator numerator]; try done || lia.
    + rewrite seg_last, Hvs. cbn [plus]. lia.
    + replace (S n' - 1)%nat with n' by lia. lia.
    + apply Forall_app. split; [done|]. constructor; [unfold in_u64; lia|done].
    + rewrite length_app. cbn. lia.
    + rewrite words_value_app. cbn [words_value]. lia.
  - destruct (shl_words_value s u Hu ltac:(lia) ltac:(lia)) as (HN & HNl & HNv).
    destruct (shl_words_value s v Hv ltac:(lia) ltac:(lia)) as (HX & HXl & HXv).
    set (V := shl_words s v) in *. set (X := V ++ _) in *.
    assert (length V = length v) as HVl by (unfold V, shl_words; by rewrite length_map, length_seq).
    assert (words V) as HV by (apply Forall_app in HX; tauto).
    assert (seg V 0 (S n') = words_value v * 2 ^ s) as HVv.
    { rewrite Z.mul_comm, <- HXv. rewrite <- (take_seg X (S n') HX).
      - apply seg_ext. intros i Hi. unfold word, X. symmetry. apply app_nth1. lia.
      - rewrite HXv, Hvs, radix_S. assert (2 ^ 64 = 2 ^ (64 - s) * 2 ^ s) as Hp by (rewrite <- Z.pow_add_r by lia; f_equal; lia).
        assert (word v n' < 2 ^ (64 - s)) as Hlt by (apply (Z.mul_lt_mono_pos_r (2 ^ s)); lia).
        set (K := radix n') in *. assert (K * (word v n' + 1) <= K * 2 ^ (64 - s)) by (apply Z.mul_le_mono_nonneg_l; lia).
        rewrite Hp. assert (seg v 0 n' + K * word v n' < K * 2 ^ (64 - s)) as Hlt2 by lia.
        apply (Z.mul_lt_mono_pos_l (2 ^ s)) in Hlt2; lia. }
    split; cbn [num_denominator_words num_numerator_words Intx.shift denominator numerator]; try done || lia.
    split; [|by apply words_word]. eapply (shifted_top V (S n') s (seg v 0 n') (word v n')); try done || lia.
    replace (S n' - 1)%nat with n' by lia. by rewrite <- Hvs.
Qed.

Section normalized.
Context (u v : list Z) (na : normalized_div_args) (k n m : nat) (s : Z) (Hna : is_normalized u v na k n m s).
Context (Hu : words u) (Hm : m = significant_words u).
Notation N := (numerator na).
Notation V := (denominator na).

Lemma numerator_bound : 0 <= words_value N < 2 ^ 63 * radix m.
Proof.
  destruct Hna. rewrite num_value0. pose proof (seg_range u m Hu 0) as Hr.
  replace (seg u 0 m) with (words_value u) in Hr by (rewrite Hm; by apply significant_seg). assert (2 ^ s <= 2 ^ 63) by (apply Z.pow_le_mono_r; lia). split; [lia|].
  assert (2 ^ s * words_value u <= 2 ^ 63 * words_value u) by (apply Z.mul_le_mono_nonneg_r; lia). lia.
Qed.
Lemma numerator_seg : seg N 0 (S m) = 2 ^ s * words_value u /\ forall i, (m < i)%nat -> word N i = 0.
Proof.
  pose proof numerator_bound as Hb. destruct Hna. pose proof (radix_pos m).
  assert (words_value N < radix (S m)) as Hlt by (rewrite radix_S; lia).
  split; [by rewrite take_seg|]. intros i Hi. by apply (high_words N (S m)).
Qed.
Lemma divisor_value : 0 < words_value v /\ 2 ^ 63 * radix (n - 1) <= words_value v * 2 ^ s.
Proof.
  destruct Hna. pose proof (seg_range V (n - 1) den_words0 0) as Hr. rewrite <- den_value0. pose proof (radix_pos (n - 1)) as HK.
  assert (2 ^ 63 * radix (n - 1) <= seg V 0 n) as Hle.
  { replace n with (S (n - 1)) at 2 by lia. rewrite seg_last. cbn [plus].
    assert (radix (n - 1) * 2 ^ 63 <= radix (n - 1) * word V (n - 1)) by (apply Z.mul_le_mono_nonneg_l; lia). lia. }
  split; [|done]. rewrite den_value0 in Hle. destruct (Z.lt_ge_cases 0 (words_value v)); [done|].
  assert (words_value v * 2 ^ s <= 0) by (apply Z.mul_nonpos_nonneg; lia). lia.
Qed.
(** The leading words are fewer than the divisor. *)
Lemma leading_words : (n <= m)%nat -> seg N (m - n + 1) n < words_value v * 2 ^ s.
Proof.
  intros Hnm. pose proof divisor_value as [_ Hd]. pose proof numerator_seg as [Hs _]. pose proof numerator_bound as Hb. destruct Hna.
  rewrite <- num_value0 in Hs. rewrite <- Hs in Hb. replace (S m) with ((m - n + 1) + n)%nat in Hb by lia. rewrite seg_app in Hb.
  cbn [plus] in Hb. pose proof (seg_range N (m - n + 1) num_words0 0) as Hr. set (x := seg N (m - n + 1) n) in *.
  assert (radix m = radix (m - n + 1) * radix (n - 1)) as Hk by (rewrite <- radix_add; f_equal; lia). rewrite Hk in Hb.
  assert (radix (m - n + 1) * x < radix (m - n + 1) * (2 ^ 63 * radix (n - 1))) as Hlt by lia.
  apply Z.mul_lt_mono_pos_l in Hlt; [lia|apply radix_pos].
Qed.
(** What a division of the shifted numbers says of the numbers. *)
Lemma division_of q r : seg N 0 (S m) = q * (words_value v * 2 ^ s) + r -> 0 <= r < words_value v * 2 ^ s ->
  q = words_value u / words_value v /\ Z.shiftr r s = words_value u mod words_value v.
Proof.
  intros H Hr. pose proof divisor_value as [Hv _]. pose proof numerator_seg as [Hs _]. destruct Hna.
  apply shifted_division; [done|lia|by rewrite <- Hs|done].
Qed.
End normalized.

(** ** The remainder shifted back *)
Definition unshifted (un : list Z) (s : Z) (i : nat) : Z :=
  if s =? 0 then word un i else Z.lor (Z.shiftr (word un i) s) (u64 (Z.shiftl (word un (S i)) (64 - s))).

Lemma unshifted_value un s n : words un -> 0 <= s < 64 -> forall i, word un (i + n) = 0 ->
  words (map (unshifted un s) (seq i n)) /\ words_value (map (unshifted un s) (seq i n)) = seg un i n / 2 ^ s.
Proof.
  intros Hun Hs. assert (0 < 2 ^ s) as Hp by lia.
  induction n as [|n IH]; intros i Hz; cbn [seq map words_value seg]; [done|].
  destruct (IH (S i)) as [Hw Hv]; [by replace (S i + n)%nat with (i + S n)%nat by lia|]. rewrite Hv. clear IH Hv.
  pose proof (words_word un i Hun) as Hi. pose proof (words_word un (S i) Hun) as HSi. unfold in_u64 in Hi, HSi.
  set (X := seg un (S i) n). assert (2 ^ 64 = 2 ^ (64 - s) * 2 ^ s) as H64 by (rewrite <- Z.pow_add_r by lia; f_equal; lia).
  assert (X mod 2 ^ s = word un (S i) mod 2 ^ s) as Hmod.
  { unfold X. destruct n as [|n]; cbn [seg]; [rewrite Nat.add_1_r in Hz; by rewrite Hz|].
    rewrite H64. replace (_ * _ * seg un (S (S i)) n) with (2 ^ (64 - s) * seg un (S (S i)) n * 2 ^ s) by ring.
    apply Z.mod_add. lia. }
  assert (in_u64 (unshifted un s i) /\ unshifted un s i = (word un i + 2 ^ 64 * (X mod 2 ^ s)) / 2 ^ s) as [Hin Heq].
  { unfold unshifted. destruct (Z.eqb_spec s 0) as [->|Hs0].
    - change (2 ^ 0) with 1. rewrite Z.mod_1_r, Z.mul_0_r, Z.add_0_r, Z.div_1_r. done.
    - assert (0 < 2 ^ (64 - s)) by lia. rewrite Z.shiftr_div_pow2, Z.shiftl_mul_pow2 by lia.
      assert (u64 (word un (S i) * 2 ^ (64 - s)) = (word un (S i) mod 2 ^ s) * 2 ^ (64 - s)) as ->.
      { unfold u64, uwrap. rewrite H64, (Z.mul_comm (2 ^ (64 - s)) (2 ^ s)). apply Z.mul_mod_distr_r; lia. }
      rewrite Hmod. set (t := word un (S i) mod 2 ^ s). pose proof (Z.mod_pos_bound (word un (S i)) (2 ^ s) Hp) as Ht. fold t in Ht.
      assert (0 <= word un i / 2 ^ s < 2 ^ (64 - s)) as Hq by (split; [apply Z.div_pos; lia|apply Z.div_lt_upper_bound; lia]).
      rewrite Z.lor_comm, lor_shifted by lia.
      assert ((word un i + 2 ^ 64 * t) / 2 ^ s = word un i / 2 ^ s + 2 ^ (64 - s) * t) as ->.
      { rewrite H64. replace (2 ^ (64 - s) * 2 ^ s * t) with (2 ^ (64 - s) * t * 2 ^ s) by ring. apply Z.div_add. lia. }
      split; [|ring]. unfold in_u64. rewrite H64.
      assert (t * 2 ^ (64 - s) <= (2 ^ s - 1) * 2 ^ (64 - s)) by (apply Z.mul_le_mono_nonneg_r; lia). lia. }
  split; [by constructor|]. rewrite Heq. pose proof (Z.div_mod X (2 ^ s)) as Hdm. set (a := X / 2 ^ s) in *. set (b := X mod 2 ^ s) in *.
  rewrite Hdm by lia. replace (word un i + 2 ^ 64 * (2 ^ s * a + b)) with (word un i + 2 ^ 64 * b + (2 ^ 64 * a) * 2 ^ s) by ring.
  rewrite Z.div_add by lia. ring.
Qed.

(** ** Division *)
Record is_division (u v : list Z) (x : div_result (list Z)) : Prop := {
  quot_value : words_value (quot x) = words_value u / words_value v;
  rem_value : words_value (rem x) = words_value u mod words_value v;
  quot_words : words (quot x); rem_words : words (rem x);
  quot_length : length (quot x) = length u; rem_length : length (rem x) = length u;
}.

Lemma zeros_words n : words (repeat 0 n).
Proof. apply Forall_forall. intros x Hx%list_elem_of_In%repeat_spec. subst. unfold in_u64. lia. Qed.

(** A remainder of few words, filled with zeros. *)
Lemma filled_ok k l : words l -> (length l <= k)%nat ->
  words (l ++ repeat 0 (k - length l)) /\ length (l ++ repeat 0 (k - length l)) = k /\
  words_value (l ++ repeat 0 (k - length l)) = words_value l.
Proof.
  intros Hl Hk. split; [apply Forall_app; split; [done|apply zeros_words]|].
  rewrite length_app, repeat_length. split; [lia|]. rewrite words_value_app, words_value_zeros. lia.
Qed.

Section division.
Context (u v : list Z) (k n m : nat) (s : Z) (na : normalized_div_args).
Context (Hna : is_normalized u v na k n m s) (Hu : words u) (Hm : m = significant_words u) (Hk : k = length u).
Notation N := (numerator na).
Notation V := (denominator na).
Notation D := (words_value v * 2 ^ s).

(** A quotient and a remainder of the shifted numbers, of the right shape, are a division. *)
Lemma division_from q r l : words q -> (k <= length q)%nat -> seg N 0 (S m) = seg q 0 k * D + r -> 0 <= r < D ->
  words l -> (length l <= k)%nat -> words_value l = Z.shiftr r s ->
  is_division u v (DivResult (take k q) (l ++ repeat 0 (k - length l))).
Proof.
  intros Hq Hql Heq Hr Hl Hlk Hlv. destruct (division_of u v na k n m s Hna Hu Hm _ _ Heq Hr) as [Hquot Hrem].
  destruct (filled_ok k l Hl Hlk) as (Hf & Hfl & Hfv).
  split; cbn [quot rem]; [by rewrite words_value_take|by rewrite Hfv, Hlv|by apply Forall_take|done| |congruence].
  rewrite length_take_le; done.
Qed.

(** The words of the quotient that count. *)
Lemma seg_prefix q j : (j <= k)%nat -> (forall i, (j <= i < k)%nat -> word q i = 0) -> seg q 0 k = seg q 0 j.
Proof.
  intros Hj Hz. replace k with (j + (k - j))%nat at 1 by lia. rewrite seg_app, (seg_zero q (k - j)); [ring|]. intros i Hi. apply Hz. lia.
Qed.

Lemma divide_small : words v -> (m < n)%nat -> is_division u v (DivResult (repeat 0 k) u).
Proof.
  intros Hv Hlt. destruct (divisor_value u v na k n m s Hna Hm) as [Hpos Hd]. destruct Hna.
  assert (0 <= words_value u < words_value v) as Hr.
  { split; [by apply words_value_range|]. apply (Z.mul_lt_mono_pos_l (2 ^ s)); [lia|].
    pose proof (numerator_bound u v na k n m s Hna Hu Hm) as [_ Hb]. rewrite num_value0 in Hb.
    assert (radix m <= radix (n - 1)) by (unfold radix; apply Z.pow_le_mono_r; lia). lia. }
  split; cbn [quot rem]; [|by rewrite Z.mod_small|apply zeros_words|done|by rewrite repeat_length|done].
  by rewrite words_value_zeros, Z.div_small.
Qed.

Lemma divide_by1 : n = 1%nat -> (1 <= m)%nat -> forall q r, udivrem_by1 N m (word V 0) = (q, r) ->
  is_division u v (DivResult (take k q) ([Z.shiftr r s] ++ repeat 0 (k - 1))).
Proof.
  intros Hn1 Hm1 q r H. pose proof (leading_words u v na k n m s Hna Hu Hm ltac:(lia)) as Hlead.
  pose proof (numerator_seg u v na k n m s Hna Hu Hm) as [_ Hz]. destruct Hna.
  assert (word V 0 = D) as HV by (rewrite <- den_value0, Hn1; cbn [seg]; ring). rewrite Hn1 in den_top0, Hlead.
  change (1 - 1)%nat with 0%nat in den_top0. replace (m - 1 + 1)%nat with m in Hlead by lia. cbn [seg] in Hlead.
  unfold udivrem_by1 in H. pose proof (udivrem_2by1_value (word V 0) den_top0) as Hdiv.
  assert (words_value (drop (S m) N) = 0) as Hdrop.
  { apply drop_value; [done|]. fold (radix (S m)). rewrite radix_S.
    pose proof (numerator_bound u v na k n m s Hna Hu Hm). pose proof (radix_pos m). lia. }
  apply (by1_value _ _ den_top0 Hdiv) in H as (Hq & Hql & Hr & Heq); [|done|lia|lia].
  rewrite Hdrop, Z.mul_0_l, !Z.sub_0_r in Heq.
  assert (words_value q < radix k) as Hqk.
  { pose proof (words_value_range u Hu) as Hur. rewrite <- Hk in Hur. fold (radix k) in Hur.
    assert (words_value q * word V 0 < radix k * word V 0) as Hlt; [|by apply Z.mul_lt_mono_pos_r in Hlt; lia].
    rewrite num_value0 in Heq. assert (2 ^ s * words_value u < 2 ^ s * radix k) by (apply Z.mul_lt_mono_pos_l; lia).
    assert (2 ^ s * radix k <= 2 ^ 63 * radix k) by (apply Z.mul_le_mono_nonneg_r; [|apply Z.pow_le_mono_r]; lia).
    assert (radix k * 2 ^ 63 <= radix k * word V 0) by (apply Z.mul_le_mono_nonneg_l; lia). lia. }
  apply (division_from q r [Z.shiftr r s]); [done|lia| |lia| |cbn; lia|cbn [words_value]; lia].
  - rewrite (take_seg q k Hq Hqk), <- HV, <- Heq. apply take_seg; [done|].
    pose proof (numerator_bound u v na k n m s Hna Hu Hm). pose proof (radix_pos m). rewrite radix_S. lia.
  - constructor; [|done]. rewrite Z.shiftr_div_pow2 by lia. unfold in_u64.
    split; [apply Z.div_pos; lia|apply Z.div_lt_upper_bound; lia].
Qed.

Lemma divide_by2 : n = 2%nat -> (2 <= m)%nat -> forall q r, udivrem_by2 N m (U128 (word V 1) (word V 0)) = (q, r) ->
  let r' := of_value128 (Z.shiftr (value128 r) s) in
  is_division u v (DivResult (take k q) ([lo r'; hi r'] ++ repeat 0 (k - 2))).
Proof.
  intros Hn2 Hm2 q r H. pose proof (leading_words u v na k n m s Hna Hu Hm ltac:(lia)) as Hlead.
  pose proof (numerator_seg u v na k n m s Hna Hu Hm) as [_ Hz]. destruct Hna. set (d := U128 (word V 1) (word V 0)) in *.
  assert (value128 d = D) as HV by (rewrite <- den_value0, Hn2; unfold value128; cbn [hi lo seg d]; ring).
  rewrite Hn2 in den_top0, Hlead. change (2 - 1)%nat with 1%nat in den_top0. replace (m - 2 + 1)%nat with (m - 1)%nat in Hlead by lia.
  assert (ok128 d) as Hd by (split; by apply words_word). assert (2 ^ 63 <= hi d) as Htop by apply den_top0.
  unfold udivrem_by2 in H. replace (Nat.pred m) with (m - 1)%nat in H by lia.
  apply (by2_value d (reciprocal_3by2 d) Hd Htop (divide_3by2 d Hd Htop)) in H as (Hq & Hql & Hsame & Hqm & Hrok & Hr & Heq);
    [|done|lia|lia].
  pose proof (value128_range r Hrok) as Hr0.
  assert (0 <= Z.shiftr (value128 r) s < 2 ^ 128) as Hsr.
  { rewrite Z.shiftr_div_pow2 by lia. split; [apply Z.div_pos; lia|apply Z.div_lt_upper_bound; lia]. }
  apply (division_from q (value128 r)); [done|lia| |lia| |cbn; lia|].
  - rewrite <- HV, (seg_prefix q m), Heq, seg_last; [cbn [plus]; rewrite Hqm; ring|lia|].
    intros i Hi. destruct (Nat.eq_dec i m) as [->|]; [done|]. rewrite Hsame by lia. apply Hz. lia.
  - repeat constructor; apply ok_of_value128.
  - rewrite <- (of_value128_value _ Hsr) at 3. unfold value128 at 3. cbn [words_value]. ring.
Qed.

Lemma divide_long : (3 <= n <= m)%nat -> forall q un, udivrem_knuth (repeat 0 k) N m V n = (q, un) ->
  is_division u v (DivResult q (map (unshifted un s) (seq 0 n) ++ repeat 0 (k - n))).
Proof.
  intros Hnm q un H. pose proof (leading_words u v na k n m s Hna Hu Hm ltac:(lia)) as Hlead. destruct Hna.
  unfold udivrem_knuth in H. cbn [hi] in H. rewrite <- den_value0 in Hlead.
  apply knuth_loop_value in H as (Hun & Hq & Hql & Hunl & Hsame & Hz & Hr & Heq);
    [|done|lia|lia|done|apply zeros_words|lia|rewrite repeat_length; lia|lia|done].
  rewrite repeat_length in Hql. replace (m - n + 1 + n)%nat with (S m) in Heq by lia. rewrite den_value0 in Heq, Hr.
  destruct (unshifted_value un s n Hun s_range0 0 Hz) as [Hw Hval].
  pose proof (seg_range un n Hun 0) as [Hr0 _].
  assert (length (map (unshifted un s) (seq 0 n)) = n) as Hl by by rewrite length_map, length_seq.
  pose proof (division_from q (seg un 0 n) (map (unshifted un s) (seq 0 n))) as Hd. rewrite take_ge, Hl in Hd by lia.
  apply Hd; [done|lia| |lia|done|lia|].
  - rewrite (seg_prefix q (m - n + 1)); [done|lia|]. intros i Hi. rewrite Hsame by lia.
    unfold word. apply nth_repeat.
  - rewrite Hval. symmetry. apply Z.shiftr_div_pow2. lia.
Qed.
End division.

(** The division of the library is division, whatever the lengths of its arguments. *)
Lemma udivrem_words_value u v : words u -> words v -> length u = length v -> words_value v <> 0 ->
  is_division u v (udivrem_words u v).
Proof.
  intros Hu Hv Hlen Hnz. pose proof (normalize_ok u v Hu Hv Hlen Hnz) as Hna.
  set (na := normalize u v) in *. set (m := significant_words u) in *. set (s := clz64 _) in *. set (n := significant_words v) in *.
  pose proof (divide_small u v (length u) n m s na Hna Hu eq_refl eq_refl Hv) as H0.
  pose proof (divide_by1 u v (length u) n m s na Hna Hu eq_refl eq_refl) as H1.
  pose proof (divide_by2 u v (length u) n m s na Hna Hu eq_refl eq_refl) as H2.
  pose proof (divide_long u v (length u) n m s na Hna Hu eq_refl eq_refl) as H3.
  destruct Hna. unfold udivrem_words. fold na. cbv zeta. rewrite n_words0, m_words0, s_shift0.
  destruct n as [|[|[|n']]]; [lia| | |].
  - destruct (Nat.ltb_spec m 1) as [Hlt|Hge]; [by apply H0|]. destruct (udivrem_by1 _ _ _) as [q r]. exact (H1 eq_refl Hge q r eq_refl).
  - destruct (Nat.ltb_spec m 2) as [Hlt|Hge]; [by apply H0|]. destruct (udivrem_by2 _ _ _) as [q r]. exact (H2 eq_refl Hge q r eq_refl).
  - destruct (Nat.ltb_spec m (S (S (S n')))) as [Hlt|Hge]; [by apply H0|].
    destruct (udivrem_knuth _ _ _ _ _) as [q un]. specialize (H3 ltac:(lia) q un eq_refl).
    unfold unshifted in H3. rewrite length_map, length_seq. exact H3.
Qed.

(** C37: The library's division of numbers of any length - normalizing, dividing by one word
    or by two with a reciprocal, or digit by digit with estimates that are corrected, and
    shifting the remainder back - gives the quotient and the remainder of the values, for
    every divisor but zero. *)
Theorem udivrem_is_division (u v : list Z) :
  Forall in_u64 u -> Forall in_u64 v -> length u = length v -> words_value v <> 0 ->
  words_value (quot (udivrem_words u v)) = words_value u / words_value v /\
  words_value (rem (udivrem_words u v)) = words_value u mod words_value v /\
  length (quot (udivrem_words u v)) = length u /\ length (rem (udivrem_words u v)) = length u.
Proof. intros Hu Hv Hlen Hnz. by destruct (udivrem_words_value u v Hu Hv Hlen Hnz) as [? ? ? ? ? ?]. Qed.

(** A division whose digit is estimated one too large and corrected. *)
Lemma udivrem_is_division_witness :
  words_value (quot (udivrem_words [3; 0; 2 ^ 63; 0] [1; 0; 2 ^ 61; 0])) = words_value [3; 0; 2 ^ 63; 0] / words_value [1; 0; 2 ^ 61; 0] /\
  udivrem_words [3; 0; 2 ^ 63; 0] [1; 0; 2 ^ 61; 0] = DivResult [3; 0; 0; 0] [0; 0; 2 ^ 61; 0].
Proof.
  split; [|vm_compute; reflexivity].
  refine (proj1 (udivrem_is_division [3; 0; 2 ^ 63; 0] [1; 0; 2 ^ 61; 0] _ _ eq_refl _)); [..|vm_compute; discriminate].
  all: repeat (apply Forall_cons; split; [split; [vm_compute; discriminate|reflexivity]|]); apply Forall_nil_2.
Defined.
