(* ===== verification/IntxWide.v ===== *)
(** * The wide integers at every width (intx.hpp, int128.hpp)

    [uint<N>] is a template: two halves of half the width, down to [uint128] on two words.
    The interface [Wide] is what the template asks of its half and provides itself; its laws
    say what each operation is on the number represented. [uint128] provides it, and a type
    that does provides it for its double ([Double]), so that 256, 512 and 1024 bits are
    instances. On it are defined what the library builds from halves: comparisons, shifts,
    logic, multiplication, powers, division with and without signs, arithmetic modulo a
    number, bytes in both orders; and the loops that do the same word by word. *)
From S2P Require Import Prelude.
From S2P Require Import Params.
From S2P Require Import Intx.
From S2P Require Import IntxDiv.
From S2P Require Import IntxArith.
From S2P Require Import IntxBy2.
From S2P Require Import IntxLong.
From stdpp Require Import base list.
Open Scope Z_scope.

(** ** The interface *)
Class Wide (W : Type) := {
  num_bits : Z;
  (** the number represented, and the invariant of the words *)
  number : W -> Z; wide_ok : W -> Prop;
  of_u64 : Z -> W;
  add_with_carry : W -> W -> with_carry W; sub_with_carry : W -> W -> with_carry W;
  bit_or : W -> W -> W; bit_and : W -> W -> W; bit_xor : W -> W -> W; bit_not : W -> W;
  shift_left : W -> Z -> W; shift_right : W -> Z -> W;
  wide_eqb : W -> W -> bool; wide_ltb : W -> W -> bool;
  wide_clz : W -> Z; wide_bswap : W -> W;
  (** the array the number is in memory *)
  wide_words : W -> list Z; wide_of_words : list Z -> W;
}.
Definition wide_add `{Wide W} (x y : W) : W := cvalue (add_with_carry x y).
Definition wide_sub `{Wide W} (x y : W) : W := cvalue (sub_with_carry x y).

Definition num_words `{Wide W} : nat := Z.to_nat (num_bits (W := W) / 64).

(** [n] bytes of a number, least significant first. *)
Notation bytes := le_bytes.

Class WideLaws W `{Wide W} := {
  bits_words : num_bits (W := W) = 64 * Z.of_nat (num_words (W := W)) /\ (2 <= num_words (W := W))%nat;
  number_range : forall x : W, wide_ok x -> 0 <= number x < 2 ^ num_bits (W := W);
  number_inj : forall x y : W, wide_ok x -> wide_ok y -> number x = number y -> x = y;
  of_u64_ok : forall w, in_u64 w -> wide_ok (of_u64 (W := W) w) /\ number (of_u64 (W := W) w) = w;
  add_ok : forall x y : W, wide_ok x -> wide_ok y -> wide_ok (wide_add x y) /\
    number (wide_add x y) + 2 ^ num_bits (W := W) * Z.b2z (carry (add_with_carry x y)) = number x + number y;
  sub_ok : forall x y : W, wide_ok x -> wide_ok y -> wide_ok (wide_sub x y) /\
    number (wide_sub x y) - 2 ^ num_bits (W := W) * Z.b2z (carry (sub_with_carry x y)) = number x - number y;
  or_ok : forall x y : W, wide_ok x -> wide_ok y -> wide_ok (bit_or x y) /\ number (bit_or x y) = Z.lor (number x) (number y);
  and_ok : forall x y : W, wide_ok x -> wide_ok y -> wide_ok (bit_and x y) /\ number (bit_and x y) = Z.land (number x) (number y);
  xor_ok : forall x y : W, wide_ok x -> wide_ok y -> wide_ok (bit_xor x y) /\ number (bit_xor x y) = Z.lxor (number x) (number y);
  not_ok : forall x : W, wide_ok x -> wide_ok (bit_not x) /\ number (bit_not x) = 2 ^ num_bits (W := W) - 1 - number x;
  shl_ok : forall (x : W) s, wide_ok x -> 0 <= s -> wide_ok (shift_left x s) /\
    number (shift_left x s) = (number x * 2 ^ s) mod 2 ^ num_bits (W := W);
  shr_ok : forall (x : W) s, wide_ok x -> 0 <= s -> wide_ok (shift_right x s) /\ number (shift_right x s) = number x / 2 ^ s;
  eqb_ok : forall x y : W, wide_ok x -> wide_ok y -> wide_eqb x y = (number x =? number y);
  ltb_ok : forall x y : W, wide_ok x -> wide_ok y -> wide_ltb x y = (number x <? number y);
  clz_ok : forall x : W, wide_ok x -> wide_clz x = if number x =? 0 then num_bits (W := W) else num_bits (W := W) - 1 - Z.log2 (number x);
  bswap_ok : forall x : W, wide_ok x -> wide_ok (wide_bswap x) /\
    bytes (8 * num_words (W := W)) (number (wide_bswap x)) = rev (bytes (8 * num_words (W := W)) (number x));
  words_ok : forall x : W, wide_ok x -> Forall in_u64 (wide_words x) /\ length (wide_words x) = num_words (W := W) /\
    words_value (wide_words x) = number x;
  of_words_ok : forall l, Forall in_u64 l -> length l = num_words (W := W) ->
    wide_ok (wide_of_words (W := W) l) /\ number (wide_of_words (W := W) l) = words_value l;
}.

(** ** Bits of a number in two parts *)
Section two_parts.
Context (h : Z) (Hh : 0 <= h).
Implicit Types a b c d : Z.

Lemma testbit_parts a b n : 0 <= b < 2 ^ h -> 0 <= n ->
  Z.testbit (a * 2 ^ h + b) n = if n <? h then Z.testbit b n else Z.testbit a (n - h).
Proof.
  intros Hb Hn. destruct (Z.ltb_spec n h) as [Hlt|Hge].
  - rewrite <- (Z.mod_pow2_bits_low _ h n) by lia. rewrite Z.add_comm, Z.mod_add, Z.mod_small by lia. done.
  - replace n with ((n - h) + h) at 1 by lia. rewrite <- Z.div_pow2_bits by lia. rewrite Z.div_add_l, Z.div_small, Z.add_0_r by lia. done.
Qed.

Lemma lor_range a b k : 0 <= k -> 0 <= a < 2 ^ k -> 0 <= b < 2 ^ k -> 0 <= Z.lor a b < 2 ^ k.
Proof.
  intros Hk Ha Hb. assert (0 <= Z.lor a b) as H0 by (apply Z.lor_nonneg; lia). split; [done|].
  destruct (Z.eq_dec (Z.lor a b) 0) as [->|]; [lia|]. apply Z.log2_lt_pow2; [lia|]. rewrite Z.log2_lor by lia.
  destruct (Z.eq_dec k 0) as [->|]; [assert (a = 0) by lia; assert (b = 0) by lia; subst; done|].
  apply Z.max_lub_lt; [destruct (Z.eq_dec a 0) as [->|]|destruct (Z.eq_dec b 0) as [->|]]; cbn; try lia; apply Z.log2_lt_pow2; lia.
Qed.
Lemma land_range a b k : 0 <= a < 2 ^ k -> 0 <= b -> 0 <= Z.land a b < 2 ^ k.
Proof.
  intros Ha Hb. assert (0 <= Z.land a b) by (apply Z.land_nonneg; lia). split; [done|].
  pose proof (Z.land_nonneg a b). assert (Z.land a b <= a); [|lia].
  assert (Z.land a b + Z.ldiff a b = a) as He by (rewrite Z.add_nocarry_lxor; [apply Z.bits_inj'; intros n Hn;
    rewrite Z.lxor_spec, Z.land_spec, Z.ldiff_spec; by destruct (Z.testbit a n), (Z.testbit b n)|apply Z.bits_inj'; intros n Hn;
    rewrite !Z.land_spec, Z.ldiff_spec, Z.bits_0; by destruct (Z.testbit a n), (Z.testbit b n)]).
  assert (0 <= Z.ldiff a b) by (apply Z.ldiff_nonneg; lia). lia.
Qed.
Lemma lxor_range a b k : 0 <= k -> 0 <= a < 2 ^ k -> 0 <= b < 2 ^ k -> 0 <= Z.lxor a b < 2 ^ k.
Proof.
  intros Hk Ha Hb. assert (0 <= Z.lxor a b) by (apply Z.lxor_nonneg; lia). split; [done|].
  pose proof (lor_range a b k Hk Ha Hb). cut (Z.lxor a b <= Z.lor a b); [lia|].
  assert (Z.lxor a b + Z.land a b = Z.lor a b) as He.
  { rewrite Z.add_nocarry_lxor; apply Z.bits_inj'; intros n Hn;
      rewrite ?Z.lor_spec, ?Z.land_spec, ?Z.lxor_spec, ?Z.land_spec, ?Z.bits_0; by destruct (Z.testbit a n), (Z.testbit b n). }
  assert (0 <= Z.land a b) by (apply Z.land_nonneg; lia). lia.
Qed.

Lemma lor_parts a b c d : 0 <= b < 2 ^ h -> 0 <= d < 2 ^ h ->
  Z.lor (a * 2 ^ h + b) (c * 2 ^ h + d) = Z.lor a c * 2 ^ h + Z.lor b d.
Proof.
  intros Hb Hd. apply Z.bits_inj'. intros n Hn. rewrite Z.lor_spec, !testbit_parts by (done || by apply lor_range).
  destruct (n <? h); by rewrite Z.lor_spec.
Qed.
Lemma land_parts a b c d : 0 <= b < 2 ^ h -> 0 <= d < 2 ^ h ->
  Z.land (a * 2 ^ h + b) (c * 2 ^ h + d) = Z.land a c * 2 ^ h + Z.land b d.
Proof.
  intros Hb Hd. apply Z.bits_inj'. intros n Hn. rewrite Z.land_spec, !testbit_parts by (done || (apply land_range; lia)).
  destruct (n <? h); by rewrite Z.land_spec.
Qed.
Lemma lxor_parts a b c d : 0 <= b < 2 ^ h -> 0 <= d < 2 ^ h ->
  Z.lxor (a * 2 ^ h + b) (c * 2 ^ h + d) = Z.lxor a c * 2 ^ h + Z.lxor b d.
Proof.
  intros Hb Hd. apply Z.bits_inj'. intros n Hn. rewrite Z.lxor_spec, !testbit_parts by (done || by apply lxor_range).
  destruct (n <? h); by rewrite Z.lxor_spec.
Qed.

(** Two halves moved left by less than a half: what leaves the lower one enters the upper. *)
Lemma shl_parts a b s : 0 <= b < 2 ^ h -> 0 <= s < h ->
  let a' := Z.lor ((a * 2 ^ s) mod 2 ^ h) (b / 2 ^ (h - s)) in let b' := (b * 2 ^ s) mod 2 ^ h in
  0 <= a' < 2 ^ h /\ a' * 2 ^ h + b' = ((a * 2 ^ h + b) * 2 ^ s) mod 2 ^ (2 * h).
Proof.
  intros Hb Hs. assert (2 ^ h = 2 ^ (h - s) * 2 ^ s) as Hp by (rewrite <- Z.pow_add_r by lia; f_equal; lia).
  assert (0 < 2 ^ s) by lia. assert (0 < 2 ^ (h - s)) by lia. cbv zeta.
  assert (0 <= b / 2 ^ (h - s) < 2 ^ s) as Hq by (split; [apply Z.div_pos; lia|apply Z.div_lt_upper_bound; lia]).
  assert ((a * 2 ^ s) mod 2 ^ h = (a mod 2 ^ (h - s)) * 2 ^ s) as Ha by (rewrite Hp; apply Z.mul_mod_distr_r; lia).
  rewrite Ha, lor_shifted by lia. pose proof (Z.mod_pos_bound a (2 ^ (h - s)) ltac:(lia)) as Hm.
  assert ((b * 2 ^ s) mod 2 ^ h = (b mod 2 ^ (h - s)) * 2 ^ s) as Hb' by (rewrite Hp; apply Z.mul_mod_distr_r; lia).
  split; [rewrite Hp; assert (a mod 2 ^ (h - s) * 2 ^ s <= (2 ^ (h - s) - 1) * 2 ^ s) by (apply Z.mul_le_mono_nonneg_r; lia); lia|].
  rewrite Hb'. replace (2 * h) with (h + h) by lia. rewrite Z.pow_add_r by lia.
  pose proof (Z.div_mod a (2 ^ (h - s)) ltac:(lia)) as Hda. pose proof (Z.div_mod b (2 ^ (h - s)) ltac:(lia)) as Hdb.
  pose proof (Z.mod_pos_bound b (2 ^ (h - s)) ltac:(lia)) as Hmb.
  apply (Z.mod_unique _ _ (a / 2 ^ (h - s))).
  - left. set (x := a mod 2 ^ (h - s)) in *. set (y := b mod 2 ^ (h - s)) in *. set (z := b / 2 ^ (h - s)) in *.
    assert (y * 2 ^ s < 2 ^ h) by (rewrite Hp; apply Z.mul_lt_mono_pos_r; lia).
    assert (x * 2 ^ s + z <= 2 ^ h - 1) as Hle by (rewrite Hp; assert (x * 2 ^ s <= (2 ^ (h - s) - 1) * 2 ^ s) by (apply Z.mul_le_mono_nonneg_r; lia); lia).
    assert ((x * 2 ^ s + z) * 2 ^ h <= (2 ^ h - 1) * 2 ^ h) by (apply Z.mul_le_mono_nonneg_r; lia).
    assert (0 <= (x * 2 ^ s + z) * 2 ^ h) by (apply Z.mul_nonneg_nonneg; lia). assert (0 <= y * 2 ^ s) by (apply Z.mul_nonneg_nonneg; lia). lia.
  - rewrite Hda at 1. rewrite Hdb at 1. rewrite Hp. ring.
Qed.

(** And right. *)
Lemma shr_parts a b s : 0 <= a < 2 ^ h -> 0 <= b < 2 ^ h -> 0 <= s < h ->
  let b' := Z.lor (b / 2 ^ s) ((a * 2 ^ (h - s)) mod 2 ^ h) in
  0 <= b' < 2 ^ h /\ (a / 2 ^ s) * 2 ^ h + b' = (a * 2 ^ h + b) / 2 ^ s.
Proof.
  intros Ha Hb Hs. assert (2 ^ h = 2 ^ s * 2 ^ (h - s)) as Hp by (rewrite <- Z.pow_add_r by lia; f_equal; lia).
  assert (0 < 2 ^ s) by lia. assert (0 < 2 ^ (h - s)) by lia. cbv zeta.
  assert ((a * 2 ^ (h - s)) mod 2 ^ h = (a mod 2 ^ s) * 2 ^ (h - s)) as -> by (rewrite Hp; apply Z.mul_mod_distr_r; lia).
  assert (0 <= b / 2 ^ s < 2 ^ (h - s)) as Hq by (split; [apply Z.div_pos; lia|apply Z.div_lt_upper_bound; lia]).
  rewrite Z.lor_comm, lor_shifted by lia. pose proof (Z.mod_pos_bound a (2 ^ s) ltac:(lia)) as Hm.
  pose proof (Z.div_mod a (2 ^ s) ltac:(lia)) as Hda. set (x := a mod 2 ^ s) in *. set (q := a / 2 ^ s) in *. split.
  - rewrite Hp. assert (x * 2 ^ (h - s) <= (2 ^ s - 1) * 2 ^ (h - s)) by (apply Z.mul_le_mono_nonneg_r; lia).
    assert (0 <= x * 2 ^ (h - s)) by (apply Z.mul_nonneg_nonneg; lia). lia.
  - rewrite Hda. replace ((2 ^ s * q + x) * 2 ^ h + b) with (b + (q * 2 ^ h + x * 2 ^ (h - s)) * 2 ^ s) by (rewrite Hp; ring).
    rewrite Z.div_add by lia. ring.
Qed.

(** The bytes of two parts, and of what they are in the other order. *)
Lemma bytes_parts k a b : h = 8 * Z.of_nat k -> 0 <= b < 2 ^ h -> forall m, bytes (k + m) (a * 2 ^ h + b) = bytes k b ++ bytes m a.
Proof.
  intros -> Hb m. revert a b Hb. clear Hh. induction k as [|k IH]; intros a b Hb; cbn [plus le_bytes app].
  - change (2 ^ (8 * Z.of_nat 0)) with 1 in *. replace b with 0 by lia. f_equal. lia.
  - assert (2 ^ (8 * Z.of_nat (S k)) = 256 * 2 ^ (8 * Z.of_nat k)) as Hp.
    { change 256 with (2 ^ 8). rewrite <- Z.pow_add_r by lia. f_equal. lia. }
    rewrite Hp in *. f_equal.
    + replace (a * (256 * 2 ^ (8 * Z.of_nat k)) + b) with (b + (a * 2 ^ (8 * Z.of_nat k)) * 256) by ring. by apply Z.mod_add.
    + rewrite <- IH by (split; [apply Z.div_pos; lia|apply Z.div_lt_upper_bound; lia]). f_equal.
      replace (a * (256 * 2 ^ (8 * Z.of_nat k)) + b) with (b + (a * 2 ^ (8 * Z.of_nat k)) * 256) by ring. rewrite Z.div_add by lia. lia.
Qed.
End two_parts.

Section far_shifts.
Context (h : Z) (Hh : 0 <= h).
Lemma shl_far a b s : h <= s -> ((a * 2 ^ h + b) * 2 ^ s) mod 2 ^ (2 * h) = ((b * 2 ^ (s - h)) mod 2 ^ h) * 2 ^ h.
Proof.
  intros Hs. assert (2 ^ s = 2 ^ (s - h) * 2 ^ h) as Hp by (rewrite <- Z.pow_add_r by lia; f_equal; lia).
  replace (2 * h) with (h + h) by lia. rewrite Z.pow_add_r by lia.
  rewrite <- Z.mul_mod_distr_r by lia. rewrite Hp.
  replace ((a * 2 ^ h + b) * (2 ^ (s - h) * 2 ^ h)) with (b * 2 ^ (s - h) * 2 ^ h + a * 2 ^ (s - h) * (2 ^ h * 2 ^ h)) by ring.
  apply Z.mod_add. lia.
Qed.
Lemma shl_out x s k : 0 <= k <= s -> (x * 2 ^ s) mod 2 ^ k = 0.
Proof.
  intros Hs. replace s with ((s - k) + k) by lia. rewrite Z.pow_add_r by lia. rewrite Z.mul_assoc. apply Z.mod_mul. lia.
Qed.
Lemma shr_far a b s : h <= s -> 0 <= b < 2 ^ h -> (a * 2 ^ h + b) / 2 ^ s = a / 2 ^ (s - h).
Proof.
  intros Hs Hb. replace (2 ^ s) with (2 ^ h * 2 ^ (s - h)) by (rewrite <- Z.pow_add_r by lia; f_equal; lia).
  rewrite <- Z.div_div by lia. rewrite Z.div_add_l, (Z.div_small b), Z.add_0_r by lia. done.
Qed.
Lemma shr_out x s k : 0 <= x < 2 ^ k -> k <= s -> x / 2 ^ s = 0.
Proof. intros Hx Hs. apply Z.div_small. split; [lia|]. eapply Z.lt_le_trans; [apply Hx|]. apply Z.pow_le_mono_r; lia. Qed.
End far_shifts.

(** ** Bytes *)
Notation byte_range := (fun b => 0 <= b < 256).
Lemma bytes_value l : Forall byte_range l -> bytes (length l) (le_value l) = l.
Proof.
  induction 1 as [|b l Hb _ IH]; cbn [length le_bytes le_value]; [done|].
  replace (b + 256 * le_value l) with (b + le_value l * 256) by ring. rewrite Z.mod_add, Z.mod_small, Z.div_add, Z.div_small, Z.add_0_l by lia. by rewrite IH.
Qed.
Lemma bytes_ok k n : Forall byte_range (bytes k n).
Proof. revert n. induction k as [|k IH]; intros n; cbn [le_bytes]; constructor; [apply Z.mod_pos_bound; lia|apply IH]. Qed.
Lemma le_value_range l : Forall byte_range l -> 0 <= le_value l < 256 ^ Z.of_nat (length l).
Proof.
  induction 1 as [|b l Hb _ IH]; cbn [length le_value]; [done|]. rewrite Nat2Z.inj_succ, Z.pow_succ_r by lia. lia.
Qed.
Lemma bytes_inj k x y : 0 <= x < 256 ^ Z.of_nat k -> 0 <= y < 256 ^ Z.of_nat k -> bytes k x = bytes k y -> x = y.
Proof. intros Hx Hy H. by rewrite <- (le_value_bytes k x Hx), H, le_value_bytes. Qed.

(** [__builtin_bswap64] *)
Definition bswap64 (x : Z) : Z := le_value (rev (bytes 8 x)).
Lemma bswap64_ok x : in_u64 (bswap64 x) /\ bytes 8 (bswap64 x) = rev (bytes 8 x).
Proof.
  assert (length (rev (bytes 8 x)) = 8%nat) as Hl by by rewrite length_rev, le_bytes_length.
  assert (Forall byte_range (rev (bytes 8 x))) as Hb by apply Forall_rev, bytes_ok. split.
  - pose proof (le_value_range _ Hb) as Hr. rewrite Hl in Hr. exact Hr.
  - unfold bswap64. rewrite <- Hl at 1. by apply bytes_value.
Qed.

(** ** 128 bits *)
Definition eq128 (x y : uint128) : bool := (lo x =? lo y) && (hi x =? hi y).
Definition ne128 (x y : uint128) : bool := negb (lo x =? lo y) || negb (hi x =? hi y).
Definition le128 (x y : uint128) : bool := negb (lt128 y x).
Definition gt128 (x y : uint128) : bool := lt128 y x.
Definition ge128 (x y : uint128) : bool := negb (lt128 x y).
Definition not128 (x : uint128) : uint128 := U128 (u64 (Z.lnot (hi x))) (u64 (Z.lnot (lo x))).
Definition and128 (x y : uint128) : uint128 := U128 (Z.land (hi x) (hi y)) (Z.land (lo x) (lo y)).
Definition xor128 (x y : uint128) : uint128 := U128 (Z.lxor (hi x) (hi y)) (Z.lxor (lo x) (lo y)).
Definition shr128 (x : uint128) (shift : Z) : uint128 :=
  if shift <? 64 then
    U128 (Z.shiftr (hi x) shift) (Z.lor (Z.shiftr (lo x) shift) (u64 (Z.shiftl (u64 (Z.shiftl (hi x) 1)) (63 - shift))))
  else if shift <? 128 then U128 0 (Z.shiftr (hi x) (shift - 64))
  else U128 0 0.
(** Shifts by a 128-bit number. *)
Definition shl128_wide (x shift : uint128) : uint128 := if lt128 shift (word128 128) then shl128 x (u32 (lo shift)) else word128 0.
Definition shr128_wide (x shift : uint128) : uint128 := if lt128 shift (word128 128) then shr128 x (u32 (lo shift)) else word128 0.
Definition neg128 (x : uint128) : uint128 := sub128 (word128 0) x.
(** [++x] and [--x]. *)
Definition inc128 (x : uint128) : uint128 := add128 x (word128 1).
Definition dec128 (x : uint128) : uint128 := sub128 x (word128 1).
Definition clz128 (x : uint128) : Z := if hi x =? 0 then clz64 (lo x) + 64 else clz64 (hi x).
Definition bswap128 (x : uint128) : uint128 := U128 (bswap64 (lo x)) (bswap64 (hi x)).
(** The count of leading zeros without the compiler's help: [w] bits, halving. *)
Fixpoint clz_generic_loop (i : nat) (n x : Z) : Z :=
  let s := Z.shiftl 1 (Z.of_nat i) in
  let hi := Z.shiftr x s in
  let '(n, x) := if negb (hi =? 0) then (n - s, hi) else (n, x) in
  match i with O => n - x | S i' => clz_generic_loop i' n x end.
Definition clz_generic32 (x : Z) : Z := clz_generic_loop 4 32 x.
Definition clz_generic64 (x : Z) : Z := clz_generic_loop 5 64 x.

Lemma u64_mod z : u64 z = z mod 2 ^ 64.
Proof. done. Qed.
Lemma u64_lnot x : in_u64 x -> u64 (Z.lnot x) = 2 ^ 64 - 1 - x.
Proof. intros Hx. unfold in_u64 in Hx. unfold Z.lnot. apply u64_eq_mod; [unfold in_u64; lia|]. rewrite <- (Z.mod_add (Z.pred (- x)) 1) by lia. f_equal. lia. Qed.
Lemma value128_parts x : value128 x = hi x * 2 ^ 64 + lo x.
Proof. done. Qed.

Lemma shl128_ok x s : ok128 x -> 0 <= s -> ok128 (shl128 x s) /\ value128 (shl128 x s) = (value128 x * 2 ^ s) mod 2 ^ 128.
Proof.
  intros [Hh Hl] Hs. unfold shl128. rewrite (value128_parts x). change 128 with (2 * 64) at 3.
  destruct (Z.ltb_spec s 64) as [H1|H1]; [|destruct (Z.ltb_spec s 128) as [H2|H2]].
  - rewrite !Z.shiftl_mul_pow2, !Z.shiftr_div_pow2, Z.div_div by lia. rewrite <- Z.pow_add_r by lia. replace (1 + (63 - s)) with (64 - s) by lia.
    destruct (shl_parts 64 ltac:(lia) (hi x) (lo x) s Hl ltac:(lia)) as [Hr Hv]. split; [split; [exact Hr|apply u64_range]|exact Hv].
  - rewrite Z.shiftl_mul_pow2 by lia. split; [split; [apply u64_range|unfold in_u64; cbn; lia]|].
    rewrite shl_far by lia. unfold value128. cbn [hi lo]. rewrite u64_mod. lia.
  - rewrite shl_out by lia. split; [split; unfold in_u64; cbn; lia|done].
Qed.
Lemma shr128_ok x s : ok128 x -> 0 <= s -> ok128 (shr128 x s) /\ value128 (shr128 x s) = value128 x / 2 ^ s.
Proof.
  intros [Hh Hl] Hs. pose proof Hh as Hh'. unfold in_u64 in Hh'. unfold shr128. rewrite (value128_parts x).
  destruct (Z.ltb_spec s 64) as [H1|H1]; [|destruct (Z.ltb_spec s 128) as [H2|H2]].
  - rewrite !Z.shiftl_mul_pow2, !Z.shiftr_div_pow2, u64_mul_l by lia. rewrite <- Z.mul_assoc, <- Z.pow_add_r by lia. replace (1 + (63 - s)) with (64 - s) by lia.
    destruct (shr_parts 64 ltac:(lia) (hi x) (lo x) s Hh Hl ltac:(lia)) as [Hr Hv]. split; [split; [|exact Hr]|exact Hv]. cbn [hi].
    split; [apply Z.div_pos; lia|]. apply Z.div_lt_upper_bound; [lia|]. assert (1 <= 2 ^ s) by lia. nia.
  - rewrite Z.shiftr_div_pow2, shr_far by (done || lia). split; [split; [unfold in_u64; cbn; lia|]|unfold value128; cbn [hi lo]; lia].
    cbn [lo]. split; [apply Z.div_pos; lia|]. apply Z.div_lt_upper_bound; [lia|]. assert (1 <= 2 ^ (s - 64)) by lia. nia.
  - rewrite (shr_out _ s 128); [split; [split; unfold in_u64; cbn; lia|done]| |lia]. unfold in_u64 in *. lia.
Qed.

Lemma log2_parts a b h : 0 < a -> 0 <= h -> 0 <= b < 2 ^ h -> Z.log2 (a * 2 ^ h + b) = Z.log2 a + h.
Proof.
  intros Ha Hh Hb. apply Z.log2_unique; [pose proof (Z.log2_nonneg a); lia|]. pose proof (Z.log2_spec a Ha) as [H1 H2].
  rewrite <- Z.add_succ_l, !Z.pow_add_r by (pose proof (Z.log2_nonneg a); lia).
  assert (2 ^ Z.log2 a * 2 ^ h <= a * 2 ^ h) by (apply Z.mul_le_mono_nonneg_r; lia).
  assert ((a + 1) * 2 ^ h <= 2 ^ Z.succ (Z.log2 a) * 2 ^ h) by (apply Z.mul_le_mono_nonneg_r; lia). lia.
Qed.

#[export] Instance wide128 : Wide uint128 := {|
  num_bits := 128; number := value128; wide_ok := ok128; of_u64 := word128;
  add_with_carry := add_with_carry128; sub_with_carry := sub_with_carry128;
  bit_or := or128; bit_and := and128; bit_xor := xor128; bit_not := not128; shift_left := shl128; shift_right := shr128;
  wide_eqb := eq128; wide_ltb := lt128; wide_clz := clz128; wide_bswap := bswap128;
  wide_words x := [lo x; hi x]; wide_of_words l := U128 (word l 1) (word l 0);
|}.
#[export] Instance wide128_laws : WideLaws uint128.
Proof.
  split; cbn [num_bits number wide_ok of_u64 wide128]; change (num_words (W := uint128)) with 2%nat.
  - split; [done|lia].
  - apply value128_range.
  - apply value128_inj.
  - intros w Hw. split; [by apply ok_word128|apply value_word128].
  - intros x y. apply add_with_carry128_value.
  - intros x y. apply sub_with_carry128_value.
  - intros x y [Hxh Hxl] [Hyh Hyl]. split; [split; by apply lor_range|]. rewrite (value128_parts x), (value128_parts y), lor_parts by (done || lia). done.
  - intros x y [Hxh Hxl] [Hyh Hyl]. split; [split; apply land_range; unfold in_u64 in *; lia|].
    rewrite (value128_parts x), (value128_parts y), land_parts by (done || lia). done.
  - intros x y [Hxh Hxl] [Hyh Hyl]. split; [split; by apply lxor_range|]. rewrite (value128_parts x), (value128_parts y), lxor_parts by (done || lia). done.
  - intros x [Hh Hl]. change (bit_not x) with (not128 x). split; [split; apply u64_range|]. unfold value128, not128. cbn [hi lo]. rewrite !u64_lnot by done. lia.
  - apply shl128_ok.
  - apply shr128_ok.
  - intros x y [Hxh Hxl] [Hyh Hyl]. change (wide_eqb x y) with (eq128 x y). unfold eq128, value128, in_u64 in *.
    destruct (Z.eqb_spec (lo x) (lo y)), (Z.eqb_spec (hi x) (hi y)), (Z.eqb_spec (hi x * 2 ^ 64 + lo x) (hi y * 2 ^ 64 + lo y)); cbn; done || lia.
  - apply lt128_value.
  - intros x [Hh Hl]. change (wide_clz x) with (clz128 x). unfold clz128, clz64. rewrite (value128_parts x). unfold in_u64 in *.
    destruct (Z.eqb_spec (hi x) 0) as [->|Hne].
    + rewrite Z.mul_0_l, Z.add_0_l. destruct (Z.eqb_spec (lo x) 0); lia.
    + rewrite (proj2 (Z.eqb_neq _ 0)) by lia. rewrite log2_parts by lia. lia.
  - intros x [Hh Hl]. change (wide_bswap x) with (bswap128 x). destruct (bswap64_ok (lo x)) as [Ol Bl]. destruct (bswap64_ok (hi x)) as [Oh Bh].
    split; [by split|]. rewrite !value128_parts. change (8 * 2)%nat with (8 + 8)%nat.
    rewrite !(bytes_parts 64) by (done || lia). cbn [hi lo bswap128]. by rewrite rev_app_distr, Bh, Bl.
  - intros x [Hh Hl]. change (wide_words x) with [lo x; hi x]. split; [by apply Forall_cons_2; [|apply Forall_cons_2; [|apply Forall_nil_2]]|]. split; [done|]. unfold value128. cbn [words_value]. lia.
  - intros l Hl Hlen. destruct l as [|a [|b [|]]]; try done. inversion Hl as [|?? Ha Hl']. inversion Hl' as [|?? Hb _].
    change (wide_of_words [a; b]) with (U128 b a). split; [split; done|]. unfold value128. cbn [hi lo words_value]. lia.
Qed.

(** ** Twice the width: [uint<N>] on [uint<N / 2>] *)
Record double (W : Type) := Double { upper : W; lower : W }.
Arguments Double {W}. Arguments upper {W}. Arguments lower {W}.

Section double_ops.
Context `{wide : Wide W}.
Notation h := (num_bits (W := W)).
Definition wide_zero : W := of_u64 0.

Definition double_add_with_carry (a b : double W) : with_carry (double W) :=
  let l := add_with_carry (lower a) (lower b) in
  let tt := add_with_carry (upper a) (upper b) in
  let u := add_with_carry (cvalue tt) (of_u64 (Z.b2z (carry l))) in
  WithCarry (Double (cvalue u) (cvalue l)) (carry tt || carry u).
Definition double_sub_with_carry (a b : double W) : with_carry (double W) :=
  let l := sub_with_carry (lower a) (lower b) in
  let tt := sub_with_carry (upper a) (upper b) in
  let u := sub_with_carry (cvalue tt) (of_u64 (Z.b2z (carry l))) in
  WithCarry (Double (cvalue u) (cvalue l)) (carry tt || carry u).
(** The part that moves from one half to the other is moved in two steps: one by all of the
    width would not be defined. *)
Definition double_shl (x : double W) (shift : Z) : double W :=
  if shift <? h then
    let l := shift_left (lower x) shift in
    let rshift := h - shift in
    let lo_overflow := shift_right (shift_right (lower x) (rshift - 1)) 1 in
    Double (bit_or (shift_left (upper x) shift) lo_overflow) l
  else if shift <? 2 * h then Double (shift_left (lower x) (shift - h)) wide_zero
  else Double wide_zero wide_zero.
Definition double_shr (x : double W) (shift : Z) : double W :=
  if shift <? h then
    let u := shift_right (upper x) shift in
    let lshift := h - shift in
    let hi_overflow := shift_left (shift_left (upper x) (lshift - 1)) 1 in
    Double u (bit_or (shift_right (lower x) shift) hi_overflow)
  else if shift <? 2 * h then Double wide_zero (shift_right (upper x) (shift - h))
  else Double wide_zero wide_zero.
Definition double_eqb (a b : double W) : bool := wide_eqb (lower a) (lower b) && wide_eqb (upper a) (upper b).
Definition double_ltb (a b : double W) : bool :=
  wide_ltb (upper a) (upper b) || (wide_eqb (upper a) (upper b) && wide_ltb (lower a) (lower b)).
Definition double_clz (x : double W) : Z := if wide_eqb (upper x) wide_zero then wide_clz (lower x) + h else wide_clz (upper x).

#[export] Instance wide_double : Wide (double W) := {|
  num_bits := 2 * h; number x := number (upper x) * 2 ^ h + number (lower x);
  wide_ok x := wide_ok (upper x) /\ wide_ok (lower x); of_u64 w := Double wide_zero (of_u64 w);
  add_with_carry := double_add_with_carry; sub_with_carry := double_sub_with_carry;
  bit_or x y := Double (bit_or (upper x) (upper y)) (bit_or (lower x) (lower y));
  bit_and x y := Double (bit_and (upper x) (upper y)) (bit_and (lower x) (lower y));
  bit_xor x y := Double (bit_xor (upper x) (upper y)) (bit_xor (lower x) (lower y));
  bit_not x := Double (bit_not (upper x)) (bit_not (lower x));
  shift_left := double_shl; shift_right := double_shr; wide_eqb := double_eqb; wide_ltb := double_ltb;
  wide_clz := double_clz; wide_bswap x := Double (wide_bswap (lower x)) (wide_bswap (upper x));
  wide_words x := wide_words (lower x) ++ wide_words (upper x);
  wide_of_words l := Double (wide_of_words (drop num_words l)) (wide_of_words (take num_words l));
|}.
End double_ops.

Section double_laws.
Context `{laws : WideLaws W}.
Notation h := (num_bits (W := W)).
Notation B := (2 ^ num_bits (W := W)).
Implicit Types x y : double W.

Lemma h_pos : 128 <= h.
Proof. pose proof bits_words as [Hb Hn]. lia. Qed.
Lemma zero_ok : wide_ok (wide_zero (W := W)) /\ number (wide_zero (W := W)) = 0.
Proof. apply of_u64_ok. unfold in_u64. lia. Qed.
Lemma double_words_count : num_words (W := double W) = (num_words (W := W) + num_words (W := W))%nat.
Proof.
  unfold num_words at 1. cbn [num_bits wide_double]. pose proof bits_words as [Hb _]. rewrite Hb.
  replace (2 * (64 * Z.of_nat (num_words (W := W)))) with (2 * Z.of_nat (num_words (W := W)) * 64) by ring. rewrite Z.div_mul by lia. lia.
Qed.
Lemma double_base : 2 ^ (2 * h) = B * B.
Proof. pose proof h_pos. replace (2 * h) with (h + h) by lia. apply Z.pow_add_r; lia. Qed.

Lemma double_carry_ok c : wide_ok (of_u64 (W := W) (Z.b2z c)) /\ number (of_u64 (W := W) (Z.b2z c)) = Z.b2z c.
Proof. apply of_u64_ok, b2z_word. Qed.

Lemma double_add_ok x y : wide_ok x -> wide_ok y -> wide_ok (wide_add x y) /\
  number (wide_add x y) + 2 ^ num_bits (W := double W) * Z.b2z (carry (add_with_carry x y)) = number x + number y.
Proof.
  intros [Hxu Hxl] [Hyu Hyl]. unfold wide_add. cbn [add_with_carry wide_double double_add_with_carry cvalue carry number wide_ok num_bits upper lower].
  destruct (add_ok (lower x) (lower y) Hxl Hyl) as [Ol El]. destruct (add_ok (upper x) (upper y) Hxu Hyu) as [Ou Eu].
  unfold wide_add in *. destruct (double_carry_ok (carry (add_with_carry (lower x) (lower y)))) as [Oc Ec].
  destruct (add_ok _ _ Ou Oc) as [Ot Et]. unfold wide_add in *. rewrite Ec in Et. split; [done|]. rewrite double_base.
  pose proof (number_range _ Ou) as R1. pose proof (number_range _ Ot) as R2. pose proof (number_range _ Hxu) as R3. pose proof (number_range _ Hyu) as R4.
  set (c1 := carry (add_with_carry (upper x) (upper y))) in *. set (t := add_with_carry _ (of_u64 _)) in *. set (c2 := carry t) in *.
  set (c0 := carry (add_with_carry (lower x) (lower y))) in *.
  assert (Z.b2z c1 + Z.b2z c2 <= 1) as Hc by (destruct c1, c2, c0; cbn in *; lia). rewrite b2z_or by done.
  transitivity ((number (cvalue t) + B * Z.b2z c2 + B * Z.b2z c1) * B + number (cvalue (add_with_carry (lower x) (lower y)))); [ring|].
  rewrite Et. transitivity ((number (cvalue (add_with_carry (upper x) (upper y))) + B * Z.b2z c1) * B +
    (number (cvalue (add_with_carry (lower x) (lower y))) + B * Z.b2z c0)); [ring|]. rewrite Eu, El. ring.
Qed.

Lemma double_sub_ok x y : wide_ok x -> wide_ok y -> wide_ok (wide_sub x y) /\
  number (wide_sub x y) - 2 ^ num_bits (W := double W) * Z.b2z (carry (sub_with_carry x y)) = number x - number y.
Proof.
  intros [Hxu Hxl] [Hyu Hyl]. unfold wide_sub. cbn [sub_with_carry wide_double double_sub_with_carry cvalue carry number wide_ok num_bits upper lower].
  destruct (sub_ok (lower x) (lower y) Hxl Hyl) as [Ol El]. destruct (sub_ok (upper x) (upper y) Hxu Hyu) as [Ou Eu].
  unfold wide_sub in *. destruct (double_carry_ok (carry (sub_with_carry (lower x) (lower y)))) as [Oc Ec].
  destruct (sub_ok _ _ Ou Oc) as [Ot Et]. unfold wide_sub in *. rewrite Ec in Et. split; [done|]. rewrite double_base.
  pose proof (number_range _ Ou) as R1. pose proof (number_range _ Ot) as R2. pose proof (number_range _ Hxu) as R3. pose proof (number_range _ Hyu) as R4.
  set (c1 := carry (sub_with_carry (upper x) (upper y))) in *. set (t := sub_with_carry _ (of_u64 _)) in *. set (c2 := carry t) in *.
  set (c0 := carry (sub_with_carry (lower x) (lower y))) in *.
  assert (Z.b2z c1 + Z.b2z c2 <= 1) as Hc by (destruct c1, c2, c0; cbn in *; lia). rewrite b2z_or by done.
  transitivity ((number (cvalue t) - B * Z.b2z c2 - B * Z.b2z c1) * B + number (cvalue (sub_with_carry (lower x) (lower y)))); [ring|].
  rewrite Et. transitivity ((number (cvalue (sub_with_carry (upper x) (upper y))) - B * Z.b2z c1) * B +
    (number (cvalue (sub_with_carry (lower x) (lower y))) - B * Z.b2z c0)); [ring|]. rewrite Eu, El. ring.
Qed.

Lemma double_shl_ok x s : wide_ok x -> 0 <= s -> wide_ok (double_shl x s) /\
  number (double_shl x s) = (number x * 2 ^ s) mod 2 ^ num_bits (W := double W).
Proof.
  intros [Hu Hl] Hs. pose proof h_pos as Hh. pose proof zero_ok as [Oz Ez]. pose proof (number_range _ Hl) as Rl.
  unfold double_shl. cbn [number wide_ok num_bits wide_double].
  destruct (Z.ltb_spec s h) as [H1|H1]; [|destruct (Z.ltb_spec s (2 * h)) as [H2|H2]]; cbn [upper lower].
  - destruct (shl_ok (lower x) s Hl Hs) as [Ol El]. destruct (shl_ok (upper x) s Hu Hs) as [Ou Eu].
    assert (0 <= h - s - 1) as Hk by lia. destruct (shr_ok (lower x) _ Hl Hk) as [O1 E1]. destruct (shr_ok _ 1 O1 ltac:(lia)) as [O2 E2].
    destruct (or_ok _ _ Ou O2) as [Oo Eo]. split; [done|]. rewrite Eo, El, Eu, E2, E1, Z.div_div, <- Z.pow_add_r by lia.
    replace (h - s - 1 + 1) with (h - s) by lia. by apply shl_parts; lia.
  - assert (0 <= s - h) as Hk by lia. destruct (shl_ok (lower x) _ Hl Hk) as [Ol El]. split; [done|]. rewrite Ez, El, shl_far by lia. ring.
  - split; [done|]. rewrite Ez, shl_out by lia. ring.
Qed.
Lemma double_shr_ok x s : wide_ok x -> 0 <= s -> wide_ok (double_shr x s) /\ number (double_shr x s) = number x / 2 ^ s.
Proof.
  intros [Hu Hl] Hs. pose proof h_pos as Hh. pose proof zero_ok as [Oz Ez]. pose proof (number_range _ Hl) as Rl. pose proof (number_range _ Hu) as Ru.
  unfold double_shr. cbn [number wide_ok num_bits wide_double].
  destruct (Z.ltb_spec s h) as [H1|H1]; [|destruct (Z.ltb_spec s (2 * h)) as [H2|H2]]; cbn [upper lower].
  - destruct (shr_ok (lower x) s Hl Hs) as [Ol El]. destruct (shr_ok (upper x) s Hu Hs) as [Ou Eu].
    assert (0 <= h - s - 1) as Hk by lia. destruct (shl_ok (upper x) _ Hu Hk) as [O1 E1]. destruct (shl_ok _ 1 O1 ltac:(lia)) as [O2 E2].
    destruct (or_ok _ _ Ol O2) as [Oo Eo]. split; [done|]. rewrite Eo, El, Eu, E2, E1, Z.mul_mod_idemp_l by lia.
    rewrite <- Z.mul_assoc, <- Z.pow_add_r by lia. replace (h - s - 1 + 1) with (h - s) by lia. by apply shr_parts; lia.
  - assert (0 <= s - h) as Hk by lia. destruct (shr_ok (upper x) _ Hu Hk) as [Ou Eu]. split; [done|]. rewrite Ez, Eu, shr_far by lia. ring.
  - split; [done|]. rewrite Ez. rewrite (shr_out _ s (2 * h)); [ring| |lia]. rewrite double_base. nia.
Qed.

#[export] Instance wide_double_laws : WideLaws (double W).
Proof.
  pose proof h_pos as Hh. pose proof zero_ok as [Oz Ez]. pose proof bits_words as [Hbits Hnw].
  split.
  - rewrite double_words_count. cbn [num_bits wide_double]. lia.
  - intros x [Hu Hl]. apply number_range in Hu, Hl. cbn [number wide_double num_bits]. rewrite double_base. nia.
  - intros [xu xl] [yu yl] [Hxu Hxl] [Hyu Hyl] Heq. cbn [number wide_double upper lower] in *.
    pose proof (number_range _ Hxl). pose proof (number_range _ Hyl).
    assert (number xu = number yu) as Hup by nia. f_equal; apply number_inj; done || lia.
  - intros w Hw. destruct (of_u64_ok (W := W) w Hw) as [Ow Ew]. cbn [number of_u64 wide_ok wide_double upper lower]. split; [done|]. lia.
  - apply double_add_ok.
  - apply double_sub_ok.
  - intros x y [Hxu Hxl] [Hyu Hyl]. destruct (or_ok _ _ Hxu Hyu) as [Ou Eu]. destruct (or_ok _ _ Hxl Hyl) as [Ol El].
    cbn [bit_or number wide_ok wide_double upper lower]. split; [done|]. rewrite lor_parts, Eu, El by (lia || by apply number_range). done.
  - intros x y [Hxu Hxl] [Hyu Hyl]. destruct (and_ok _ _ Hxu Hyu) as [Ou Eu]. destruct (and_ok _ _ Hxl Hyl) as [Ol El].
    cbn [bit_and number wide_ok wide_double upper lower]. split; [done|]. rewrite land_parts, Eu, El by (lia || by apply number_range). done.
  - intros x y [Hxu Hxl] [Hyu Hyl]. destruct (xor_ok _ _ Hxu Hyu) as [Ou Eu]. destruct (xor_ok _ _ Hxl Hyl) as [Ol El].
    cbn [bit_xor number wide_ok wide_double upper lower]. split; [done|]. rewrite lxor_parts, Eu, El by (lia || by apply number_range). done.
  - intros x [Hu Hl]. destruct (not_ok _ Hu) as [Ou Eu]. destruct (not_ok _ Hl) as [Ol El].
    cbn [bit_not number wide_ok wide_double upper lower num_bits]. split; [done|]. rewrite Eu, El, double_base. ring.
  - apply double_shl_ok.
  - apply double_shr_ok.
  - intros x y [Hxu Hxl] [Hyu Hyl]. cbn [wide_eqb wide_double number]. unfold double_eqb. rewrite !eqb_ok by done.
    pose proof (number_range _ Hxl). pose proof (number_range _ Hyl).
    destruct (Z.eqb_spec (number (lower x)) (number (lower y))) as [->|], (Z.eqb_spec (number (upper x)) (number (upper y))) as [->|]; cbn [andb];
      symmetry; [apply Z.eqb_refl|apply Z.eqb_neq; nia..].
  - intros x y [Hxu Hxl] [Hyu Hyl]. cbn [wide_ltb wide_double number]. unfold double_ltb. rewrite !eqb_ok, !ltb_ok by done.
    pose proof (number_range _ Hxl). pose proof (number_range _ Hyl).
    destruct (Z.ltb_spec (number (upper x)) (number (upper y))); cbn [orb]; [symmetry; apply Z.ltb_lt; nia|].
    destruct (Z.eqb_spec (number (upper x)) (number (upper y))) as [->|]; cbn [andb]; [|symmetry; apply Z.ltb_ge; nia].
    destruct (Z.ltb_spec (number (lower x)) (number (lower y))); symmetry; [apply Z.ltb_lt|apply Z.ltb_ge]; lia.
  - intros x [Hu Hl]. cbn [wide_clz wide_double number num_bits]. unfold double_clz. rewrite eqb_ok, Ez, !clz_ok by done.
    pose proof (number_range _ Hl). pose proof (number_range _ Hu). destruct (Z.eqb_spec (number (upper x)) 0) as [->|Hne].
    + rewrite Z.mul_0_l, Z.add_0_l. destruct (Z.eqb_spec (number (lower x)) 0); lia.
    + rewrite (proj2 (Z.eqb_neq (_ + _) 0)) by nia. rewrite log2_parts by lia. lia.
  - intros x [Hu Hl]. rewrite double_words_count. destruct (bswap_ok _ Hu) as [Ou Bu]. destruct (bswap_ok _ Hl) as [Ol Bl].
    cbn [wide_bswap wide_ok wide_double number upper lower]. split; [done|].
    replace (8 * (num_words (W := W) + num_words (W := W)))%nat with (8 * num_words (W := W) + 8 * num_words (W := W))%nat by lia.
    rewrite !(bytes_parts h) by (lia || by apply number_range). by rewrite rev_app_distr, Bu, Bl.
  - intros x [Hu Hl]. rewrite double_words_count. destruct (words_ok _ Hu) as (Wu & Lu & Vu). destruct (words_ok _ Hl) as (Wl & Ll & Vl).
    cbn [wide_words wide_double number]. split; [by apply Forall_app|]. rewrite length_app, Lu, Ll. split; [done|].
    rewrite words_value_app, Vu, Vl, Ll, Hbits. ring.
  - intros l Hl Hlen. rewrite double_words_count in Hlen. destruct (of_words_ok (W := W) (take num_words l)) as [Ol El]; [by apply Forall_take|rewrite length_take; lia|].
    destruct (of_words_ok (W := W) (drop num_words l)) as [Ou Eu]; [by apply Forall_drop|rewrite length_drop; lia|].
    cbn [wide_of_words wide_double wide_ok number upper lower]. split; [done|].
    rewrite Eu, El, (words_value_split num_words l), length_take_le, Hbits by lia. ring.
Qed.
End double_laws.
