(* ===== verification/IntxSigned.v ===== *)
(** * Signs, comparisons and division of the wide integers (intx.hpp)

    Negation, comparisons, shifts by a number of the same width, division without and with
    signs ([udivrem], [sdivrem]), on any type with the interface of IntxWide.v. *)
From S2P Require Import Prelude.
From S2P Require Import Params.
From S2P Require Import Intx.
From S2P Require Import IntxDiv.
From S2P Require Import IntxArith.
From S2P Require Import IntxBy2.
From S2P Require Import IntxLong.
From S2P Require Import IntxWide.
From stdpp Require Import base list.
Open Scope Z_scope.

(** ** Operations *)
Section operations.
Context `{wide : Wide W}.

Definition wide_ne (x y : W) : bool := negb (wide_eqb x y).
Definition wide_gt (x y : W) : bool := wide_ltb y x.
Definition wide_ge (x y : W) : bool := negb (wide_ltb x y).
Definition wide_le (x y : W) : bool := negb (wide_ltb y x).
Definition wide_neg (x : W) : W := wide_add (bit_not x) (of_u64 1).

(** Shifts by a number of the same width. *)
Definition shl_wide (x shift : W) : W := if wide_ltb shift (of_u64 (num_bits (W := W))) then shift_left x (u32 (number shift)) else wide_zero.
Definition shr_wide (x shift : W) : W := if wide_ltb shift (of_u64 (num_bits (W := W))) then shift_right x (u32 (number shift)) else wide_zero.

Definition udivrem (u v : W) : div_result W :=
  let x := udivrem_words (wide_words u) (wide_words v) in
  DivResult (wide_of_words (quot x)) (wide_of_words (rem x)).
(** [sdivrem], with the negation and the division it uses. *)
Definition sdivrem_with (neg : W -> W) (udivrem : W -> W -> div_result W) (u v : W) : div_result W :=
  let sign_mask := shift_left (of_u64 1) (num_bits (W := W) - 1) in
  let u_is_neg := wide_ne (bit_and u sign_mask) wide_zero in
  let v_is_neg := wide_ne (bit_and v sign_mask) wide_zero in
  let u_abs := if u_is_neg then neg u else u in
  let v_abs := if v_is_neg then neg v else v in
  let q_is_neg := xorb u_is_neg v_is_neg in
  let res := udivrem u_abs v_abs in
  DivResult (if q_is_neg then neg (quot res) else quot res) (if u_is_neg then neg (rem res) else rem res).
Definition sdivrem : W -> W -> div_result W := sdivrem_with wide_neg udivrem.
End operations.

(** Negation and division, as they should be. *)
Definition negates `{Wide W} (neg : W -> W) : Prop := forall x, wide_ok x ->
  wide_ok (neg x) /\ number (neg x) = (- number x) mod 2 ^ num_bits (W := W).
Definition divides `{Wide W} (div : W -> W -> div_result W) : Prop := forall x y, wide_ok x -> wide_ok y -> number y <> 0 ->
  wide_ok (quot (div x y)) /\ wide_ok (rem (div x y)) /\
  number (quot (div x y)) = number x / number y /\ number (rem (div x y)) = number x mod number y.

(** The division [operator/] and [to_string] use: at 128 bits another than at more. *)
Class Division (W : Type) := div_rem : W -> W -> div_result W.

(** ** What they compute *)
Section arithmetic.
Context `{laws : WideLaws W}.
Notation bits := (num_bits (W := W)).
Implicit Types x y : W.

Lemma bits_pos : 128 <= bits.
Proof. pose proof bits_words as [Hb Hn]. lia. Qed.
Lemma one_ok : wide_ok (of_u64 (W := W) 1) /\ number (of_u64 (W := W) 1) = 1.
Proof. apply of_u64_ok. unfold in_u64. lia. Qed.
Lemma add_mod x y : wide_ok x -> wide_ok y -> wide_ok (wide_add x y) /\ number (wide_add x y) = (number x + number y) mod 2 ^ bits.
Proof.
  intros Hx Hy. destruct (add_ok x y Hx Hy) as [Ho He]. split; [done|]. pose proof (number_range _ Ho).
  apply (Z.mod_unique _ _ (Z.b2z (carry (add_with_carry x y)))); lia.
Qed.
Lemma sub_mod x y : wide_ok x -> wide_ok y -> wide_ok (wide_sub x y) /\ number (wide_sub x y) = (number x - number y) mod 2 ^ bits.
Proof.
  intros Hx Hy. destruct (sub_ok x y Hx Hy) as [Ho He]. split; [done|]. pose proof (number_range _ Ho).
  apply (Z.mod_unique _ _ (- Z.b2z (carry (sub_with_carry x y)))); lia.
Qed.
Lemma add_small x y : wide_ok x -> wide_ok y -> number x + number y < 2 ^ bits -> wide_ok (wide_add x y) /\ number (wide_add x y) = number x + number y.
Proof.
  intros Hx Hy Hlt. destruct (add_mod x y Hx Hy) as [Ho He]. split; [done|]. rewrite He. apply number_range in Hx, Hy. apply Z.mod_small. lia.
Qed.
Lemma neg_ok : negates (wide_neg (W := W)).
Proof.
  intros x Hx. destruct (not_ok x Hx) as [On En]. destruct one_ok as [O1 E1]. destruct (add_mod _ _ On O1) as [Oa Ea].
  split; [done|]. unfold wide_neg. rewrite Ea, En, E1. rewrite <- (Z.mod_add (- number x) 1) by (pose proof bits_pos; lia). f_equal. lia.
Qed.
Lemma ne_ok x y : wide_ok x -> wide_ok y -> wide_ne x y = negb (number x =? number y).
Proof. intros Hx Hy. unfold wide_ne. by rewrite eqb_ok. Qed.
Lemma ne_zero x : wide_ok x -> wide_ne x wide_zero = negb (number x =? 0).
Proof. intros Hx. destruct (zero_ok (W := W)) as [O E]. by rewrite ne_ok, E. Qed.

(** Division: that of the words. *)
Lemma udivrem_ok : divides (udivrem (W := W)).
Proof.
  intros x y Hx Hy Hne. destruct (words_ok x Hx) as (Wx & Lx & Vx). destruct (words_ok y Hy) as (Wy & Ly & Vy).
  destruct (udivrem_words_value (wide_words x) (wide_words y)) as [Hq Hr Wq Wr Lq Lr]; [done..|congruence|congruence|].
  destruct (of_words_ok (W := W) _ Wq) as [Oq Eq]; [congruence|]. destruct (of_words_ok (W := W) _ Wr) as [Or Er]; [congruence|].
  unfold udivrem. cbn [quot rem]. rewrite Eq, Er, Hq, Hr, Vx, Vy. done.
Qed.

(** The number with a sign that a word represents. *)
Definition signed x : Z := if number x <? 2 ^ (bits - 1) then number x else number x - 2 ^ bits.
Definition swrap (z : Z) : Z := (z + 2 ^ (bits - 1)) mod 2 ^ bits - 2 ^ (bits - 1).

Lemma two_halves : 2 ^ bits = 2 * 2 ^ (bits - 1) /\ 0 < 2 ^ (bits - 1).
Proof. pose proof bits_pos. split; [rewrite <- Z.pow_succ_r by lia; f_equal; lia|lia]. Qed.
Lemma signed_swrap x z : wide_ok x -> number x = z mod 2 ^ bits -> signed x = swrap z.
Proof.
  intros Hx Hz. pose proof two_halves as [H2 Hp]. pose proof (number_range x Hx) as Hr. unfold signed, swrap.
  assert (2 ^ bits <> 0) as Hnz by lia. pose proof (Z.div_mod z _ Hnz) as Hd. rewrite <- Hz in Hd. set (k := z / 2 ^ bits) in *.
  destruct (Z.ltb_spec (number x) (2 ^ (bits - 1))) as [Hlt|Hge].
  - assert ((z + 2 ^ (bits - 1)) mod 2 ^ bits = number x + 2 ^ (bits - 1)) as ->; [|lia]. symmetry. apply (Z.mod_unique _ _ k); lia.
  - assert ((z + 2 ^ (bits - 1)) mod 2 ^ bits = number x - 2 ^ (bits - 1)) as ->; [|lia]. symmetry. apply (Z.mod_unique _ _ (k + 1)); lia.
Qed.
Lemma signed_range x : wide_ok x -> - 2 ^ (bits - 1) <= signed x < 2 ^ (bits - 1) /\ number x = signed x mod 2 ^ bits.
Proof.
  intros Hx. pose proof two_halves as [H2 Hp]. pose proof (number_range x Hx) as Hr. unfold signed.
  destruct (Z.ltb_spec (number x) (2 ^ (bits - 1))); (split; [lia|]); [by rewrite Z.mod_small by lia|].
  apply (Z.mod_unique _ _ (-1)); lia.
Qed.

Lemma sign_ok x : wide_ok x -> wide_ne (bit_and x (shift_left (of_u64 1) (bits - 1))) wide_zero = (signed x <? 0).
Proof.
  intros Hx. pose proof bits_pos. pose proof two_halves as [H2 Hp]. destruct one_ok as [O1 E1].
  assert (0 <= bits - 1) as Hb1 by lia. destruct (shl_ok _ _ O1 Hb1) as [Om Em]. rewrite E1, Z.mul_1_l, Z.mod_small in Em by lia.
  destruct (and_ok _ _ Hx Om) as [Oa Ea]. rewrite (ne_zero _ Oa), Ea, Em. pose proof (number_range x Hx) as Hr.
  assert (Z.land (number x) (2 ^ (bits - 1)) = if number x <? 2 ^ (bits - 1) then 0 else 2 ^ (bits - 1)) as ->.
  { apply Z.bits_inj'. intros n Hn. rewrite Z.land_spec, Z.pow2_bits_eqb by lia.
    destruct (Z.eqb_spec (bits - 1) n) as [<-|Hne]; [|rewrite andb_false_r; destruct (number x <? _); [by rewrite Z.bits_0|by rewrite Z.pow2_bits_false by lia]].
    rewrite andb_true_r, Z.testbit_odd, Z.shiftr_div_pow2 by lia. destruct (Z.ltb_spec (number x) (2 ^ (bits - 1))) as [Hlt|Hge].
    - rewrite Z.div_small by lia. by rewrite Z.bits_0.
    - rewrite Z.pow2_bits_true by lia. assert (number x / 2 ^ (bits - 1) = 1) as ->; [|done].
      symmetry. apply (Z.div_unique _ _ _ (number x - 2 ^ (bits - 1))); lia. }
  unfold signed. destruct (Z.ltb_spec (number x) (2 ^ (bits - 1))).
  - cbn. symmetry. apply Z.ltb_ge. lia.
  - rewrite (proj2 (Z.eqb_neq _ 0)) by lia. symmetry. apply Z.ltb_lt. lia.
Qed.

(** The magnitude of a signed number. *)
Lemma abs_ok neg x : negates neg -> wide_ok x -> let a := if signed x <? 0 then neg x else x in wide_ok a /\ number a = Z.abs (signed x).
Proof.
  intros Hneg' Hx. destruct (signed_range x Hx) as [Hr Hn]. pose proof two_halves as [H2 Hp]. cbv zeta.
  destruct (Z.ltb_spec (signed x) 0) as [Hneg|Hpos].
  - destruct (Hneg' x Hx) as [Oa Ea]. split; [done|]. rewrite Ea, Hn, <- Z.sub_0_l, Zminus_mod_idemp_r, Z.sub_0_l, Z.mod_small by lia. lia.
  - split; [done|]. rewrite Hn, Z.mod_small by lia. lia.
Qed.

Definition divides_signed (r : div_result W) x y : Prop :=
  wide_ok (quot r) /\ wide_ok (rem r) /\
  signed (quot r) = swrap (Z.quot (signed x) (signed y)) /\ signed (rem r) = Z.rem (signed x) (signed y).
Lemma sdivrem_with_ok neg div x y : negates neg -> divides div -> wide_ok x -> wide_ok y -> signed y <> 0 ->
  divides_signed (sdivrem_with neg div x y) x y.
Proof.
  intros neg_ok div_ok Hx Hy Hne. unfold divides_signed, sdivrem_with. cbv zeta. rewrite !sign_ok by done. cbn [quot rem].
  destruct (abs_ok neg x neg_ok Hx) as [Ox Ex]. destruct (abs_ok neg y neg_ok Hy) as [Oy Ey]. cbv zeta in Ox, Ex, Oy, Ey.
  set (ux := if signed x <? 0 then neg x else x) in *. set (uy := if signed y <? 0 then neg y else y) in *.
  destruct (div_ok ux uy Ox Oy) as (Oq & Or & Eq & Er); [lia|]. rewrite Ex, Ey in Eq, Er.
  pose proof two_halves as [H2 Hp]. destruct (signed_range x Hx) as [Rx _]. destruct (signed_range y Hy) as [Ry _].
  set (X := signed x) in *. set (Y := signed y) in *. set (q := quot (div ux uy)) in *. set (r := rem (div ux uy)) in *.
  pose proof (Z.quot_div X Y Hne) as Hqd. pose proof (Z.rem_mod X Y Hne) as Hrm. rewrite <- Eq in Hqd. rewrite <- Er in Hrm.
  assert (0 <= number r < 2 ^ (bits - 1)) as Hrr.
  { rewrite Er. pose proof (Z.mod_pos_bound (Z.abs X) (Z.abs Y)). pose proof (Z.mod_le (Z.abs X) (Z.abs Y)). lia. }
  pose proof (number_range q Oq) as Rq. split; [|split; [|split]].
  - destruct (xorb _ _); [by apply neg_ok|done].
  - destruct (X <? 0); [by apply neg_ok|done].
  - assert (Z.quot X Y = if xorb (X <? 0) (Y <? 0) then - number q else number q) as Hq.
    { rewrite Hqd. destruct (Z.ltb_spec X 0), (Z.ltb_spec Y 0); cbn [xorb];
        try rewrite (Z.sgn_neg X) by lia; try rewrite (Z.sgn_neg Y) by lia; try rewrite (Z.sgn_pos Y) by lia;
        destruct (Z.eq_dec X 0) as [->|]; try rewrite (Z.sgn_pos X) by lia; try lia;
        rewrite Z.sgn_0; rewrite Eq; cbn [Z.abs]; rewrite Z.div_0_l by lia; lia. }
    rewrite Hq. destruct (xorb _ _).
    + destruct (neg_ok q Oq) as [On En]. by apply signed_swrap.
    + apply signed_swrap; [done|]. by rewrite Z.mod_small.
  - rewrite Hrm. destruct (Z.ltb_spec X 0).
    + destruct (neg_ok r Or) as [On En]. rewrite (signed_swrap _ (- number r) On En). unfold swrap.
      rewrite Z.mod_small by lia. rewrite Z.sgn_neg by lia. lia.
    + unfold signed. rewrite (proj2 (Z.ltb_lt _ _)) by lia. destruct (Z.eq_dec X 0) as [HX|]; [|rewrite Z.sgn_pos by lia; lia].
      rewrite HX in *. rewrite Er. cbn [Z.abs]. rewrite Z.mod_0_l by lia. done.
Qed.
Lemma sdivrem_ok x y : wide_ok x -> wide_ok y -> signed y <> 0 -> divides_signed (sdivrem x y) x y.
Proof. apply sdivrem_with_ok; [apply neg_ok|apply udivrem_ok]. Qed.
End arithmetic.
