(* ===== verification/Intx128.v ===== *)
(** * Division of 128-bit numbers (int128.hpp)

    [udivrem] and [sdivrem] of [uint128], which do not go through arrays of words, and the
    interface [Division] that both they and the division of the wider types provide. *)
From S2P Require Import Prelude.
From S2P Require Import Params.
From S2P Require Import Intx.
From S2P Require Import IntxDiv.
From S2P Require Import IntxArith.
From S2P Require Import IntxBy2.
From S2P Require Import IntxLong.
From S2P Require Import IntxWide.
From S2P Require Import IntxSigned.
From stdpp Require Import base list.
Open Scope Z_scope.

(** ** Operations *)
(** The words of [x] moved left by [lsh], not zero, with what leaves them at the top. *)
Definition shifted_words (x : uint128) (lsh : Z) : Z * Z * Z :=
  let rsh := 64 - lsh in
  (Z.shiftr (hi x) rsh, Z.lor (Z.shiftr (lo x) rsh) (u64 (Z.shiftl (hi x) lsh)), u64 (Z.shiftl (lo x) lsh)).

Definition udivrem128 (x y : uint128) : div_result uint128 :=
  if hi y =? 0 then
    let lsh := clz64 (lo y) in
    let '(xn_ex, xn_hi, xn_lo, yn) :=
      if negb (lsh =? 0) then (shifted_words x lsh, u64 (Z.shiftl (lo y) lsh)) else (0, hi x, lo x, lo y) in
    let v := reciprocal_2by1 yn in
    let res := udivrem_2by1 (U128 xn_ex xn_hi) yn v in
    let q1 := quot res in
    let res := udivrem_2by1 (U128 (rem res) xn_lo) yn v in
    DivResult (U128 q1 (quot res)) (word128 (Z.shiftr (rem res) lsh))
  else if hi x <? hi y then DivResult (word128 0) x
  else
    let lsh := clz64 (hi y) in
    if lsh =? 0 then
      let q := (hi y <? hi x) || (lo y <=? lo x) in
      DivResult (word128 (Z.b2z q)) (sub128 x (if q then y else word128 0))
    else
      let '(_, yn_hi, yn_lo) := shifted_words y lsh in
      let '(xn_ex, xn_hi, xn_lo) := shifted_words x lsh in
      let v := reciprocal_3by2 (U128 yn_hi yn_lo) in
      let res := udivrem_3by2 xn_ex xn_hi xn_lo (U128 yn_hi yn_lo) v in
      DivResult (quot res) (shr128 (rem res) lsh).

Definition sdivrem128 (x y : uint128) : div_result uint128 :=
  let sign_mask := shl128 (word128 1) 127 in
  let x_is_neg := ne128 (and128 x sign_mask) (word128 0) in
  let y_is_neg := ne128 (and128 y sign_mask) (word128 0) in
  let x_abs := if x_is_neg then neg128 x else x in
  let y_abs := if y_is_neg then neg128 y else y in
  let q_is_neg := xorb x_is_neg y_is_neg in
  let res := udivrem128 x_abs y_abs in
  DivResult (if q_is_neg then neg128 (quot res) else quot res) (if x_is_neg then neg128 (rem res) else rem res).

(** ** Normalization *)
Lemma shifted_words_value x s : ok128 x -> 0 < s < 64 ->
  let '(ex, h, l) := shifted_words x s in
  0 <= ex < 2 ^ s /\ in_u64 h /\ in_u64 l /\ ex * 2 ^ 128 + h * 2 ^ 64 + l = value128 x * 2 ^ s.
Proof.
  intros [Hh Hl] Hs. unfold shifted_words. cbv zeta. destruct (shl_word (hi x) s Hh Hs) as (Eh & Re & a & Ha & Ra).
  destruct (shl_word (lo x) s Hl Hs) as (El & Rl & _). split; [done|]. rewrite Z.lor_comm, Ha, lor_shifted by lia.
  assert (2 ^ 64 = 2 ^ (64 - s) * 2 ^ s) as Hp by (rewrite <- Z.pow_add_r by lia; f_equal; lia).
  assert (a * 2 ^ s <= (2 ^ (64 - s) - 1) * 2 ^ s) by (apply Z.mul_le_mono_nonneg_r; lia).
  assert (0 <= a * 2 ^ s) by (apply Z.mul_nonneg_nonneg; lia). split; [unfold in_u64; lia|]. split; [apply u64_range|].
  rewrite <- Ha. unfold value128. lia.
Qed.

(** A numerator of three words over one of a word: two steps. *)
Lemma two_steps d ex h l : 2 ^ 63 <= d < 2 ^ 64 -> 0 <= ex < d -> in_u64 h -> in_u64 l ->
  let v := reciprocal_2by1 d in
  let r1 := udivrem_2by1 (U128 ex h) d v in
  let r0 := udivrem_2by1 (U128 (rem r1) l) d v in
  ok128 (U128 (quot r1) (quot r0)) /\ 0 <= rem r0 < d /\
  ex * 2 ^ 128 + h * 2 ^ 64 + l = value128 (U128 (quot r1) (quot r0)) * d + rem r0.
Proof.
  intros Hd Hex Hh Hl. cbv zeta. rewrite (udivrem_2by1_value d Hd ex h Hex Hh). cbn [quot rem].
  assert (0 < d) as Hd0 by lia. pose proof (Z.mod_pos_bound (ex * 2 ^ 64 + h) d Hd0) as Hm.
  rewrite (udivrem_2by1_value d Hd _ l Hm Hl). cbn [quot rem].
  pose proof (Z.div_mod (ex * 2 ^ 64 + h) d ltac:(lia)) as E1. set (q1 := (ex * 2 ^ 64 + h) / d) in *. set (m1 := (ex * 2 ^ 64 + h) mod d) in *.
  pose proof (Z.mod_pos_bound (m1 * 2 ^ 64 + l) d Hd0) as Hm0.
  pose proof (Z.div_mod (m1 * 2 ^ 64 + l) d ltac:(lia)) as E0. set (q0 := (m1 * 2 ^ 64 + l) / d) in *. set (m0 := (m1 * 2 ^ 64 + l) mod d) in *.
  unfold in_u64 in *. split; [|split; [done|]].
  - split; cbn [hi lo]; unfold in_u64; (split; [apply Z.div_pos; lia|apply Z.div_lt_upper_bound; lia]).
  - unfold value128. cbn [hi lo]. transitivity ((ex * 2 ^ 64 + h) * 2 ^ 64 + l); [ring|]. rewrite E1.
    transitivity (d * q1 * 2 ^ 64 + (m1 * 2 ^ 64 + l)); [ring|]. rewrite E0. ring.
Qed.

(** ** Division *)
Definition divided (x y : uint128) (r : div_result uint128) : Prop :=
  ok128 (quot r) /\ ok128 (rem r) /\ value128 (quot r) = value128 x / value128 y /\ value128 (rem r) = value128 x mod value128 y.

Section udivrem128.
Context (x y : uint128) (Hx : ok128 x) (Hy : ok128 y).

Lemma divided_by_word : hi y = 0 -> lo y <> 0 -> divided x y (udivrem128 x y).
Proof.
  intros H0 Hlo. unfold udivrem128. rewrite H0. change (0 =? 0) with true. cbn [negb]. cbv zeta.
  assert (value128 y = lo y) as Ey by (unfold value128; rewrite H0; lia). pose proof (lo_word y Hy) as Rl. unfold in_u64 in Rl.
  destruct (clz64_spec (lo y)) as [Rs Hs]; [lia|]. set (s := clz64 (lo y)) in *.
  assert (forall ex h l d, 0 <= ex < d -> in_u64 h -> in_u64 l -> d = lo y * 2 ^ s -> 2 ^ 63 <= d < 2 ^ 64 ->
    2 ^ s * value128 x = ex * 2 ^ 128 + h * 2 ^ 64 + l ->
    let v := reciprocal_2by1 d in let r1 := udivrem_2by1 (U128 ex h) d v in let r0 := udivrem_2by1 (U128 (rem r1) l) d v in
    divided x y (DivResult (U128 (quot r1) (quot r0)) (word128 (Z.shiftr (rem r0) s)))) as Hfinal.
  { intros ex h l d Hex Hh Hl Hd Rd HX. destruct (two_steps d ex h l Rd Hex Hh Hl) as (Oq & Rr & E). cbv zeta in *.
    set (r1 := udivrem_2by1 (U128 ex h) d _) in *. set (r0 := udivrem_2by1 (U128 (rem r1) l) d _) in *.
    destruct (shifted_division (value128 x) (lo y) s (value128 (U128 (quot r1) (quot r0))) (rem r0)) as [Dq Dr]; [lia|lia|by rewrite HX, E, Hd|by rewrite <- Hd|].
    pose proof (Z.mod_pos_bound (value128 x) (lo y)). assert (in_u64 (Z.shiftr (rem r0) s)) as Ww by (rewrite Dr; unfold in_u64; lia).
    unfold divided. cbn [quot rem]. rewrite value_word128, Ey. split; [done|]. split; [by apply ok_word128|]. done. }
  destruct (Z.eqb_spec s 0) as [Hz|Hnz]; cbn [negb].
  - apply Hfinal; [lia|apply Hx|apply Hx|rewrite Hz; lia|rewrite Hz in Hs; lia|rewrite Hz; unfold value128; lia].
  - pose proof (shifted_words_value x s Hx ltac:(lia)) as Hw. destruct (shifted_words x s) as [[ex h] l] eqn:Esw. destruct Hw as (Rex & Hh & Hl & E).
    assert (2 ^ s <= 2 ^ 63) by (apply Z.pow_le_mono_r; lia).
    assert (u64 (Z.shiftl (lo y) s) = lo y * 2 ^ s) as Ed by (rewrite Z.shiftl_mul_pow2 by lia; apply u64_small; unfold in_u64; lia).
    rewrite Ed. apply Hfinal; [lia|done|done|done|lia|lia].
Qed.

(** Both moved left, the numerator is three words and the divisor two. *)
Lemma divided_shifted s : s = clz64 (hi y) -> 0 < s < 64 -> hi y <> 0 ->
  divided x y (
    let '(_, yn_hi, yn_lo) := shifted_words y s in
    let '(xn_ex, xn_hi, xn_lo) := shifted_words x s in
    let res := udivrem_3by2 xn_ex xn_hi xn_lo (U128 yn_hi yn_lo) (reciprocal_3by2 (U128 yn_hi yn_lo)) in
    DivResult (quot res) (shr128 (rem res) s)).
Proof.
  intros Hclz Rs H0. pose proof (value128_range x Hx) as Rx. pose proof Hy as [Hyh Hyl].
  destruct (clz64_spec (hi y)) as [_ [Hs1 Hs2]]; [unfold in_u64 in Hyh; lia|]. rewrite <- Hclz in Hs1, Hs2.
  pose proof (shifted_words_value x s Hx Rs) as Hw. destruct (shifted_words x s) as [[ex h] l]. destruct Hw as (Rex & Hh & Hl & E).
  pose proof (shifted_words_value y s Hy Rs) as Hv. destruct (shifted_words y s) as [[ey d1] d0]. destruct Hv as (Rey & Hd1 & Hd0 & Ed).
  assert (2 ^ s <= 2 ^ 63) as Hs63 by (apply Z.pow_le_mono_r; lia). unfold in_u64 in Hyl, Hyh.
  assert (0 <= lo y * 2 ^ s < 2 ^ 64 * 2 ^ s) as Rls by (split; [apply Z.mul_nonneg_nonneg; lia|apply Z.mul_lt_mono_pos_r; lia]).
  assert (value128 y * 2 ^ s = (hi y * 2 ^ s) * 2 ^ 64 + lo y * 2 ^ s) as Eys by (unfold value128; ring).
  assert (value128 x * 2 ^ s < 2 ^ 128 * 2 ^ s) as Rxs by (apply Z.mul_lt_mono_pos_r; lia).
  assert ((hi y + 1) * 2 ^ s <= 2 ^ 64) as Hc.
  { assert (2 ^ 64 = 2 ^ (64 - s) * 2 ^ s) as Hp by (rewrite <- Z.pow_add_r by lia; f_equal; lia). rewrite Hp in Hs2 |- *.
    apply Z.mul_le_mono_nonneg_r; [lia|]. apply Z.mul_lt_mono_pos_r in Hs2; lia. }
  unfold in_u64 in Hd1, Hd0, Hh, Hl. assert (ey = 0) as -> by lia. cbv zeta.
  assert (d1 * 2 ^ 64 + d0 = value128 y * 2 ^ s) as ED by lia. set (D := d1 * 2 ^ 64 + d0) in *.
  assert (0 < value128 y) as Hypos by (unfold value128; lia).
  rewrite (udivrem_3by2_value d1 d0 ltac:(lia) Hd0 ex h l ltac:(unfold in_u64; lia) Hh Hl ltac:(lia)). cbn [quot rem]. fold D.
  set (N := ex * 2 ^ 128 + h * 2 ^ 64 + l) in *.
  pose proof (Z.div_mod N D ltac:(lia)) as Hdm. pose proof (Z.mod_pos_bound N D ltac:(lia)) as Hmb.
  destruct (shifted_division (value128 x) (value128 y) s (N / D) (N mod D)) as [Dq Dr]; [lia|lia|rewrite <- ED; lia|lia|].
  assert (in_u64 (N / D)) as Wq.
  { split; [apply Z.div_pos; lia|]. apply Z.div_lt_upper_bound; [lia|]. lia. }
  destruct (shr128_ok (of_value128 (N mod D)) s (ok_of_value128 _)) as [Or Er]; [lia|].
  rewrite of_value128_value in Er by lia. unfold divided. cbn [quot rem]. rewrite value_word128.
  split; [by apply ok_word128|]. split; [done|]. split; [done|]. rewrite Er, <- Dr, Z.shiftr_div_pow2 by lia. done.
Qed.

Lemma divided_by_two : hi y <> 0 -> divided x y (udivrem128 x y).
Proof.
  intros H0. unfold udivrem128. rewrite (proj2 (Z.eqb_neq _ _)) by done. cbv zeta.
  pose proof (value128_range x Hx) as Rx. pose proof (value128_range y Hy) as Ry.
  pose proof Hx as [Hxh Hxl]. pose proof Hy as [Hyh Hyl]. unfold in_u64 in *.
  destruct (Z.ltb_spec (hi x) (hi y)) as [Hlt|Hge].
  { assert (0 <= value128 x < value128 y) as Hsm by (unfold value128; lia). unfold divided. cbn [quot rem].
    rewrite Z.div_small, Z.mod_small by done. split; [apply ok_word128; unfold in_u64; lia|done]. }
  destruct (clz64_spec (hi y)) as [Rs Hs]; [lia|]. set (s := clz64 (hi y)) in *.
  destruct (Z.eqb_spec s 0) as [Hz|Hnz].
  { rewrite Hz in Hs. assert (((hi y <? hi x) || (lo y <=? lo x)) = (value128 y <=? value128 x)) as ->.
    { unfold value128. destruct (Z.ltb_spec (hi y) (hi x)), (Z.leb_spec (lo y) (lo x)), (Z.leb_spec (hi y * 2 ^ 64 + lo y) (hi x * 2 ^ 64 + lo x)); cbn; done || lia. }
    assert (2 ^ 127 <= value128 y) as Hbig by (unfold value128; lia). unfold divided. cbn [quot rem]. rewrite value_word128.
    split; [apply ok_word128, b2z_word|]. destruct (Z.leb_spec (value128 y) (value128 x)) as [Hle|Hgt]; cbn [Z.b2z].
    - destruct (stands_sub x y _ _ (stands_value x Hx) (stands_value y Hy)) as [Od Ed]. split; [done|].
      rewrite (stands_small (sub128 x y) (value128 x - value128 y)) by (lia || by split).
      split; [apply (Z.div_unique _ _ _ (value128 x - value128 y)); lia|apply (Z.mod_unique _ _ 1); lia].
    - assert (in_u64 0) as W0 by (unfold in_u64; lia).
      destruct (stands_sub x (word128 0) _ _ (stands_value x Hx) (stands_word 0 W0)) as [Od Ed]. split; [done|].
      rewrite (stands_small (sub128 x (word128 0)) (value128 x - 0)) by (lia || by split).
      rewrite Z.div_small, Z.mod_small by lia. split; [done|lia]. }
  apply divided_shifted; [done|lia|done].
Qed.

End udivrem128.

#[export] Instance division128 : Division uint128 := udivrem128.
#[export] Instance division_wider `{Wide W} : Division (double W) := udivrem.
Class DivisionLaws W `{Wide W} `{!Division W} := div_rem_ok : divides (W := W) div_rem.

#[export] Instance division_laws128 : DivisionLaws uint128.
Proof.
  intros x y Hx Hy Hne. change (divided x y (udivrem128 x y)). change (number y) with (value128 y) in Hne.
  destruct (Z.eq_dec (hi y) 0) as [H0|H0]; [|by apply divided_by_two]. apply divided_by_word; [done..|].
  unfold value128 in Hne. rewrite H0 in Hne. lia.
Qed.
#[export] Instance division_laws_wider `{WideLaws W} : DivisionLaws (double W).
Proof. apply udivrem_ok. Qed.

(** ** Division with signs *)
Lemma neg128_ok : negates neg128.
Proof.
  intros x Hx. assert (in_u64 0) as W0 by (unfold in_u64; lia).
  destruct (sub_mod (W := uint128) (word128 0) x) as [Os Es]; [exact (ok_word128 0 W0)|done|]. split; [exact Os|exact Es].
Qed.
Lemma ne128_spec x y : ne128 x y = wide_ne x y.
Proof. unfold ne128, wide_ne. change (wide_eqb x y) with (eq128 x y). unfold eq128. by rewrite negb_andb. Qed.
Lemma sdivrem128_ok x y : wide_ok x -> wide_ok y -> signed y <> 0 -> divides_signed (sdivrem128 x y) x y.
Proof.
  intros Hx Hy Hne. assert (sdivrem128 x y = sdivrem_with neg128 udivrem128 x y) as ->.
  { unfold sdivrem128. rewrite !ne128_spec. done. }
  apply sdivrem_with_ok; [apply neg128_ok|apply division_laws128|done..].
Qed.
