(* ===== verification/IntxLoops.v ===== *)
(** * The operations of the wide integers word by word (intx.hpp)

    Addition, the shift to the left and the two products as loops over the words of the
    arguments, least significant first. [shl_loop] and [add_loop] are the slower variants
    of the recursive operations; [mul_loop_opt] is the product of every width but 256. *)
From S2P Require Import Prelude.
From S2P Require Import Params.
From S2P Require Import Intx.
From S2P Require Import IntxDiv.
From S2P Require Import IntxArith.
From S2P Require Import IntxBy2.
From S2P Require Import IntxLong.
From S2P Require Import IntxWide.
From stdpp Require Import base list.
Open Scope Z_scope.

(** ** Loops *)
Fixpoint add_words (x y : list Z) (k : bool) : list Z :=
  match x, y with
  | a :: x', b :: y' =>
    let z := u64 (a + b) in
    let k1 := z <? a in
    let z := u64 (z + Z.b2z k) in
    z :: add_words x' y' ((z <? Z.b2z k) || k1)
  | _, _ => []
  end.
Definition add_loop (x y : list Z) : list Z := add_words x y false.

(** [skip] words are zero, and the loop fills those above; [carry] is what the word before
    leaves. *)
Fixpoint shl_from (s : Z) (l : list Z) (carry : Z) : list Z :=
  match l with
  | [] => []
  | w :: l' => Z.lor (u64 (Z.shiftl w s)) carry :: shl_from s l' (Z.shiftr (Z.shiftr w (64 - s - 1)) 1)
  end.
Definition shl_loop (x : list Z) (shift : Z) : list Z :=
  let skip := Z.to_nat (shift / 64) in
  repeat 0 skip ++ shl_from (shift mod 64) (take (length x - skip) x) 0.

(** One row of a product: [n] words of [uw] from [i] times [vj] added to [p] from [i + j]. *)
Fixpoint mul_row (uw : list Z) (vj : Z) (j i n : nat) (p : list Z) (k : Z) : list Z * Z :=
  match n with
  | O => (p, k)
  | S n' =>
    let t := add128 (add128 (umul (word uw i) vj) (word128 (word p (i + j)))) (word128 k) in
    mul_row uw vj j (S i) n' (<[(i + j)%nat := lo t]> p) (hi t)
  end.
Fixpoint umul_rows (uw vw : list Z) (num_words j n : nat) (p : list Z) : list Z :=
  match n with
  | O => p
  | S n' =>
    let '(p, k) := mul_row uw (word vw j) j 0 num_words p 0 in
    umul_rows uw vw num_words (S j) n' (<[(j + num_words)%nat := k]> p)
  end.
Definition umul_loop (x y : list Z) : list Z :=
  umul_rows x y (length x) 0 (length x) (repeat 0 (length x + length x)).
Fixpoint mul_rows (uw vw : list Z) (num_words j n : nat) (p : list Z) : list Z :=
  match n with
  | O => p
  | S n' =>
    let '(p, k) := mul_row uw (word vw j) j 0 (num_words - j - 1) p 0 in
    let last := u64 (word p (num_words - 1) + u64 (u64 (word uw (num_words - j - 1) * word vw j) + k)) in
    mul_rows uw vw num_words (S j) n' (<[(num_words - 1)%nat := last]> p)
  end.
Definition mul_loop_opt (u v : list Z) : list Z := mul_rows u v (length u) 0 (length u) (repeat 0 (length u)).

(** ** Addition and shift *)
Lemma add_words_value x : forall y k, words x -> words y -> length x = length y ->
  words (add_words x y k) /\ length (add_words x y k) = length x /\
  words_value (add_words x y k) = (words_value x + words_value y + Z.b2z k) mod radix (length x).
Proof.
  induction x as [|a x IH]; intros [|b y] k Hx Hy Hl; try done; cbn [add_words words_value length].
  { split; [done|]. split; [done|]. change (radix 0) with 1. by rewrite Z.mod_1_r. }
  inversion Hx as [|? ? Ha Hx']; inversion Hy as [|? ? Hb Hy']; subst. injection Hl as Hl. cbv zeta.
  destruct (add_word a b Ha Hb) as [Hz E1]. set (z := u64 (a + b)) in *.
  destruct (add_word z (Z.b2z k) Hz (b2z_word k)) as [Hw E2]. set (w := u64 (z + Z.b2z k)) in *.
  assert ((w <? Z.b2z k) = (w <? z)) as ->.
  { unfold in_u64 in *. destruct k; cbn [Z.b2z] in *; destruct (Z.ltb_spec w 1), (Z.ltb_spec w 0), (Z.ltb_spec w z); cbn [Z.b2z] in E2; lia || done. }
  destruct (IH y ((w <? z) || (z <? a)) Hx' Hy' Hl) as (Wr & Lr & Vr). split; [by constructor|]. split; [by rewrite Lr|].
  rewrite Vr, radix_S. unfold in_u64 in *.
  assert (Z.b2z ((w <? z) || (z <? a)) = Z.b2z (w <? z) + Z.b2z (z <? a)) as Hc.
  { apply b2z_or. destruct k, (w <? z), (z <? a); cbn [Z.b2z] in *; lia. }
  set (T := words_value x + words_value y + Z.b2z ((w <? z) || (z <? a))) in *. pose proof (radix_pos (length x)) as Hp.
  pose proof (Z.div_mod T (radix (length x)) ltac:(lia)) as Hd. pose proof (Z.mod_pos_bound T (radix (length x)) Hp) as Hm.
  apply (Z.mod_unique _ _ (T / radix (length x))); [lia|]. lia.
Qed.
Lemma add_loop_value x y : words x -> words y -> length x = length y ->
  words (add_loop x y) /\ length (add_loop x y) = length x /\
  words_value (add_loop x y) = (words_value x + words_value y) mod radix (length x).
Proof.
  intros Hx Hy Hl. destruct (add_words_value x y false Hx Hy Hl) as (Hw & Hn & Hv). split; [done|]. split; [done|].
  unfold add_loop. rewrite Hv. cbn [Z.b2z]. by rewrite Z.add_0_r.
Qed.

Lemma shl_from_value s l : 0 <= s < 64 -> words l -> forall c, 0 <= c < 2 ^ s ->
  words (shl_from s l c) /\ length (shl_from s l c) = length l /\
  words_value (shl_from s l c) = (words_value l * 2 ^ s + c) mod radix (length l).
Proof.
  intros Hs Hl. induction Hl as [|w l Hw Hl IH]; intros c Hc; cbn [shl_from words_value length].
  { split; [done|]. split; [done|]. change (radix 0) with 1. by rewrite Z.mod_1_r. }
  unfold in_u64 in Hw. assert (2 ^ 64 = 2 ^ (64 - s) * 2 ^ s) as Hp by (rewrite <- Z.pow_add_r by lia; f_equal; lia).
  assert (0 < 2 ^ s) by lia. assert (0 < 2 ^ (64 - s)) by lia.
  assert (Z.shiftr (Z.shiftr w (64 - s - 1)) 1 = w / 2 ^ (64 - s)) as ->.
  { rewrite Z.shiftr_shiftr, Z.shiftr_div_pow2 by lia. do 2 f_equal. lia. }
  assert (0 <= w / 2 ^ (64 - s) < 2 ^ s) as Hc' by (split; [apply Z.div_pos; lia|apply Z.div_lt_upper_bound; lia]).
  destruct (IH _ Hc') as (Wr & Lr & Vr).
  assert (u64 (Z.shiftl w s) = (w mod 2 ^ (64 - s)) * 2 ^ s) as Hsh.
  { rewrite u64_mod, Z.shiftl_mul_pow2 by lia. rewrite Hp at 1. apply Z.mul_mod_distr_r; lia. }
  rewrite Hsh, lor_shifted by lia. pose proof (Z.mod_pos_bound w (2 ^ (64 - s)) ltac:(lia)) as Hm.
  pose proof (Z.div_mod w (2 ^ (64 - s)) ltac:(lia)) as Hd. set (x := w mod 2 ^ (64 - s)) in *. set (q := w / 2 ^ (64 - s)) in *.
  assert (x * 2 ^ s <= (2 ^ (64 - s) - 1) * 2 ^ s) as Hle by (apply Z.mul_le_mono_nonneg_r; lia).
  assert (0 <= x * 2 ^ s) by (apply Z.mul_nonneg_nonneg; lia).
  assert (0 <= x * 2 ^ s + c < 2 ^ 64) as Hword by (rewrite Hp; lia).
  split; [constructor; [exact Hword|done]|]. split; [by rewrite Lr|]. rewrite Vr, radix_S.
  set (T := words_value l * 2 ^ s + q) in *. pose proof (radix_pos (length l)) as Hr.
  pose proof (Z.div_mod T (radix (length l)) ltac:(lia)) as HdT. pose proof (Z.mod_pos_bound T (radix (length l)) Hr) as HmT.
  assert ((w + 2 ^ 64 * words_value l) * 2 ^ s + c = x * 2 ^ s + c + 2 ^ 64 * T) as ->.
  { unfold T. rewrite Hd at 1. rewrite Hp. ring. }
  apply (Z.mod_unique _ _ (T / radix (length l))); [nia|]. rewrite HdT at 1. ring.
Qed.

Lemma shl_loop_value x shift : words x -> 0 <= shift <= 64 * Z.of_nat (length x) ->
  words (shl_loop x shift) /\ length (shl_loop x shift) = length x /\ words_value (shl_loop x shift) = (words_value x * 2 ^ shift) mod radix (length x).
Proof.
  intros Hx Hs. unfold shl_loop. set (skip := Z.to_nat (shift / 64)). cbv zeta.
  pose proof (Z.div_mod shift 64 ltac:(lia)) as Hd. pose proof (Z.mod_pos_bound shift 64 ltac:(lia)) as Hm.
  assert (0 <= shift / 64) as Hq by (apply Z.div_pos; lia).
  assert (shift / 64 = Z.of_nat skip) as Hk by (unfold skip; lia). assert (skip <= length x)%nat as Hle by lia.
  set (s := shift mod 64) in *. set (l := take (length x - skip) x).
  assert (length l = length x - skip)%nat as Hl by (unfold l; rewrite length_take; lia).
  assert (words l) as Wl by by apply Forall_take.
  destruct (shl_from_value s l Hm Wl 0 ltac:(lia)) as (Wr & Lr & Vr).
  split; [apply Forall_app; split; [apply zeros_words|done]|]. split; [rewrite length_app, repeat_length, Lr; lia|].
  rewrite words_value_app, words_value_zeros, repeat_length, Vr, Z.add_0_l, Z.add_0_r, Hl.
  change (2 ^ (64 * Z.of_nat skip)) with (radix skip).
  assert (radix (length x) = radix skip * radix (length x - skip)) as -> by (rewrite <- radix_add; f_equal; lia).
  assert (words_value x = words_value l + radix (length x - skip) * words_value (drop (length x - skip) x)) as ->.
  { rewrite (words_value_split (length x - skip)). rewrite length_take. unfold radix. do 5 f_equal. lia. }
  rewrite <- Z.mul_mod_distr_l by (pose proof (radix_pos skip); pose proof (radix_pos (length x - skip)); lia).
  assert (2 ^ shift = radix skip * 2 ^ s) as ->.
  { unfold radix. rewrite <- Z.pow_add_r by lia. f_equal. lia. }
  rewrite <- (Z.mod_add _ (words_value (drop (length x - skip) x) * 2 ^ s)) by (pose proof (radix_pos skip); pose proof (radix_pos (length x - skip)); nia).
  f_equal. ring.
Qed.

(** ** Products *)
Lemma add_two_words m p k : ok128 m -> in_u64 p -> in_u64 k -> value128 m + p + k < 2 ^ 128 ->
  ok128 (add128 (add128 m (word128 p)) (word128 k)) /\ value128 (add128 (add128 m (word128 p)) (word128 k)) = value128 m + p + k.
Proof.
  intros Hm Hp Hk Hlt. destruct (add128_value m (word128 p) Hm (ok_word128 _ Hp)) as [O1 E1].
  destruct (add128_value _ (word128 k) O1 (ok_word128 _ Hk)) as [O2 E2]. rewrite value_word128 in *.
  apply value128_range in Hm. unfold in_u64 in *. rewrite Z.mod_small in E1 by lia. rewrite E1, Z.mod_small in E2 by lia. done.
Qed.
Lemma row_digit w v p k : in_u64 w -> in_u64 v -> in_u64 p -> in_u64 k ->
  ok128 (add128 (add128 (umul w v) (word128 p)) (word128 k)) /\
  value128 (add128 (add128 (umul w v) (word128 p)) (word128 k)) = w * v + p + k.
Proof.
  intros Hw Hv Hp Hk. pose proof (value_umul w v Hw Hv) as E. destruct (umul_parts w v Hw Hv) as [O _].
  pose proof (product_le w v (2 ^ 64 - 1) (2 ^ 64 - 1)) as Hb. rewrite <- E in *. unfold in_u64 in *. apply add_two_words; unfold in_u64; done || lia.
Qed.

Lemma mul_row_S uw vj j i n p k : exists t, mul_row uw vj j i (S n) p k = mul_row uw vj j (S i) n (<[(i + j)%nat := lo t]> p) (hi t) /\
  t = add128 (add128 (umul (word uw i) vj) (word128 (word p (i + j)))) (word128 k).
Proof. by eexists. Qed.
Lemma mul_row_value uw vj j n : words uw -> in_u64 vj -> forall i p k p' k',
  words p -> in_u64 k -> (i + n + j <= length p)%nat -> mul_row uw vj j i n p k = (p', k') ->
  words p' /\ in_u64 k' /\ length p' = length p /\
  (forall l, (l < i + j \/ i + j + n <= l)%nat -> word p' l = word p l) /\
  seg p' (i + j) n + radix n * k' = seg p (i + j) n + seg uw i n * vj + k.
Proof.
  intros Hu Hv. induction n as [|n IH]; intros i p k p' k' Hp Hk Hlen H.
  { cbn [mul_row] in H. injection H as <- <-. cbn [seg]. change (radix 0) with 1. split_and!; done || lia. }
  destruct (row_digit (word uw i) vj (word p (i + j)) k (words_word _ _ Hu) Hv (words_word _ _ Hp) Hk) as [[Hhi Hlo] Hval].
  destruct (mul_row_S uw vj j i n p k) as (t & Ht & Et). rewrite <- Et in *. rewrite Ht in H. clear Ht Et. rewrite value128_parts in Hval. apply IH in H as (Hp' & Hk' & Hl & Hsame & Heq);
    [|by apply words_insert|done|rewrite length_insert; lia].
  rewrite length_insert in Hl. split; [done|]. split; [done|]. split; [done|]. split.
  { intros l Hl'. rewrite Hsame, word_insert_ne by lia. done. }
  cbn [seg]. rewrite radix_S. change (S i + j)%nat with (S (i + j)) in *. rewrite seg_insert in Heq by lia.
  rewrite Hsame, word_insert_eq by lia.
  transitivity (lo t + 2 ^ 64 * (seg p' (S (i + j)) n + radix n * k')); [ring|]. rewrite Heq.
  transitivity (hi t * 2 ^ 64 + lo t + 2 ^ 64 * (seg p (S (i + j)) n + seg uw (S i) n * vj)); [ring|]. rewrite Hval. ring.
Qed.

Section products.
Context (uw vw : list Z) (N : nat) (Hu : words uw) (Hv : words vw).

Lemma umul_rows_value n : forall j p, words p -> length p = (N + N)%nat -> (j + n = N)%nat ->
  (forall i, (j + N <= i)%nat -> word p i = 0) ->
  let p' := umul_rows uw vw N j n p in
  words p' /\ length p' = (N + N)%nat /\ seg p' 0 (N + N) = seg p 0 (j + N) + radix j * (seg uw 0 N * seg vw j n).
Proof.
  induction n as [|n IH]; intros j p Hp Hlen Hj Hz; cbv zeta; cbn [umul_rows].
  { split; [done|]. split; [done|]. replace (j + N)%nat with (N + N)%nat by lia. cbn [seg]. ring. }
  destruct (mul_row uw (word vw j) j 0 N p 0) as [p1 k] eqn:Hr.
  apply mul_row_value in Hr as (Hp1 & Hk & Hl1 & Hsame & Heq); [|done|by apply words_word|done|done|lia].
  cbn [plus] in Hsame, Heq. rewrite Z.add_0_r in Heq.
  destruct (IH (S j) (<[(j + N)%nat := k]> p1)) as (Wp & Lp & Vp); [by apply words_insert|rewrite length_insert; lia|lia| |].
  { intros i Hi. rewrite word_insert_ne, Hsame by lia. apply Hz. lia. }
  split; [done|]. split; [done|]. rewrite Vp. change (S j + N)%nat with (S (j + N)).
  change (seg vw j (S n)) with (word vw j + 2 ^ 64 * seg vw (S j) n).
  rewrite seg_last, seg_insert, word_insert_eq, radix_S, !(seg_app _ j N), (radix_add j N) by lia. cbn [plus].
  rewrite (seg_ext p1 p j 0) by (intros; apply Hsame; lia).
  transitivity (seg p 0 j + radix j * (seg p1 j N + radix N * k) + radix j * (seg uw 0 N * (2 ^ 64 * seg vw (S j) n))); [ring|].
  rewrite Heq. ring.
Qed.

Lemma mul_rows_value n : forall j p, words p -> length p = N -> (j + n = N)%nat ->
  let p' := mul_rows uw vw N j n p in
  words p' /\ length p' = N /\ exists q, seg p' 0 N + radix N * q = seg p 0 N + radix j * (seg uw 0 N * seg vw j n).
Proof.
  induction n as [|n IH]; intros j p Hp Hlen Hj; cbv zeta; cbn [mul_rows].
  { split; [done|]. split; [done|]. exists 0. cbn [seg]. ring. }
  destruct (mul_row uw (word vw j) j 0 (N - j - 1) p 0) as [p1 k] eqn:Hr.
  assert (N - j - 1 = n)%nat as Hm by lia. rewrite Hm in *.
  apply mul_row_value in Hr as (Hp1 & Hk & Hl1 & Hsame & Heq); [|done|by apply words_word|done|done|lia].
  cbn [plus] in Hsame, Heq. rewrite Z.add_0_r in Heq. rewrite (Hsame (N - 1)%nat) by lia.
  set (last := u64 _).
  assert (exists c, last = word p (N - 1) + word uw n * word vw j + k + 2 ^ 64 * c) as [c Hc].
  { unfold last. change (2 ^ 64) with 18446744073709551616. destruct (u64_shift (word uw n * word vw j)) as [k1 ->].
    destruct (u64_shift (word uw n * word vw j + 18446744073709551616 * k1 + k)) as [k2 ->].
    match goal with |- context [u64 ?z] => destruct (u64_shift z) as [k3 ->] end. exists (k1 + k2 + k3). ring. }
  destruct (IH (S j) (<[(N - 1)%nat := last]> p1)) as (Wp & Lp & q & Vp);
    [apply words_insert; [done|apply u64_range]|rewrite length_insert; lia|lia|].
  split; [done|]. split; [done|]. clearbody last.
  change (seg vw j (S n)) with (word vw j + 2 ^ 64 * seg vw (S j) n).
  assert (N = j + S n)%nat as HN by lia. assert (N - 1 = j + n)%nat as HN1 by lia. rewrite HN1 in *.
  assert (forall l, seg l 0 N = seg l 0 j + radix j * (seg l j n + radix n * word l (j + n))) as Hsplit.
  { intros l. rewrite HN, seg_app, seg_last. done. }
  assert (seg uw 0 N = seg uw 0 n + radix n * word uw n + radix (S n) * seg uw (S n) j) as HuN.
  { replace N with (S n + j)%nat by lia. rewrite seg_app, seg_last. cbn [plus]. done. }
  assert (radix N = radix j * (2 ^ 64 * radix n)) as HrN by (rewrite HN, radix_add, radix_S; done).
  exists (q - c + seg uw (S n) j * word vw j). rewrite Z.mul_add_distr_l, Z.mul_sub_distr_l.
  replace (seg (mul_rows uw vw N (S j) n (<[(j + n)%nat := last]> p1)) 0 N + (radix N * q - radix N * c + radix N * (seg uw (S n) j * word vw j)))
    with ((seg (mul_rows uw vw N (S j) n (<[(j + n)%nat := last]> p1)) 0 N + radix N * q) - radix N * c + radix N * (seg uw (S n) j * word vw j)) by ring.
  rewrite Vp. rewrite (Hsplit (<[_ := _]> _)), (Hsplit p), !seg_insert, word_insert_eq, Hc, radix_S by lia.
  rewrite (seg_ext p1 p j 0) by (intros; apply Hsame; lia). rewrite HrN.
  transitivity (seg p 0 j + radix j * ((seg p1 j n + radix n * k) + radix n * (word p (j + n) + word uw n * word vw j))
    + radix j * (2 ^ 64 * radix n) * (seg uw (S n) j * word vw j) + 2 ^ 64 * radix j * (seg uw 0 N * seg vw (S j) n)); [ring|].
  rewrite Heq. rewrite HuN, radix_S. ring.
Qed.
End products.


Lemma umul_loop_value x y : words x -> words y -> length x = length y ->
  words (umul_loop x y) /\ length (umul_loop x y) = (length x + length x)%nat /\
  words_value (umul_loop x y) = words_value x * words_value y.
Proof.
  intros Hx Hy Hl. unfold umul_loop.
  destruct (umul_rows_value x y (length x) Hx Hy (length x) 0 (repeat 0 (length x + length x))) as (Wp & Lp & Vp);
    [apply zeros_words|apply repeat_length|lia| |].
  { intros i _. unfold word. apply nth_repeat. }
  split; [done|]. split; [done|]. rewrite (words_value_seg _ (length x + length x)) by lia. rewrite Vp.
  rewrite seg_zero by (intros; apply nth_repeat). change (radix 0) with 1.
  rewrite (words_value_seg x (length x)), (words_value_seg y (length x)) by lia. ring.
Qed.
Lemma mul_loop_opt_value x y : words x -> words y -> length x = length y ->
  words (mul_loop_opt x y) /\ length (mul_loop_opt x y) = length x /\
  words_value (mul_loop_opt x y) = (words_value x * words_value y) mod radix (length x).
Proof.
  intros Hx Hy Hl. unfold mul_loop_opt.
  destruct (mul_rows_value x y (length x) Hx Hy (length x) 0 (repeat 0 (length x))) as (Wp & Lp & q & Vp);
    [apply zeros_words|apply repeat_length|lia|].
  split; [done|]. split; [done|]. rewrite (words_value_seg (mul_rows _ _ _ _ _ _) (length x)) by lia.
  rewrite (seg_zero (repeat 0 _)) in Vp by (intros; apply nth_repeat). change (radix 0) with 1 in Vp.
  rewrite <- (words_value_seg x (length x)), <- (words_value_seg y (length x)) in Vp by lia.
  pose proof (seg_range _ (length x) Wp 0) as Hr. apply (Z.mod_unique _ _ q); [lia|]. lia.
Qed.
