(* ===== verification/IntxMul.v ===== *)
(** * Products of the wide integers, powers, arithmetic modulo a number (intx.hpp)

    The interface [Products] is the full product, the product in the same width and the two
    that can run at compile time. 128 bits provide it on words; 256 bits from halves; the
    wider ones take the full product from halves and the other from a loop over words. *)
From S2P Require Import Prelude.
From S2P Require Import Params.
From S2P Require Import Intx.
From S2P Require Import IntxDiv.
From S2P Require Import IntxArith.
From S2P Require Import IntxBy2.
From S2P Require Import IntxLong.
From S2P Require Import IntxWide.
From S2P Require Import IntxSigned.
From S2P Require Import IntxLoops.
From stdpp Require Import base list.
Open Scope Z_scope.

(** ** The interface *)
Class Products (W : Type) `{Wide W} := {
  (** [umul], [operator*], [constexpr_umul], [constexpr_mul] *)
  full_product : W -> W -> double W; product : W -> W -> W;
  constexpr_full_product : W -> W -> double W; constexpr_product : W -> W -> W;
}.
Definition multiplies_fully `{Wide W} (f : W -> W -> double W) : Prop := forall x y, wide_ok x -> wide_ok y ->
  wide_ok (f x y) /\ number (f x y) = number x * number y.
Definition multiplies `{Wide W} (f : W -> W -> W) : Prop := forall x y, wide_ok x -> wide_ok y ->
  wide_ok (f x y) /\ number (f x y) = (number x * number y) mod 2 ^ num_bits (W := W).
Class ProductLaws W `{Products W} := {
  full_product_ok : multiplies_fully full_product; product_ok : multiplies product;
  constexpr_full_product_ok : multiplies_fully constexpr_full_product; constexpr_product_ok : multiplies constexpr_product;
}.

(** ** Operations *)
(** The half type as the full one. *)
Definition of_half `{Wide W} (x : W) : double W := Double wide_zero x.

(** [umul] and [constexpr_umul] of the full type, by that of the half. *)
Definition double_umul `{Wide W} (umul : W -> W -> double W) (x y : double W) : double (double W) :=
  let t0 := umul (lower x) (lower y) in
  let t1 := umul (upper x) (lower y) in
  let t2 := umul (lower x) (upper y) in
  let t3 := umul (upper x) (upper y) in
  let u1 := wide_add t1 (of_half (upper t0)) in
  let u2 := wide_add t2 (of_half (lower u1)) in
  let l := bit_or (shift_left u2 (num_bits (W := W))) (of_half (lower t0)) in
  let u := wide_add (wide_add t3 (of_half (upper u2))) (of_half (upper u1)) in
  Double u l.
(** [mul] and [constexpr_mul]. *)
Definition double_mul `{Wide W} (umul : W -> W -> double W) (mul : W -> W -> W) (a b : double W) : double W :=
  let t := umul (lower a) (lower b) in
  Double (wide_add (wide_add (mul (lower a) (upper b)) (mul (upper a) (lower b))) (upper t)) (lower t).

(** At 128 bits. *)
Definition umul_wide128 (x y : uint128) : double uint128 := Double (hi256 (umul128 x y)) (lo256 (umul128 x y)).
Definition constexpr_umul128 (x y : uint128) : double uint128 :=
  let t0 := constexpr_umul (lo x) (lo y) in
  let t1 := constexpr_umul (hi x) (lo y) in
  let t2 := constexpr_umul (lo x) (hi y) in
  let t3 := constexpr_umul (hi x) (hi y) in
  let u1 := add128 t1 (word128 (hi t0)) in
  let u2 := add128 t2 (word128 (lo u1)) in
  Double (add128 (add128 t3 (word128 (hi u2))) (word128 (hi u1))) (or128 (shl128 u2 64) (word128 (lo t0))).
Definition constexpr_mul128 (x y : uint128) : uint128 :=
  let p := constexpr_umul (lo x) (lo y) in
  U128 (u64 (hi p + u64 (u64 (lo x * hi y) + u64 (hi x * lo y)))) (lo p).
#[export] Instance products128 : Products uint128 := {|
  full_product := umul_wide128; product := mul128;
  constexpr_full_product := constexpr_umul128; constexpr_product := constexpr_mul128 |}.

(** At 256 bits, and at twice the width of a wider type. *)
#[export] Instance products256 : Products (double uint128) := {|
  full_product := double_umul full_product; product := double_mul full_product product;
  constexpr_full_product := double_umul constexpr_full_product;
  constexpr_product := double_mul constexpr_full_product constexpr_product |}.
Definition product_by_words `{Wide W} (x y : W) : W := wide_of_words (mul_loop_opt (wide_words x) (wide_words y)).
#[export] Instance products_wider `{Products (double W)} : Products (double (double W)) := {|
  full_product := double_umul full_product; product := product_by_words;
  constexpr_full_product := double_umul constexpr_full_product;
  constexpr_product := double_mul constexpr_full_product constexpr_product |}.

(** [exp]: the loop runs while the exponent is not zero, at most once for each of its bits. *)
Fixpoint exp_loop `{Products W} (fuel : nat) (base exponent result : W) : W :=
  match fuel with
  | O => result
  | S f =>
    if wide_ne exponent wide_zero then
      let result := if wide_ne (bit_and exponent (of_u64 1)) wide_zero then product result base else result in
      exp_loop f (product base base) (shift_right exponent 1) result
    else result
  end.
Definition exp `{Products W} (base exponent : W) : W :=
  exp_loop (Z.to_nat (num_bits (W := W))) base exponent (of_u64 1).

Definition addmod `{Wide W} (x y m : W) : W :=
  let s := add_with_carry x y in
  lower (rem (udivrem (Double (of_u64 (Z.b2z (carry s))) (cvalue s)) (of_half m))).
Definition mulmod `{Products W} (x y m : W) : W := lower (rem (udivrem (full_product x y) (of_half m))).

(** ** Products *)
Section products.
Context `{laws : WideLaws W}.
Notation B := (2 ^ num_bits (W := W)).

Lemma base_pos : 0 < B.
Proof. pose proof (bits_pos (W := W)). lia. Qed.
Lemma of_half_ok x : wide_ok x -> wide_ok (of_half x) /\ number (of_half x) = number x.
Proof. intros Hx. destruct (zero_ok (W := W)) as [O E]. split; [by split|]. cbn. rewrite E. lia. Qed.
Lemma double_range (x : double W) : wide_ok x -> 0 <= number (upper x) < B /\ 0 <= number (lower x) < B /\
  number x = number (upper x) * B + number (lower x).
Proof. intros [Hu Hl]. split; [by apply number_range|]. split; [by apply number_range|done]. Qed.

(** What a sum of three partial products leaves above and below. *)
Lemma add_half (x : double W) (y : W) : wide_ok x -> wide_ok y -> number x + number y < B * B ->
  wide_ok (wide_add x (of_half y)) /\ number (wide_add x (of_half y)) = number x + number y.
Proof.
  intros Hx Hy Hlt. destruct (of_half_ok y Hy) as [Oh Eh]. destruct (add_small x (of_half y) Hx Oh) as [Oa Ea].
  - rewrite Eh. change (num_bits (W := double W)) with (2 * num_bits (W := W)). by rewrite double_base.
  - split; [done|]. by rewrite Ea, Eh.
Qed.
Lemma shifted_half (x : double W) (y : W) : wide_ok x -> wide_ok y ->
  let r := bit_or (shift_left x (num_bits (W := W))) (of_half y) in
  wide_ok r /\ number r = number (lower x) * B + number y.
Proof.
  intros Hx Hy. destruct (of_half_ok y Hy) as [Oh Eh]. pose proof (bits_pos (W := W)) as Hb. pose proof base_pos as HB.
  assert (0 <= num_bits (W := W)) as Hb0 by lia. destruct (shl_ok x _ Hx Hb0) as [Os Es].
  destruct (or_ok _ _ Os Oh) as [Oo Eo]. cbv zeta. split; [done|]. rewrite Eo, Eh, Es.
  destruct (double_range x Hx) as (Ru & Rl & ->). change (num_bits (W := double W)) with (2 * num_bits (W := W)).
  assert (((number (upper x) * B + number (lower x)) * B) mod 2 ^ (2 * num_bits (W := W)) = number (lower x) * B) as ->.
  { rewrite double_base. symmetry. apply (Z.mod_unique _ _ (number (upper x))); [left; nia|ring]. }
  apply lor_shifted; [done|]. by apply number_range.
Qed.

Lemma double_umul_ok umul : multiplies_fully umul -> multiplies_fully (double_umul umul).
Proof.
  intros Hm x y Hx Hy. unfold double_umul. cbv zeta.
  destruct (double_range x Hx) as (Rxu & Rxl & Ex). destruct (double_range y Hy) as (Ryu & Ryl & Ey).
  destruct Hx as [Oxu Oxl], Hy as [Oyu Oyl].
  destruct (Hm _ _ Oxl Oyl) as [O0 E0]. destruct (Hm _ _ Oxu Oyl) as [O1 E1].
  destruct (Hm _ _ Oxl Oyu) as [O2 E2]. destruct (Hm _ _ Oxu Oyu) as [O3 E3]. pose proof base_pos as HB.
  pose proof (product_le (number (upper x)) (number (lower y)) (B - 1) (B - 1)) as P1.
  pose proof (product_le (number (lower x)) (number (upper y)) (B - 1) (B - 1)) as P2.
  pose proof (product_le (number (upper x)) (number (upper y)) (B - 1) (B - 1)) as P3.
  destruct (double_range _ O0) as (R0u & R0l & D0).
  set (t0 := umul (lower x) (lower y)) in *. set (t1 := umul (upper x) (lower y)) in *.
  set (t2 := umul (lower x) (upper y)) in *. set (t3 := umul (upper x) (upper y)) in *.
  destruct (add_half t1 (upper t0) O1 (proj1 O0)) as [OU1 EU1]; [lia|]. set (u1 := wide_add t1 _) in *.
  destruct (double_range _ OU1) as (RU1u & RU1l & DU1).
  destruct (add_half t2 (lower u1) O2 (proj2 OU1)) as [OU2 EU2]; [lia|]. set (u2 := wide_add t2 _) in *.
  destruct (double_range _ OU2) as (RU2u & RU2l & DU2).
  destruct (add_half t3 (upper u2) O3 (proj1 OU2)) as [OA EA]; [lia|]. set (a := wide_add t3 _) in *.
  destruct (add_half a (upper u1) OA (proj1 OU1)) as [OB EB]; [lia|]. set (b := wide_add a _) in *.
  destruct (shifted_half u2 (lower t0) OU2 (proj2 O0)) as [OL EL].
  split; [by split|]. change (number b * 2 ^ (2 * num_bits (W := W)) + number (bit_or (shift_left u2 (num_bits (W := W))) (of_half (lower t0))) = number x * number y).
  cbv zeta in EL. rewrite EL, EB, EA, double_base, Ex, Ey. nia.
Qed.
Lemma double_mul_ok umul mul : multiplies_fully umul -> multiplies mul -> multiplies (double_mul umul mul).
Proof.
  intros Hf Hm x y Hx Hy. unfold double_mul. cbv zeta.
  destruct (double_range x Hx) as (Rxu & Rxl & Ex). destruct (double_range y Hy) as (Ryu & Ryl & Ey).
  destruct Hx as [Oxu Oxl], Hy as [Oyu Oyl].
  destruct (Hf _ _ Oxl Oyl) as [O0 E0]. destruct (Hm _ _ Oxl Oyu) as [O1 E1]. destruct (Hm _ _ Oxu Oyl) as [O2 E2].
  destruct (double_range _ O0) as (R0u & R0l & D0). set (t := umul (lower x) (lower y)) in *.
  destruct (add_mod _ _ O1 O2) as [O3 E3]. destruct (add_mod _ _ O3 (proj1 O0)) as [O4 E4]. set (s := wide_add (wide_add _ _) _) in *.
  split; [by split; [|apply O0]|]. pose proof base_pos as HB. pose proof (number_range _ O4) as R4.
  change (number s * B + number (lower t) = (number x * number y) mod 2 ^ (2 * num_bits (W := W))). rewrite double_base.
  assert (number s = (number (lower x) * number (upper y) + number (upper x) * number (lower y) + number (upper t)) mod B) as Es.
  { rewrite E4, E3, E1, E2. rewrite <- Z.add_mod by lia. by rewrite Zplus_mod_idemp_l. }
  set (S := number (lower x) * number (upper y) + number (upper x) * number (lower y) + number (upper t)) in *.
  pose proof (Z.div_mod S B) as Hd. rewrite <- Es in Hd. rewrite Ex, Ey.
  apply (Z.mod_unique _ _ (S / B + number (upper x) * number (upper y))); [nia|].
  set (k := S / B) in *. assert (number s = S - B * k) as -> by lia. clearbody k. unfold S.
  transitivity (number (upper x) * number (upper y) * (B * B) + B * (number (lower x) * number (upper y) + number (upper x) * number (lower y))
    + number (lower x) * number (lower y)); [ring|]. rewrite <- E0, D0. ring.
Qed.

(** The loop over the words is the product. *)
Lemma bits_radix : B = radix (num_words (W := W)).
Proof. destruct (bits_words (W := W)) as [-> _]. done. Qed.
Lemma product_by_words_ok : multiplies (product_by_words (W := W)).
Proof.
  intros x y Hx Hy. destruct (words_ok x Hx) as (Wx & Lx & Vx). destruct (words_ok y Hy) as (Wy & Ly & Vy).
  destruct (mul_loop_opt_value _ _ Wx Wy) as (Wp & Lp & Vp); [congruence|]. rewrite Lx in *.
  destruct (of_words_ok (W := W) _ Wp Lp) as [O E]. split; [done|]. unfold product_by_words. rewrite E, Vp, Vx, Vy.
  by rewrite bits_radix.
Qed.
End products.

(** The products at compile time are the others. *)
Lemma constexpr_products128 x y : ok128 x -> ok128 y ->
  constexpr_umul128 x y = umul_wide128 x y /\ constexpr_mul128 x y = mul128 x y.
Proof.
  intros [Hxh Hxl] [Hyh Hyl]. unfold constexpr_umul128, umul_wide128, umul128, constexpr_mul128, mul128.
  by rewrite !constexpr_umul_value by done.
Qed.
Lemma value_pair (p : uint256) : number (Double (hi256 p) (lo256 p)) = value256 p.
Proof. done. Qed.
#[export] Instance product_laws128 : ProductLaws uint128.
Proof.
  assert (multiplies_fully umul_wide128) as Hf.
  { intros x y Hx Hy. destruct (umul128_value x y Hx Hy) as [[Oh Ol] E]. split; [by split|]. unfold umul_wide128. rewrite value_pair. exact E. }
  assert (multiplies mul128) as Hm by (intros x y Hx Hy; by apply mul128_value).
  split; [done|done| |]; intros x y Hx Hy; destruct (constexpr_products128 x y Hx Hy) as [E1 E2]; cbn [constexpr_full_product constexpr_product products128].
  - rewrite E1. by apply Hf.
  - rewrite E2. by apply Hm.
Qed.
#[export] Instance product_laws256 : ProductLaws (double uint128).
Proof.
  split; [apply double_umul_ok, full_product_ok|apply double_mul_ok; [apply full_product_ok|apply product_ok]|
    apply double_umul_ok, constexpr_full_product_ok|apply double_mul_ok; [apply constexpr_full_product_ok|apply constexpr_product_ok]].
Qed.
#[export] Instance product_laws_wider `{WideLaws W} `{!Products (double W)} `{!ProductLaws (double W)} : ProductLaws (double (double W)).
Proof.
  split; [apply double_umul_ok, full_product_ok|apply product_by_words_ok|
    apply double_umul_ok, constexpr_full_product_ok|apply double_mul_ok; [apply constexpr_full_product_ok|apply constexpr_product_ok]].
Qed.

(** ** Powers *)
Section powers.
Context `{laws : WideLaws W} `{!Products W} `{!ProductLaws W}.
Notation B := (2 ^ num_bits (W := W)).

Lemma halve e : 0 <= e -> e = 2 * (e / 2) + Z.land e 1 /\ Z.land e 1 = e mod 2 /\ 0 <= e / 2.
Proof.
  intros He. assert (Z.land e 1 = e mod 2) as -> by (change 1 with (Z.ones 1); rewrite Z.land_ones by lia; done).
  pose proof (Z.div_mod e 2 ltac:(lia)). split; [lia|]. split; [done|]. apply Z.div_pos; lia.
Qed.
Lemma exp_loop_ok fuel : forall base e r, wide_ok base -> wide_ok e -> wide_ok r -> number e < 2 ^ Z.of_nat fuel ->
  let x := exp_loop fuel base e r in
  wide_ok x /\ number x = (number r * number base ^ number e) mod B.
Proof.
  pose proof (base_pos (W := W)) as HB.
  induction fuel as [|fuel IH]; intros base e r Ob Oe Or He; cbv zeta; cbn [exp_loop].
  { pose proof (number_range e Oe) as Re. change (2 ^ Z.of_nat 0) with 1 in He. assert (number e = 0) as -> by lia.
    split; [done|]. rewrite Z.pow_0_r, Z.mul_1_r, Z.mod_small by by apply number_range. done. }
  rewrite (ne_zero e Oe). pose proof (number_range e Oe) as Re. destruct (Z.eqb_spec (number e) 0) as [Hz|Hnz]; cbn [negb].
  { split; [done|]. rewrite Hz, Z.pow_0_r, Z.mul_1_r, Z.mod_small by by apply number_range. done. }
  destruct (one_ok (W := W)) as [O1 E1]. destruct (and_ok e _ Oe O1) as [Oa Ea]. rewrite E1 in Ea. rewrite (ne_zero _ Oa), Ea.
  destruct (halve (number e)) as (Hsplit & Hmod & Hq); [lia|].
  destruct (product_ok base base Ob Ob) as [Obb Ebb]. assert (0 <= 1) as H01 by lia. destruct (shr_ok e 1 Oe H01) as [Os Es]. change (2 ^ 1) with 2 in Es.
  assert (number (shift_right e 1) < 2 ^ Z.of_nat fuel) as Hlt.
  { rewrite Es. apply Z.div_lt_upper_bound; [lia|]. rewrite Nat2Z.inj_succ, Z.pow_succ_r in He by lia. lia. }
  assert (forall r', wide_ok r' -> number r' = (number r * number base ^ Z.land (number e) 1) mod B ->
    let x := exp_loop fuel (product base base) (shift_right e 1) r' in
    wide_ok x /\ number x = (number r * number base ^ number e) mod B) as Hstep.
  { intros r' Or' Er'. destruct (IH _ _ _ Obb Os Or' Hlt) as [Ox Ex]. cbv zeta in *. split; [done|]. rewrite Ex, Ebb, Es, Er'.
    rewrite Z.mul_mod_idemp_l by lia. rewrite <- Z.mul_mod_idemp_r by lia. rewrite Z.mod_pow_l. rewrite Z.mul_mod_idemp_r by lia.
    assert (number base ^ number e = (number base * number base) ^ (number e / 2) * number base ^ Z.land (number e) 1) as ->; [|f_equal; ring].
    assert (0 <= Z.land (number e) 1) as Hl0 by (apply Z.land_nonneg; lia). assert (0 <= 2 * (number e / 2)) as Hh0 by lia.
    rewrite <- Z.pow_2_r, <- Z.pow_mul_r, <- (Z.pow_add_r _ _ _ Hh0 Hl0) by lia. by rewrite <- Hsplit. }
  destruct (Z.eqb_spec (Z.land (number e) 1) 0) as [Hl|Hl]; cbn [negb]; apply Hstep.
  - done.
  - rewrite Hl, Z.pow_0_r, Z.mul_1_r, Z.mod_small by by apply number_range. done.
  - by apply product_ok.
  - assert (Z.land (number e) 1 = 1) as -> by (pose proof (Z.mod_pos_bound (number e) 2); lia). rewrite Z.pow_1_r. by apply product_ok.
Qed.
Lemma exp_ok base e : wide_ok base -> wide_ok e -> wide_ok (exp base e) /\ number (exp base e) = (number base ^ number e) mod B.
Proof.
  intros Hb He. destruct (one_ok (W := W)) as [O1 E1]. pose proof (bits_pos (W := W)) as Hpos.
  destruct (exp_loop_ok (Z.to_nat (num_bits (W := W))) base e (of_u64 1) Hb He O1) as [O E].
  - rewrite Z2Nat.id by lia. by apply number_range.
  - split; [done|]. unfold exp. rewrite E, E1. f_equal. lia.
Qed.

(** ** Arithmetic modulo a number *)
Lemma reduced (x : double W) m : wide_ok x -> wide_ok m -> number m <> 0 ->
  let r := lower (rem (udivrem x (of_half m))) in wide_ok r /\ number r = number x mod number m.
Proof.
  intros Hx Hm Hne. destruct (of_half_ok m Hm) as [Oh Eh]. destruct (udivrem_ok x (of_half m) Hx Oh) as (_ & Or & _ & Er); [lia|].
  rewrite Eh in Er. destruct (double_range _ Or) as (Ru & Rl & E). cbv zeta. split; [apply Or|].
  pose proof (number_range m Hm) as Rm. pose proof (Z.mod_pos_bound (number x) (number m)) as Hb. rewrite <- Er in Hb.
  rewrite <- Er, E. assert (number (upper (rem (udivrem x (of_half m)))) = 0) as -> by nia. lia.
Qed.
Lemma addmod_ok x y m : wide_ok x -> wide_ok y -> wide_ok m -> number m <> 0 ->
  wide_ok (addmod x y m) /\ number (addmod x y m) = (number x + number y) mod number m.
Proof.
  intros Hx Hy Hm Hne. destruct (add_ok x y Hx Hy) as [Oa Ea]. destruct (double_carry_ok (W := W) (carry (add_with_carry x y))) as [Oc Ec].
  destruct (reduced (Double (of_u64 (Z.b2z (carry (add_with_carry x y)))) (wide_add x y)) m) as [Or Er]; [by split|done|done|].
  split; [exact Or|]. unfold addmod. cbv zeta in *. etransitivity; [exact Er|]. f_equal. cbn. rewrite Ec. lia.
Qed.
Lemma mulmod_ok x y m : wide_ok x -> wide_ok y -> wide_ok m -> number m <> 0 ->
  wide_ok (mulmod x y m) /\ number (mulmod x y m) = (number x * number y) mod number m.
Proof.
  intros Hx Hy Hm Hne. destruct (full_product_ok x y Hx Hy) as [Op Ep]. destruct (reduced _ m Op Hm Hne) as [Or Er].
  split; [exact Or|]. unfold mulmod. etransitivity; [exact Er|]. by rewrite Ep.
Qed.
End powers.
