(* ===== verification/IntxText.v ===== *)
(** * Wide integers as text (int128.hpp)

    [from_string] and [to_string] on any width. A character is its code; a string of C is the
    codes before its first zero. *)
From S2P Require Import Prelude.
From S2P Require Import Params.
From S2P Require Import Intx.
From S2P Require Import IntxDiv.
From S2P Require Import IntxArith.
From S2P Require Import IntxBy2.
From S2P Require Import IntxLong.
From S2P Require Import IntxWide.
From S2P Require Import IntxSigned.
From S2P Require Import Intx128.
From S2P Require Import IntxLoops.
From S2P Require Import IntxMul.
From stdpp Require Import base list strings.
Open Scope Z_scope.

Definition codes (s : string) : list Z := map (fun c => Z.of_N (Ascii.N_of_ascii c)) (String.list_ascii_of_string s).

(** ** Operations *)
Definition from_dec_digit (c : Z) : result Z :=
  if negb ((48 <=? c) && (c <=? 57)) then Err ("Invalid digit: " ++ String.String (Ascii.ascii_of_N (Z.to_N c)) "") else Ok (c - 48).
Definition from_hex_digit (c : Z) : result Z :=
  if (97 <=? c) && (c <=? 102) then Ok (c - (97 - 10))
  else if (65 <=? c) && (c <=? 70) then Ok (c - (65 - 10))
  else from_dec_digit c.

Section text.
Context `{Products W} `{!Division W}.
Notation bits := (num_bits (W := W)).

(** [std::numeric_limits]: the decimal digits every number of which fits. *)
Definition digits10 : Z := 3010299956639812 * bits / 10 ^ 16.

Fixpoint hex_loop (num_digits : Z) (x : W) (s : list Z) : result W :=
  match s with
  | [] => Ok x
  | c :: s' =>
    let num_digits := num_digits + 1 in
    if bits / 8 * 2 <? num_digits then Err "Integer overflow"
    else match from_hex_digit c with
         | Err e => Err e
         | Ok d => hex_loop num_digits (bit_or (shift_left x 4) (of_u64 d)) s'
         end
  end.
Fixpoint dec_loop (num_digits : Z) (x : W) (s : list Z) : result W :=
  match s with
  | [] => Ok x
  | c :: s' =>
    if digits10 <? num_digits then Err "Integer overflow"
    else match from_dec_digit c with
         | Err e => Err e
         | Ok d =>
           let x := wide_add (constexpr_product x (of_u64 10)) (of_u64 d) in
           if wide_ltb x (of_u64 d) then Err "Integer overflow" else dec_loop (num_digits + 1) x s'
         end
  end.
Definition from_string (s : list Z) : result W :=
  match s with
  | c0 :: c1 :: s' => if (c0 =? 48) && (c1 =? 120) then hex_loop 0 wide_zero s' else dec_loop 0 wide_zero s
  | _ => dec_loop 0 wide_zero s
  end.

(** The loop of [to_string] pushes the last digit first; a step halves the number at least,
    so as many steps as the width has bits are enough. *)
Fixpoint to_string_loop (fuel : nat) (x : W) (base : Z) : list Z :=
  match fuel with
  | O => []
  | S f =>
    if wide_ne x wide_zero then
      let res := div_rem x (of_u64 base) in
      let d := i32 (number (rem res)) in
      let c := if d <? 10 then 48 + d else 97 + d - 10 in
      c :: to_string_loop f (quot res) base
    else []
  end.
Definition to_string (x : W) (base : Z) : list Z :=
  let base := if (base <? 2) || (36 <? base) then 16 else base in
  if wide_eqb x wide_zero then [48] else rev (to_string_loop (Z.to_nat bits) x base).
Definition hex (x : W) : list Z := to_string x 16.
End text.

(** ** Digits *)
Definition digit_of (c : Z) : Z := if c <? 58 then c - 48 else c - 87.
Definition char_of (d : Z) : Z := if d <? 10 then 48 + d else 97 + d - 10.
(** The number digits make, most significant first, above a number [a]. *)
Definition horner (b a : Z) (s : list Z) : Z := fold_left (fun a c => a * b + digit_of c) s a.
Definition is_digit (b c : Z) : Prop := exists d, 0 <= d < b /\ c = char_of d.

Lemma digit_char d : 0 <= d < 36 -> digit_of (char_of d) = d.
Proof. intros Hd. unfold digit_of, char_of. destruct (Z.ltb_spec d 10); [rewrite (proj2 (Z.ltb_lt _ _)) by lia|rewrite (proj2 (Z.ltb_ge _ _)) by lia]; lia. Qed.
Lemma digit_range b c : b <= 36 -> is_digit b c -> 0 <= digit_of c < b.
Proof. intros Hb (d & Hd & ->). rewrite digit_char; lia. Qed.
Lemma horner_app b a s t : horner b a (s ++ t) = horner b (horner b a s) t.
Proof. apply fold_left_app. Qed.
Lemma horner_ge b a s : 1 <= b <= 36 -> 0 <= a -> Forall (is_digit b) s -> a <= horner b a s.
Proof.
  intros Hb Ha Hs. revert a Ha. induction Hs as [|c s Hc Hs IH]; intros a Ha; cbn; [lia|].
  pose proof (digit_range b c ltac:(lia) Hc). transitivity (a * b + digit_of c); [nia|]. apply IH. nia.
Qed.
Lemma horner_linear b s : forall a, horner b a s = a * b ^ Z.of_nat (length s) + horner b 0 s.
Proof.
  induction s as [|c s IH]; intros a; [cbn; lia|]. change (horner b a (c :: s)) with (horner b (a * b + digit_of c) s).
  change (horner b 0 (c :: s)) with (horner b (0 * b + digit_of c) s). rewrite (IH (a * b + _)), (IH (0 * b + _)). cbn [length].
  rewrite Nat2Z.inj_succ, Z.pow_succ_r by lia. ring.
Qed.
Lemma horner_mod b a m s : m <> 0 -> horner b (a mod m) s mod m = horner b a s mod m.
Proof.
  intros Hm. rewrite (horner_linear b s (a mod m)), (horner_linear b s a). rewrite <- Zplus_mod_idemp_l, Z.mul_mod_idemp_l by done. by rewrite Zplus_mod_idemp_l.
Qed.
Lemma horner_lt b s : 2 <= b <= 36 -> Forall (is_digit b) s -> forall a k, 0 <= a < b ^ k -> 0 <= k ->
  0 <= horner b a s < b ^ (k + Z.of_nat (length s)).
Proof.
  intros Hb Hs. induction Hs as [|c s Hc Hs IH]; intros a k Ha Hk; cbn [length].
  - rewrite Z.add_0_r. done.
  - pose proof (digit_range b c ltac:(lia) Hc). replace (k + Z.of_nat (S (length s))) with ((k + 1) + Z.of_nat (length s)) by lia.
    apply IH; [|lia]. rewrite Z.pow_add_r, Z.pow_1_r by lia. nia.
Qed.
Lemma dec_digit c : is_digit 10 c -> from_dec_digit c = Ok (digit_of c).
Proof.
  intros (d & Hd & ->). rewrite digit_char by lia. unfold from_dec_digit, char_of. rewrite (proj2 (Z.ltb_lt d 10)) by lia.
  rewrite (proj2 (Z.leb_le 48 (48 + d))), (proj2 (Z.leb_le (48 + d) 57)) by lia. cbn. f_equal. lia.
Qed.
Lemma dec_digit_inv c d : from_dec_digit c = Ok d -> is_digit 10 c /\ d = digit_of c.
Proof.
  unfold from_dec_digit. destruct (Z.leb_spec 48 c), (Z.leb_spec c 57); cbn; try done. intros [= <-].
  unfold digit_of. rewrite (proj2 (Z.ltb_lt c 58)) by lia. split; [|done]. exists (c - 48). unfold char_of. rewrite (proj2 (Z.ltb_lt (c - 48) 10)) by lia. lia.
Qed.
Lemma hex_digit c : is_digit 16 c -> from_hex_digit c = Ok (digit_of c).
Proof.
  intros (d & Hd & ->). destruct (Z.ltb_spec d 10) as [Hlt|Hge].
  - assert (is_digit 10 (char_of d)) as Hc by (exists d; split; [lia|done]). rewrite <- (dec_digit _ Hc).
    unfold from_hex_digit, char_of. rewrite (proj2 (Z.ltb_lt d 10)) by lia.
    rewrite (proj2 (Z.leb_gt 97 (48 + d))), (proj2 (Z.leb_gt 65 (48 + d))) by lia. done.
  - rewrite digit_char by lia. unfold from_hex_digit, char_of. rewrite (proj2 (Z.ltb_ge d 10)) by lia.
    rewrite (proj2 (Z.leb_le 97 (97 + d - 10))), (proj2 (Z.leb_le (97 + d - 10) 102)) by lia. cbn [andb]. f_equal. lia.
Qed.

(** ** Reading and writing *)
Section laws.
Context `{WideLaws W} `{!Products W} `{!ProductLaws W} `{!Division W} `{!DivisionLaws W}.
Notation bits := (num_bits (W := W)).
Implicit Types x y : W.

Lemma digit_ok d : 0 <= d < 256 -> wide_ok (of_u64 (W := W) d) /\ number (of_u64 (W := W) d) = d.
Proof. intros Hd. apply of_u64_ok. unfold in_u64. lia. Qed.
Lemma bits_nibbles : bits / 8 * 2 * 4 = bits /\ 64 <= bits.
Proof.
  destruct (bits_words (W := W)) as [Hb Hn]. split; [|lia].
  rewrite Hb. set (k := Z.of_nat _). replace (64 * k) with (8 * k * 8) by lia. rewrite Z.div_mul by lia. lia.
Qed.

(** Decimal digits that make a number of the width are read as that number. *)
Lemma dec_step x d : wide_ok x -> 0 <= d < 10 ->
  wide_ok (wide_add (constexpr_product x (of_u64 10)) (of_u64 d)) /\
  number (wide_add (constexpr_product x (of_u64 10)) (of_u64 d)) = (number x * 10 + d) mod 2 ^ bits.
Proof.
  intros Hx Hd. destruct (digit_ok 10) as [O10 E10]; [lia|]. destruct (digit_ok d) as [Od Ed]; [lia|].
  destruct (constexpr_product_ok x _ Hx O10) as [Op Ep]. destruct (add_mod _ _ Op Od) as [Oa Ea]. split; [done|].
  rewrite Ea, Ep, E10, Ed. apply Zplus_mod_idemp_l.
Qed.
Lemma dec_loop_reads s : Forall (is_digit 10) s -> forall n x, wide_ok x -> horner 10 (number x) s < 2 ^ bits ->
  n + Z.of_nat (length s) <= digits10 (W := W) + 1 -> exists y, dec_loop n x s = Ok y /\ wide_ok y /\ number y = horner 10 (number x) s.
Proof.
  induction 1 as [|c s Hc Hs IH]; intros n x Hx Hlt Hn; cbn [dec_loop].
  { by exists x. }
  cbn [length] in Hn. rewrite (proj2 (Z.ltb_ge _ _)) by lia. rewrite (dec_digit c Hc). cbv zeta.
  assert (10 <= 36) as H36 by lia. pose proof (digit_range 10 c H36 Hc) as Hd. destruct (dec_step x (digit_of c) Hx Hd) as [Oa Ea].
  pose proof (number_range x Hx) as Rx. assert (1 <= 10 <= 36) as H10 by lia. assert (0 <= number x * 10 + digit_of c) as Hnn by lia.
  change (horner 10 (number x) (c :: s)) with (horner 10 (number x * 10 + digit_of c) s) in *.
  pose proof (horner_ge 10 _ s H10 Hnn Hs) as Hge. rewrite Z.mod_small in Ea by lia.
  destruct (digit_ok (digit_of c)) as [Od Ed]; [lia|]. rewrite ltb_ok, Ea, Ed by done. rewrite (proj2 (Z.ltb_ge _ _)) by lia.
  rewrite <- Ea. apply IH; [done|by rewrite Ea|lia].
Qed.

(** Whatever is read, wrapped to the width, is what the digits say. *)
Lemma dec_loop_inv s : forall n x y, wide_ok x -> dec_loop n x s = Ok y ->
  wide_ok y /\ Forall (is_digit 10) s /\ (s = [] \/ n + Z.of_nat (length s) <= digits10 (W := W) + 1) /\
  number y = horner 10 (number x) s mod 2 ^ bits.
Proof.
  induction s as [|c s IH]; intros n x y Hx Hr; cbn [dec_loop] in Hr.
  { injection Hr as <-. cbn. rewrite Z.mod_small by by apply number_range. eauto. }
  destruct (Z.ltb_spec (digits10 (W := W)) n) as [|Hn]; [done|]. destruct (from_dec_digit c) as [d|] eqn:Hd; [|done].
  apply dec_digit_inv in Hd as [Hc ->]. cbv zeta in Hr. destruct (wide_ltb _ _); [done|].
  assert (10 <= 36) as H36 by lia. pose proof (digit_range 10 c H36 Hc) as Hd. destruct (dec_step x (digit_of c) Hx Hd) as [Oa Ea].
  apply IH in Hr as (Oy & Hs & Hlen & Ey); [|done]. split; [done|]. split; [by constructor|]. cbn [length]. split.
  { right. destruct Hlen as [->|Hlen]; cbn [length]; lia. }
  rewrite Ey, Ea. change (horner 10 (number x) (c :: s)) with (horner 10 (number x * 10 + digit_of c) s).
  apply horner_mod. destruct bits_nibbles as [_ H64]. apply Z.pow_nonzero; lia.
Qed.

(** Hexadecimal digits, as many as the width has or fewer. *)
Lemma hex_loop_reads s : Forall (is_digit 16) s -> forall n x, wide_ok x -> 0 <= n -> number x < 2 ^ (4 * n) ->
  n + Z.of_nat (length s) <= bits / 8 * 2 -> exists y, hex_loop n x s = Ok y /\ wide_ok y /\ number y = horner 16 (number x) s.
Proof.
  induction 1 as [|c s Hc Hs IH]; intros n x Hx Hn Hlt Hlen; cbn [hex_loop].
  { by exists x. }
  cbn [length] in Hlen. rewrite (proj2 (Z.ltb_ge _ _)) by lia. rewrite (hex_digit c Hc). destruct bits_nibbles as [H8 _].
  assert (16 <= 36) as H36 by lia. pose proof (digit_range 16 c H36 Hc) as Hd. destruct (digit_ok (digit_of c)) as [Od Ed]; [lia|].
  assert (0 <= 4) as H4 by lia. destruct (shl_ok x 4 Hx H4) as [Os Es]. destruct (or_ok _ _ Os Od) as [Oo Eo].
  pose proof (number_range x Hx) as Rx. assert (2 ^ (4 * (n + 1)) = 2 ^ (4 * n) * 16) as Hp by (rewrite Z.mul_add_distr_l, Z.pow_add_r by lia; done).
  assert (2 ^ (4 * (n + 1)) <= 2 ^ bits) as Hle by (apply Z.pow_le_mono_r; lia).
  change (2 ^ 4) with 16 in Es. rewrite Z.mod_small in Es by lia.
  rewrite Es, Ed in Eo. change 16 with (2 ^ 4) in Eo at 1. rewrite lor_shifted in Eo by lia. change (2 ^ 4) with 16 in Eo.
  destruct (IH (n + 1) _ Oo) as (y & Hy & Oy & Ey); [lia|rewrite Eo, Hp; lia|lia|]. exists y. split; [exact Hy|]. split; [done|]. rewrite Ey, Eo. done.
Qed.

(** What is written, read as digits from the end, is the number. *)
Lemma to_string_digits base : 2 <= base <= 36 -> forall fuel x, wide_ok x -> number x < 2 ^ Z.of_nat fuel ->
  Forall (is_digit base) (to_string_loop fuel x base) /\ horner base 0 (rev (to_string_loop fuel x base)) = number x /\
  forall k, number x < base ^ Z.of_nat k -> (length (to_string_loop fuel x base) <= k)%nat.
Proof.
  intros Hb. induction fuel as [|f IH]; intros x Hx Hlt; cbn [to_string_loop]; pose proof (number_range x Hx) as Rx.
  { cbn in Hlt. split; [apply Forall_nil_2|]. cbn. split; [lia|intros; lia]. }
  rewrite ne_zero by done. destruct (Z.eqb_spec (number x) 0) as [Hz0|Hz0]; cbn [negb].
  { split; [apply Forall_nil_2|]. cbn. split; [lia|intros; lia]. }
  destruct (digit_ok base) as [Ob Eb]; [lia|]. destruct (div_rem_ok x _ Hx Ob) as (Oq & Or & Eq & Er); [lia|]. rewrite Eb in Eq, Er.
  assert (0 <= number x mod base < base) as Hm by (apply Z.mod_pos_bound; lia).
  assert (i32 (number (rem (div_rem x (of_u64 base)))) = number x mod base) as -> by (rewrite Er; apply iwrap_small; lia).
  rewrite Nat2Z.inj_succ, Z.pow_succ_r in Hlt by lia.
  pose proof (Z.div_mod (number x) base) as Hdm. assert (0 <= number x / base) as Hq0 by (apply Z.div_pos; lia).
  destruct (IH _ Oq) as (Hds & Hv & Hl); [rewrite Eq; nia|]. cbv zeta. fold (char_of (number x mod base)).
  split; [constructor; [by exists (number x mod base)|done]|]. split.
  - cbn [rev]. rewrite horner_app, Hv, Eq. cbn. rewrite digit_char by lia. lia.
  - intros [|k] Hk; [cbn in Hk; lia|]. cbn [length]. apply le_n_S, Hl. rewrite Eq. rewrite Nat2Z.inj_succ, Z.pow_succ_r in Hk by lia.
    apply Z.div_lt_upper_bound; lia.
Qed.

Lemma to_string_reads x base : 2 <= base <= 36 -> wide_ok x ->
  Forall (is_digit base) (to_string x base) /\ horner base 0 (to_string x base) = number x /\ to_string x base <> [] /\
  forall k, (0 < k)%nat -> number x < base ^ Z.of_nat k -> (length (to_string x base) <= k)%nat.
Proof.
  intros Hb Hx. unfold to_string. rewrite (proj2 (Z.ltb_ge base 2)), (proj2 (Z.ltb_ge 36 base)) by lia. cbn [orb].
  destruct (zero_ok (W := W)) as [O0 E0]. rewrite eqb_ok, E0 by done. pose proof (number_range x Hx) as Rx. destruct bits_nibbles as [_ H64].
  destruct (Z.eqb_spec (number x) 0) as [Hz0|Hz0].
  - split; [constructor; [exists 0; split; [lia|done]|apply Forall_nil_2]|]. cbn. split; [lia|]. split; [done|]. intros; lia.
  - destruct (to_string_digits base Hb (Z.to_nat bits) x Hx) as (Hd & Hv & Hl); [rewrite Z2Nat.id by lia; lia|].
    split; [by apply Forall_rev|]. split; [done|]. split.
    + intros He. rewrite He in Hv. cbn in Hv. lia.
    + intros k _ Hk. rewrite length_rev. by apply Hl.
Qed.

Lemma from_decimal s : Forall (is_digit 10) s -> from_string (W := W) s = dec_loop 0 wide_zero s.
Proof.
  intros Hs. destruct s as [|c0 [|c1 s]]; try done. cbn [from_string]. apply Forall_cons in Hs as [_ [(d & Hd & Hc)%id _]%Forall_cons].
  unfold char_of in Hc. rewrite (proj2 (Z.ltb_lt d 10)) in Hc by lia. rewrite (proj2 (Z.eqb_neq c1 120)) by lia. by rewrite andb_false_r.
Qed.

(** What [to_string] writes, in decimal or as [hex] after "0x", is read back as the number,
    where the digits the platform counts are enough for the width. *)
Theorem text_round_trip x : wide_ok x -> 0 <= digits10 (W := W) -> 2 ^ bits <= 10 ^ (digits10 (W := W) + 1) ->
  from_string (to_string x 10) = Ok x /\ from_string (48 :: 120 :: hex x) = Ok x.
Proof.
  intros Hx Hd0 Hd. pose proof (number_range x Hx) as Rx. destruct bits_nibbles as [H8 H64]. destruct (zero_ok (W := W)) as [O0 E0]. split.
  - destruct (to_string_reads x 10) as (Hs & Hv & _ & Hl); [lia|done|]. rewrite from_decimal by done.
    specialize (Hl (Z.to_nat (digits10 (W := W) + 1))). rewrite Z2Nat.id in Hl by lia.
    destruct (dec_loop_reads _ Hs 0 wide_zero O0) as (y & Hy & Oy & Ey); [rewrite E0, Hv; lia|lia|].
    rewrite Hy. f_equal. apply number_inj; [done..|]. by rewrite Ey, E0.
  - unfold hex. destruct (to_string_reads x 16) as (Hs & Hv & _ & Hl); [lia|done|]. cbn [from_string]. rewrite !Z.eqb_refl. cbn [andb].
    specialize (Hl (Z.to_nat (bits / 8 * 2))). rewrite Z2Nat.id in Hl by lia.
    assert (16 ^ (bits / 8 * 2) = 2 ^ bits) as H16 by (change 16 with (2 ^ 4); rewrite <- Z.pow_mul_r by lia; f_equal; lia).
    destruct (hex_loop_reads _ Hs 0 wide_zero O0) as (y & Hy & Oy & Ey); [lia|rewrite E0; lia|lia|].
    rewrite Hy. f_equal. apply number_inj; [done..|]. by rewrite Ey, E0.
Qed.

(** A decimal that is accepted is the number its digits make modulo the width: the check for
    an overflow compares the sum with the digit that was added last, and a product that
    wraps mostly passes it. *)
Theorem decimal_is_read_modulo s y : Forall (is_digit 10) s -> from_string (W := W) s = Ok y ->
  number y = horner 10 0 s mod 2 ^ bits.
Proof.
  intros Hs Hr. rewrite from_decimal in Hr by done. destruct (zero_ok (W := W)) as [O0 E0].
  destruct (dec_loop_inv s 0 wide_zero y O0 Hr) as (_ & _ & _ & Ey). by rewrite Ey, E0.
Qed.
End laws.

(** ** Examples *)

(** The widths of the library have digits enough. *)
Lemma digits_128 : 2 ^ 128 <= 10 ^ (digits10 (W := uint128) + 1).
Proof. vm_compute. discriminate. Qed.
Lemma digits_256 : 2 ^ 256 <= 10 ^ (digits10 (W := double uint128) + 1).
Proof. vm_compute. discriminate. Qed.
Lemma digits_512 : 2 ^ 512 <= 10 ^ (digits10 (W := double (double uint128)) + 1).
Proof. vm_compute. discriminate. Qed.

Example ex_wrapped_decimal :
  match from_string (W := double uint128) (codes "2" ++ repeat 48 77) with
  | Ok y => number y = 2 * 10 ^ 77 - 2 ^ 256 | Err _ => False end.
Proof. vm_compute. reflexivity. Qed.
Example ex_text : to_string (W := uint128) (U128 1 5) 10 = codes "18446744073709551621" /\ hex (W := uint128) (U128 1 5) = codes "10000000000000005".
Proof. vm_compute. split; reflexivity. Qed.

Lemma text_round_trip_witness : from_string (W := uint128) (to_string (U128 1 5) 10) = Ok (U128 1 5).
Proof.
  assert (ok128 (U128 1 5)) as Hok by (split; split; vm_compute; done).
  assert (0 <= digits10 (W := uint128)) as Hd by (vm_compute; discriminate).
  exact (proj1 (text_round_trip (W := uint128) (U128 1 5) Hok Hd digits_128)).
Defined.
