(* ===== verification/IntxBytes.v ===== *)
(** * Wide integers as bytes (intx.hpp: the namespaces le and be)

    Numbers of any width in memory, in the order of the machine and in the other: loading,
    storing, storing only the last bytes, and storing the bytes that count. The words of a
    number are in memory from the lowest, and the bytes of a word too. *)
From S2P Require Import Prelude.
From S2P Require Import Params.
From S2P Require Import Intx.
From S2P Require Import IntxDiv.
From S2P Require Import Rlp.
From S2P Require Import IntxWide.
From S2P Require Import IntxSigned.
From stdpp Require Import base list.
Open Scope Z_scope.

Fixpoint words_of_bytes (n : nat) (l : list Z) : list Z :=
  match n with O => [] | S n' => le_value (take 8 l) :: words_of_bytes n' (drop 8 l) end.

(** [count_significant_words<uint8_t>] of a number of [2 ^ k] bytes, by its halves. *)
Fixpoint count_significant_bytes (k : nat) (x : Z) : nat :=
  match k with
  | O => if negb (x =? 0) then 1 else 0
  | S k' =>
    let half := (2 ^ k')%nat in
    let h := count_significant_bytes k' (x / 256 ^ Z.of_nat half) in
    let l := count_significant_bytes k' (x mod 256 ^ Z.of_nat half) in
    if negb (h =? 0)%nat then (h + half)%nat else l
  end.

Section operations.
Context `{Wide W}.
Notation size := (8 * num_words (W := W))%nat.

(** The memory a number is in, and the number in a piece of memory. *)
Definition as_bytes (x : W) : list Z := flat_map (le_bytes 8) (wide_words x).
Definition of_bytes (l : list Z) : W := wide_of_words (words_of_bytes num_words l).

Definition le_load (bytes : list Z) : W := of_bytes bytes.
Definition le_store (x : W) : list Z := as_bytes x.
(** Fewer bytes than the number has are its last. *)
Definition be_load (bytes : list Z) : W := wide_bswap (of_bytes (repeat 0 (size - length bytes) ++ bytes)).
Definition be_store (x : W) : list Z := as_bytes (wide_bswap x).
Definition be_trunc (m : nat) (x : W) : list Z := drop (size - m) (as_bytes (wide_bswap x)).
(** A buffer may be longer than the number. *)
Definition unsafe_load (buffer : list Z) : W := wide_bswap (of_bytes (take size buffer)).
Definition unsafe_store (dst : list Z) (x : W) : list Z := as_bytes (wide_bswap x) ++ drop size dst.
(** [to_byte_string]: the bytes from the first that is not 0. *)
Definition to_byte_string (x : W) : list Z :=
  if wide_ne x wide_zero then
    let arr := be_store x in
    let n_bytes := count_significant_bytes (Nat.log2 size) (number x) in
    drop (size - n_bytes) arr
  else [].
End operations.

(** ** Memory *)
Lemma words_bytes l : words l -> flat_map (le_bytes 8) l = le_bytes (8 * length l) (words_value l).
Proof.
  induction 1 as [|w l Hw _ IH]; [done|]. cbn [flat_map length words_value]. rewrite IH.
  replace (8 * S (length l))%nat with (8 + 8 * length l)%nat by lia.
  replace (w + 2 ^ 64 * words_value l) with (words_value l * 2 ^ 64 + w) by ring.
  assert (0 <= 64) as H64 by lia. symmetry. by apply (bytes_parts 64 H64 8).
Qed.
Lemma le_value_app l1 l2 : le_value (l1 ++ l2) = le_value l1 + 256 ^ Z.of_nat (length l1) * le_value l2.
Proof.
  induction l1 as [|b l1 IH]; cbn [app le_value length]; [change (256 ^ Z.of_nat 0) with 1; lia|].
  rewrite IH, Nat2Z.inj_succ, Z.pow_succ_r by lia. ring.
Qed.
Lemma le_value_zeros k : le_value (repeat 0 k) = 0.
Proof. induction k as [|k IH]; [done|]. cbn [repeat le_value]. lia. Qed.
Lemma words_of_bytes_ok n : forall l, Forall (fun b => 0 <= b < 256) l -> length l = (8 * n)%nat ->
  words (words_of_bytes n l) /\ length (words_of_bytes n l) = n /\ words_value (words_of_bytes n l) = le_value l.
Proof.
  induction n as [|n IH]; intros l Hl Hlen; cbn [words_of_bytes words_value length].
  { destruct l; [|cbn in Hlen; lia]. split; [apply Forall_nil_2|done]. }
  assert (length (take 8 l) = 8%nat) as H8 by (rewrite length_take; lia).
  destruct (IH (drop 8 l)) as (Hw & Hn & Hv); [by apply Forall_drop|rewrite length_drop; lia|].
  pose proof (le_value_range (take 8 l) (Forall_take _ _ _ Hl)) as Hr. rewrite H8 in Hr.
  split; [constructor; [exact Hr|done]|]. split; [by rewrite Hn|]. rewrite Hv.
  rewrite <- (take_drop 8 l) at 3. rewrite le_value_app, H8. done.
Qed.
Lemma take_bytes m k : (m <= k)%nat -> forall z, take m (le_bytes k z) = le_bytes m z.
Proof.
  revert k. induction m as [|m IH]; intros k Hk z; [done|]. destruct k as [|k]; [lia|]. cbn [le_bytes take]. by rewrite IH by lia.
Qed.
Lemma drop_rev {A} (l : list A) k : drop (length l - k) (rev l) = rev (take k l).
Proof.
  destruct (Nat.le_gt_cases k (length l)) as [Hk|Hk].
  - rewrite <- (take_drop k l) at 2. rewrite rev_app_distr. apply drop_app_length'. rewrite length_rev, length_drop. done.
  - rewrite take_ge by lia. replace (length l - k)%nat with 0%nat by lia. done.
Qed.
Lemma bytes_mod k : forall z, le_value (le_bytes k z) = z mod 256 ^ Z.of_nat k.
Proof.
  induction k as [|k IH]; intros z; cbn [le_bytes le_value]; [by rewrite Z.mod_1_r|].
  rewrite IH, Nat2Z.inj_succ, Z.pow_succ_r by lia. rewrite Z.rem_mul_r; lia.
Qed.

Lemma count_ok k : forall x, 0 <= x < 256 ^ Z.of_nat (2 ^ k) ->
  (count_significant_bytes k x <= 2 ^ k)%nat /\ x < 256 ^ Z.of_nat (count_significant_bytes k x) /\
  (x <> 0 -> (0 < count_significant_bytes k x)%nat /\ 256 ^ (Z.of_nat (count_significant_bytes k x) - 1) <= x).
Proof.
  induction k as [|k IH]; intros x Hx; cbn [count_significant_bytes].
  { change (256 ^ Z.of_nat (2 ^ 0)) with 256 in Hx. destruct (Z.eqb_spec x 0) as [->|Hnz]; cbn; (split; [lia|split; lia]). }
  rewrite Nat.pow_succ_r' in *. set (m := (2 ^ k)%nat) in *. set (r := 256 ^ Z.of_nat m) in *.
  assert (0 < r) as Hr by (apply Z.pow_pos_nonneg; lia).
  assert (256 ^ Z.of_nat (2 * m) = r * r) as Hrr by (unfold r; rewrite <- Z.pow_add_r by lia; f_equal; lia). rewrite Hrr in Hx.
  pose proof (Z.div_mod x r) as Hdm. pose proof (Z.mod_pos_bound x r Hr) as Hmod.
  assert (0 <= x / r < r) as Hdiv by (split; [apply Z.div_pos; lia|apply Z.div_lt_upper_bound; lia]).
  destruct (IH _ Hdiv) as (Hh & Hlt & Hge). destruct (IH _ Hmod) as (Hl & Hlt' & Hge').
  set (h := count_significant_bytes k (x / r)) in *. destruct (Nat.eqb_spec h 0) as [Hh0|Hh0]; cbn [negb].
  - rewrite Hh0 in Hlt. change (256 ^ Z.of_nat 0) with 1 in Hlt. assert (x mod r = x) as Hs by (apply Z.mod_small; nia).
    rewrite Hs in Hl, Hlt', Hge' |- *. split; [lia|]. split; [exact Hlt'|exact Hge'].
  - assert (forall i, 0 <= i -> 256 ^ (i + Z.of_nat m) = 256 ^ i * r) as Hp by (intros; unfold r; by rewrite Z.pow_add_r by lia).
    split; [lia|]. split.
    + rewrite Nat2Z.inj_add, Hp by lia. nia.
    + intros _. split; [lia|]. rewrite Nat2Z.inj_add. replace (Z.of_nat h + Z.of_nat m - 1) with ((Z.of_nat h - 1) + Z.of_nat m) by lia.
      rewrite Hp by lia. destruct Hge as [_ Hge]; [intros H0; rewrite H0 in Hlt; unfold h in Hh0; rewrite H0 in Hh0|nia].
      exfalso. clear -Hh0. induction k as [|k IH]; [done|]. cbn [count_significant_bytes] in Hh0.
      rewrite Z.div_0_l, Z.mod_0_l in Hh0 by (apply Z.pow_nonzero; lia). destruct (Nat.eqb_spec (count_significant_bytes k 0) 0); done.
Qed.
Lemma le_bytes_snoc k : forall n, le_bytes (S k) n = le_bytes k n ++ [(n / 256 ^ Z.of_nat k) mod 256].
Proof.
  induction k as [|k IH]; intros n; [by rewrite Z.div_1_r|]. cbn [le_bytes app] in *. f_equal. rewrite IH. f_equal.
  rewrite Z.div_div by (try apply Z.pow_pos_nonneg; lia). do 4 f_equal. rewrite Nat2Z.inj_succ, Z.pow_succ_r by lia. done.
Qed.
Lemma be_bytes_rev k n : be_bytes k n = rev (le_bytes k n).
Proof. induction k as [|k IH]; [done|]. rewrite le_bytes_snoc, rev_app_distr. cbn [be_bytes rev app]. by rewrite IH. Qed.
Lemma strip_bytes c k n : 0 < n -> n < 256 ^ Z.of_nat c -> (0 < c <= k)%nat -> 256 ^ (Z.of_nat c - 1) <= n ->
  strip_zeros (be_bytes k n) = be_bytes c n.
Proof.
  intros Hn Hlt [Hc Hk] Hge. induction Hk as [|k Hk IH].
  - destruct c as [|c]; [lia|]. cbn [be_bytes strip_zeros]. rewrite Nat2Z.inj_succ, Z.pow_succ_r in Hlt by lia.
    replace (Z.of_nat (S c) - 1) with (Z.of_nat c) in Hge by lia. set (p := 256 ^ Z.of_nat c) in *. assert (0 < p) by (apply Z.pow_pos_nonneg; lia).
    assert (1 <= n / p < 256) by (split; [apply Z.div_le_lower_bound; lia|apply Z.div_lt_upper_bound; lia]).
    rewrite Z.mod_small by lia. rewrite (proj2 (Z.eqb_neq _ 0)) by lia. done.
  - cbn [be_bytes strip_zeros]. rewrite Z.div_small, Z.mod_0_l by first [lia|split; [lia|]; eapply Z.lt_le_trans; [exact Hlt|apply Z.pow_le_mono_r; lia]].
    exact IH.
Qed.

(** ** Loading and storing *)
Section laws.
Context `{WideLaws W}.
Notation size := (8 * num_words (W := W))%nat.
Notation is_bytes := (Forall (fun b => 0 <= b < 256)).
Implicit Types x : W.

Lemma as_bytes_value x : wide_ok x -> as_bytes x = le_bytes size (number x).
Proof. intros Hx. destruct (words_ok x Hx) as (Hw & Hl & Hv). unfold as_bytes. by rewrite words_bytes, Hl, Hv. Qed.
Lemma of_bytes_ok l : is_bytes l -> length l = size -> wide_ok (of_bytes (W := W) l) /\ number (of_bytes (W := W) l) = le_value l.
Proof.
  intros Hl Hlen. destruct (words_of_bytes_ok _ _ Hl Hlen) as (Hw & Hn & Hv). destruct (of_words_ok _ Hw Hn) as [Ho Hval].
  split; [exact Ho|]. unfold of_bytes. by rewrite Hval.
Qed.
Lemma size_range x : wide_ok x -> 0 <= number x < 256 ^ Z.of_nat size.
Proof.
  intros Hx. pose proof (number_range x Hx) as Hr. destruct (bits_words (W := W)) as [Hb _]. rewrite Hb in Hr.
  change 256 with (2 ^ 8). rewrite <- Z.pow_mul_r by lia. replace (8 * Z.of_nat size) with (64 * Z.of_nat (num_words (W := W))) by lia. done.
Qed.
Lemma bswap_value x : wide_ok x -> number (wide_bswap x) = le_value (rev (le_bytes size (number x))).
Proof.
  intros Hx. destruct (bswap_ok x Hx) as [Ho Hb]. rewrite <- Hb. symmetry. apply le_value_bytes. by apply size_range.
Qed.

(** What is loaded is the number the bytes spell, the most significant first; what is stored
    are those bytes, and the last of them where there is room for fewer. *)
Lemma be_load_value l : is_bytes l -> (length l <= size)%nat ->
  wide_ok (be_load (W := W) l) /\ number (be_load (W := W) l) = le_value (rev l).
Proof.
  intros Hl Hlen. unfold be_load. set (padded := _ ++ l). assert (is_bytes padded) as Hp.
  { apply Forall_app. split; [|done]. apply Forall_forall. intros b Hb%list_elem_of_In%repeat_spec. lia. }
  assert (length padded = size) as Hs by (unfold padded; rewrite length_app, repeat_length; lia).
  destruct (of_bytes_ok padded Hp Hs) as [Ho Hv]. split; [by apply bswap_ok|]. rewrite bswap_value, Hv by done.
  rewrite <- Hs at 1. rewrite bytes_value by done. unfold padded. rewrite rev_app_distr, le_value_app, rev_repeat, le_value_zeros. lia.
Qed.
Lemma be_store_bytes x : wide_ok x -> be_store x = rev (le_bytes size (number x)).
Proof. intros Hx. destruct (bswap_ok x Hx) as [Ho Hb]. unfold be_store. by rewrite as_bytes_value. Qed.
Lemma be_trunc_bytes m x : wide_ok x -> (m <= size)%nat -> be_trunc m x = rev (le_bytes m (number x)).
Proof.
  intros Hx Hm. unfold be_trunc. fold (be_store x). rewrite be_store_bytes by done.
  rewrite <- (le_bytes_length size (number x)) at 1. rewrite drop_rev. by rewrite take_bytes.
Qed.

(** Numbers survive being stored and loaded, in either order and in a larger buffer; of what
    is truncated the remainder survives. *)
Theorem bytes_round_trip x m dst : wide_ok x -> (m <= size)%nat ->
  le_load (le_store x) = x /\ be_load (be_store x) = x /\ unsafe_load (unsafe_store dst x) = x /\
  number (be_load (W := W) (be_trunc m x)) = number x mod 256 ^ Z.of_nat m.
Proof.
  intros Hx Hm. assert (be_load (be_store x) = x) as Hbe.
  { rewrite be_store_bytes by done. destruct (be_load_value (rev (le_bytes size (number x)))) as [Ho Hv].
    - apply Forall_rev, bytes_ok.
    - by rewrite length_rev, le_bytes_length.
    - apply number_inj; [done..|]. rewrite Hv, rev_involutive. apply le_value_bytes. by apply size_range. }
  assert (length (be_store x) = size) as Hl by (rewrite be_store_bytes by done; by rewrite length_rev, le_bytes_length).
  repeat split.
  - unfold le_load, le_store. rewrite as_bytes_value by done. destruct (of_bytes_ok (le_bytes size (number x))) as [Ho Hv]; [apply bytes_ok|apply le_bytes_length|].
    apply number_inj; [done..|]. rewrite Hv. apply le_value_bytes. by apply size_range.
  - done.
  - rewrite <- Hbe at 2. unfold unsafe_load, unsafe_store, be_load. fold (be_store x). rewrite take_app_length' by done. by rewrite Hl, Nat.sub_diag.
  - rewrite be_trunc_bytes by done. destruct (be_load_value (rev (le_bytes m (number x)))) as [_ Hv].
    + apply Forall_rev, bytes_ok.
    + rewrite length_rev, le_bytes_length. done.
    + rewrite Hv, rev_involutive. apply bytes_mod.
Qed.

(** The bytes that count are those of the number up to the last that is not 0. *)
Theorem to_byte_string_ok x : wide_ok x -> size = (2 ^ Nat.log2 size)%nat ->
  to_byte_string x = (if number x =? 0 then [] else strip_zeros (be_bytes size (number x))) /\
  le_value (rev (to_byte_string x)) = number x.
Proof.
  intros Hx Hsize. pose proof (size_range x Hx) as Rx. unfold to_byte_string. rewrite ne_zero by done.
  destruct (Z.eqb_spec (number x) 0) as [Hz|Hnz]; cbn [negb]; [by rewrite Hz|]. pose proof Rx as Rx'. rewrite Hsize in Rx'.
  destruct (count_ok _ _ Rx') as (Hc & Hlt & Hge). destruct (Hge Hnz) as [Hpos Hge']. clear Hge. rewrite <- Hsize in Hc.
  set (c := count_significant_bytes _ _) in *. assert (drop (size - c) (be_store x) = rev (le_bytes c (number x))) as ->.
  { rewrite be_store_bytes by done. rewrite <- (le_bytes_length size (number x)) at 1. rewrite drop_rev. by rewrite take_bytes. }
  split.
  - rewrite (strip_bytes c) by lia. by rewrite be_bytes_rev.
  - rewrite rev_involutive. apply le_value_bytes. lia.
Qed.
End laws.

(** The byte strings of RLP are those the library makes. *)
Theorem u256_byte_string_made x : wide_ok (W := double uint128) x -> to_byte_string x = u256_byte_string (number x).
Proof. intros Hx. by destruct (to_byte_string_ok x Hx eq_refl) as [-> _]. Qed.

Example ex_bytes : be_store (U128 1 5) = [0; 0; 0; 0; 0; 0; 0; 1; 0; 0; 0; 0; 0; 0; 0; 5] /\
  be_load (W := uint128) [1; 0] = U128 0 256 /\ be_trunc 2 (U128 1 5) = [0; 5].
Proof. vm_compute. repeat split. Qed.
