(* ===== verification/Admin.v ===== *)
(** * Privileged actions and defaults (eosio.system.cpp)

    The defaults the constructor gives to absent singletons, resource limits set by hand,
    inflation and pay parameters, and the initialization of the RAM market. *)
From S2P Require Import Prelude.
From S2P Require Import Cdt.
From S2P Require Import Float64.
From S2P Require Import SysState.
From S2P Require Import Token.
From S2P Require Import RexPool.
From S2P Require Import Producers.
From S2P Require Import Rotation.
From stdpp Require Import base gmap strings list.
Open Scope Z_scope.

Section defaults.
Context `{libm : Libm}.

Definition get_continuous_rate (annual_rate : Z) : double :=
  log1p (ddiv (dint annual_rate) (dint (100 * inflation_precision))).

(** [eosio_global_state]'s member initializers: times and slots start at 0. *)
Definition get_default_parameters : eosio_global_state :=
  Global.mk (12 * 1024 * 1024 * 1024) 0 0 0 0 0 0 0 0 0 0 0 dzero 0 12 0 0.

Definition get_default_inflation_parameters : eosio_global_state4 :=
  Global4.mk (get_continuous_rate default_annual_rate) default_inflation_pay_factor default_votepay_factor.

(** The state of a contract none of whose tables exists yet. *)
Definition first_sys : sys :=
  blank_sys <| gstate := get_default_parameters |>
    <| gstate4 := get_default_inflation_parameters |>
    <| gschedule_metrics := Schedule.mk 0 0 [] |>
    <| grotation := Rotation.mk 0 0 21 75 0 0 |>
    <| gpayrate := PayRates.mk max_bpay_rate max_worker_monthly_amount |>
    <| gvoting_config := Voting.mk 0 0 0 0 |>.
End defaults.

Section admin.
Context `{cdt : Cdt} `{libm : Libm} `{host : Host} (e : Env).

(** ** Resource limits *)

Definition setpriv (account : name) (ispriv : Z) : M sys unit :=
  require_auth e (self e) ;; send (SetPrivileged account ispriv).

Definition setalimits (account : name) (ram net cpu : Z) : M sys unit :=
  require_auth e (self e) ;;
  ritr ← find_row userres account;
  check (negb (is_found ritr)) "only supports unlimited accounts" ;;
  vitr ← find_row voters account;
  let '(ram_managed, net_managed, cpu_managed) := managed_flags vitr in
  check (negb (ram_managed || net_managed || cpu_managed))
    "cannot use setalimits on an account with managed resources" ;;
  set_resource_limits account ram net cpu.

(** Setting or clearing a managed flag; an account with no voter row gets one. *)
Definition set_managed (account : name) (field : Z) (value : bool) : M sys unit :=
  modify (fun s => s <| voters ::= fun vs =>
    let v := default (new_voter account) (vs !! account) in
    <[account := v <| Voter.flags1 ::= fun f => set_field f field value |>]> vs |>).

(** The check that a resource is managed before it is given back. *)
Definition check_managed (account : name) (field : Z) (msg : string) : M sys unit :=
  vitr ← find_row voters account;
  check (match vitr with Some v => has_field (Voter.flags1 v) field | None => false end) msg.

Definition setacctram (account : name) (ram_bytes : option Z) : M sys unit :=
  require_auth e (self e) ;;
  '(_, current_net, current_cpu) ← get_resource_limits account;
  ram ← match ram_bytes with
    | None =>
      check_managed account ram_managed "RAM of account is already unmanaged" ;;
      ritr ← find_row userres account;
      set_managed account ram_managed false ;;
      mret (match ritr with Some r => i64 (ram_gift_bytes + UserRes.ram_bytes r) | None => ram_gift_bytes end)
    | Some b =>
      check (0 <=? b) "not allowed to set RAM limit to unlimited" ;;
      set_managed account ram_managed true ;; mret b
    end;
  set_resource_limits account ram current_net current_cpu.

Definition setacctnet (account : name) (net_weight : option Z) : M sys unit :=
  require_auth e (self e) ;;
  '(current_ram, _, current_cpu) ← get_resource_limits account;
  net ← match net_weight with
    | None =>
      check_managed account net_managed "Network bandwidth of account is already unmanaged" ;;
      ritr ← find_row userres account;
      set_managed account net_managed false ;;
      mret (match ritr with Some r => amount (UserRes.net_weight r) | None => 0 end)
    | Some w =>
      check (-1 <=? w) "invalid value for net_weight" ;;
      set_managed account net_managed true ;; mret w
    end;
  set_resource_limits account current_ram net current_cpu.

Definition setacctcpu (account : name) (cpu_weight : option Z) : M sys unit :=
  require_auth e (self e) ;;
  '(current_ram, current_net, _) ← get_resource_limits account;
  cpu ← match cpu_weight with
    | None =>
      check_managed account cpu_managed "CPU bandwidth of account is already unmanaged" ;;
      ritr ← find_row userres account;
      set_managed account cpu_managed false ;;
      mret (match ritr with Some r => amount (UserRes.cpu_weight r) | None => 0 end)
    | Some w =>
      check (-1 <=? w) "invalid value for cpu_weight" ;;
      set_managed account cpu_managed true ;; mret w
    end;
  set_resource_limits account current_ram current_net cpu.

Definition activate (feature_digest : Z) : M sys unit :=
  require_auth e (self e) ;; send (PreactivateFeature feature_digest).

(** ** Parameters *)

Definition updtrevision (revision : Z) : M sys unit :=
  require_auth e (self e) ;;
  g2 ← gets gstate2;
  check (Global2.revision g2 <? 255) "can not increment revision" ;;
  check (revision =? Global2.revision g2 + 1) "can only increment revision by one" ;;
  check (revision <=? 1) "specified revision is not yet supported by the code" ;;
  modify (fun s => s <| gstate2 ::= fun g => g <| Global2.revision := revision |> |>).

Definition setinflation (annual_rate inflation_pay_factor votepay_factor : Z) : M sys unit :=
  require_auth e (self e) ;;
  check (0 <=? annual_rate) "annual_rate can't be negative" ;;
  check (pay_factor_precision <=? inflation_pay_factor) "inflation_pay_factor must not be less than 10000" ;;
  check (pay_factor_precision <=? votepay_factor) "votepay_factor must not be less than 10000" ;;
  modify (fun s => s <| gstate4 :=
    Global4.mk (get_continuous_rate annual_rate) inflation_pay_factor votepay_factor |>).

Definition setpayrates (bpay worker : Z) : M sys unit :=
  require_auth e (self e) ;;
  check (worker <=? max_worker_monthly_amount) "WPS rate exceeds the max" ;;
  check (bpay <=? max_bpay_rate) "BPAY rate exceeds the max" ;;
  modify (fun s => s <| gpayrate := PayRates.mk bpay worker |>).

(** ** Initialization, penalties, fees *)

Definition init (version : Z) (core : symbol) : M sys unit :=
  require_auth e (self e) ;;
  check (version =? 0) "unsupported version for init action" ;;
  itr ← gets rammarket;
  check (negb (is_found itr)) "system contract has already been initialized" ;;
  system_token_supply ← lift (get_supply token_ledger (sym_code core));
  check (symbol_eqb (asset_symbol system_token_supply) core)
    "specified core symbol does not exist (precision mismatch)" ;;
  check (0 <? amount system_token_supply) "system token supply must be greater than 0" ;;
  g ← gets gstate;
  modify (fun s => s <| rammarket := Some (Market.mk (Asset 100000000000000 ramcore_symbol)
    (Connector.mk (Asset (i64 (free_ram g)) ram_symbol) (dlit 1 2))
    (Connector.mk (Asset (Z.quot (amount system_token_supply) 1000) core) (dlit 1 2))) |>) ;;
  send (TokenOpen [active_of (self e)] rex_account core (self e)).

Definition votebpout (bp : name) (penalty_hours : Z) : M sys unit :=
  require_auth e (self e) ;;
  check (negb (penalty_hours =? 0)) "The penalty should be greater than zero." ;;
  p ← get_producer bp "Producer account was not found";
  p' ← lift (kick e BPS_VOTING penalty_hours p);
  set_producer bp p'.

Definition distviarex (from : name) (q : asset) : M sys unit :=
  check (from =? tedp_account) "distviarex may only distribute TEDP funds" ;;
  require_auth e tedp_account ;;
  channel_to_rex e from q false.
End admin.
