(* ===== verification/Books.v ===== *)
(** * The books the components share

    Five accounts hold tokens for the tables of the contract, and each has its own file
    of theorems. Here the books are put side by side: what a piece of code has to leave
    alone for all five to stay right, the code of every component that does, and the
    code that changes one of them only. *)
From S2P Require Import Prelude.
From S2P Require Import Cdt.
From S2P Require Import Float64.
From S2P Require Import SysState.
From S2P Require Import Token.
From S2P Require Import Votes.
From S2P Require Import Exchange.
From S2P Require Import RexPool.
From S2P Require Import Bandwidth.
From S2P Require Import Rex.
From S2P Require Import Solvency.
From S2P Require Import RamLedger.
From S2P Require Import RexLedger.
From S2P Require Import RexReturn.
From S2P Require Import RexVault.
From S2P Require Import Producers.
From S2P Require Import Rotation.
From S2P Require Import Election.
From S2P Require Import Voting.
From S2P Require Import BlockInfo.
From S2P Require Import NameBid.
From S2P Require Import LimitAuth.
From S2P Require Import Pay.
From S2P Require Import NameLedger.
From S2P Require Import PayLedger.
From S2P Require Import Powerup.
From S2P Require Import Evm.
From S2P Require Import Admin.
From stdpp Require Import base gmap strings list sorting relations.
Open Scope Z_scope.

(** ** The contract's own accounts *)
Definition own_accounts : list name := [stake_account; rex_account; names_account; bpay_account; ram_account].
Definition own (n : name) : bool := existsb (Z.eqb n) own_accounts.

Lemma own_false n : own n = false ->
  n <> stake_account /\ n <> rex_account /\ n <> names_account /\ n <> bpay_account /\ n <> ram_account.
Proof. unfold own. cbn. rewrite !orb_false_iff, !Z.eqb_neq. tauto. Qed.

(** An effect that moves no token of theirs. *)
Definition outside (x : effect) : Prop :=
  match x with TokenTransfer _ f t _ _ => own f = false /\ own t = false | _ => True end.

Lemma outside_flow a y x : outside x -> own a = true -> flow_of a y x = 0.
Proof.
  destruct x; try done. cbn [outside flow_of]. intros [Hf Ht] Ha.
  destruct (symbol_eqb _ _); [|done].
  rewrite (proj2 (Z.eqb_neq to a)) by congruence. rewrite (proj2 (Z.eqb_neq from a)) by congruence. done.
Qed.

(** ** What each set of books is made of *)
Definition ram_sum (y : symbol) (s : sys) :=
  (rammarket s, Global.max_ram_size (gstate s), Global.total_ram_bytes_reserved (gstate s),
   Global.total_ram_stake (gstate s), msum UserRes.ram_bytes (userres s), flow ram_account y (effects s)).

Definition books (y : symbol) (s : sys) :=
  (staking y s, vault y s, naming y s, pay_view y s, ram_sum y s, powerup_state_sing s).
(** All but the books of one component. *)
Definition off_stake (y : symbol) (s : sys) := (vault y s, naming y s, pay_view y s, ram_sum y s, powerup_state_sing s).
Definition off_vault (y : symbol) (s : sys) := (staking y s, naming y s, pay_view y s, ram_sum y s, powerup_state_sing s).
Definition off_names (y : symbol) (s : sys) := (staking y s, vault y s, pay_view y s, ram_sum y s, powerup_state_sing s).
Definition off_pay (y : symbol) (s : sys) := (staking y s, vault y s, naming y s, ram_sum y s, powerup_state_sing s).
Definition off_ram (y : symbol) (s : sys) := (staking y s, vault y s, naming y s, pay_view y s, powerup_state_sing s).
Definition off_power (y : symbol) (s : sys) := (staking y s, vault y s, naming y s, pay_view y s, ram_sum y s).
(** Those that REX and its fees leave alone. *)
Definition off_rex (y : symbol) (s : sys) := (pay_view y s, ram_sum y s, powerup_state_sing s).

(** Weaker views follow from stronger ones. *)
Lemma keeps_le {S A B C} (f : S -> B) (g : S -> C) (m : M S A) :
  (forall s s', f s' = f s -> g s' = g s) -> keeps f m -> keeps g m.
Proof. intros Hle Hm s a s' H. by eapply Hle, Hm. Qed.

Create HintDb ledger discriminated.
#[export] Hint Constants Opaque : ledger.
#[export] Hint Variables Opaque : ledger.
(** A write to fields a view does not look at. *)
#[export] Hint Extern 3 (respects _ (modify _)) => (apply respects_modify; intros; reflexivity) : ledger.
#[export] Hint Resolve respects_ret respects_throw respects_check respects_gets respects_lift
  respects_require_found respects_when respects_for_each respects_fold_each : ledger.

Ltac view_le := let s := fresh "s" in let s' := fresh "s'" in let H := fresh "H" in
  intros s s' H; unfold books, off_stake, off_vault, off_names, off_pay, off_ram, off_power, off_rex in H |- *; congruence.

Section views.
Context {A : Type} (y : symbol) (m : M sys A).
Lemma books_off_stake : keeps (books y) m -> keeps (off_stake y) m. Proof. apply keeps_le. view_le. Qed.
Lemma books_off_vault : keeps (books y) m -> keeps (off_vault y) m. Proof. apply keeps_le. view_le. Qed.
Lemma books_off_names : keeps (books y) m -> keeps (off_names y) m. Proof. apply keeps_le. view_le. Qed.
Lemma books_off_pay : keeps (books y) m -> keeps (off_pay y) m. Proof. apply keeps_le. view_le. Qed.
Lemma books_off_ram : keeps (books y) m -> keeps (off_ram y) m. Proof. apply keeps_le. view_le. Qed.
Lemma books_off_rex : keeps (books y) m -> keeps (off_rex y) m. Proof. apply keeps_le. view_le. Qed.
Lemma books_off_power : keeps (books y) m -> keeps (off_power y) m. Proof. apply keeps_le. view_le. Qed.
Lemma off_vault_off_rex : keeps (off_vault y) m -> keeps (off_rex y) m. Proof. apply keeps_le. view_le. Qed.
Lemma off_stake_off_rex : keeps (off_stake y) m -> keeps (off_rex y) m. Proof. apply keeps_le. view_le. Qed.
End views.
#[export] Hint Resolve books_off_stake books_off_vault books_off_names books_off_pay books_off_ram books_off_rex books_off_power
  off_vault_off_rex off_stake_off_rex | 5 : ledger.

(** Code that only reads and writes fields, along its text. *)
Ltac ledger_loop leaf tac :=
  unfold get_pool, set_pool, get_ret_pool, set_ret_pool, get_buckets, set_buckets, get_rex_balance,
    set_rex_balance, zero_core, core_symbol, get_core_symbol, get_resource_limits, set_resource_limits,
    get_producer, set_producer, get_voter, find_voter, set_voter, modify_metrics, set_last_caller, set_correction,
    token_transfer, find_row;
  repeat first
  [ progress intros
  | progress cbv beta zeta
  | solve [tac]
  | lazymatch goal with |- respects _ (mbind _ _) => fail | _ => idtac end;
    first [solve [eauto 4 with ledger typeclass_instances] | solve [leaf]]
  | respects_rule ];
  try done.
Ltac ledger_with tac := ledger_loop fail tac.
Ltac ledger := ledger_with fail.

Section frames.
Context `{cdt : Cdt} `{!CdtLaws cdt} `{libm : Libm} `{host : Host} `{evm : EvmHost} (e : Env) (y : symbol).
Implicit Types s : sys.

(** ** Code that leaves all books alone *)
Lemma send_untouched x : outside x -> keeps (books y) (send x).
Proof.
  intros Hx s u s' H. unfold send in H. apply modify_Ok in H.
  unfold books, staking, vault, naming, pay_view, ram_sum.
  eassert (effects s' = effects s ++ [_]) as -> by (rewrite H; reflexivity). rewrite !flow_snoc, H.
  rewrite !(outside_flow _ y x Hx) by reflexivity. rewrite !Z.add_0_r. reflexivity.
Qed.
Hint Extern 2 (respects _ (send _)) => (apply send_untouched; exact I) : ledger.

Lemma update_votes_untouched n p l b : keeps (books y) (update_votes e n p l b).
Proof. intros s u s' H%update_votes_votes_only. by destruct H as (? & ? & ? & ? & ->). Qed.
Hint Resolve update_votes_untouched : ledger.

(** *** Producers, votes and blocks *)
Lemma update_total_votepay_share_untouched a b : keeps (books y) (update_total_votepay_share e a b).
Proof. unfold update_total_votepay_share. ledger. Qed.
Hint Resolve update_total_votepay_share_untouched : ledger.
Lemma register_producer_untouched n a u l : keeps (books y) (register_producer e n a u l).
Proof. unfold register_producer. ledger. Qed.
Lemma update_voting_power_untouched n q : keeps (books y) (update_voting_power e n q).
Proof. unfold update_voting_power. ledger. Qed.
Hint Resolve register_producer_untouched update_voting_power_untouched : ledger.
Lemma recalculate_votes_untouched : keeps (books y) (recalculate_votes e).
Proof. unfold recalculate_votes, recalculate_one. ledger. Qed.
Lemma reset_schedule_metrics_untouched n : keeps (books y) (reset_schedule_metrics n).
Proof. unfold reset_schedule_metrics. ledger. Qed.
Lemma restart_missed_untouched l : keeps (books y) (restart_missed_blocks_per_rotation l).
Proof. unfold restart_missed_blocks_per_rotation. ledger. Qed.
Hint Resolve recalculate_votes_untouched reset_schedule_metrics_untouched restart_missed_untouched : ledger.
Lemma update_elected_producers_untouched t : keeps (books y) (update_elected_producers t).
Proof.
  unfold update_elected_producers, check_rotation_state, rotation_iterators, set_bps_rotation, update_rotation_time.
  ledger.
Qed.
Hint Resolve update_elected_producers_untouched : ledger.
Lemma check_missed_blocks_untouched t n : keeps (books y) (check_missed_blocks t n).
Proof.
  unfold check_missed_blocks, is_new_schedule_activated, correct_counters, count_block, update_producer_missed_blocks.
  ledger.
Qed.
Lemma kick_worst_untouched size max l : keeps (books y) (kick_worst e size max l).
Proof.
  revert max. induction l as [|p l IH]; intros max; cbn; [apply respects_ret; apply _|]. ledger_with ltac:(apply IH).
Qed.
Hint Resolve check_missed_blocks_untouched kick_worst_untouched : ledger.
Lemma update_missed_untouched : keeps (books y) (update_missed_blocks_per_rotation e).
Proof. unfold update_missed_blocks_per_rotation, count_missed. ledger. Qed.
Lemma count_produced_untouched n : keeps (books y) (count_produced n).
Proof. unfold count_produced. ledger. Qed.
Lemma add_to_blockinfo_untouched l t : keeps (books y) (add_to_blockinfo_table l t).
Proof. unfold add_to_blockinfo_table. ledger. Qed.
Hint Resolve update_missed_untouched count_produced_untouched add_to_blockinfo_untouched : ledger.

(** *** Resource rows: their RAM is nobody's business but that of the RAM market *)
Lemma set_row_untouched r row s : UserRes.ram_bytes row = from_option UserRes.ram_bytes 0 (userres s !! r) ->
  books y (s <| userres ::= insert r row |>) = books y s.
Proof.
  intros Hr. unfold books, ram_sum. change (userres (s <| userres ::= insert r row |>)) with (<[r := row]> (userres s)).
  rewrite msum_set, Hr. replace (msum UserRes.ram_bytes (userres s) - _ + _) with (msum UserRes.ram_bytes (userres s)) by lia.
  reflexivity.
Qed.

Lemma delete_row_untouched r s row : userres s !! r = Some row -> UserRes.ram_bytes row = 0 ->
  books y (s <| userres ::= delete r |>) = books y s.
Proof.
  intros Hr Hz. unfold books, ram_sum. change (userres (s <| userres ::= delete r |>)) with (delete r (userres s)).
  pose proof (msum_delete UserRes.ram_bytes _ _ _ Hr) as Hm. replace (msum UserRes.ram_bytes (delete r (userres s)))
    with (msum UserRes.ram_bytes (userres s)) by lia. reflexivity.
Qed.

(** What follows the writing of a row: checks and limits, and the empty row goes. *)
Definition row_written (r : name) (row : user_resources) (s0 s : sys) : Prop :=
  books y s = books y s0 /\ (userres s !! r = Some row \/ userres s !! r = None).

Lemma drop_empty_row r row s0 : preserves (row_written r row s0)
  (when (user_resources_is_empty row) (modify (fun s => s <| userres ::= delete r |>))).
Proof.
  intros s u s' H [Hb Hr]. apply when_Ok in H. destruct (user_resources_is_empty row) eqn:He; [|by subst].
  apply modify_Ok in H as ->. unfold user_resources_is_empty in He. apply andb_true_iff in He as [_ Hz%Z.eqb_eq].
  split; [|right; cbn; apply lookup_delete_eq]. rewrite <- Hb. destruct Hr as [Hr|Hr]; [by eapply delete_row_untouched|].
  unfold books, ram_sum. change (userres (s <| userres ::= delete r |>)) with (delete r (userres s)).
  rewrite (delete_id (userres s)) by done. reflexivity.
Qed.

Lemma row_tail r row (m : M sys unit) s u s' :
  UserRes.ram_bytes row = from_option UserRes.ram_bytes 0 (userres s !! r) ->
  preserves (row_written r row s) m ->
  (modify (fun s => s <| userres ::= insert r row |>) ;; m) s = Ok (u, s') -> books y s' = books y s.
Proof.
  intros Hr Hm H. apply bind_Ok in H as ([] & s1 & ->%modify_Ok & H). eapply Hm; [exact H|].
  split; [by apply set_row_untouched|]. left. cbn. apply lookup_insert_eq.
Qed.

Ltac tail := apply row_tail; [done|]; ledger_with ltac:(apply drop_empty_row).

Lemma update_resource_limits_untouched a b n c : keeps (books y) (update_resource_limits a b n c).
Proof.
  intros s u s' H. unfold update_resource_limits in H. destruct (_ && _); [by apply ret_Ok in H as [_ ->]|].
  apply bind_Ok in H as (it & s1 & [-> ->]%gets_Ok & H). apply bind_Ok in H as (row & s1 & Hrow & H).
  assert (s1 = s /\ UserRes.ram_bytes row = from_option UserRes.ram_bytes 0 (userres s !! b)) as [-> Hr].
  { destruct (userres s !! b) as [r|]; [by apply ret_Ok in Hrow as [-> ->]|]. unfold core_symbol, get_core_symbol in Hrow. by minv Hrow. }
  revert H. tail.
Qed.
Lemma change_totals_untouched r n c : keeps (books y) (change_totals r n c).
Proof.
  intros s u s' H. unfold change_totals in H. apply bind_Ok in H as (it & s1 & [-> ->]%gets_Ok & H).
  apply bind_Ok in H as (row & s1 & Hrow & H).
  assert (s1 = s /\ UserRes.ram_bytes row = from_option UserRes.ram_bytes 0 (userres s !! r)) as [-> Hr].
  { destruct (userres s !! r) as [t|]; by minv Hrow. }
  revert H. tail.
Qed.
Lemma adjust_resources_untouched p a c dn dc b : keeps (books y) (adjust_resources p a c dn dc b).
Proof.
  intros s u s' H. unfold adjust_resources in H. destruct (_ && _); [by apply ret_Ok in H as [_ ->]|].
  apply bind_Ok in H as (it & s1 & [-> ->]%gets_Ok & H). apply bind_Ok in H as (row & s1 & Hrow & H).
  assert (s1 = s /\ UserRes.ram_bytes row = from_option UserRes.ram_bytes 0 (userres s !! a)) as [-> Hr].
  { destruct (userres s !! a) as [t|]; by minv Hrow. }
  revert H. tail.
Qed.
Hint Resolve update_resource_limits_untouched change_totals_untouched adjust_resources_untouched : ledger.
Lemma new_row_untouched n z : keeps (books y)
  (itr ← find_row userres n;
   check (negb (is_found itr)) "could not insert object, most likely a uniqueness constraint was violated" ;;
   modify (fun s => s <| userres ::= insert n (UserRes.mk n z z 0) |>)).
Proof.
  intros s u s' H. apply bind_Ok in H as (it & s1 & [-> ->]%gets_Ok & H).
  apply bind_Ok in H as ([] & s1 & [Hn%negb_true_iff%is_found_false ->]%check_Ok & H). apply modify_Ok in H as ->.
  apply set_row_untouched. by rewrite Hn.
Qed.

Lemma set_ram_limit_untouched n z : keeps (books y) (set_ram_limit n z).
Proof. unfold set_ram_limit. ledger. Qed.
Lemma schedule_refund_untouched n b : keeps (books y) (schedule_refund n b).
Proof. unfold schedule_refund. ledger. Qed.
Hint Resolve set_ram_limit_untouched schedule_refund_untouched : ledger.

(** *** PowerUp: the queue of orders; the state holds prices, which the books mention *)
Lemma expire_orders_untouched now c n p : keeps (books y) (expire_orders e now c n p).
Proof.
  revert p. induction n as [|n IH]; intros p; cbn; [apply respects_ret; apply _|]. ledger_with ltac:(apply IH).
Qed.
Hint Resolve expire_orders_untouched : ledger.
Lemma process_powerup_queue_untouched now c st n : keeps (books y) (process_powerup_queue e now c st n).
Proof. unfold process_powerup_queue. ledger. Qed.
Lemma configure_untouched now c st a : keeps (books y) (configure now c st a).
Proof. unfold configure. ledger. Qed.
Lemma rent_resource_untouched f r : keeps (books y) (rent_resource f r).
Proof. unfold rent_resource. ledger. Qed.
Hint Resolve process_powerup_queue_untouched configure_untouched rent_resource_untouched : ledger.

(** *** EVM votes, limits on authorities, privileged actions *)
Lemma apply_evm_vote_untouched a b n : keeps (books y) (apply_evm_vote a b n).
Proof. unfold apply_evm_vote, find_state. ledger. Qed.
Lemma send_evm_untouched c d : keeps (books y) (send_evm e c d).
Proof. unfold send_evm, find_eosio_account. ledger. Qed.
Lemma check_auth_change_untouched a n : keeps (books y) (check_auth_change e a n).
Proof. unfold check_auth_change. ledger. Qed.
Hint Resolve apply_evm_vote_untouched send_evm_untouched check_auth_change_untouched : ledger.

(** ** Code that changes the stakes only *)
Lemma change_delegated_off f r n c : keeps (off_stake y) (change_delegated f r n c).
Proof. unfold change_delegated. ledger. Qed.
Lemma change_refund_off f n c : keeps (off_stake y) (change_refund e f n c).
Proof. unfold change_refund. ledger. Qed.
Hint Resolve change_delegated_off change_refund_off : ledger.

(** ** Code that changes the books of REX only *)
Lemma update_rex_stake_off n : keeps (off_vault y) (update_rex_stake n).
Proof. unfold update_rex_stake. ledger. Qed.
Hint Resolve update_rex_stake_off : ledger.


(** The pool, whose proceeds the auctions watch: what Solvency.v and NameLedger.v say of it,
    put together. *)
Lemma off_vault_parts {A} (m : M sys A) :
  keeps (staking y) m -> keeps (naming y) m -> keeps (off_rex y) m -> keeps (off_vault y) m.
Proof.
  intros H1 H2 H3 s u s' H. pose proof (H1 _ _ _ H). pose proof (H2 _ _ _ H). pose proof (H3 _ _ _ H) as Hoff.
  unfold off_rex, off_vault in *. cbn in *. congruence.
Qed.

Lemma update_rex_pool_off : keeps (off_vault y) (update_rex_pool e).
Proof.
  apply off_vault_parts; [apply update_rex_pool_staking|apply update_rex_pool_naming|]. unfold update_rex_pool. ledger.
Qed.
Hint Resolve update_rex_pool_off : ledger.
Lemma add_to_rex_return_pool_off q : keeps (off_vault y) (add_to_rex_return_pool e q).
Proof. unfold add_to_rex_return_pool. ledger. Qed.
Hint Resolve add_to_rex_return_pool_off : ledger.
Lemma fill_rex_order_off n q : keeps (off_vault y) (fill_rex_order n q).
Proof.
  apply off_vault_parts; [apply fill_rex_order_staking|apply fill_rex_order_naming|]. unfold fill_rex_order. ledger.
Qed.
Lemma remove_loan_off l : keeps (off_vault y) (remove_loan_from_rex_pool l).
Proof.
  apply off_vault_parts; [|apply remove_loan_naming|]; unfold remove_loan_from_rex_pool; ledger.
Qed.
Lemma add_loan_off q z b : keeps (off_vault y) (add_loan_to_rex_pool e q z b).
Proof.
  apply off_vault_parts; [|apply add_loan_naming|]; unfold add_loan_to_rex_pool.
  - ledger_with ltac:(apply add_to_rex_return_pool_staking).
  - ledger.
Qed.
Lemma add_to_rex_pool_off q : keeps (off_rex y) (add_to_rex_pool q).
Proof. unfold add_to_rex_pool. ledger. Qed.
Hint Resolve fill_rex_order_off remove_loan_off add_loan_off add_to_rex_pool_off : ledger.

(** Balances, funds, orders and loans. *)
Lemma modify_rex_balance_off n f : keeps (off_vault y) (modify_rex_balance n f).
Proof. unfold modify_rex_balance. ledger. Qed.
Lemma read_rex_savings_off n : keeps (off_vault y) (read_rex_savings n).
Proof. unfold read_rex_savings. ledger. Qed.
Hint Resolve modify_rex_balance_off read_rex_savings_off : ledger.
Lemma put_rex_savings_off n z : keeps (off_vault y) (put_rex_savings n z).
Proof. unfold put_rex_savings. ledger. Qed.
Lemma process_rex_maturities_off n : keeps (off_vault y) (process_rex_maturities e n).
Proof. unfold process_rex_maturities. ledger. Qed.
Hint Resolve put_rex_savings_off process_rex_maturities_off : ledger.
Lemma add_to_rex_balance_off n p r : keeps (off_vault y) (add_to_rex_balance e n p r).
Proof. unfold add_to_rex_balance. ledger. Qed.
Lemma consolidate_rex_balance_off n q : keeps (off_vault y) (consolidate_rex_balance e n q).
Proof. unfold consolidate_rex_balance. ledger. Qed.
Lemma transfer_to_fund_off n q : keeps (off_vault y) (transfer_to_fund n q).
Proof. unfold transfer_to_fund. ledger. Qed.
Lemma transfer_from_fund_off n q : keeps (off_vault y) (transfer_from_fund n q).
Proof. unfold transfer_from_fund. ledger. Qed.
Lemma set_loans_off k f : keeps (off_vault y) (set_loans k f).
Proof. unfold set_loans. destruct k; by apply respects_modify. Qed.
Hint Resolve add_to_rex_balance_off consolidate_rex_balance_off transfer_to_fund_off transfer_from_fund_off
  set_loans_off : ledger.
Lemma process_expired_loan_off k n l : keeps (off_vault y) (process_expired_loan e k n l).
Proof. unfold process_expired_loan, update_renewed_loan. ledger. Qed.
Hint Resolve process_expired_loan_off : ledger.
Lemma process_loans_off k n : keeps (off_vault y) (process_loans e k n).
Proof.
  induction n as [|n IH]; cbn; [apply respects_ret; apply _|]. unfold update_limits_of. ledger_with ltac:(apply IH).
Qed.
Lemma process_orders_off n l : keeps (off_vault y) (process_orders n l).
Proof.
  revert l. induction n as [|n IH]; intros l; cbn; [apply respects_ret; apply _|].
  destruct l as [|[o r] l]; [apply respects_ret; apply _|]. ledger_with ltac:(apply IH).
Qed.
Lemma update_rex_account_off n p d b : keeps (off_vault y) (update_rex_account e n p d b).
Proof. unfold update_rex_account. ledger. Qed.
Hint Resolve process_loans_off process_orders_off update_rex_account_off : ledger.

(** *** Tokens that come in from outside, for one account only *)
Definition apart (a : name) (x : effect) : Prop :=
  match x with TokenTransfer _ f t _ _ => f <> a /\ t <> a | _ => True end.
Lemma apart_flow a x : apart a x -> flow_of a y x = 0.
Proof.
  destruct x; try done. cbn [apart flow_of]. intros [Hf Ht]. destruct (symbol_eqb _ _); [|done].
  by rewrite !(proj2 (Z.eqb_neq _ _)) by done.
Qed.

Ltac send_part :=
  let s := fresh "s" in let u := fresh "u" in let s' := fresh "s'" in let H := fresh "Hsend" in
  intros s u s' H; unfold send in H; apply modify_Ok in H;
  unfold off_stake, off_vault, off_names, off_pay, off_ram, off_rex, staking, vault, naming, pay_view, ram_sum;
  eassert (effects s' = effects s ++ [_]) as -> by (rewrite H; reflexivity);
  rewrite !flow_snoc, H, !apart_flow by assumption; rewrite ?Z.add_0_r; reflexivity.

Lemma send_off_stake x : apart rex_account x -> apart names_account x -> apart bpay_account x -> apart ram_account x ->
  keeps (off_stake y) (send x).
Proof. intros ????. send_part. Qed.
Lemma send_off_vault x : apart stake_account x -> apart names_account x -> apart bpay_account x -> apart ram_account x ->
  keeps (off_vault y) (send x).
Proof. intros ????. send_part. Qed.
Lemma send_off_names x : apart stake_account x -> apart rex_account x -> apart bpay_account x -> apart ram_account x ->
  keeps (off_names y) (send x).
Proof. intros ????. send_part. Qed.
Lemma send_off_pay x : apart stake_account x -> apart rex_account x -> apart names_account x -> apart ram_account x ->
  keeps (off_pay y) (send x).
Proof. intros ????. send_part. Qed.
Lemma send_off_ram x : apart stake_account x -> apart rex_account x -> apart names_account x -> apart bpay_account x ->
  keeps (off_ram y) (send x).
Proof. intros ????. send_part. Qed.
Lemma send_off_rex x : apart bpay_account x -> apart ram_account x -> keeps (off_rex y) (send x).
Proof. intros ??. send_part. Qed.

Lemma channel_to_rex_off n q b : own n = false -> keeps (off_vault y) (channel_to_rex e n q b).
Proof.
  intros (?&?&?&?&?)%own_false. unfold channel_to_rex. ledger_with ltac:(by apply send_off_vault).
Qed.
Lemma runrex_off n : keeps (off_rex y) (runrex e n).
Proof.
  unfold runrex, channel_to_rex. ledger_with ltac:(by apply send_off_rex).
Qed.
Hint Resolve runrex_off : ledger.

(** ** Code that changes the books of RAM only *)
Lemma grow_ram_base_off z : keeps (off_ram y) (grow_ram_base z).
Proof.
  intros s u s' H. unfold grow_ram_base, get_market in H. minv H. unfold off_ram, staking, vault, naming, pay_view, core_of.
  cbn. by rewrite Hfound.
Qed.
Lemma rammarket_convert_off q z : keeps (off_ram y) (rammarket_convert q z).
Proof.
  intros s u s' H. unfold rammarket_convert in H. minv H. rename a into m. destruct a0 as [out m']. minv H.
  apply direct_convert_inv in Hres as (v & _ & _ & [(_ & _ & _ & _ & _ & ->)|(_ & _ & _ & _ & _ & ->)]);
    unfold off_ram, staking, vault, naming, pay_view, core_of; cbn; by rewrite Hfound.
Qed.
Hint Resolve grow_ram_base_off rammarket_convert_off : ledger.
Lemma update_ram_supply_off : keeps (off_ram y) (update_ram_supply e).
Proof. unfold update_ram_supply. ledger. Qed.
Hint Resolve update_ram_supply_off : ledger.

(** ** Code that changes the books of the auctions, or of producer pay, only *)
Lemma check_new_name_off c n : keeps (off_names y) (check_new_name c n).
Proof. unfold check_new_name. ledger. Qed.
Lemma record_pay_off n z : keeps (off_pay y) (record_pay n z).
Proof. unfold record_pay. ledger. Qed.
Hint Resolve check_new_name_off record_pay_off : ledger.
Lemma pay_one_off n p z : keeps (off_pay y) (pay_one e n p z).
Proof. unfold pay_one. ledger. Qed.
Hint Resolve pay_one_off : ledger.
Lemma pay_ranks_off v i rows : keeps (off_pay y) (pay_ranks e v i rows).
Proof.
  revert i. induction rows as [|[n p] rows IH]; intros i; cbn; [apply respects_ret; apply _|]. ledger_with ltac:(apply IH).
Qed.
Hint Resolve pay_ranks_off : ledger.
Lemma fill_bucket_off z : own (self e) = false -> keeps (off_pay y) (fill_bucket e z).
Proof.
  intros (?&?&?&?&?)%own_false. unfold fill_bucket. ledger_with ltac:(by apply send_off_pay).
Qed.
Lemma claimrewards_snapshot_off : own (self e) = false -> keeps (off_pay y) (claimrewards_snapshot e).
Proof. intros Hself. unfold claimrewards_snapshot, share_bucket. ledger_with ltac:(by apply fill_bucket_off). Qed.
End frames.
#[export] Hint Extern 2 (respects _ (send _)) => (apply send_untouched; exact I) : ledger.
#[export] Hint Resolve update_votes_untouched update_total_votepay_share_untouched register_producer_untouched update_voting_power_untouched
  recalculate_votes_untouched reset_schedule_metrics_untouched restart_missed_untouched update_elected_producers_untouched
  check_missed_blocks_untouched kick_worst_untouched update_missed_untouched count_produced_untouched add_to_blockinfo_untouched
  update_resource_limits_untouched change_totals_untouched adjust_resources_untouched set_ram_limit_untouched schedule_refund_untouched
  process_powerup_queue_untouched configure_untouched rent_resource_untouched apply_evm_vote_untouched send_evm_untouched
  check_auth_change_untouched change_delegated_off change_refund_off update_rex_stake_off add_to_rex_return_pool_off
  fill_rex_order_off remove_loan_off add_loan_off add_to_rex_pool_off modify_rex_balance_off read_rex_savings_off
  put_rex_savings_off process_rex_maturities_off add_to_rex_balance_off consolidate_rex_balance_off transfer_to_fund_off
  transfer_from_fund_off set_loans_off update_rex_account_off runrex_off grow_ram_base_off rammarket_convert_off
  update_ram_supply_off check_new_name_off record_pay_off : ledger.

(** Transfers and fees of accounts that are known to be outsiders. *)
Ltac outsiders :=
  repeat match goal with
  | H : own ?n = false |- _ =>
    lazymatch goal with _ : n <> stake_account |- _ => fail | _ => destruct (own_false n H) as (? & ? & ? & ? & ?) end
  end.
Ltac apart_by := cbn [apart outside]; first [exact I | split; first [assumption | reflexivity | discriminate | congruence]].
Ltac send_by :=
  lazymatch goal with
  | |- respects (fun s s' => books _ _ = _) _ => apply send_untouched
  | |- respects (fun s s' => off_stake _ _ = _) _ => apply send_off_stake
  | |- respects (fun s s' => off_vault _ _ = _) _ => apply send_off_vault
  | |- respects (fun s s' => off_names _ _ = _) _ => apply send_off_names
  | |- respects (fun s s' => off_pay _ _ = _) _ => apply send_off_pay
  | |- respects (fun s s' => off_ram _ _ = _) _ => apply send_off_ram
  | |- respects (fun s s' => off_rex _ _ = _) _ => apply send_off_rex
  end; apart_by.
#[export] Hint Extern 3 (respects _ (send _)) => send_by : ledger.
#[export] Hint Extern 2 (respects _ (channel_to_rex _ _ _ _)) => (apply channel_to_rex_off; first [assumption | reflexivity]) : ledger.
