(* ===== verification/System.v ===== *)
(** * The system contract as a whole

    The other files follow the tokens of one account through the actions of one
    component. Here all the actions of the contract are taken together, in whatever order
    they run: what they do to the tokens of eosio.stake is exactly what they do to stakes
    and refunds; eosio.rex and eosio.names keep enough for all they owe; the accounts of
    eosio.bpay and of the RAM market stay where they are, as counters of 64 bits.

    Each step of a run is an action signed by outsiders or by eosio, no earlier than the
    last, at a time the code's 32-bit seconds can carry; averages of the price oracle are
    not negative ([OracleLaws]); TEDP distributes a non-negative amount of the core token
    ([system_args]), where [distviarex] asks neither; the distributions of the return pool
    that are due stay in 64 bits ([calm]); eosio.rex holds at most 2^48 tokens ([rex_cap])
    and eosio.names at most the largest amount of a token. *)
From S2P Require Import Prelude.
From S2P Require Import Cdt.
From S2P Require Import Float64.
From S2P Require Import SysState.
From S2P Require Import Token.
From S2P Require Import Votes.
From S2P Require Import Exchange.
From S2P Require Import RexPool.
From S2P Require Import Bandwidth.
From S2P Require Import Rex.
From S2P Require Import Solvency.
From S2P Require Import RamLedger.
From S2P Require Import RexLedger.
From S2P Require Import RexReturn.
From S2P Require Import RexVault.
From S2P Require Import Producers.
From S2P Require Import Rotation.
From S2P Require Import Voting.
From S2P Require Import BlockInfo.
From S2P Require Import NameBid.
From S2P Require Import LimitAuth.
From S2P Require Import Pay.
From S2P Require Import NameLedger.
From S2P Require Import PayLedger.
From S2P Require Import Powerup.
From S2P Require Import Evm.
From S2P Require Import Admin.
From S2P Require Import Books.
From stdpp Require Import base gmap strings list sorting relations.
Open Scope Z_scope.

(** ** The actions *)
Inductive vote_action :=
| Voteproducer (voter proxy : name) (producers_ : list name)
| Voteupdate (voter : name)
| Regproxy (proxy : name) (isproxy : bool).

Inductive producer_action :=
| Regproducer (producer : name) (producer_key : Z) (url : string) (location : Z)
| Regproducer2 (producer : name) (producer_authority : block_signing_authority) (url : string) (location : Z)
| Unregprod (producer : name)
| Unregreason (producer : name) (reason : string)
| Rmvproducer (producer : name)
| Votebpout (bp : name) (penalty_hours : Z).

Inductive account_action :=
| Bid_name (bidder newname : name) (bid : asset)
| Bid_refund (bidder newname : name)
| New_account (creator new_account_name : name)
| Setabi (acnt : name) (abi : list Z)
| Limitauthchg (account : name) (allow_perms disallow_perms : list name)
| Updateauth (account permission parent : name) (authorized_by : option name)
| Deleteauth (account permission : name) (authorized_by : option name)
| Linkauth (account code type requirement : name) (authorized_by : option name)
| Unlinkauth (account code type : name) (authorized_by : option name).

Inductive admin_action :=
| Init (version : Z) (core : symbol)
| Setpriv (account : name) (ispriv : Z)
| Setalimits (account : name) (ram net cpu : Z)
| Setacctram (account : name) (ram_bytes : option Z)
| Setacctnet (account : name) (net_weight : option Z)
| Setacctcpu (account : name) (cpu_weight : option Z)
| Activate (feature_digest : Z)
| Updtrevision (revision : Z)
| Setinflation (annual_rate inflation_pay_factor votepay_factor : Z)
| Setpayrates (bpay worker : Z)
| Distviarex (from : name) (q : asset)
| Tedp_pay.

Inductive evm_action :=
| Setvotedecay (decay_start_epoch decay_increase_yearly : Z)
| Setvotecontr (contract : Z)
| Getevmvote (bps : list name)
| Setbpevmstat (bp : name)
| Setselfstake (self_stake_boost_multiplier : Z).

Inductive system_action :=
| Staking_action (a : stake_action)
| Ram_market_action (a : ram_action)
| Rex_pool_action (a : rex_action)
| Powerup_action (a : power_action)
| Pay_action (a : pay_action)
| Vote_action (a : vote_action)
| Producer_action (a : producer_action)
| Account_action (a : account_action)
| Admin_action (a : admin_action)
| Evm_action (a : evm_action).

Section exec.
Context `{cdt : Cdt} `{libm : Libm} `{host : Host} `{evm : EvmHost} (sha256 : list Z -> Z) (e : Env).

Definition vote_exec (a : vote_action) : M sys unit :=
  match a with
  | Voteproducer v p l => voteproducer e v p l
  | Voteupdate v => voteupdate e v
  | Regproxy p b => regproxy e p b
  end.

Definition producer_exec (a : producer_action) : M sys unit :=
  match a with
  | Regproducer p k u l => regproducer e p k u l
  | Regproducer2 p a u l => regproducer2 e p a u l
  | Unregprod p => unregprod e p
  | Unregreason p r => unregreason e p r
  | Rmvproducer p => rmvproducer e p
  | Votebpout p h => votebpout e p h
  end.

Definition account_exec (a : account_action) : M sys unit :=
  match a with
  | Bid_name b n q => bidname e b n q
  | Bid_refund b n => bidrefund b n
  | New_account c n => newaccount e c n
  | Setabi n abi => setabi sha256 n abi
  | Limitauthchg n l1 l2 => limitauthchg e n l1 l2
  | Updateauth n p q b => updateauth e n p q b
  | Deleteauth n p b => deleteauth e n p b
  | Linkauth n c t r b => linkauth e n c t r b
  | Unlinkauth n c t b => unlinkauth e n c t b
  end.

Definition admin_exec (a : admin_action) : M sys unit :=
  match a with
  | Init v c => init e v c
  | Setpriv n p => setpriv e n p
  | Setalimits n r w c => setalimits e n r w c
  | Setacctram n r => setacctram e n r
  | Setacctnet n w => setacctnet e n w
  | Setacctcpu n c => setacctcpu e n c
  | Activate d => activate e d
  | Updtrevision r => updtrevision e r
  | Setinflation r i v => setinflation e r i v
  | Setpayrates b w => setpayrates e b w
  | Distviarex f q => distviarex e f q
  | Tedp_pay => pay e
  end.

Definition evm_exec (a : evm_action) : M sys unit :=
  match a with
  | Setvotedecay d i => setvotedecay e d i
  | Setvotecontr c => setvotecontr e c
  | Getevmvote l => getevmvote l
  | Setbpevmstat p => setbpevmstat e p
  | Setselfstake m => setselfstake e m
  end.

Definition system_exec (a : system_action) : M sys unit :=
  match a with
  | Staking_action a => stake_exec e a
  | Ram_market_action a => ram_exec e a
  | Rex_pool_action a => rex_exec e a
  | Powerup_action a => power_exec e a
  | Pay_action a => pay_exec e a
  | Vote_action a => vote_exec a
  | Producer_action a => producer_exec a
  | Account_action a => account_exec a
  | Admin_action a => admin_exec a
  | Evm_action a => evm_exec a
  end.
End exec.

(** ** What an environment may be *)

(** Machine ranges, and one choice left to TEDP: what it distributes is of the core token. *)
Definition system_args (y : symbol) (a : system_action) : Prop :=
  match a with
  | Staking_action (Delegatebw _ _ n c _) | Staking_action (Undelegatebw _ _ n c) => in_i64 (amount n) /\ in_i64 (amount c)
  | Rex_pool_action (Mvtosavings _ q) => in_i64 (amount q)
  | Account_action (Bid_name _ _ q) => in_i64 (amount q)
  | Admin_action (Distviarex _ q) => asset_symbol q = y /\ 0 <= amount q
  | _ => True
  end.

(** The contract runs as [eosio], and its own accounts sign nothing. *)
Record system_env (e : Env) : Prop := {
  runs_as : self e = eosio_account;
  no_own_auth : forall n, own n = true -> has_auth e n = false;
}.

Lemma auth_outside e n : system_env e -> has_auth e n = true -> own n = false.
Proof. intros He Hn. destruct (own n) eqn:Ho; [|done]. by rewrite (no_own_auth e He n Ho) in Hn. Qed.
Lemma self_outside e : system_env e -> own (self e) = false.
Proof. intros He. by rewrite (runs_as e He). Qed.

(** A check holds of what follows it. *)
Lemma respects_guard {S A} (R : relation S) b msg (m : M S A) :
  (b = true -> respects R m) -> respects R (check b msg ;; m).
Proof. intros Hm s a s' H. apply bind_Ok in H as ([] & s1 & [Hb ->]%check_Ok & H). by eapply Hm. Qed.

(** ** The five sets of books, action by action *)

(** No own account bids, and none is owed a bid. *)
Definition strangers (s : sys) : Prop :=
  map_Forall (fun _ b => own (Bid.high_bidder b) = false) (namebids s) /\
  map_Forall (fun k _ => own k.2 = false) (bidrefunds s).
(** The least PowerUp fee is not negative. *)
Definition fee_ok (s : sys) : Prop := forall st, powerup_state_sing s = Some st -> 0 <= amount (PowState.min_powerup_fee st).

Section ledgers.
Context `{cdt : Cdt} `{!CdtLaws cdt} `{libm : Libm} `{!LibmLaws libm} `{host : Host} `{!OracleLaws host} `{evm : EvmHost}.
Context (sha256 : list Z -> Z) (e : Env) (y : symbol) (held : Z) (He : system_env e).
Implicit Types s : sys.

Lemma view_staking {A} (m : M sys A) :
  keeps (books y) m \/ keeps (off_vault y) m \/ keeps (off_names y) m \/ keeps (off_pay y) m \/ keeps (off_ram y) m \/
  keeps (off_power y) m -> respects (backed y) m.
Proof. intros Hm. apply keeps_backed. destruct Hm as [H|[H|[H|[H|[H|H]]]]]; revert H; apply keeps_le; view_le. Qed.
Lemma view_vault {A} (m : M sys A) :
  keeps (books y) m \/ keeps (off_stake y) m \/ keeps (off_names y) m \/ keeps (off_pay y) m \/ keeps (off_ram y) m \/
  keeps (off_power y) m -> respects (vault_kept e y held None None) m.
Proof. intros Hm. apply view_respects. destruct Hm as [H|[H|[H|[H|[H|H]]]]]; revert H; apply keeps_le; view_le. Qed.
Lemma view_pay {A} (m : M sys A) :
  keeps (books y) m \/ keeps (off_stake y) m \/ keeps (off_rex y) m \/ keeps (off_names y) m \/ keeps (off_ram y) m \/
  keeps (off_power y) m -> respects (pay_kept y) m.
Proof. intros Hm. apply keeps_pay. destruct Hm as [H|[H|[H|[H|[H|H]]]]]; revert H; apply keeps_le; view_le. Qed.

(** What the auctions are promised; no own account bids, so that none takes its bid back. *)
Definition names_good (s : sys) : Prop := names_ok y held s /\ strangers s.
(** What everything but a bid does: nothing comes in, and what is promised stays covered. *)
Definition names_fall (s s' : sys) : Prop :=
  names_good s -> names_good s' /\ surplus y s <= surplus y s' /\
    flow names_account y (effects s') <= flow names_account y (effects s).
#[local] Instance names_fall_preorder : PreOrder names_fall.
Proof.
  split; [by intros s Hok; split|]. intros s1 s2 s3 H12 H23 Hok. destruct (H12 Hok) as (Hok2 & ? & ?).
  destruct (H23 Hok2) as (? & ? & ?). split; [done|lia].
Qed.

Lemma names_fall_kept s s' : names_kept y held false s s' -> (strangers s -> strangers s') ->
  flow names_account y (effects s') <= flow names_account y (effects s) -> names_fall s s'.
Proof.
  intros Hk Hs Hf [Hok Hst]. destruct (Hk Hok) as (Hok' & ? & _); [destruct Hok; lia|].
  split; [split; [done|by apply Hs]|]. lia.
Qed.
Lemma naming_fall s s' : naming y s' = naming y s -> names_fall s s'.
Proof.
  intros H. pose proof (naming_kept y held false s s' H) as Hk. unfold naming in H. injection H as Hb Hr _ _ Hf.
  apply names_fall_kept; [done| |lia]. unfold strangers. by rewrite Hb, Hr.
Qed.
Lemma view_naming {A} (m : M sys A) :
  keeps (books y) m \/ keeps (off_stake y) m \/ keeps (off_vault y) m \/ keeps (off_pay y) m \/ keeps (off_ram y) m \/
  keeps (off_power y) m -> respects names_fall m.
Proof.
  intros Hm. assert (keeps (naming y) m) as Hn by (destruct Hm as [H|[H|[H|[H|[H|H]]]]]; revert H; apply keeps_le; view_le).
  intros s a s' H. eapply naming_fall, Hn, H.
Qed.

Lemma ram_sum_kept s s' : ram_sum y s' = ram_sum y s -> ram_kept y s s'.
Proof.
  unfold ram_sum. intros [= H1 H2 H3 H4 H5 H6] Hok.
  unfold ram_market_ok, ram_accounts, market_base, market_quote in *. by rewrite H1, H2, H3, H4, H5, H6.
Qed.
Lemma view_ram {A} (m : M sys A) :
  keeps (books y) m \/ keeps (off_stake y) m \/ keeps (off_rex y) m \/ keeps (off_names y) m \/ keeps (off_pay y) m \/
  keeps (off_power y) m -> respects (ram_kept y) m.
Proof.
  intros Hm. assert (keeps (ram_sum y) m) as Hr by (destruct Hm as [H|[H|[H|[H|[H|H]]]]]; revert H; apply keeps_le; view_le).
  intros s a s' H. eapply ram_sum_kept, Hr, H.
Qed.

(** The least fee is a matter of PowerUp alone. *)
Definition fee_kept (s s' : sys) : Prop := fee_ok s -> fee_ok s'.
#[local] Instance fee_kept_preorder : PreOrder fee_kept.
Proof. split; [by intros s|]. intros s1 s2 s3 H12 H23 H. by apply H23, H12. Qed.
Lemma view_fee {A} (m : M sys A) :
  keeps (books y) m \/ keeps (off_stake y) m \/ keeps (off_rex y) m \/ keeps (off_names y) m \/ keeps (off_pay y) m \/
  keeps (off_ram y) m -> respects fee_kept m.
Proof.
  intros Hm. assert (keeps powerup_state_sing m) as Hr by (destruct Hm as [H|[H|[H|[H|[H|H]]]]]; revert H; apply keeps_le; view_le).
  intros s a s' H. apply Hr in H. unfold fee_kept, fee_ok. by rewrite H.
Qed.

Ltac pick := first [left; solve [eauto 4 with ledger typeclass_instances] | right; pick | solve [eauto 4 with ledger typeclass_instances]].
(** A piece of code keeps one of the books because it keeps a view that has it; a write
    because it is to other fields. *)
Ltac write := lazymatch goal with |- respects _ (modify _) => apply respects_modify; intros; reflexivity end.
Ltac by_view :=
  lazymatch goal with
  | |- respects (backed _) _ => first [apply view_staking; pick | apply keeps_backed; write]
  | |- respects (vault_kept _ _ _ _ _) _ => first [apply view_vault; pick | apply view_respects; write]
  | |- respects (pay_kept _) _ => first [apply view_pay; pick | apply keeps_pay; write]
  | |- respects (ram_kept _) _ => apply view_ram; pick
  | |- respects names_fall _ => apply view_naming; pick
  | |- respects fee_kept _ => apply view_fee; pick
  end.
Ltac books_with tac := ledger_loop ltac:(first [by_view]) tac.

(** *** Stakes *)
Lemma delegatebw_auth f r n c b s u s' : delegatebw e f r n c b s = Ok (u, s') -> own f = false.
Proof. intros H. unfold delegatebw, changebw in H. minv H. by eapply auth_outside. Qed.
Lemma undelegatebw_auth f r n c s u s' : undelegatebw e f r n c s = Ok (u, s') -> own f = false.
Proof. intros H. unfold undelegatebw, changebw in H. minv H. by eapply auth_outside. Qed.


Lemma ram_staking a : respects (backed y) (ram_exec e a).
Proof.
  assert (forall p r q, respects (backed y) (buyram e p r q)) as Hbuy.
  { intros p r q. unfold buyram. apply respects_guard. intros Ha%(auth_outside e p He). outsiders. books_with fail. }
  destruct a as [z|z|p r q|p r b|n b]; cbn [ram_exec].
  - unfold setram. books_with fail.
  - unfold setramrate. books_with fail.
  - apply Hbuy.
  - unfold buyrambytes, get_market. books_with ltac:(apply Hbuy).
  - unfold sellram. apply respects_guard. intros Ha%(auth_outside e n He). outsiders. books_with fail. 
Qed.

(** *** Actions that leave all books alone *)
Lemma producer_untouched a : keeps (books y) (producer_exec e a).
Proof.
  destruct a; cbn [producer_exec]; unfold regproducer, regproducer2, unregprod, unregreason, rmvproducer, votebpout; ledger.
Qed.
Lemma evm_untouched a : keeps (books y) (evm_exec e a).
Proof.
  destruct a; cbn [evm_exec]; unfold setvotedecay, setvotecontr, getevmvote, setbpevmstat, setselfstake, find_voting_account, find_state; ledger.
Qed.
Lemma admin_untouched a : match a with Init _ _ | Distviarex _ _ => True | _ => keeps (books y) (admin_exec e a) end.
Proof.
  pose proof (self_outside e He). destruct a; try exact I; cbn [admin_exec];
    unfold setpriv, setalimits, setacctram, setacctnet, setacctcpu, check_managed, set_managed, activate, updtrevision,
      setinflation, setpayrates, pay; ledger.
Qed.
Lemma account_untouched a : match a with Bid_name _ _ _ | Bid_refund _ _ | New_account _ _ => True
  | _ => keeps (books y) (account_exec sha256 e a) end.
Proof.
  destruct a; try exact I; cbn [account_exec]; unfold setabi, limitauthchg, updateauth, deleteauth, linkauth, unlinkauth; ledger.
Qed.

(** A market that trades has been initialized. *)
Lemma init_once v c s u s' : init e v c s = Ok (u, s') -> core_of s = None.
Proof.
  intros H. unfold init in H. apply bind_Ok in H as ([] & s1 & [_ ->]%check_Ok & H).
  apply bind_Ok in H as ([] & s1 & [_ ->]%check_Ok & H). apply bind_Ok in H as (m & s1 & [-> ->]%gets_Ok & H).
  apply bind_Ok in H as ([] & s1 & [Hm%negb_true_iff%is_found_false ->]%check_Ok & H). unfold core_of. by rewrite Hm.
Qed.

Ltac guarded := repeat lazymatch goal with
  | |- respects _ (mbind (fun _ => _) (require_auth e ?n)) =>
    let Ha := fresh "Ha" in apply respects_guard; intros Ha; apply (auth_outside e n He) in Ha end; outsiders.

(** *** Stakes: the rest *)
Lemma runrex_backed n : respects (backed y) (runrex e n).
Proof. apply keeps_backed, runrex_staking. Qed.
Lemma add_to_rex_pool_backed q : respects (backed y) (add_to_rex_pool q).
Proof. apply keeps_backed, add_to_rex_pool_staking. Qed.
Hint Resolve runrex_backed add_to_rex_pool_backed : ledger.

Lemma rent_rex_backed k f r p q : respects (backed y) (rent_rex e k f r p q).
Proof. unfold rent_rex. books_with fail. Qed.
Lemma rex_staking a : respects (backed y) (rex_exec e a).
Proof.
  destruct a; cbn [rex_exec];
    try (unfold deposit, withdraw, buyrex, sellrex, queue_order, cnclrexorder, rentcpu, rentnet, fundcpuloan, fundnetloan,
      fund_rex_loan, defcpuloan, defnetloan, defund_rex_loan, updaterex, setrex, rexexec, consolidate, mvtosavings,
      mvfrsavings, closerex; guarded; solve [books_with ltac:(apply rent_rex_backed)]).
  intros s u s' H. by eapply unstaketorex_backed.
Qed.
Lemma power_staking a : respects (backed y) (power_exec e a).
Proof.
  destruct a; cbn [power_exec]; unfold cfgpowerup, powerupexec, powerup, set_powerup_state; guarded; books_with fail.
Qed.
Lemma vote_staking a : respects (backed y) (vote_exec e a).
Proof.
  destruct a; cbn [vote_exec]; unfold voteproducer, voteupdate, updaterex, regproxy; guarded; books_with fail.
Qed.
Lemma close_auction_backed t : respects (backed y) (close_auction e t).
Proof. apply keeps_backed. unfold close_auction, channel_namebid_to_rex. ledger. Qed.
Hint Resolve close_auction_backed : ledger.
Lemma pay_staking a : respects (backed y) (pay_exec e a).
Proof.
  pose proof (claimrewards_snapshot_off e y (self_outside e He)).
  destruct a; cbn [pay_exec]; unfold onblock, onblock_active, claimrewards; guarded; books_with fail.
Qed.
(** A new account's row; the names it may use are the auctions' business. *)
Lemma newaccount_off c n : keeps (off_names y) (newaccount e c n).
Proof.
  unfold newaccount. apply respects_bind; [apply _| |intros _]; [ledger|].
  apply respects_bind; [apply _|unfold get_core_symbol; ledger|intros y'].
  apply respects_bind; [apply _|ledger|intros z].
  intros s u s' H. apply bind_Ok in H as (it & s1 & [-> ->]%gets_Ok & H). apply bind_Ok in H as ([] & s1 & Hc & H).
  apply bind_Ok in H as ([] & s2 & Hm & H). apply modify_Ok in H as ->.
  assert (books y s2 = books y s) as Hb.
  { eapply (new_row_untouched y n z). apply bind_Ok. exists (userres s !! n), s. split; [by apply gets_Ok|].
    apply bind_Ok. by exists tt, s1. }
  change (off_names y s2 = off_names y s). unfold books in Hb. unfold off_names. congruence.
Qed.
Hint Resolve newaccount_off : ledger.
Lemma bidname_off b n q : keeps (off_names y) (bidname e b n q).
Proof. unfold bidname. guarded. ledger. Qed.
(** A refund goes to a stranger. *)
Lemma bidrefund_off b n s u s' : strangers s -> bidrefund b n s = Ok (u, s') -> off_names y s' = off_names y s.
Proof.
  intros [_ Hs] H. unfold bidrefund in H. apply bind_Ok in H as (it & s1 & [-> ->]%gets_Ok & H).
  apply bind_Ok in H as (r & s1 & [Hr ->]%require_found_Ok & H). assert (own b = false) as Ho by apply (Hs _ _ Hr).
  revert H. match goal with |- ?m s = _ -> _ => assert (keeps (off_names y) m) as Hm; [|apply Hm] end. outsiders. ledger.
Qed.
(** The accounts' actions change the books of the auctions only. *)
Lemma account_off a s u s' : strangers s -> account_exec sha256 e a s = Ok (u, s') -> off_names y s' = off_names y s.
Proof.
  intros Hs H. pose proof (account_untouched a) as Hb. destruct a; try (revert H; apply books_off_names, Hb); cbn [account_exec] in H.
  - by eapply bidname_off.
  - by eapply bidrefund_off.
  - by eapply newaccount_off.
Qed.

(** What TEDP gives to REX. *)
Lemma distviarex_off n q : keeps (off_vault y) (distviarex e n q).
Proof. unfold distviarex. apply respects_guard. intros ->%Z.eqb_eq. ledger. Qed.

Lemma system_staking a s u s' :
  system_args y a -> strangers s -> stake_ok y s -> system_exec sha256 e a s = Ok (u, s') -> backed y s s'.
Proof.
  intros Ha Hs Hok H. destruct a as [a|a|a|a|a|a|a|a|a|a]; cbn [system_exec system_args] in *.
  - destruct a as [f r n c b|f r n c|o|o r n c]; cbn [stake_exec] in H.
    + pose proof (delegatebw_auth _ _ _ _ _ _ _ _ H) as (?&?&?&?&?)%own_false. destruct Ha. by apply (delegatebw_backed e y f r n c b s u s').
    + pose proof (undelegatebw_auth _ _ _ _ _ _ _ H) as (?&?&?&?&?)%own_false. destruct Ha. by apply (undelegatebw_backed e y f r n c s u s').
    + by eapply refund_backed.
    + by eapply unstaketorex_backed.
  - by eapply ram_staking.
  - by eapply rex_staking.
  - by eapply power_staking.
  - by eapply pay_staking.
  - by eapply vote_staking.
  - eapply view_staking; [|exact H]. left. apply producer_untouched.
  - apply account_off in H; [|done]. apply staking_backed. unfold off_names in H. congruence.
  - pose proof (admin_untouched a) as Hb. destruct a; try (eapply view_staking; [left; apply Hb|exact H]).
    + apply init_once in H. destruct Hok. congruence.
    + eapply view_staking; [right; left; apply distviarex_off|exact H].
  - eapply view_staking; [left; apply evm_untouched|exact H].
Qed.

(** *** The auctions *)

(** The bidders stay strangers, and no token comes in. *)
Definition bids_calm (s s' : sys) : Prop :=
  (strangers s -> strangers s') /\ flow names_account y (effects s') <= flow names_account y (effects s).
#[local] Instance bids_calm_preorder : PreOrder bids_calm.
Proof. split; [by split|]. intros s1 s2 s3 [? ?] [? ?]. split; [auto|lia]. Qed.
Lemma naming_calm {A} (m : M sys A) : keeps (naming y) m -> respects bids_calm m.
Proof.
  intros Hm s a s' H. apply Hm in H. unfold naming in H. injection H as Hb Hr _ _ Hf.
  unfold bids_calm, strangers. rewrite Hb, Hr, Hf. split; [done|lia].
Qed.
Lemma fall_of_kept s s' : names_kept y held false s s' -> bids_calm s s' -> names_fall s s'.
Proof. intros Hk [Hs Hf]. by apply names_fall_kept. Qed.

Lemma collect_calm q : 0 < amount q -> respects bids_calm (channel_to_rex e names_account q false).
Proof.
  intros Hq. unfold channel_to_rex. apply respects_bind; [apply _|apply respects_gets; apply _|intros av].
  destruct av; [|apply respects_check; apply _].
  apply respects_bind; [apply _|apply naming_calm, add_to_rex_return_pool_naming|intros _].
  intros s u s' H. unfold token_transfer, send in H. apply modify_Ok in H. split; [by subst s'|].
  eassert (effects s' = effects s ++ [_]) as -> by (rewrite H; reflexivity). rewrite flow_snoc. cbn [flow_of].
  destruct (symbol_eqb _ _); [|lia]. change (rex_account =? names_account) with false. rewrite Z.eqb_refl. lia.
Qed.
Lemma runrex_calm n : respects bids_calm (runrex e n).
Proof.
  unfold runrex. pose proof (fun k m => naming_calm _ (process_loans_naming e y k m)) as Hl.
  pose proof (fun m l => naming_calm _ (process_orders_naming y m l)) as Ho.
  apply respects_bind; [apply _|apply respects_gets; apply _|intros b].
  apply respects_guard. intros _. apply respects_bind; [apply _|apply naming_calm, update_rex_pool_naming|intros _].
  apply respects_bind; [apply _|apply naming_calm, get_pool_naming|intros p].
  apply respects_bind; [apply _| |intros _; ledger_with ltac:(first [apply Hl | apply Ho])].
  destruct (Z.ltb_spec 0 (amount (RexPool.namebid_proceeds p))); [|apply respects_ret; apply _]. cbn [when].
  apply respects_bind; [apply _|by apply collect_calm|intros _]. unfold get_pool, set_pool.
  ledger_loop fail ltac:(apply respects_modify; intros; split; [done|apply Z.le_refl]).
Qed.
Lemma runrex_fall n : respects names_fall (runrex e n).
Proof. intros s u s' H. apply fall_of_kept; [by eapply runrex_kept|by eapply runrex_calm]. Qed.

Lemma close_auction_calm t : respects bids_calm (close_auction e t).
Proof.
  intros s u s' H. unfold close_auction in H. apply bind_Ok in H as (h & s1 & [-> ->]%gets_Ok & H).
  apply bind_Ok in H as (g & s1 & [_ ->]%gets_Ok & H). destruct (highest_bid s) as [[n b]|] eqn:Hh; [|by apply ret_Ok in H as [_ ->]].
  apply highest_bid_Some in Hh. apply when_Ok in H. destruct (_ && _) in H; [|by subst].
  unfold channel_namebid_to_rex in H. apply bind_Ok in H as ([] & s1 & ->%modify_Ok & H).
  apply bind_Ok in H as ([] & s2 & Hch & H). apply modify_Ok in H.
  assert (namebids s2 = namebids s /\ bidrefunds s2 = bidrefunds s /\ effects s2 = effects s) as (Hb & Hr & He2).
  { apply bind_Ok in Hch as (av & s3 & [_ ->]%gets_Ok & Hch). apply when_Ok in Hch. destruct av; [|by subst s2].
    unfold get_pool, set_pool in Hch. by minv Hch. }
  assert (effects s' = effects s) as He' by (by rewrite H). split; [|rewrite He'; lia].
  intros [Hs1 Hs2]. split.
  - assert (namebids s' = <[n := b <| Bid.high_bid ::= fun z => i64 (- z) |>]> (namebids s)) as -> by (rewrite <- Hb; by rewrite H).
    apply map_Forall_insert_2; [|done]. exact (Hs1 n b Hh).
  - assert (bidrefunds s' = bidrefunds s) as -> by (rewrite <- Hr; by rewrite H). done.
Qed.
Lemma close_auction_fall t : respects names_fall (close_auction e t).
Proof. intros s u s' H. apply fall_of_kept; [by eapply close_auction_kept|by eapply close_auction_calm]. Qed.

Lemma newaccount_calm c n : respects bids_calm (newaccount e c n).
Proof.
  unfold newaccount, check_new_name, get_core_symbol, set_resource_limits, find_row.
  assert (forall f, (forall s, bids_calm s (f s)) -> respects bids_calm (modify f)) as Hm by apply respects_modify.
  ledger_loop fail ltac:(apply Hm; intros s; split; [|apply Z.le_refl]; intros [Hs1 Hs2]; split; cbn; try done; by apply map_Forall_delete).
Qed.
Lemma newaccount_fall c n : respects names_fall (newaccount e c n).
Proof. intros s u s' H. apply fall_of_kept; [by eapply newaccount_kept|by eapply newaccount_calm]. Qed.

Lemma bidrefund_fall b n : respects names_fall (bidrefund b n).
Proof.
  intros s u s' H Hok. eapply names_fall_kept; [by eapply bidrefund_kept| | |exact Hok]; destruct Hok as [Hok Hs];
    unfold bidrefund, token_transfer, send in H; apply bind_Ok in H as (it & s1 & [-> ->]%gets_Ok & H);
    apply bind_Ok in H as (r & s1 & [Hr ->]%require_found_Ok & H); apply bind_Ok in H as ([] & s1 & ->%modify_Ok & H);
    apply modify_Ok in H.
  - intros [Hs1 Hs2]. split; [by subst s'|].
    assert (bidrefunds s' = delete (n, b) (bidrefunds s)) as -> by (by rewrite H). by apply map_Forall_delete.
  - destruct (bidrefunds_ok _ _ _ Hok _ _ Hr) as [(Hr0 & _) _].
    assert (own b = false) as (?&?&?&?&?)%own_false by apply (proj2 Hs _ _ Hr).
    eassert (effects s' = effects s ++ [_]) as -> by (rewrite H; reflexivity). rewrite flow_snoc. cbn [flow_of].
    rewrite (proj2 (Z.eqb_neq b names_account)) by done. rewrite Z.eqb_refl. destruct (symbol_eqb _ _); lia.
Qed.

(** The first purchase of REX creates the pool, with no proceeds. *)
Lemma add_to_rex_pool_fall q : respects names_fall (add_to_rex_pool q).
Proof.
  intros s u s' H. unfold add_to_rex_pool in H. apply bind_Ok in H as (c & s1 & [Hc ->]%core_symbol_Ok & H).
  apply bind_Ok in H as (it & s1 & [-> ->]%gets_Ok & H). destruct (rexpool s) as [p|] eqn:Hp.
  - apply naming_fall. apply bind_Ok in H as (av & s1 & [_ ->]%gets_Ok & H). destruct (negb av).
    + apply bind_Ok in H as ([] & s1 & H & [_ ->]%ret_Ok). eapply set_pool_naming; [exact Hp| |exact H]; reflexivity.
    + apply bind_Ok in H as ([] & s1 & [_ ->]%check_Ok & H). apply bind_Ok in H as (r & s1 & [_ ->]%lift_Ok & H).
      apply bind_Ok in H as ([] & s1 & [_ ->]%check_Ok & H). apply bind_Ok in H as ([] & s1 & H & [_ ->]%ret_Ok).
      eapply set_pool_naming; [exact Hp| |exact H]; reflexivity.
  - apply bind_Ok in H as (lent & s1 & [(_ & _ & ->)%make_asset_Ok ->]%lift_Ok & H).
    apply bind_Ok in H as (unlent & s1 & [_ ->]%lift_Ok & H). apply bind_Ok in H as ([] & s1 & H & [_ ->]%ret_Ok).
    unfold set_pool in H. apply modify_Ok in H. intros [Hok Hs].
    assert (proceeds_of s = None) as Hn by (unfold proceeds_of; by rewrite Hp).
    assert (surplus y s1 = surplus y s) as Hsur by (unfold surplus, names_owed; rewrite Hn, H; cbn; lia).
    split; [split; [|by subst s1]|split; [lia|by rewrite H; cbn; lia]].
    destruct Hok as [Hcore ? ? ? Hcov ?]. split; rewrite ?Hsur; [by subst s1|by subst s1|by subst s1| |done|by subst s1].
    rewrite H. intros a [= <-]. cbn. split; [done|]. congruence.
Qed.
Hint Resolve runrex_fall close_auction_fall newaccount_fall bidrefund_fall add_to_rex_pool_fall : ledger.

Lemma channel_naming n q b : own n = false -> respects names_fall (channel_to_rex e n q b).
Proof. intros Hn. apply view_naming. do 2 right. left. by apply channel_to_rex_off. Qed.
Lemma changebw_off f r n c b : respects names_fall (changebw e f r n c b).
Proof. unfold changebw. guarded. books_with fail. Qed.
Hint Resolve changebw_off : ledger.
Lemma rent_rex_fall k f r p q : respects names_fall (rent_rex e k f r p q).
Proof. unfold rent_rex. books_with fail. Qed.
Lemma setrex_fall b : respects names_fall (setrex e b).
Proof.
  unfold setrex, core_symbol, get_core_symbol. guarded. apply respects_guard; intros _.
  apply respects_bind; [apply _|ledger|intros c]. apply respects_guard; intros _.
  apply respects_bind; [apply _|ledger|intros i]. apply respects_guard; intros _.
  intros s u s' Hr. apply bind_Ok in Hr as (p & s1 & [Hp ->]%get_pool_Ok & Hr). apply naming_fall.
  eapply set_pool_naming; [exact Hp| |exact Hr]; reflexivity.
Qed.
Lemma unstake_send_fall a q m : respects names_fall (send (TokenTransfer a stake_account rex_account q m)).
Proof. intros s u s' H. eapply naming_fall, send_naming, H. by apply apart_flow. Qed.
Lemma rex_naming a : respects names_fall (rex_exec e a).
Proof.
  destruct a; cbn [rex_exec]; try apply setrex_fall;
    unfold deposit, withdraw, buyrex, unstaketorex, sellrex, queue_order, cnclrexorder, rentcpu, rentnet, fundcpuloan, fundnetloan,
      fund_rex_loan, defcpuloan, defnetloan, defund_rex_loan, updaterex, rexexec, consolidate, mvtosavings,
      mvfrsavings, closerex; guarded; books_with ltac:(first [apply rent_rex_fall | apply unstake_send_fall]).
Qed.
Lemma ram_naming a : respects names_fall (ram_exec e a).
Proof.
  assert (forall p r q, respects names_fall (buyram e p r q)) as Hbuy
    by (intros p r q; unfold buyram; guarded; books_with fail).
  destruct a; cbn [ram_exec]; unfold setram, setramrate, buyrambytes, sellram, get_market; guarded; books_with ltac:(apply Hbuy).
Qed.
(** A refund is paid to who asked for it. *)
Lemma refund_off o s u s' : stake_ok y s -> refund e o s = Ok (u, s') -> off_stake y s' = off_stake y s.
Proof.
  intros Hok H. unfold refund in H. apply bind_Ok in H as ([] & s1 & [Ha%(auth_outside e o He) ->]%check_Ok & H).
  apply bind_Ok in H as (it & s1 & [-> ->]%gets_Ok & H). apply bind_Ok in H as (r & s1 & [Hr ->]%require_found_Ok & H).
  destruct (refunds_ok _ _ Hok _ _ Hr) as (_ & _ & Howner & _). rewrite Howner in H.
  revert H. match goal with |- ?m s = _ -> _ => assert (keeps (off_stake y) m) as Hm; [|apply Hm] end. outsiders. ledger.
Qed.
Lemma staking_naming a s u s' : stake_ok y s -> stake_exec e a s = Ok (u, s') -> names_fall s s'.
Proof.
  intros Hok H. destruct a as [f r n c b|f r n c|o|o r n c]; cbn [stake_exec] in H.
  - revert H. match goal with |- ?m s = _ -> _ => assert (respects names_fall m) as Hm; [|apply Hm] end.
    unfold delegatebw. books_with fail.
  - revert H. match goal with |- ?m s = _ -> _ => assert (respects names_fall m) as Hm; [|apply Hm] end.
    unfold undelegatebw. books_with fail.
  - apply refund_off in H; [|done]. apply naming_fall. unfold off_stake in H. congruence.
  - by apply (rex_naming (Unstake_to_rex o r n c)) in H.
Qed.
Lemma power_naming a : respects names_fall (power_exec e a).
Proof.
  destruct a; cbn [power_exec]; unfold cfgpowerup, powerupexec, powerup, set_powerup_state; guarded; books_with fail.
Qed.
Lemma vote_naming a : respects names_fall (vote_exec e a).
Proof.
  destruct a; cbn [vote_exec]; unfold voteproducer, voteupdate, updaterex, regproxy; guarded; books_with fail.
Qed.
Lemma pay_naming a : respects names_fall (pay_exec e a).
Proof.
  pose proof (claimrewards_snapshot_off e y (self_outside e He)).
  destruct a; cbn [pay_exec]; unfold onblock, onblock_active, claimrewards; guarded; books_with fail.
Qed.

Lemma system_names a s u s' :
  system_args y a -> stake_ok y s -> names_good s -> held + flow names_account y (effects s') <= max_amount ->
  system_exec sha256 e a s = Ok (u, s') -> names_good s' /\ surplus y s <= surplus y s'.
Proof.
  intros Ha Hst Hok Hbal H. assert (names_fall s s' -> names_good s' /\ surplus y s <= surplus y s') as Hfall
    by (intros Hf; destruct (Hf Hok) as (? & ? & _); done).
  destruct a as [a|a|a|a|a|a|a|a|a|a]; cbn [system_exec system_args] in *.
  - apply Hfall. by eapply staking_naming.
  - apply Hfall. by eapply ram_naming.
  - apply Hfall. by eapply rex_naming.
  - apply Hfall. by eapply power_naming.
  - apply Hfall. by eapply pay_naming.
  - apply Hfall. by eapply vote_naming.
  - apply Hfall. eapply view_naming; [|exact H]. left. apply producer_untouched.
  - pose proof (account_untouched a) as Hb.
    destruct a; try (apply Hfall; eapply view_naming; [left; apply Hb|exact H]); cbn [account_exec] in H; [|apply Hfall..].
    + assert (own bidder = false) as Hout
        by (unfold bidname in H; apply bind_Ok in H as ([] & s1 & [Hb1 _]%check_Ok & _); by eapply auth_outside).
      destruct (own_false _ Hout) as (_ & _ & Hn & _). destruct Hok as [Hok Hs].
      destruct (bidname_kept e y held false _ _ _ _ _ _ Hn Ha H Hok Hbal) as (Hok' & Hsur & _).
      split; [split; [done|]|done].
      apply (bidname_inv e y) in H as (Hy & Hpos & Hpool & Hram & Hflow & (row & Hrow & Hbr & Hhb & _) & Hcase). destruct Hs as [Hs1 Hs2].
      split; [rewrite Hrow; apply map_Forall_insert_2; [by rewrite Hbr|done]|].
      destruct (namebids s !! newname) as [b0|] eqn:Hb0; [|by rewrite Hcase].
      destruct Hcase as (_ & _ & _ & r & _ & ->). apply map_Forall_insert_2; [|done]. exact (Hs1 _ _ Hb0).
    + by eapply bidrefund_fall.
    + by eapply newaccount_fall.
  - pose proof (admin_untouched a) as Hb. destruct a; try (apply Hfall; eapply view_naming; [left; apply Hb|exact H]).
    + apply init_once in H. destruct Hst. congruence.
    + apply Hfall. eapply view_naming; [do 2 right; left; apply distviarex_off|exact H].
  - apply Hfall. eapply view_naming; [left; apply evm_untouched|exact H].
Qed.

(** *** What REX, stakes and votes leave alone: producer pay, RAM and the least fee *)
Lemma rex_off a : keeps (off_rex y) (rex_exec e a).
Proof.
  destruct a; cbn [rex_exec]; unfold deposit, withdraw, buyrex, unstaketorex, sellrex, queue_order, cnclrexorder, rentcpu, rentnet,
      rent_rex, fundcpuloan, fundnetloan, fund_rex_loan, defcpuloan, defnetloan, defund_rex_loan, updaterex, setrex, rexexec,
      consolidate, mvtosavings, mvfrsavings, closerex; guarded; ledger.
Qed.
Lemma changebw_rex f r n c b : keeps (off_rex y) (changebw e f r n c b).
Proof. unfold changebw. guarded. ledger. Qed.
Hint Resolve changebw_rex : ledger.
Lemma staking_off a s u s' : stake_ok y s -> stake_exec e a s = Ok (u, s') -> off_rex y s' = off_rex y s.
Proof.
  intros Hok H. destruct a as [f r n c b|f r n c|o|o r n c]; cbn [stake_exec] in H.
  - revert H. match goal with |- ?m s = _ -> _ => assert (keeps (off_rex y) m) as Hm; [|apply Hm] end.
    unfold delegatebw. ledger.
  - revert H. match goal with |- ?m s = _ -> _ => assert (keeps (off_rex y) m) as Hm; [|apply Hm] end.
    unfold undelegatebw. ledger.
  - apply refund_off in H; [|done]. unfold off_stake in H. unfold off_rex. congruence.
  - by apply (rex_off (Unstake_to_rex o r n c)) in H.
Qed.
Lemma vote_off a : keeps (off_rex y) (vote_exec e a).
Proof.
  destruct a; cbn [vote_exec]; unfold voteproducer, voteupdate, updaterex, regproxy; guarded; ledger.
Qed.
Lemma close_auction_off t : keeps (off_rex y) (close_auction e t).
Proof. unfold close_auction, channel_namebid_to_rex. ledger. Qed.
Hint Resolve close_auction_off : ledger.

(** *** Producer pay *)
Lemma ram_pay a : respects (pay_kept y) (ram_exec e a).
Proof.
  assert (forall p r q, respects (pay_kept y) (buyram e p r q)) as Hbuy
    by (intros p r q; unfold buyram; guarded; books_with fail).
  destruct a; cbn [ram_exec]; unfold setram, setramrate, buyrambytes, sellram, get_market; guarded; books_with ltac:(apply Hbuy).
Qed.
Lemma power_pay a : respects (pay_kept y) (power_exec e a).
Proof.
  destruct a; cbn [power_exec]; unfold cfgpowerup, powerupexec, powerup, set_powerup_state; guarded; books_with fail.
Qed.

Lemma system_pay a s u s' :
  stake_ok y s -> strangers s -> system_exec sha256 e a s = Ok (u, s') -> pay_kept y s s'.
Proof.
  intros Hok Hs H. assert (off_rex y s' = off_rex y s -> pay_kept y s s') as Hoff
    by (intros Hv; apply pay_kept_view; unfold off_rex in Hv; congruence).
  destruct a as [a|a|a|a|a|a|a|a|a|a]; cbn [system_exec] in *.
  - by eapply Hoff, staking_off.
  - by eapply ram_pay.
  - by eapply Hoff, rex_off.
  - by eapply power_pay.
  - destruct a as [t p l|o]; cbn [pay_exec] in H.
    + by eapply onblock_kept; [apply (runs_as e He)|].
    + assert (own o = false) as (_ & _ & _ & Ho & _)%own_false.
      { unfold claimrewards in H. apply bind_Ok in H as ([] & s1 & [Ha _]%check_Ok & _). by eapply auth_outside. }
      by eapply claimrewards_kept; [apply (runs_as e He)| |].
  - by eapply Hoff, vote_off.
  - eapply view_pay; [left; apply producer_untouched|exact H].
  - apply account_off in H; [|done]. apply pay_kept_view. unfold off_names in H. congruence.
  - pose proof (admin_untouched a) as Hb. destruct a; try (eapply view_pay; [left; apply Hb|exact H]).
    + apply init_once in H. destruct Hok. congruence.
    + eapply Hoff, off_vault_off_rex; [apply distviarex_off|exact H].
  - eapply view_pay; [left; apply evm_untouched|exact H].
Qed.

(** *** RAM *)
Lemma ram_auth a s u s' : ram_exec e a s = Ok (u, s') -> ram_trader a.
Proof.
  intros H. destruct a as [z|z|p r q|p r b|n b]; cbn [ram_exec ram_trader] in *; try exact I.
  - unfold buyram in H. apply bind_Ok in H as ([] & s1 & [Ha%(auth_outside e _ He) _]%check_Ok & _). by destruct (own_false _ Ha) as (? & ? & ? & ? & ?).
  - unfold buyrambytes, get_market in H. minv H. unfold buyram in H.
    apply bind_Ok in H as ([] & s1 & [Ha%(auth_outside e _ He) _]%check_Ok & _). by destruct (own_false _ Ha) as (? & ? & ? & ? & ?).
  - unfold sellram in H. apply bind_Ok in H as ([] & s1 & [Ha%(auth_outside e _ He) _]%check_Ok & _). by destruct (own_false _ Ha) as (? & ? & ? & ? & ?).
Qed.
Lemma power_ram a : respects (ram_kept y) (power_exec e a).
Proof.
  destruct a; cbn [power_exec]; unfold cfgpowerup, powerupexec, powerup, set_powerup_state; guarded; books_with fail.
Qed.
Lemma pay_ram a : respects (ram_kept y) (pay_exec e a).
Proof.
  pose proof (claimrewards_snapshot_off e y (self_outside e He)).
  destruct a; cbn [pay_exec]; unfold onblock, onblock_active, claimrewards; guarded; books_with fail.
Qed.

Lemma system_ram a s u s' :
  stake_ok y s -> strangers s -> system_exec sha256 e a s = Ok (u, s') -> ram_kept y s s'.
Proof.
  intros Hok Hs H. assert (off_rex y s' = off_rex y s -> ram_kept y s s') as Hoff
    by (intros Hv; apply ram_sum_kept; unfold off_rex in Hv; congruence).
  destruct a as [a|a|a|a|a|a|a|a|a|a]; cbn [system_exec] in *.
  - by eapply Hoff, staking_off.
  - intros Hram. eapply ram_exec_kept; [by eapply ram_auth|done|exact H].
  - by eapply Hoff, rex_off.
  - by eapply power_ram.
  - by eapply pay_ram.
  - by eapply Hoff, vote_off.
  - eapply view_ram; [left; apply producer_untouched|exact H].
  - apply account_off in H; [|done]. apply ram_sum_kept. unfold off_names in H. congruence.
  - pose proof (admin_untouched a) as Hb. destruct a; try (eapply view_ram; [left; apply Hb|exact H]).
    + apply init_once in H. destruct Hok. congruence.
    + eapply Hoff, off_vault_off_rex; [apply distviarex_off|exact H].
  - eapply view_ram; [left; apply evm_untouched|exact H].
Qed.

(** *** The PowerUp fee *)
Lemma process_queue_fee now c st n s st' dn dc s' : process_powerup_queue e now c st n s = Ok ((st', dn, dc), s') ->
  PowState.min_powerup_fee st' = PowState.min_powerup_fee st.
Proof.
  intros H. unfold process_powerup_queue in H. apply bind_Ok in H as (net & s1 & [_ ->]%lift_Ok & H).
  apply bind_Ok in H as (cpu & s1 & [_ ->]%lift_Ok & H). apply bind_Ok in H as ([d1 d2] & s1 & _ & H).
  apply bind_Ok in H as ([n' dn'] & s2 & [_ ->]%lift_Ok & H). apply bind_Ok in H as ([c' dc'] & s2 & [_ ->]%lift_Ok & H).
  apply ret_Ok in H as [[= -> -> ->] _]. reflexivity.
Qed.

(** What [powerup] does to the books: a fee of the core token, at least the least fee, is
    channelled to REX. *)
Lemma powerup_inv p r d n c m s u s' : powerup e p r d n c m s = Ok (u, s') -> own p = false /\
  exists fee st s1 s2 s3, core_of s = Some (asset_symbol fee) /\ books y s1 = books y s /\
    channel_to_rex e p fee true s1 = Ok (tt, s2) /\ powerup_state_sing s3 = Some st /\ off_power y s3 = off_power y s2 /\
    books y s' = books y s3 /\ (fee_ok s -> 0 <= amount (PowState.min_powerup_fee st) <= amount fee).
Proof.
  intros H. unfold powerup in H. apply bind_Ok in H as ([] & s1 & [Ha%(auth_outside e _ He) ->]%check_Ok & H). split; [done|].
  apply bind_Ok in H as (sing & s1 & [-> ->]%gets_Ok & H). apply bind_Ok in H as (st & s1 & [Hst ->]%require_found_Ok & H).
  cbv zeta in H. apply bind_Ok in H as (core & s1 & [Hc ->]%core_symbol_Ok & H).
  do 6 apply bind_Ok in H as ([] & s1 & [_ ->]%check_Ok & H).
  apply bind_Ok in H as ([[st1 dn] dc] & s1 & Hq & H). pose proof (process_powerup_queue_untouched _ y _ _ _ _ _ _ _ Hq) as Hb1.
  apply process_queue_fee in Hq. apply bind_Ok in H as (fee0 & s2 & [(_ & _ & ->)%make_asset_Ok ->]%lift_Ok & H).
  apply bind_Ok in H as ([[na nf] net'] & s2 & Hn & H). apply bind_Ok in H as ([[ca cf] cpu'] & s3 & Hcpu & H).
  apply (rent_resource_untouched y) in Hn, Hcpu. apply bind_Ok in H as (ok & s4 & [_ ->]%lift_Ok & H).
  apply bind_Ok in H as ([] & s4 & [_ ->]%check_Ok & H). apply bind_Ok in H as (ok' & s4 & [[Hsym ->]%asset_le_Ok ->]%lift_Ok & H).
  apply bind_Ok in H as ([] & s4 & [Hle%Z.leb_le ->]%check_Ok & H). apply bind_Ok in H as ([] & s4 & H4%modify_Ok & H).
  apply bind_Ok in H as ([] & s5 & H5 & H). apply bind_Ok in H as ([] & s6 & H6 & H).
  apply (adjust_resources_untouched y) in H5, H6. apply bind_Ok in H as ([] & s7 & H7 & H).
  apply bind_Ok in H as ([] & s8 & H8 & H). unfold set_powerup_state in H8. apply modify_Ok in H8.
  apply (send_untouched y) in H; [|exact I].
  cbv beta in Hb1. exists (Asset (i64 (nf + cf)) core), (st1 <| PowState.net := net' |> <| PowState.cpu := cpu' |>), s6, s7, s8.
  split; [exact Hc|]. split; [rewrite H6, H5, H4; change (books y s3 = books y s); congruence|].
  split; [exact H7|]. split; [by rewrite H8|]. split; [by rewrite H8|]. split; [exact H|].
  intros Hfee. cbn [PowState.min_powerup_fee update_field]. rewrite Hq. split; [by apply Hfee|]. by rewrite <- Hq.
Qed.

Lemma cfgpowerup_fee args : respects fee_kept (cfgpowerup e args).
Proof.
  unfold cfgpowerup, get_core_symbol, set_powerup_state.
  repeat first [progress intros | progress cbv beta zeta | apply respects_guard
    | lazymatch goal with |- respects _ (mbind _ _) => fail | _ => by_view end | respects_rule].
  intros _ st [= <-]. cbn. by apply Z.lt_le_incl, Z.ltb_lt.
Qed.

Lemma power_fee a : respects fee_kept (power_exec e a).
Proof.
  intros s u s' H Hok. destruct a as [args|n max|p r d n c m]; cbn [power_exec] in H.
  - revert Hok. by eapply cfgpowerup_fee.
  - unfold powerupexec in H. apply bind_Ok in H as ([] & s1 & [_ ->]%check_Ok & H).
    apply bind_Ok in H as (sing & s1 & [-> ->]%gets_Ok & H). apply bind_Ok in H as (st & s1 & [Hst ->]%require_found_Ok & H).
    apply bind_Ok in H as (core & s1 & [_ ->]%core_symbol_Ok & H). apply bind_Ok in H as ([[st1 dn] dc] & s1 & Hq & H).
    apply process_queue_fee in Hq. apply bind_Ok in H as ([] & s2 & _ & H). unfold set_powerup_state in H.
    apply modify_Ok in H as ->. intros st' [= <-]. rewrite Hq. by apply Hok.
  - apply powerup_inv in H as (_ & fee & st & s1 & s2 & s3 & _ & _ & _ & Hst & _ & Hb & Hle).
    intros st' Hst'. unfold books in Hb. assert (powerup_state_sing s' = powerup_state_sing s3) as Hs by congruence.
    rewrite Hs, Hst in Hst'. injection Hst' as <-. by apply Hle.
Qed.
Lemma pay_fee a : respects fee_kept (pay_exec e a).
Proof.
  pose proof (claimrewards_snapshot_off e y (self_outside e He)).
  destruct a; cbn [pay_exec]; unfold onblock, onblock_active, claimrewards; guarded; books_with fail.
Qed.
Lemma ram_fee_kept a : respects fee_kept (ram_exec e a).
Proof.
  assert (forall p r q, respects fee_kept (buyram e p r q)) as Hbuy
    by (intros p r q; unfold buyram; guarded; books_with fail).
  destruct a; cbn [ram_exec]; unfold setram, setramrate, buyrambytes, sellram, get_market; guarded; books_with ltac:(apply Hbuy).
Qed.

Lemma system_fee a s u s' :
  stake_ok y s -> strangers s -> fee_ok s -> system_exec sha256 e a s = Ok (u, s') -> fee_ok s'.
Proof.
  intros Hok Hs Hfee H. revert Hfee. change (fee_kept s s').
  assert (off_rex y s' = off_rex y s -> fee_kept s s') as Hoff.
  { unfold off_rex. intros Hv. assert (powerup_state_sing s' = powerup_state_sing s) as Hp by congruence.
    unfold fee_kept, fee_ok. by rewrite Hp. }
  destruct a as [a|a|a|a|a|a|a|a|a|a]; cbn [system_exec] in *.
  - by eapply Hoff, staking_off.
  - by eapply ram_fee_kept.
  - by eapply Hoff, rex_off.
  - by eapply power_fee.
  - by eapply pay_fee.
  - by eapply Hoff, vote_off.
  - eapply view_fee; [left; apply producer_untouched|exact H].
  - apply account_off in H; [|done]. apply Hoff. unfold off_names in H. unfold off_rex. congruence.
  - pose proof (admin_untouched a) as Hb. destruct a; try (eapply view_fee; [left; apply Hb|exact H]).
    + apply init_once in H. destruct Hok. congruence.
    + eapply Hoff, off_vault_off_rex; [apply distviarex_off|exact H].
  - eapply view_fee; [left; apply evm_untouched|exact H].
Qed.

(** *** REX *)
Context (Hclock : clock_ok e).
Notation kept := (vault_kept e y held None None).
#[local] Existing Instance vault_kept_preorder.

(** Votes and stakes renew the value of a voter's shares, and nothing else of the row. *)
Lemma update_rex_stake_kept n : respects kept (update_rex_stake n).
Proof.
  intros s u s' H. unfold update_rex_stake, find_row in H. apply bind_Ok in H as (it & s1 & [-> ->]%gets_Ok & H).
  apply bind_Ok in H as (av & s1 & [_ ->]%gets_Ok & H). apply bind_Ok in H as (d & s1 & H1 & H).
  assert (kept s s1) as Hk.
  { destruct (rexbalances s !! n) as [b|] eqn:Hb; [|by apply ret_Ok in H1 as [_ ->]].
    destruct av; [|by apply ret_Ok in H1 as [_ ->]].
    apply bind_Ok in H1 as (c & s2 & [_ ->]%core_symbol_Ok & H1). apply bind_Ok in H1 as (p & s2 & [_ ->]%get_pool_Ok & H1).
    apply bind_Ok in H1 as (v & s2 & [_ ->]%lift_Ok & H1). apply bind_Ok in H1 as ([] & s2 & Hset & H1). apply ret_Ok in H1 as [_ ->].
    assert (tokens y held s2 = tokens y held s) as Ht by (unfold set_rex_balance in Hset; by apply modify_Ok in Hset as ->).
    split; [lia|]. intros Hok _ _.
    destruct (set_stake_vault e y held _ _ _ _ _ _ Hset Hb eq_refl eq_refl eq_refl Hok) as (? & _ & Hs). split; [done|lia]. }
  etrans; [exact Hk|]. revert H. match goal with |- ?m s1 = _ -> _ => assert (respects kept m) as Hm; [|apply Hm] end. books_with fail.
Qed.
Hint Resolve update_rex_stake_kept : ledger.
Lemma changebw_kept f r n c b : respects kept (changebw e f r n c b).
Proof. unfold changebw. guarded. books_with fail. Qed.
Hint Resolve changebw_kept : ledger.

Lemma staking_kept a s u s' : stake_ok y s -> stake_exec e a s = Ok (u, s') -> action_kept e y held s s'.
Proof.
  intros Hok H. destruct a as [f r n c b|f r n c|o|o r n c]; cbn [stake_exec] in H; [apply kept_action..|].
  - revert H. match goal with |- ?m s = _ -> _ => assert (respects kept m) as Hm; [|apply Hm] end. unfold delegatebw. books_with fail.
  - revert H. match goal with |- ?m s = _ -> _ => assert (respects kept m) as Hm; [|apply Hm] end. unfold undelegatebw. books_with fail.
  - apply refund_off in H; [|done]. apply vault_kept_view. unfold off_stake in H. congruence.
  - by eapply unstaketorex_action.
Qed.

Lemma close_auction_vault t : respects kept (close_auction e t).
Proof.
  intros s u s' H. unfold close_auction in H. apply bind_Ok in H as (h & s1 & [-> ->]%gets_Ok & H).
  apply bind_Ok in H as (g & s1 & [_ ->]%gets_Ok & H). destruct (highest_bid s) as [[n b]|]; [|by apply ret_Ok in H as [_ ->]].
  apply when_Ok in H. destruct (_ && _) in H; [|by subst]. unfold channel_namebid_to_rex in H.
  apply bind_Ok in H as ([] & s1 & H1%modify_Ok & H). apply bind_Ok in H as ([] & s2 & Hch & H). apply modify_Ok in H.
  trans s1; [apply vault_kept_view; by subst s1|]. trans s2; [|apply vault_kept_view; by subst s'].
  apply bind_Ok in Hch as (av & s3 & [_ ->]%gets_Ok & Hch). apply when_Ok in Hch. destruct av; [|by subst s2].
  apply bind_Ok in Hch as (p & s3 & Hp & Hch). pose proof Hp as [_ ->]%get_pool_Ok.
  eapply set_namebid_vault. apply bind_Ok. exists p, s1. split; [exact Hp|exact Hch].
Qed.
Hint Resolve close_auction_vault : ledger.
Lemma pay_vault a : respects kept (pay_exec e a).
Proof.
  pose proof (claimrewards_snapshot_off e y (self_outside e He)).
  destruct a; cbn [pay_exec]; unfold onblock, onblock_active, claimrewards; guarded; books_with fail.
Qed.
Lemma voteupdate_rest n : respects kept
  (rex_itr ← find_row rexbalances n;
   let from_rex := match rex_itr with
     | Some b => if 0 <? amount (RexBal.rex_bal b) then amount (RexBal.vote_stake b) else 0
     | None => 0 end in
   rows ← gets (delegated_by n);
   let new_staked := fold_left (fun z d =>
     i64 (z + i64 (amount (Delband.net_weight d) + amount (Delband.cpu_weight d)))) rows from_rex in
   voter ← get_voter n "no voter found";
   when (negb (Voter.staked voter =? new_staked)) (set_voter n (voter <| Voter.staked := new_staked |>)) ;;
   update_votes e n (Voter.proxy voter) (Voter.producers voter) true).
Proof. books_with fail. Qed.
Lemma vote_vault a s u s' : vote_exec e a s = Ok (u, s') -> action_kept e y held s s'.
Proof.
  intros H. destruct a as [v p l|v|p b]; cbn [vote_exec] in H.
  - apply kept_action. revert H. match goal with |- ?m s = _ -> _ => assert (respects kept m) as Hm; [|apply Hm] end.
    unfold voteproducer. books_with fail.
  - unfold voteupdate in H. apply bind_Ok in H as (it & s1 & [_ ->]%gets_Ok & H). apply bind_Ok in H as ([] & s1 & [_ ->]%check_Ok & H).
    apply bind_Ok in H as ([] & s1 & Hup & H). apply voteupdate_rest in H.
    eapply (action_trans e y held s s1 s'); [apply H|by eapply updaterex_action|by apply kept_action].
  - apply kept_action. revert H. match goal with |- ?m s = _ -> _ => assert (respects kept m) as Hm; [|apply Hm] end.
    unfold regproxy. books_with fail.
Qed.

(** Fees are of the core token: the market tells which one that is. *)
Definition kept_in (c : symbol) (s s' : sys) : Prop := core_of s = Some c -> core_of s' = Some c /\ kept s s'.
#[local] Instance kept_in_preorder c : PreOrder (kept_in c).
Proof.
  split; [by intros s Hc; split|]. intros s1 s2 s3 H12 H23 Hc. destruct (H12 Hc) as [Hc2 Hk]. destruct (H23 Hc2) as [Hc3 Hk2].
  split; [done|]. by trans s2.
Qed.
Lemma view_in {A} c (m : M sys A) :
  keeps (books y) m \/ keeps (off_stake y) m \/ keeps (off_names y) m \/ keeps (off_pay y) m \/ keeps (off_ram y) m \/
  keeps (off_power y) m -> respects (kept_in c) m.
Proof.
  intros Hm. assert (keeps core_of m /\ respects kept m) as [Hc Hk].
  { split; [|by apply view_vault]. apply (keeps_le (vault y)); [unfold vault; intros ?? [=]; congruence|].
    destruct Hm as [H|[H|[H|[H|[H|H]]]]]; revert H; apply keeps_le; view_le. }
  intros s a s' H Hs. rewrite (Hc _ _ _ H). split; [done|]. by eapply Hk.
Qed.
Lemma channel_in c n q b : own n = false -> asset_symbol q = c -> 0 <= amount q -> respects (kept_in c) (channel_to_rex e n q b).
Proof.
  intros Hn Hq Hpos s u s' H Hc. split.
  - rewrite <- Hc. apply (channel_to_rex_off e y n q b Hn) in H. unfold off_vault, naming in H. congruence.
  - destruct (own_false n Hn) as (_ & Hr & _). destruct (channel_to_rex_vault e y held Hclock None None _ _ _ _ _ _ H Hr Hpos) as [Ht Hk].
    split; [done|]. intros Hok Hs Hcap. apply Hk; [|done..]. pose proof (v_core _ _ _ _ _ Hok). congruence.
Qed.
Lemma respects_when_true {S} (R : relation S) `{!PreOrder R} b (m : M S unit) :
  (b = true -> respects R m) -> respects R (when b m).
Proof. intros Hm. destruct b; [by apply Hm|by apply respects_ret]. Qed.
Lemma respects_lift_of {S A B} (R : relation S) `{!PreOrder R} (r : result A) (f : A -> M S B) :
  (forall a, r = Ok a -> respects R (f a)) -> respects R (a ← lift r; f a).
Proof. intros Hf s b s' H. apply bind_Ok in H as (a & s1 & [Ha ->]%lift_Ok & H). by eapply Hf. Qed.
Lemma core_in {A} (f : symbol -> M sys A) : (forall c, respects (kept_in c) (f c)) -> respects kept (c ← core_symbol; f c).
Proof.
  intros Hf s a s' H. apply bind_Ok in H as (c & s1 & [Hc ->]%core_symbol_Ok & H). eapply Hf; [exact H|exact Hc].
Qed.
Ltac in_loop := repeat first
  [ progress intros | progress cbv beta zeta | apply respects_guard | apply respects_when_true; [apply _|]
  | apply respects_lift_of
  | lazymatch goal with |- respects _ (mbind _ _) => fail | _ => idtac end;
    first [solve [eauto 3 with ledger typeclass_instances] | solve [apply view_in; pick]]
  | respects_rule ].

Lemma buyram_vault p r q : respects kept (buyram e p r q).
Proof.
  unfold buyram. guarded. apply respects_bind; [apply _|by_view|intros _]. apply core_in. intros c. unfold token_transfer, find_row. in_loop.
  apply channel_in; [done|by apply symbol_eqb_eq|cbn; by apply Z.lt_le_incl, Z.ltb_lt].
Qed.
Lemma ram_vault a : respects kept (ram_exec e a).
Proof.
  pose proof buyram_vault as Hbuy. destruct a as [z|z|p r q|p r b|n b]; cbn [ram_exec].
  - unfold setram. books_with fail.
  - unfold setramrate. books_with fail.
  - apply Hbuy.
  - unfold buyrambytes, get_market. books_with ltac:(apply Hbuy).
  - unfold sellram. guarded. apply respects_bind; [apply _|by_view|intros _]. apply respects_guard; intros _.
    unfold find_row, token_transfer. apply respects_bind; [apply _|ledger|intros it].
    apply respects_bind; [apply _|ledger|intros res]. apply respects_guard; intros _.
    apply core_in. intros c. in_loop.
    match goal with Ha : make_asset _ _ = Ok _ |- _ => apply make_asset_Ok in Ha as (_ & _ & ->) end.
    apply channel_in; [done|done|cbn; by apply Z.lt_le_incl, Z.ltb_lt].
Qed.
Lemma power_vault a s u s' : fee_ok s -> power_exec e a s = Ok (u, s') -> kept s s'.
Proof.
  intros Hfee H. destruct a as [args|n max|p r d n c m]; cbn [power_exec] in H.
  - revert H. match goal with |- ?m s = _ -> _ => assert (respects kept m) as Hm; [|apply Hm] end.
    unfold cfgpowerup, set_powerup_state. books_with fail.
  - revert H. match goal with |- ?m s = _ -> _ => assert (respects kept m) as Hm; [|apply Hm] end.
    unfold powerupexec, set_powerup_state. books_with fail.
  - apply powerup_inv in H as (Hp & fee & st & s1 & s2 & s3 & Hc & Hb1 & Hch & _ & Hb3 & Hb & Hle).
    specialize (Hle Hfee). unfold books in Hb1, Hb. unfold off_power in Hb3.
    trans s1; [apply vault_kept_view; congruence|]. trans s2; [|apply vault_kept_view; congruence].
    eapply (channel_in (asset_symbol fee) p fee true Hp eq_refl); [lia|exact Hch|].
    assert (vault y s1 = vault y s) as Hv by congruence. unfold vault in Hv. congruence.
Qed.

Lemma system_vault a s u s' :
  system_args y a -> stake_ok y s -> strangers s -> fee_ok s -> system_exec sha256 e a s = Ok (u, s') ->
  action_kept e y held s s'.
Proof.
  intros Ha Hok Hs Hfee H. destruct a as [a|a|a|a|a|a|a|a|a|a]; cbn [system_exec system_args] in *.
  - by eapply staking_kept.
  - apply kept_action. by eapply ram_vault.
  - eapply (vault_exec_kept e y held Hclock (Rex_action a)); [|exact H].
    assert (forall n (m : M sys unit) v s1, (require_auth e n ;; m) s = Ok (v, s1) -> n <> rex_account) as Hout.
    { intros n m v s1 Hr. apply bind_Ok in Hr as ([] & s2 & [Hn _]%check_Ok & _). apply (auth_outside e n He), own_false in Hn. tauto. }
    destruct a; cbn [rex_exec vault_args] in *; try exact I; [..|exact Ha]; by eapply Hout.
  - apply kept_action. by eapply power_vault.
  - apply kept_action. by eapply pay_vault.
  - by eapply vote_vault.
  - apply kept_action. eapply view_vault; [left; apply producer_untouched|exact H].
  - apply account_off in H; [|done]. apply kept_action, vault_kept_view. unfold off_names in H. congruence.
  - apply kept_action. pose proof (admin_untouched a) as Hb. destruct a; try (eapply view_vault; [left; apply Hb|exact H]).
    + apply init_once in H. destruct Hok. congruence.
    + destruct Ha as [Hq Hpos]. cbn [admin_exec] in H. unfold distviarex in H.
      apply bind_Ok in H as ([] & s1 & [->%Z.eqb_eq ->]%check_Ok & H). apply bind_Ok in H as ([] & s1 & [_ ->]%check_Ok & H).
      eapply (channel_in y tedp_account q false eq_refl Hq Hpos); [exact H|apply Hok].
  - apply kept_action. eapply view_vault; [left; apply evm_untouched|exact H].
Qed.
End ledgers.

(** ** Runs of the whole contract *)

(** All books are in order: [held_rex] and [held_names] are what the two accounts held
    before the first effect. *)
Record solvent `{cdt : Cdt} (y : symbol) (held_rex held_names : Z) (e : Env) (s : sys) : Prop := {
  solvent_stakes : stake_ok y s;
  solvent_rex : vault_ok e y None None s;
  solvent_rex_covered : 0 <= vault_surplus y held_rex s;
  solvent_rex_cap : tokens y held_rex s <= rex_cap;
  solvent_names : names_good y held_names s;
  solvent_pay : pay_ok y s;
  solvent_ram : ram_market_ok y s;
  solvent_fee : fee_ok s;
}.

(** What no action changes but together: what the tables promise and what was sent. *)
Record accounts_kept (y : symbol) (held_rex : Z) (s s' : sys) : Prop := {
  kept_stakes : stake_due s' - stake_due s = flow stake_account y (effects s') - flow stake_account y (effects s);
  kept_rex : vault_surplus y held_rex s <= vault_surplus y held_rex s';
  kept_names : surplus y s <= surplus y s';
  kept_pay : pay_gap y s' = pay_gap y s;
  kept_ram : ram_accounts y s' = ram_accounts y s;
}.
#[export] Instance accounts_kept_preorder y held : PreOrder (accounts_kept y held).
Proof.
  split; [split; lia || done|]. intros s1 s2 s3 [] []. split; [lia|lia|lia|congruence|congruence].
Qed.

Section runs.
Context `{cdt : Cdt} `{!CdtLaws cdt} `{libm : Libm} `{!LibmLaws libm}.
Context (sha256 : list Z -> Z) (y : symbol) (held_rex held_names : Z).
Implicit Types s : sys.

(** One action, later than the last, with whatever the chain and other contracts answer it:
    it is signed by outsiders or by [eosio], and neither [eosio.rex] nor [eosio.names]
    comes to hold more than its cap. *)
Inductive system_step : relation (Env * sys) :=
| system_step_intro (host : Host) (evm : EvmHost) e e' a s u s' :
    OracleLaws host -> now_sec e <= now_sec e' -> clock_ok e' -> calm e' s -> system_env e' -> system_args y a ->
    system_exec sha256 e' a s = Ok (u, s') ->
    tokens y held_rex s' <= rex_cap -> held_names + flow names_account y (effects s') <= max_amount ->
    system_step (e, s) (e', s').

Lemma system_step_kept e s e' s' :
  solvent y held_rex held_names e s -> system_step (e, s) (e', s') ->
  solvent y held_rex held_names e' s' /\ accounts_kept y held_rex s s'.
Proof.
  intros [Hst Hrex Hcov Hcap Hn Hp Hram Hfee] Hstep.
  remember (e, s) as x eqn:Hx. remember (e', s') as x' eqn:Hx'.
  destruct Hstep as [host evm e0 e1 a s0 u s1 Horacle Hle Hclock Hcalm He Ha H Hcap' Hbal]. injection Hx as -> ->. injection Hx' as -> ->.
  destruct (system_staking sha256 e' y He a s u s' Ha (proj2 Hn) Hst H Hst) as [Hst' ?].
  destruct (system_vault sha256 e' y held_rex He Hclock a s u s' Ha Hst (proj2 Hn) Hfee H) as [Hrex' ?]; [by eapply vault_later|done..|].
  destruct (system_names sha256 e' y held_names He a s u s' Ha Hst Hn Hbal H) as [Hn' ?].
  destruct (system_pay sha256 e' y He a s u s' Hst (proj2 Hn) H Hp) as [Hp' ?].
  destruct (system_ram sha256 e' y He a s u s' Hst (proj2 Hn) H Hram) as [Hram' ?].
  pose proof (system_fee sha256 e' y He a s u s' Hst (proj2 Hn) Hfee H) as Hfee'.
  split; split; try done; lia.
Qed.

(** C3: Over any run of actions of the system contract, in any order, that satisfy
    [system_step] - TEDP distributes only the core token, and eosio.rex and eosio.names
    stay below their caps - the books of all components stay right together. Stakes and
    refunds change by exactly the tokens that went to eosio.stake less those that left it;
    what eosio.rex holds beyond all it owes, and what eosio.names holds beyond all it owes,
    is never negative and never shrinks. Of eosio.bpay and of the RAM market it says less:
    the differences between their counters and their tokens, as the code's wrapping 64-bit
    numbers, never change - not that the tokens cover the counters, which for eosio.bpay
    need not be so. *)
Theorem system_books_stay_right e s e' s' :
  solvent y held_rex held_names e s -> rtc system_step (e, s) (e', s') ->
  solvent y held_rex held_names e' s' /\ accounts_kept y held_rex s s'.
Proof.
  intros Hok Hrun. remember (e, s) as x eqn:Hx. remember (e', s') as x' eqn:Hx'. revert e s Hx Hok.
  induction Hrun as [x|x1 x2 x3 Hstep _ IH]; intros e s -> Hok.
  - injection Hx' as -> ->. split; [done|reflexivity].
  - destruct x2 as [e2 s2]. destruct (system_step_kept e s e2 s2 Hok Hstep) as [Hok2 Hk].
    destruct (IH Hx' e2 s2 eq_refl Hok2) as [Hok' Hk']. split; [done|]. by trans s2.
Qed.
End runs.
(** ** An example: stakes, RAM, a bid and shares, in one run *)

(** What the steps of a run are asked for, decided. *)
Definition calm_now (e : Env) (s : sys) : bool :=
  match rexretpool s with
  | Some rp => (effective e <=? RetPool.last_dist_time rp) ||
      (RetPool.proceeds rp * (effective e / dist_interval - RetPool.last_dist_time rp / dist_interval + 1) <? 2 ^ 63)
  | None => true
  end.
Lemma calm_now_calm e s : calm_now e s = true -> calm e s.
Proof.
  unfold calm_now. intros H rp Hrp. rewrite Hrp in H. apply orb_true_iff in H as [H|H]; [left; by apply Z.leb_le|right; by apply Z.ltb_lt].
Qed.
Definition clock_now (e : Env) : bool :=
  (0 <=? now_us e) && (span + dist_interval <=? now_sec e) && (now_sec e + span + 43200 <? 2 ^ 32 - 1).
Lemma clock_now_ok e : clock_now e = true -> clock_ok e.
Proof. unfold clock_now, clock_ok. rewrite !andb_true_iff, !Z.leb_le, Z.ltb_lt. tauto. Qed.

(** Each action has its time and one signer; the name that is bid for is no account. *)
Definition ex_run_env (at_ : Z * name) : Env := mkEnv eosio_account [active_of at_.2] at_.1 (fun k => negb (k =? ex_short_name)).
Definition ex_whole_sys : sys := ex_ret_sys <| gstate ::= fun g => g <| Global.max_ram_size := 68719476736 |> |>.
Definition ex_exec (at_ : Z * name) (a : system_action) : M sys unit :=
  system_exec (cdt := cdt_model) (libm := libm_model) (host := ex_host) (evm := ex_evm) (fun _ => 0) (ex_run_env at_) a.
(** The environment may follow [e] in state [s]. *)
Definition ex_env_next (e : Env) (at_ : Z * name) (s : sys) : bool :=
  negb (own at_.2) && (now_sec e <=? now_sec (ex_run_env at_)) && clock_now (ex_run_env at_) && calm_now (ex_run_env at_) s.
Fixpoint ex_run (hr hn : Z) (l : list (Z * name * system_action)) (e : Env) (s : sys) : option (Env * sys) :=
  match l with
  | [] => Some (e, s)
  | (at_, a) :: l =>
    match ex_exec at_ a s with
    | Ok (_, s') =>
      if ex_env_next e at_ s && (tokens core hr s' <=? rex_cap) && (hn + flow names_account core (effects s') <=? max_amount)
      then ex_run hr hn l (ex_run_env at_) s' else None
    | Err _ => None
    end
  end.

Lemma signed_by_outsider at_ : own at_.2 = false -> system_env (ex_run_env at_).
Proof.
  intros Hn. split; [done|]. intros a Ha. unfold has_auth, ex_run_env. cbn. rewrite orb_false_r.
  apply Z.eqb_neq. congruence.
Qed.
Lemma ex_env_next_ok e at_ s : ex_env_next e at_ s = true ->
  now_sec e <= now_sec (ex_run_env at_) /\ clock_ok (ex_run_env at_) /\ calm (ex_run_env at_) s /\ system_env (ex_run_env at_).
Proof.
  unfold ex_env_next. rewrite !andb_true_iff, Z.leb_le, negb_true_iff. intros [[[Hn Hle] Hclock] Hcalm].
  split; [done|]. split; [by apply clock_now_ok|]. split; [by apply calm_now_calm|by apply signed_by_outsider].
Qed.
Lemma ex_run_steps hr hn l e s e' s' : Forall (fun x => system_args core x.2) l -> ex_run hr hn l e s = Some (e', s') ->
  rtc (system_step (cdt := cdt_model) (libm := libm_model) (fun _ => 0) core hr hn) (e, s) (e', s').
Proof.
  intros Hargs. revert e s. induction Hargs as [|[at_ a] l Ha _ IH]; intros e s H; [injection H as -> ->; apply rtc_refl|].
  cbn [ex_run] in H. destruct (ex_exec at_ a s) as [[u s1]|] eqn:H1; [|done].
  destruct (_ && _) eqn:Hc in H; [|done]. rewrite !andb_true_iff, !Z.leb_le in Hc. destruct Hc as [[Hnext Hr] Hb].
  apply ex_env_next_ok in Hnext as (Hle & Hclock & Hcalm & He). eapply rtc_l; [|by apply IH].
  apply (system_step_intro (fun _ => 0) core hr hn ex_host ex_evm e (ex_run_env at_) a s u s1); try done.
  apply ex_oracle_laws.
Qed.

(** Before the first action: a time long after the network started. *)
Definition ex_start : Z * name := (1700000000000000, 5).
Lemma ex_whole_solvent : solvent (cdt := cdt_model) core 10573397 0 (ex_run_env ex_start) ex_whole_sys.
Proof.
  split.
  - by split.
  - pose proof ex_vault_ok as [? ? ? ? ? ? ? ? ? ?]. split; assumption.
  - vm_compute. discriminate.
  - vm_compute. discriminate.
  - split; [|done]. pose proof ex_rex_sys_names_ok as [? ? ? ? ? ?]. split; assumption.
  - by split.
  - split; [discriminate|]. exists ex_market. split; [reflexivity|split; reflexivity].
  - done.
Qed.

Definition ex_whole_run : list (Z * name * system_action) :=
  [((1700000000000000, 5), Staking_action (Delegatebw 5 6 (tlos 30000) (tlos 70000) false));
   ((1700000001000000, 5), Ram_market_action (Buyram 5 5 (tlos 1000000)));
   ((1700000001000000, 6), Account_action (Bid_name 6 ex_short_name (tlos 10000)));
   ((1700000002000000, 5), Rex_pool_action (Buyrex 5 (tlos 100001)));
   ((1700000003000000, 5), Staking_action (Undelegatebw 5 6 (tlos 0) (tlos 20000)))].

Lemma system_books_stay_right_witness :
  exists e' s', ex_run 10573397 0 ex_whole_run (ex_run_env ex_start) ex_whole_sys = Some (e', s') /\
    solvent (cdt := cdt_model) core 10573397 0 e' s' /\
    stake_due s' = 100000 /\ names_owed s' = 10000 /\ flow ram_account core (effects s') = 995000.
Proof.
  assert (match ex_run 10573397 0 ex_whole_run (ex_run_env ex_start) ex_whole_sys with
    | Some (_, s') => (stake_due s' =? 100000) && (names_owed s' =? 10000) && (flow ram_account core (effects s') =? 995000)
    | None => false end = true) as Hok by (vm_compute; reflexivity).
  destruct (ex_run 10573397 0 ex_whole_run (ex_run_env ex_start) ex_whole_sys) as [[e' s']|] eqn:H; [|discriminate].
  rewrite !andb_true_iff, !Z.eqb_eq in Hok. destruct Hok as [[Hst Hn] Hram].
  apply ex_run_steps in H as Hrun; [|repeat constructor; vm_compute; discriminate].
  destruct (system_books_stay_right (cdt := cdt_model) (libm := libm_model) (fun _ => 0) core 10573397 0 _ _ _ _ ex_whole_solvent Hrun)
    as [Hs _].
  exists e', s'. do 3 (split; [done|]). by split.
Defined.
