(* ===== verification/Ballots.v ===== *)
(** * The votes of the whole contract

    Votes.v follows one vote. Here the tables of votes are followed through every action of
    the contract: the rows stay in order whatever runs, the activated stake stays the sum of
    the stakes last voted with, and a stake can always be changed without the votes standing
    in the way. One routine does stand in the way of blocks: [recalculate_votes]. *)
From S2P Require Import Prelude.
From S2P Require Import Cdt.
From S2P Require Import Float64.
From S2P Require Import SysState.
From S2P Require Import Token.
From S2P Require Import Votes.
From S2P Require Import Exchange.
From S2P Require Import RexPool.
From S2P Require Import Bandwidth.
From S2P Require Import Rex.
From S2P Require Import Solvency.
From S2P Require Import RamLedger.
From S2P Require Import RexLedger.
From S2P Require Import RexReturn.
From S2P Require Import RexVault.
From S2P Require Import Producers.
From S2P Require Import Rotation.
From S2P Require Import Voting.
From S2P Require Import BlockInfo.
From S2P Require Import NameBid.
From S2P Require Import LimitAuth.
From S2P Require Import Pay.
From S2P Require Import NameLedger.
From S2P Require Import PayLedger.
From S2P Require Import Powerup.
From S2P Require Import Evm.
From S2P Require Import Admin.
From S2P Require Import Books.
From stdpp Require Import base gmap strings list sorting relations.
From S2P Require Import System.
Open Scope Z_scope.

(** ** The tables of votes in order *)

(** What of a voter's row the votes depend on. *)
Definition ballot_row (v : voter_info) :=
  (Voter.owner v, Voter.proxy v, Voter.is_proxy v, Voter.producers v, Voter.last_stake v, Voter.last_vote_weight v).

(** A row is under its owner, votes for at most thirty, and - unless its weight is negative
    or not a number, when nothing is checked - for accounts that have registered. *)
Definition ballot_ok (ps : gmap name producer_info) (n : name) (v : voter_info) : Prop :=
  Voter.owner v = n /\ (length (Voter.producers v) <= 30)%nat /\
  (dle dzero (Voter.last_vote_weight v) = true -> forall p, p ∈ Voter.producers v -> is_Some (ps !! p)).
Record ballots_ok (s : sys) : Prop := {
  ballots_votes : vote_inv s;
  ballots_rows : map_Forall (ballot_ok (producers s)) (voters s);
}.
Definition ballots_kept (s s' : sys) : Prop := ballots_ok s -> ballots_ok s'.
#[export] Instance ballots_kept_preorder : PreOrder ballots_kept.
Proof. split; [by intros s|]. intros s1 s2 s3 H12 H23 H. by apply H23, H12. Qed.

(** Code that leaves the voters and the activated stake alone, and no producer's row goes. *)
Definition votes_same (s s' : sys) : Prop :=
  voters s' = voters s /\ Global.total_activated_stake (gstate s') = Global.total_activated_stake (gstate s) /\
  forall p, is_Some (producers s !! p) -> is_Some (producers s' !! p).
Lemma same_kept s s' : votes_same s s' -> ballots_kept s s'.
Proof.
  intros (Hv & Ha & Hp) [[Hnp Hs Hsum] Hrows]. split; [split|].
  - unfold proxy_free. by rewrite Hv.
  - by rewrite Hv.
  - by rewrite Hv, Ha.
  - rewrite Hv. intros n v Hn. destruct (Hrows n v Hn) as (Ho & Hl & Hk). split; [done|]. split; [done|].
    intros Hw p Hin. by apply Hp, Hk.
Qed.
Lemma modify_same (f : sys -> sys) : (forall s, votes_same s (f s)) -> respects ballots_kept (modify f).
Proof. intros Hf. apply respects_modify. intros s. apply same_kept, Hf. Qed.

Lemma some_insert {A} (m : gmap name A) n x p : is_Some (m !! p) -> is_Some (<[n := x]> m !! p).
Proof. intros Hp. rewrite lookup_insert. by case_decide. Qed.
Lemma some_fmap {A} (f : A -> A) (m : gmap name A) p : is_Some (m !! p) -> is_Some ((f <$> m) !! p).
Proof. rewrite lookup_fmap. by intros [x ->]. Qed.

(** A row is written, but for what the votes depend on; an account with no row starts with
    an empty ballot. *)
Definition row_before (s : sys) (n : name) : voter_info := default (new_voter n) (voters s !! n).
Lemma set_row_kept s n v : ballot_row v = ballot_row (row_before s n) -> ballots_kept s (s <| voters ::= insert n v |>).
Proof.
  unfold row_before, ballot_row. intros [= Ho Hp Hi Hl Hs Hw] [[Hnp Hsort Hsum] Hrows].
  split; [split|]; unfold proxy_free; change (voters (s <| voters ::= insert n v |>)) with (<[n := v]> (voters s)).
  - apply map_Forall_insert_2; [|done]. rewrite Hp, Hi. destruct (voters s !! n) as [w|] eqn:Hn; [by apply (Hnp n w)|done].
  - apply map_Forall_insert_2; [|done]. rewrite Hl. destruct (voters s !! n) as [w|] eqn:Hn; [by apply (Hsort n w)|done].
  - rewrite msum_set, Hs. change (gstate (s <| voters ::= insert n v |>)) with (gstate s). rewrite Hsum. f_equal.
    destruct (voters s !! n); cbn; lia.
  - apply map_Forall_insert_2; [|done]. unfold ballot_ok. rewrite Ho, Hl, Hw. change (producers (s <| voters ::= _ |>)) with (producers s).
    destruct (voters s !! n) as [w|] eqn:Hn; [by apply (Hrows n w)|]. split; [done|]. split; [cbn; lia|]. intros _ p. cbn. by rewrite elem_of_nil.
Qed.

(** ** The votes themselves *)
Section votes.
Context `{cdt : Cdt} `{libm : Libm} (e : Env).

(** Rows of producers stay, and stay as active as they were. *)
Definition same_active (s s' : sys) : Prop :=
  forall p r, producers s !! p = Some r -> exists r', producers s' !! p = Some r' /\ Producer.is_active r' = Producer.is_active r.
#[local] Instance same_active_preorder : PreOrder same_active.
Proof.
  split; [intros s p r Hr; by exists r|]. intros s1 s2 s3 H12 H23 p r Hr. destruct (H12 p r Hr) as (r2 & Hr2 & E2).
  destruct (H23 p r2 Hr2) as (r3 & Hr3 & E3). exists r3. split; [done|congruence].
Qed.
Lemma apply_deltas_active voting l : respects same_active (for_each (apply_delta voting) l).
Proof.
  apply respects_for_each; [apply _|]. intros [p [d b]] s1 v s2 [Hs2 _]%apply_delta_Ok q r Hr. rewrite Hs2, lookup_alter.
  case_decide; [subst q; rewrite Hr; by eexists|by exists r].
Qed.

(** A vote touches one row; what it lists has registered. *)
Lemma update_votes_row n proxy new voting s u s' :
  proxy_free s -> map_Forall (fun _ v => strictly_sorted (Voter.producers v) = true) (voters s) -> (voting = true \/ proxy = 0) ->
  update_votes e n proxy new voting s = Ok (u, s') ->
  exists v v', voters s !! n = Some v /\ voters s' = <[n := v']> (voters s) /\
    Voter.owner v' = Voter.owner v /\ Voter.proxy v' = 0 /\ Voter.is_proxy v' = false /\ Voter.producers v' = new /\
    strictly_sorted new = true /\ (length new <= 30)%nat /\ Voter.staked v' = Voter.staked v /\
    (dle dzero (Voter.last_vote_weight v') = true -> forall p, p ∈ new -> is_Some (producers s' !! p)) /\
    same_active s s' /\ gvoting_config s' = gvoting_config s /\
    Global.total_activated_stake (gstate s') =
      i64 (Global.total_activated_stake (gstate s) + i64 (Voter.last_stake v' - Voter.last_stake v)).
Proof.
  intros Hnp Hsorted Hvp H. destruct (update_votes_direct e _ _ _ _ _ _ _ Hnp Hvp H) as (v & s1 & Hp0 & Hlen & Hsort & Hv & Hrun & Hs').
  subst proxy. destruct (update_votes_checks e n new voting s u s' Hnp Hsorted H) as (_ & _ & w & Hw & Hreg).
  rewrite Hv in Hw. injection Hw as <-. pose proof (apply_deltas_active _ _ _ _ _ Hrun) as Hrows.
  eapply (respects_for_each totals_only) in Hrun as (ps & tw & Hs1); [|by apply apply_delta_totals].
  exists v. eexists. split; [done|]. split; [subst s' s1; reflexivity|]. destruct (Hnp n v Hv) as [_ Hip].
  assert (producers s' = producers s1) as Hps by (by subst s').
  split; [done|]. split; [done|]. split; [exact Hip|]. split; [done|]. split; [done|]. split; [done|]. split; [done|].
  split; [|split; [|split]].
  - intros Hpos p Hp. destruct (Hreg Hpos p Hp) as (r & Hr & _). rewrite Hps. destruct (Hrows p r Hr) as (r' & Hr' & _). by exists r'.
  - intros p r Hr. rewrite Hps. by apply Hrows.
  - by subst s' s1.
  - subst s' s1. reflexivity.
Qed.

Lemma update_votes_kept n proxy new voting s u s' : (voting = true \/ proxy = 0) ->
  update_votes e n proxy new voting s = Ok (u, s') -> ballots_kept s s'.
Proof.
  intros Hvp H [Hinv Hrows]. split; [by eapply update_votes_keeps_vote_inv|].
  destruct (update_votes_row n proxy new voting s u s' (no_proxies _ Hinv) (votes_sorted _ Hinv) Hvp H)
    as (v & v' & Hv & Hvs & Ho & _ & _ & Hl & _ & Hlen & _ & Hnew & Hreg & _).
  rewrite Hvs. apply map_Forall_insert_2.
  - destruct (Hrows n v Hv) as (Hn & _ & _). split; [congruence|]. rewrite Hl. split; [done|]. exact Hnew.
  - intros m w Hw. destruct (Hrows m w Hw) as (? & ? & Hk). split; [done|]. split; [done|].
    intros Hw0 p Hp. destruct (Hk Hw0 p Hp) as [r Hr]. destruct (Hreg p r Hr) as (r' & Hr' & _). by exists r'.
Qed.
End votes.

(** ** Rows written by other code *)
Section rows.
Context `{cdt : Cdt} `{libm : Libm} (e : Env).

Lemma update_voting_power_kept n q : respects ballots_kept (update_voting_power e n q).
Proof.
  intros s u s' H. unfold update_voting_power in H. apply bind_Ok in H as (it & s1 & [-> ->]%gets_Ok & H).
  apply bind_Ok in H as ([] & s1 & H1%modify_Ok & H). apply bind_Ok in H as ([] & s2 & [_ ->]%check_Ok & H).
  assert (ballots_kept s s1) as Hk. { subst s1. apply set_row_kept. unfold row_before. by destruct (voters s !! n). }
  intros Hok. pose proof (Hk Hok) as Hok1. apply when_Ok in H. destruct (_ || _); [|by subst].
  eapply update_votes_kept; [|exact H|exact Hok1]. right.
  destruct (voters s !! n) as [v|] eqn:Hv; [|done]. destruct Hok as [[Hnp _ _] _]. by apply (Hnp n v Hv).
Qed.

Lemma update_rex_stake_ballots n : respects ballots_kept (update_rex_stake n).
Proof.
  intros s u s' H. unfold update_rex_stake, find_row in H. apply bind_Ok in H as (it & s1 & [-> ->]%gets_Ok & H).
  apply bind_Ok in H as (b & s1 & [-> ->]%gets_Ok & H). apply bind_Ok in H as (d & s1 & H1 & H).
  assert (respects votes_same (match rexbalances s !! n with
    | Some b =>
      if rex_available s : bool then
        core ← core_symbol;
        p ← get_pool;
        stake ← lift (muldiv (amount (RexBal.rex_bal b)) (amount (RexPool.total_lendable p)) (amount (RexPool.total_rex p)));
        set_rex_balance n (b <| RexBal.vote_stake ::= fun a => a <| amount := stake |> |>) ;;
        mret (i64 (stake - amount (RexBal.vote_stake b)))
      else mret 0
    | None => mret 0
    end)) as Hm.
  { assert (PreOrder votes_same) by (split; [by intros ?|]; intros ??? (? & ? & ?) (? & ? & ?); split_and!; [congruence..|auto]).
    unfold core_symbol, get_core_symbol, get_pool, set_rex_balance. solve_respects. all: by split_and!. }
  trans s1; [by apply same_kept, (Hm s d s1)|]. apply when_Ok in H. destruct (negb _); [|by subst].
  apply bind_Ok in H as (it & s2 & [-> ->]%gets_Ok & H).
  destruct (voters s1 !! n) as [v|] eqn:Hn; [|by apply ret_Ok in H as [_ ->]]. apply modify_Ok in H as ->.
  apply set_row_kept. unfold row_before. by rewrite Hn.
Qed.

Lemma set_managed_kept n f b : respects ballots_kept (set_managed n f b).
Proof. intros s u s' H. unfold set_managed in H. apply modify_Ok in H as ->. by apply set_row_kept. Qed.

(** *** Counting all votes anew *)
Definition last_stake_of (s : sys) (n : name) : Z := from_option Voter.last_stake 0 (voters s !! n).

(** The rows are in order, and the activated stake is that of the voters in [l]. *)
Record recount (l : list name) (s : sys) : Prop := {
  recount_free : proxy_free s;
  recount_sorted : map_Forall (fun _ v => strictly_sorted (Voter.producers v) = true) (voters s);
  recount_rows : map_Forall (ballot_ok (producers s)) (voters s);
  recount_sum : Global.total_activated_stake (gstate s) = i64 (zsum (last_stake_of s) l);
}.

(** With no proxies one turn of the loop resets a row and votes anew. *)
Lemma recalculate_one_turn done_ n s v : proxy_free s -> voters s !! n = Some v -> Voter.owner v = n ->
  recalculate_one e done_ n s =
  (update_votes e n 0 (Voter.producers v) true ;; mret ({[ n ]} ∪ done_)) (s <| voters ::= insert n (reset_vote v) |>).
Proof.
  intros Hnp Hv Ho. destruct (Hnp n v Hv) as [Hp Hi]. unfold recalculate_one, get_voter, find_voter.
  unfold gets, require_found, mbind, M_bind. rewrite Hv. cbn [mret M_ret]. rewrite Hp. cbn [Z.eqb negb andb].
  unfold mret, M_ret. rewrite Hv, Hi. cbn [negb orb]. unfold set_voter, modify. rewrite Ho, Hp. reflexivity.
Qed.

Lemma recalculate_one_recounts done_ n l s d s' v :
  recount l s -> n ∉ l -> voters s !! n = Some v -> recalculate_one e done_ n s = Ok (d, s') ->
  recount (n :: l) s' /\ dom (voters s') = dom (voters s).
Proof.
  intros [Hnp Hs Hr Hsum] Hn Hv H. destruct (Hr n v Hv) as (Ho & Hlen & _).
  rewrite (recalculate_one_turn done_ n s v Hnp Hv Ho) in H. set (s1 := s <| voters ::= insert n (reset_vote v) |>) in *.
  assert (voters s1 = <[n := reset_vote v]> (voters s)) as Hvs by done.
  apply bind_Ok in H as ([] & s2 & H & [_ ->]%ret_Ok).
  assert (proxy_free s1) as Hnp1. { unfold proxy_free. rewrite Hvs. apply map_Forall_insert_2; [|done]. exact (Hnp n v Hv). }
  assert (map_Forall (fun _ v => strictly_sorted (Voter.producers v) = true) (voters s1)) as Hs1.
  { rewrite Hvs. apply map_Forall_insert_2; [|done]. exact (Hs n v Hv). }
  destruct (update_votes_row e n 0 (Voter.producers v) true s1 tt s2 Hnp1 Hs1 (or_introl eq_refl) H)
    as (w & v' & Hw & Hvs2 & Ho' & Hp' & Hi' & Hl' & Hsort & _ & _ & Hnew & Hreg & _ & Hact).
  rewrite Hvs, lookup_insert_eq in Hw. injection Hw as <-. cbn in Ho'. rewrite Hvs, insert_insert_eq in Hvs2.
  change (gstate s1) with (gstate s) in Hact. cbn [reset_vote] in Hact. cbn in Hact. split; [|rewrite Hvs2, dom_insert_lookup_L; by eauto].
  split.
  - unfold proxy_free. rewrite Hvs2. by apply map_Forall_insert_2.
  - rewrite Hvs2. apply map_Forall_insert_2; [|done]. by rewrite Hl'.
  - rewrite Hvs2. apply map_Forall_insert_2.
    + split; [congruence|]. rewrite Hl'. by split.
    + intros m x Hx. destruct (Hr m x Hx) as (? & ? & Hk). split; [done|]. split; [done|]. intros Hpos p Hin.
      destruct (Hk Hpos p Hin) as [r Hrr]. destruct (Hreg p r Hrr) as (r' & Hr' & _). by exists r'.
  - rewrite Hact, Hsum, zsum_cons. unfold last_stake_of at 2. rewrite Hvs2, lookup_insert_eq. cbn [from_option].
    rewrite i64_add_i64. rewrite (zsum_ext (last_stake_of s2) (last_stake_of s)); [f_equal; lia|].
    intros x Hx. unfold last_stake_of. rewrite Hvs2, lookup_insert_ne; [done|]. by intros ->.
Qed.

Lemma recalculate_all done_ l rest s d s' :
  recount l s -> NoDup (l ++ rest) -> (forall n, n ∈ rest -> is_Some (voters s !! n)) ->
  fold_each (recalculate_one e) done_ rest s = Ok (d, s') ->
  recount (rev rest ++ l) s' /\ dom (voters s') = dom (voters s).
Proof.
  revert done_ l s. induction rest as [|n rest IH]; intros done_ l s Hr Hnd Hrows H.
  - apply ret_Ok in H as [_ ->]. by split.
  - cbn [fold_each] in H. apply bind_Ok in H as (d1 & s1 & H1 & H). destruct (Hrows n) as [v Hv]; [by left|].
    assert (n ∉ l /\ NoDup ((n :: l) ++ rest)) as [Hn Hnd'].
    { rewrite <- Permutation_middle in Hnd. split; [|exact Hnd]. apply NoDup_cons in Hnd as [Hn _]. set_solver. }
    destruct (recalculate_one_recounts done_ n l s d1 s1 v Hr Hn Hv H1) as [Hr1 Hdom].
    destruct (IH d1 (n :: l) s1 Hr1 Hnd') as [Hr' Hdom']; [|exact H|].
    { intros m Hm. apply elem_of_dom. rewrite Hdom. apply elem_of_dom, Hrows. by right. }
    cbn [rev]. rewrite <- app_assoc. split; [exact Hr'|congruence].
Qed.

Lemma msum_names (s : sys) l : NoDup l -> (forall n, n ∈ l <-> is_Some (voters s !! n)) ->
  zsum (last_stake_of s) l = msum Voter.last_stake (voters s).
Proof.
  intros Hnd Hl. unfold last_stake_of. revert l Hnd Hl. generalize (voters s). clear s. intros m0.
  induction m0 as [|n v m Hn IH] using map_ind; intros l Hnd Hl.
  - destruct l as [|x l]; [done|]. destruct (Hl x) as [[? Hx] _]; [by left|]. done.
  - rewrite msum_insert_new by done. assert (n ∈ l) as Hin by (apply Hl; rewrite lookup_insert_eq; by eexists).
    apply list_elem_of_split in Hin as (l1 & l2 & ->). rewrite <- Permutation_middle in Hnd. apply NoDup_cons in Hnd as [Hnl Hnd].
    rewrite (zsum_perm _ _ (n :: l1 ++ l2)) by (by rewrite Permutation_middle). rewrite zsum_cons, lookup_insert_eq. cbn [from_option].
    f_equal. rewrite <- (IH (l1 ++ l2) Hnd).
    + apply zsum_ext. intros x Hx. rewrite lookup_insert_ne; [done|]. by intros ->.
    + intros x. specialize (Hl x). rewrite lookup_insert in Hl. split.
      * intros Hx. destruct Hl as [Hl _]. case_decide; [subst; done|]. apply Hl. set_solver.
      * intros Hx. destruct (decide (n = x)) as [->|Hne]; [destruct Hx; congruence|].
        apply Hl in Hx. set_solver.
Qed.

Lemma voter_names s : NoDup (map fst (table_rows (voters s))) /\
  (forall n, n ∈ map fst (table_rows (voters s)) <-> is_Some (voters s !! n)).
Proof.
  split.
  - unfold table_rows. change (map fst ?l) with (l.*1). rewrite index_rows_perm. apply NoDup_fst_map_to_list.
  - intros n. change (map fst ?l) with (l.*1). rewrite list_elem_of_fmap. split.
    + intros ([m v] & -> & Hin%elem_of_index_rows). by exists v.
    + intros [v Hv]. exists (n, v). split; [done|]. by apply elem_of_index_rows.
Qed.

(** Counting anew makes the sum right, whatever it was. *)
Lemma recalculate_votes_kept : respects ballots_kept (recalculate_votes e).
Proof.
  intros s u s' H [[Hnp Hs Hsum] Hr]. unfold recalculate_votes in H. apply bind_Ok in H as (g & s1 & [-> ->]%gets_Ok & H).
  apply when_Ok in H. destruct (dle _ _); [|subst; by split].
  apply bind_Ok in H as ([] & s1 & ->%modify_Ok & H). set (s1 := _ <| producers ::= _ |>) in H.
  apply bind_Ok in H as (names & s2 & [-> ->]%gets_Ok & H). apply bind_Ok in H as (d & s2 & H & [_ ->]%ret_Ok).
  assert (recount [] s1) as Hr1.
  { split; [exact Hnp|exact Hs| |reflexivity]. intros n v Hv. destruct (Hr n v Hv) as (? & ? & Hk). split; [done|]. split; [done|].
    intros Hpos p Hp. apply some_fmap. by apply Hk. }
  destruct (voter_names s1) as [Hnd Hnames].
  destruct (recalculate_all ∅ [] _ s1 d s2 Hr1 Hnd) as [[Hnp2 Hs2 Hr2 Hsum2] Hdom]; [by intros n ?%Hnames|exact H|].
  split; [|done]. split; [done..|]. rewrite Hsum2, app_nil_r. f_equal. rewrite (zsum_perm _ _ (map fst (table_rows (voters s1))))
    by (symmetry; apply Permutation_rev). apply msum_names; [done|]. intros n. rewrite Hnames, <- !elem_of_dom, Hdom. done.
Qed.
End rows.

(** ** Every action *)
Create HintDb ballots discriminated.
#[export] Hint Constants Opaque : ballots.
#[export] Hint Variables Opaque : ballots.
#[export] Hint Resolve respects_ret respects_throw respects_check respects_gets respects_lift respects_require_found : ballots.
#[export] Hint Resolve update_voting_power_kept update_rex_stake_ballots set_managed_kept recalculate_votes_kept : ballots.

(** A write that leaves the votes alone. *)
Ltac same_write :=
  apply modify_same; intros; split; [reflexivity|split; [reflexivity|]];
  let p := fresh "p" in let Hp := fresh "Hp" in
  intros p Hp; first [exact Hp | apply some_insert; exact Hp | apply some_fmap; exact Hp].
Ltac head_of m := lazymatch m with ?f _ => head_of f | _ => m end.
(** A computation is followed along its text; what no lemma is about is unfolded. *)
Ltac ballots_with tac :=
  repeat first
  [ progress intros
  | progress cbv beta zeta
  | solve [tac]
  | lazymatch goal with |- respects _ (mbind _ _) => fail | _ => idtac end;
    first [solve [eauto 2 with ballots typeclass_instances] | solve [same_write]]
  | respects_rule
  | lazymatch goal with |- respects _ ?m => let h := head_of m in unfold h end ];
  try done.
Ltac ballots := ballots_with fail.

Section actions.
Context `{cdt : Cdt} `{libm : Libm} `{host : Host} `{evm : EvmHost} (sha256 : list Z -> Z) (e : Env).

Lemma update_rex_account_kept n p d b : respects ballots_kept (update_rex_account e n p d b).
Proof. ballots. Qed.
Hint Resolve update_rex_account_kept : ballots.
Lemma update_rex_pool_ballots : respects ballots_kept (update_rex_pool e).
Proof. ballots. Qed.
Hint Resolve update_rex_pool_ballots : ballots.
Lemma channel_to_rex_kept n q b : respects ballots_kept (channel_to_rex e n q b).
Proof. ballots. Qed.
Hint Resolve channel_to_rex_kept : ballots.
Lemma set_loans_kept k f : respects ballots_kept (set_loans k f).
Proof. unfold set_loans. destruct k; ballots. Qed.
Hint Resolve set_loans_kept : ballots.
Lemma process_loans_kept k n : respects ballots_kept (process_loans e k n).
Proof. induction n as [|n IH]; cbn [process_loans]; ballots_with ltac:(apply IH). Qed.
Lemma process_orders_kept n l : respects ballots_kept (process_orders n l).
Proof.
  revert l. induction n as [|n IH]; intros l; cbn [process_orders]; [ballots|]. ballots_with ltac:(apply IH).
Qed.
Hint Resolve process_loans_kept process_orders_kept : ballots.
Lemma runrex_ballots n : respects ballots_kept (runrex e n).
Proof. ballots. Qed.
Hint Resolve runrex_ballots : ballots.
Lemma rex_kept a : respects ballots_kept (rex_exec e a).
Proof. destruct a; ballots. Qed.

(** *** Stakes, RAM, PowerUp, names *)
Lemma stake_kept a : respects ballots_kept (stake_exec e a).
Proof. destruct a; ballots. Qed.
Lemma ram_kept_votes a : respects ballots_kept (ram_exec e a).
Proof. destruct a; ballots. Qed.
Lemma expire_orders_kept now c n p : respects ballots_kept (expire_orders e now c n p).
Proof. revert p. induction n as [|n IH]; intros p; cbn [expire_orders]; [ballots|]. ballots_with ltac:(apply IH). Qed.
Hint Resolve expire_orders_kept : ballots.
Lemma power_kept_votes a : respects ballots_kept (power_exec e a).
Proof. destruct a; ballots. Qed.
Lemma account_kept a : respects ballots_kept (account_exec sha256 e a).
Proof. destruct a; ballots. Qed.
Lemma admin_kept a : respects ballots_kept (admin_exec e a).
Proof. destruct a; ballots. Qed.
Lemma evm_kept a : respects ballots_kept (evm_exec e a).
Proof. destruct a; ballots. Qed.

(** *** Blocks and producers *)
Lemma kick_worst_kept size max l : respects ballots_kept (kick_worst e size max l).
Proof. revert max. induction l as [|p l IH]; intros max; cbn [kick_worst]; ballots_with ltac:(apply IH). Qed.
Hint Resolve kick_worst_kept : ballots.
Lemma pay_ranks_ballots v i rows : respects ballots_kept (pay_ranks e v i rows).
Proof. revert i. induction rows as [|[n p] rows IH]; intros i; cbn [pay_ranks]; ballots_with ltac:(apply IH). Qed.
Hint Resolve pay_ranks_ballots : ballots.
Lemma pay_kept_votes a : respects ballots_kept (pay_exec e a).
Proof. destruct a; ballots. Qed.
Lemma producer_kept a : respects ballots_kept (producer_exec e a).
Proof. destruct a; ballots. Qed.

(** *** Voting *)
Lemma cast_kept n p l : respects ballots_kept (update_votes e n p l true).
Proof. intros s u s' H. eapply update_votes_kept; [by left|exact H]. Qed.
Hint Resolve cast_kept : ballots.
Lemma regproxy_kept n b : respects ballots_kept (regproxy e n b).
Proof.
  intros s u s' H Hok. unfold regproxy in H. apply bind_Ok in H as ([] & s1 & [->%negb_true_iff ->]%check_Ok & H).
  apply bind_Ok in H as (it & s1 & [-> ->]%gets_Ok & H). destruct (voters s !! n) as [v|] eqn:Hv.
  - destruct Hok as [[Hnp _ _] _]. destruct (Hnp n v Hv) as [_ Hi].
    apply bind_Ok in H as ([] & s1 & [Hc _]%check_Ok & _). by rewrite Hi in Hc.
  - apply modify_Ok in H as ->. apply set_row_kept; [|exact Hok]. unfold row_before. by rewrite Hv.
Qed.
Lemma restake_kept n f :
  (forall v, ballot_row (f v) = ballot_row v) -> forall (c : voter_info -> bool) (k : voter_info -> M sys unit),
  (forall v, respects ballots_kept (k v)) ->
  respects ballots_kept (v ← get_voter n "no voter found"; when (c v) (set_voter n (f v)) ;; k v).
Proof.
  intros Hf c k' Hk s u s' H. apply bind_Ok in H as (v & s1 & Hg & H).
  unfold get_voter, find_voter in Hg. apply bind_Ok in Hg as (it & s2 & [-> ->]%gets_Ok & [Hv ->]%require_found_Ok).
  apply bind_Ok in H as ([] & s2 & Hset & H). trans s2; [|by eapply Hk]. apply when_Ok in Hset. destruct (c v); [|by subst].
  apply modify_Ok in Hset as ->. apply set_row_kept. unfold row_before. rewrite Hv. apply Hf.
Qed.
Lemma vote_kept a : respects ballots_kept (vote_exec e a).
Proof.
  destruct a as [v p l|v|p b]; cbn [vote_exec]; [ballots| |apply regproxy_kept].
  unfold voteupdate. apply respects_bind; [apply _|ballots|intros it]. apply respects_bind; [apply _|ballots|intros _].
  apply respects_bind; [apply _|ballots|intros _]. apply respects_bind; [apply _|ballots|intros r]. cbv zeta.
  apply respects_bind; [apply _|ballots|intros rows]. by apply restake_kept; [|intros w; ballots].
Qed.

Lemma system_kept a : respects ballots_kept (system_exec sha256 e a).
Proof.
  destruct a; cbn [system_exec]; [apply stake_kept|apply ram_kept_votes|apply rex_kept|apply power_kept_votes|apply pay_kept_votes
    |apply vote_kept|apply producer_kept|apply account_kept|apply admin_kept|apply evm_kept].
Qed.
End actions.

(** ** Runs of the whole contract *)
Section vote_runs.
Context `{cdt : Cdt} `{libm : Libm} (sha256 : list Z -> Z).

(** Any action, whatever the environment, the host and the other contracts answer. *)
Inductive any_step : relation sys :=
| any_step_intro (host : Host) (evm : EvmHost) e a s u s' :
    system_exec sha256 e a s = Ok (u, s') -> any_step s s'.

(** C5: Over any run of any actions the tables of votes stay in order: no account is or uses a
    proxy, every vote is for at most thirty accounts, sorted and different, each of which
    has registered, the rows are those of their owners, and the activated stake is the sum
    of the stakes last voted with (as a 64-bit counter). *)
Theorem votes_stay_in_order s s' : ballots_ok s -> rtc any_step s s' -> ballots_ok s'.
Proof.
  intros Hok Hrun. revert Hok. induction Hrun as [|s s1 s' [host evm e a s0 u s2 H] _ IH]; intros Hok; [done|].
  apply IH. exact (system_kept sha256 e a s0 u s2 H Hok).
Qed.

(** The stake a voter comes to have. *)
Definition stake_after (s : sys) (n : name) (q : asset) : Z :=
  match voters s !! n with Some v => i64 (Voter.staked v + amount q) | None => amount q end.

(** C21: In such a state no vote stands in the way of a change of stake: it succeeds exactly
    when the stake does not become negative, whatever has become of the producers the account
    votes for, and it leaves the account's vote as it was. *)
Theorem stake_changes_whatever_is_voted e n q s :
  ballots_ok s -> dle dzero (Voter.last_vote_weight (row_before s n)) = true ->
  (0 <= stake_after s n q ->
   exists s' v, update_voting_power e n q s = Ok (tt, s') /\ voters s' !! n = Some v /\
     Voter.staked v = stake_after s n q /\ Voter.producers v = Voter.producers (row_before s n)) /\
  (stake_after s n q < 0 -> is_ok (update_voting_power e n q s) = false).
Proof.
  intros Hok Hw. unfold update_voting_power, find_row. 
  set (v := match voters s !! n with
    | None => (new_voter n) <| Voter.staked := amount q |>
    | Some v => v <| Voter.staked ::= fun z => i64 (z + amount q) |> end).
  assert (Voter.staked v = stake_after s n q /\ ballot_row v = ballot_row (row_before s n)) as [Hst Hrow].
  { unfold v, stake_after, row_before. by destruct (voters s !! n). }
  set (s1 := s <| voters ::= insert n v |>). pose proof (set_row_kept s n v Hrow Hok) as [[Hnp Hs _] Hr]. fold s1 in Hnp, Hs, Hr.
  assert (voters s1 !! n = Some v) as Hv by apply lookup_insert_eq.
  unfold ballot_row in Hrow. injection Hrow as _ _ _ Hl _ Hlw.
  split; intros Hpos; cycle 1.
  { unfold mbind, M_bind, gets, modify. fold v s1. rewrite Hst, (proj2 (Z.leb_gt _ _) Hpos). reflexivity. }
  destruct (Hr n v Hv) as (_ & Hlen & Hreg). destruct (Hnp n v Hv) as [Hp _]. pose proof (Hs n v Hv) as Hsort. cbn in Hsort.
  assert (exists s' w, when (negb (bool_decide (length (Voter.producers v) = 0%nat)) || negb (Voter.proxy v =? 0))
      (update_votes e n (Voter.proxy v) (Voter.producers v) false) s1 = Ok (tt, s') /\ voters s' !! n = Some w /\
      Voter.staked w = Voter.staked v /\ Voter.producers w = Voter.producers v) as (s' & w & Hrun & Hs' & Hw1 & Hw2).
  { destruct (_ || _); [|by exists s1, v]. rewrite Hp.
    destruct (update_votes_succeeds e n (Voter.producers v) false s1 v Hnp Hs Hlen Hsort Hv) as [s' Hrun].
    { intros _ p Hin. destruct (Hreg ltac:(congruence) p Hin) as [r Hr']. exists r. by split. }
    destruct (update_votes_row e n 0 (Voter.producers v) false s1 tt s' Hnp Hs (or_intror eq_refl) Hrun)
      as (v0 & w & Hv0 & Hvs & _ & _ & _ & Hwl & _ & _ & Hws & _). rewrite Hv in Hv0. injection Hv0 as <-.
    exists s', w. rewrite Hvs, lookup_insert_eq. by split_and!. }
  exists s', w. split; [|by rewrite Hw1, Hw2, Hst, Hl]. unfold mbind, M_bind, gets, modify. fold v s1.
  rewrite Hst, (proj2 (Z.leb_le _ _) Hpos). exact Hrun.
Qed.
End vote_runs.

(** ** A vote that stops the blocks *)
Section stop.
Context `{cdt : Cdt} `{libm : Libm} `{host : Host} (e : Env).

(** Voter [n] votes for [p], which is not active, with a weight that counts. *)
Record stuck (n p : name) (stake : Z) (l : list name) (s : sys) : Prop := {
  stuck_free : proxy_free s;
  stuck_sorted : map_Forall (fun _ v => strictly_sorted (Voter.producers v) = true) (voters s);
  stuck_owners : map_Forall (fun n v => Voter.owner v = n) (voters s);
  stuck_vote : exists v, voters s !! n = Some v /\ Voter.staked v = stake /\ Voter.producers v = l;
  stuck_in : p ∈ l;
  stuck_inactive : exists r, producers s !! p = Some r /\ Producer.is_active r = false;
  stuck_counts : dle dzero (weight_now e s stake (length l)) = true;
}.

(** One turn of the loop leaves it so, or is the one that fails. *)
Lemma stuck_turn n p stake l done_ m s d s' :
  stuck n p stake l s -> recalculate_one e done_ m s = Ok (d, s') -> m <> n /\ stuck n p stake l s'.
Proof.
  intros [Hnp Hs Ho (v & Hv & Hst & Hl) Hin (r & Hr & Hact) Hpos] H. destruct (voters s !! m) as [w|] eqn:Hw.
  2: { exfalso. unfold recalculate_one, get_voter, find_voter, gets, require_found, mbind, M_bind in H. by rewrite Hw in H. }
  rewrite (recalculate_one_turn e done_ m s w Hnp Hw (Ho m w Hw)) in H. set (s1 := s <| voters ::= insert m (reset_vote w) |>) in *.
  assert (voters s1 = <[m := reset_vote w]> (voters s)) as Hvs by done.
  apply bind_Ok in H as ([] & s2 & H & [_ ->]%ret_Ok).
  assert (proxy_free s1) as Hnp1. { unfold proxy_free. rewrite Hvs. apply map_Forall_insert_2; [|done]. exact (Hnp m w Hw). }
  assert (map_Forall (fun _ v => strictly_sorted (Voter.producers v) = true) (voters s1)) as Hs1.
  { rewrite Hvs. apply map_Forall_insert_2; [|done]. exact (Hs m w Hw). }
  destruct (update_votes_row e m 0 (Voter.producers w) true s1 tt s2 Hnp1 Hs1 (or_introl eq_refl) H)
    as (w' & v' & Hw' & Hvs2 & Ho' & Hp' & Hi' & Hl' & Hsort & _ & _ & _ & Hsame & Hcfg & _).
  rewrite Hvs, lookup_insert_eq in Hw'. injection Hw' as <-. rewrite Hvs, insert_insert_eq in Hvs2.
  destruct (update_votes_checks e m (Voter.producers w) true s1 tt s2 Hnp1 Hs1 H) as (_ & _ & w' & Hw' & Hall).
  rewrite Hvs, lookup_insert_eq in Hw'. injection Hw' as <-.
  assert (m <> n) as Hne.
  { intros ->. rewrite Hv in Hw. injection Hw as <-. rewrite Hl in Hall.
    assert (counted_stake (reset_vote v) true l = stake) as Hc.
    { unfold counted_stake. rewrite bool_decide_eq_false_2; [exact Hst|]. intros Hz%length_zero_iff_nil. rewrite Hz in Hin. by apply elem_of_nil in Hin. }
    rewrite Hc in Hall. destruct (Hall Hpos p Hin) as (r' & Hr' & Hact'). change (producers s1) with (producers s) in Hr'.
    rewrite Hr in Hr'. injection Hr' as <-. rewrite Hact' in Hact by done. done. }
  split; [done|]. split.
  - unfold proxy_free. rewrite Hvs2. by apply map_Forall_insert_2.
  - rewrite Hvs2. apply map_Forall_insert_2; [by rewrite Hl'|done].
  - rewrite Hvs2. apply map_Forall_insert_2; [|done]. rewrite Ho'. exact (Ho m w Hw).
  - exists v. rewrite Hvs2, lookup_insert_ne by done. by split.
  - done.
  - destruct (Hsame p r Hr) as (r' & Hr' & Hact'). exists r'. split; [done|congruence].
  - unfold weight_now in *. by rewrite Hcfg.
Qed.

Lemma stuck_loop n p stake l names : forall done_ s,
  stuck n p stake l s -> n ∈ names -> is_ok (fold_each (recalculate_one e) done_ names s) = false.
Proof.
  induction names as [|m names IH]; intros done_ s Hs Hn; [by apply elem_of_nil in Hn|]. cbn [fold_each].
  unfold mbind, M_bind. destruct (recalculate_one e done_ m s) as [[d s']|] eqn:H; [|done].
  destruct (stuck_turn n p stake l done_ m s d s' Hs H) as [Hne Hs']. apply elem_of_cons in Hn as [->|Hn]; [done|]. by apply IH.
Qed.

Lemma recalculate_votes_stuck n p stake l s :
  stuck n p stake l s -> dle (Global.total_producer_vote_weight (gstate s)) reset_threshold = true ->
  is_ok (recalculate_votes e s) = false.
Proof.
  intros Hs Hle. unfold recalculate_votes. unfold mbind at 1, M_bind at 1, gets at 1. rewrite Hle. cbn [when].
  set (s1 := s <| gstate ::= fun g => g <| Global.total_producer_vote_weight := dzero |> <| Global.total_activated_stake := 0 |> |>
       <| producers ::= fmap (fun p => p <| Producer.total_votes := dzero |>) |>).
  assert (stuck n p stake l s1) as Hs1.
  { destruct Hs as [? ? ? ? ? (r & Hr & Hact) ?]. split; try done. exists (r <| Producer.total_votes := dzero |>). split; [|done].
    change (producers s1) with ((fun p => p <| Producer.total_votes := dzero |>) <$> producers s). by rewrite lookup_fmap, Hr. }
  unfold mbind, M_bind, modify, gets. fold s1. pose proof (stuck_loop n p stake l (map fst (table_rows (voters s1))) ∅ s1 Hs1) as Hf.
  destruct (fold_each _ _ _ _) as [[d s2]|]; [|done]. apply Hf. apply voter_names. destruct (stuck_vote _ _ _ _ _ Hs1) as (v & Hv & _). by exists v.
Qed.

(** What a block does before it counts: no one becomes active, no vote changes. *)
Definition falling_view (s : sys) :=
  (voters s, gvoting_config s, Global.total_producer_vote_weight (gstate s), Global.thresh_activated_stake_time (gstate s)).
Definition falling (s s' : sys) : Prop :=
  falling_view s' = falling_view s /\
  forall p r, producers s !! p = Some r -> Producer.is_active r = false ->
    exists r', producers s' !! p = Some r' /\ Producer.is_active r' = false.
#[local] Instance falling_preorder : PreOrder falling.
Proof.
  split; [intros s; split; [done|]; intros p r; by exists r|]. intros s1 s2 s3 [Hv12 H12] [Hv23 H23]. split; [congruence|].
  intros p r Hr Ha. destruct (H12 p r Hr Ha) as (r2 & Hr2 & Ha2). by apply (H23 p r2).
Qed.
Lemma falling_insert s n r : (forall r0, producers s !! n = Some r0 -> Producer.is_active r0 = false -> Producer.is_active r = false) ->
  falling s (s <| producers ::= insert n r |>).
Proof.
  intros Hf. split; [done|]. intros p r0 Hr Ha. change (producers (s <| producers ::= _ |>)) with (<[n := r]> (producers s)).
  rewrite lookup_insert. case_decide; [|by exists r0]. subst p. exists r. split; [done|]. by eapply Hf.
Qed.
Lemma modify_falling (f : sys -> sys) : (forall s, falling_view (f s) = falling_view s /\ producers (f s) = producers s) ->
  respects falling (modify f).
Proof.
  intros Hf. apply respects_modify. intros s. destruct (Hf s) as [Hv Hp]. split; [done|]. rewrite Hp. intros p r Hr. by exists r.
Qed.
Ltac falling_with tac :=
  repeat first
  [ progress intros
  | progress cbv beta zeta
  | solve [tac]
  | lazymatch goal with |- respects _ (mbind _ _) => fail | _ => idtac end;
    first [solve [eauto 2 with ballots typeclass_instances] | solve [apply modify_falling; intros; split; reflexivity]]
  | respects_rule
  | lazymatch goal with |- respects _ ?m => let h := head_of m in unfold h end ];
  try done.

Lemma count_missed_falling l pm : respects falling (count_missed l pm).
Proof.
  intros s d s' H. unfold count_missed in H. apply bind_Ok in H as (it & s1 & [-> ->]%gets_Ok & H).
  destruct (producers s !! Metric.bp_name pm) as [p|] eqn:Hp; [|by apply ret_Ok in H as [_ ->]].
  destruct (Producer.is_active p) eqn:Ha; [|by apply ret_Ok in H as [_ ->]].
  apply bind_Ok in H as ([] & s1 & ->%modify_Ok & [_ ->]%ret_Ok). apply falling_insert. intros r0 Hr0 Hf. congruence.
Qed.
Lemma kick_inactive kt z p p' : kick e kt z p = Ok p' -> Producer.is_active p' = false.
Proof. unfold kick. intros H. repeat case_match; try done; by injection H as <-. Qed.
Lemma kick_worst_falling size max l : respects falling (kick_worst e size max l).
Proof.
  revert max. induction l as [|p l IH]; intros max; cbn [kick_worst]; [apply respects_ret; apply _|].
  apply respects_bind; [apply _|falling_with fail|intros q]. apply respects_bind; [apply _|falling_with fail|intros r].
  destruct (_ && _); [|apply respects_ret; apply _]. cbv zeta. intros s u s' H.
  apply bind_Ok in H as (p2 & s1 & [Hk ->]%lift_Ok & H). apply bind_Ok in H as ([] & s1 & ->%modify_Ok & H).
  apply IH in H. etrans; [|exact H]. apply falling_insert. intros _ _ _. by eapply kick_inactive.
Qed.
Lemma count_produced_falling n : respects falling (count_produced n).
Proof.
  intros s u s' H. unfold count_produced in H. apply bind_Ok in H as (it & s1 & [-> ->]%gets_Ok & H).
  destruct (producers s !! n) as [p|] eqn:Hp; [|by apply ret_Ok in H as [_ ->]].
  apply bind_Ok in H as ([] & s1 & ->%modify_Ok & H). apply modify_Ok in H as ->.
  etrans; [|apply falling_insert]; [split; [done|by intros ? r; exists r]|]. intros r0 Hr0 Hf. cbn in Hr0. cbn. congruence.
Qed.
Lemma restart_missed_falling l : respects falling (restart_missed_blocks_per_rotation l).
Proof.
  unfold restart_missed_blocks_per_rotation. apply respects_for_each; [apply _|]. intros x s u s' H.
  apply bind_Ok in H as (it & s1 & [-> ->]%gets_Ok & H).
  destruct (producers s !! pname x) as [p|] eqn:Hp; [|by apply ret_Ok in H as [_ ->]]. apply modify_Ok in H as ->.
  apply falling_insert. intros r0 Hr0 Hf. rewrite Hp in Hr0. injection Hr0 as <-. unfold restart_missed. by destruct (_ && _).
Qed.

Lemma stuck_falling n p stake l s s' : stuck n p stake l s -> falling s s' -> stuck n p stake l s'.
Proof.
  intros [Hnp Hs Ho Hv Hin (r & Hr & Ha) Hpos] [[= Evs Ec _ _] Hf]. split; unfold proxy_free, weight_now; rewrite ?Evs, ?Ec; try done.
  destruct (Hf p r Hr Ha) as (r' & Hr' & Ha'). by exists r'.
Qed.

(** C22: A vote for an inactive producer can stop the blocks: once the sum of the vote weights
    has drifted to the threshold below zero at which every block counts all votes anew, one
    voter whose list names a producer that is no longer active makes that count, and with it
    [onblock], fail - at every block, since a block that fails leaves everything as it was. *)
Theorem vote_for_inactive_stops_blocks timestamp producer id s n v p r :
  ballots_ok s -> Global.thresh_activated_stake_time (gstate s) <> 0 ->
  dle (Global.total_producer_vote_weight (gstate s)) reset_threshold = true ->
  voters s !! n = Some v -> p ∈ Voter.producers v -> producers s !! p = Some r -> Producer.is_active r = false ->
  dle dzero (weight_now e s (Voter.staked v) (length (Voter.producers v))) = true ->
  is_ok (onblock e timestamp producer id s) = false.
Proof.
  intros [[Hnp Hs _] Hrows] Hthresh Hle Hv Hin Hr Ha Hpos.
  assert (stuck n p (Voter.staked v) (Voter.producers v) s) as Hstuck.
  { split; try done; [|by exists v|by exists r]. intros m w Hw. by apply (Hrows m w Hw). }
  destruct (onblock e timestamp producer id s) as [[u s']|] eqn:H; [exfalso|done]. unfold onblock in H.
  apply bind_Ok in H as ([] & s1 & [_ ->]%check_Ok & H). apply bind_Ok in H as ([] & s1 & H1 & H).
  assert (respects falling (add_to_blockinfo_table id timestamp)) as Hf1 by falling_with fail. apply Hf1 in H1.
  apply bind_Ok in H as ([] & s2 & H2%modify_Ok & H). apply bind_Ok in H as (g & s3 & [-> ->]%gets_Ok & H).
  assert (falling s s2) as Hf2. { etrans; [exact H1|]. subst s2. split; [done|]. intros ? r0; by exists r0. }
  pose proof Hf2 as [[= _ _ Ew Et] _]. rewrite Et, (proj2 (Z.eqb_neq _ _) Hthresh) in H.
  unfold onblock_active in H. apply bind_Ok in H as ([] & s3 & H3%modify_Ok & H).
  assert (falling s s3) as Hf3. { etrans; [exact Hf2|]. subst s3. split; [done|]. intros ? r0; by exists r0. }
  apply bind_Ok in H as (missed & s4 & H4 & H). apply bind_Ok in H as ([] & s5 & H5 & H).
  apply bind_Ok in H as ([] & s6 & H6%count_produced_falling & H). apply bind_Ok in H as ([] & s7 & H7 & _).
  assert (respects falling (check_missed_blocks timestamp producer)) as Hf4
    by falling_with ltac:(apply restart_missed_falling).
  apply Hf4 in H4.
  assert (respects falling (when missed (update_missed_blocks_per_rotation e ;; reset_schedule_metrics producer))) as Hf5.
  { falling_with ltac:(first [apply count_missed_falling | apply kick_worst_falling]). }
  apply Hf5 in H5. assert (falling s s6) as Hf by (trans s3; [done|]; trans s4; [done|]; by trans s5).
  pose proof (recalculate_votes_stuck n p _ _ s6 (stuck_falling _ _ _ _ _ _ Hstuck Hf)) as Hstop.
  destruct Hf as [[= _ _ Ew6 _] _]. rewrite Ew6 in Hstop. specialize (Hstop Hle). by rewrite H7 in Hstop.
Qed.
End stop.

(** ** Examples *)

(** A voter for one producer, which has stopped. *)
Definition ex_voter : voter_info :=
  (new_voter 5) <| Voter.staked := 1000 |> <| Voter.last_stake := 1000 |> <| Voter.producers := [10] |>
    <| Voter.last_vote_weight := dint 500 |>.
Definition ex_voted_sys : sys :=
  ex_whole_sys <| voters := {[ 5 := ex_voter ]} |>
    <| producers := {[ 10 := Votes.ex_producer 10 false ]} |>
    <| gstate ::= fun g => g <| Global.total_activated_stake := 1000 |>
       <| Global.total_producer_vote_weight := dint (-1) |> <| Global.thresh_activated_stake_time := 1600000000000000 |> |>.
Lemma ex_voted_ok : ballots_ok ex_voted_sys.
Proof.
  split; [split|].
  - by apply map_Forall_singleton.
  - by apply map_Forall_singleton.
  - vm_compute. reflexivity.
  - apply map_Forall_singleton. split; [done|]. split; [cbn; lia|]. intros _ p ->%list_elem_of_singleton. by eexists.
Qed.

Definition ex_vote_run : M sys unit :=
  ex_exec (1700000000000000, 5) (Staking_action (Delegatebw 5 5 (tlos 30000) (tlos 70000) false)) ;;
  ex_exec (1700000001000000, 6) (Producer_action (Regproducer 6 9 "" 0)) ;;
  ex_exec (1700000002000000, 5) (Vote_action (Voteproducer 5 0 [6])).

Lemma votes_stay_in_order_witness :
  exists s', ex_vote_run ex_voted_sys = Ok (tt, s') /\ ballots_ok s' /\
    Global.total_activated_stake (gstate s') = 101000 /\ Voter.producers (row_before s' 5) = [6].
Proof.
  assert (match ex_vote_run ex_voted_sys with
    | Ok (_, s') => (Global.total_activated_stake (gstate s') =? 101000) && bool_decide (Voter.producers (row_before s' 5) = [6])
    | Err _ => false end = true) as Hok by (vm_compute; reflexivity).
  destruct (ex_vote_run ex_voted_sys) as [[[] s3]|] eqn:H; [|discriminate].
  rewrite andb_true_iff, Z.eqb_eq, bool_decide_eq_true in Hok. destruct Hok as [Ha Hp].
  unfold ex_vote_run in H. apply bind_Ok in H as ([] & s1 & H1 & H). apply bind_Ok in H as ([] & s2 & H2 & H3).
  exists s3. split; [reflexivity|]. split; [|by split].
  apply (votes_stay_in_order (cdt := cdt_model) (libm := libm_model) (fun _ => 0) ex_voted_sys s3 ex_voted_ok).
  eapply rtc_l; [exact (any_step_intro (fun _ => 0) ex_host ex_evm _ _ _ _ _ H1)|].
  eapply rtc_l; [exact (any_step_intro (fun _ => 0) ex_host ex_evm _ _ _ _ _ H2)|].
  apply rtc_once. exact (any_step_intro (fun _ => 0) ex_host ex_evm _ _ _ _ _ H3).
Defined.

Lemma stake_changes_whatever_is_voted_witness :
  exists s' v, update_voting_power (cdt := cdt_model) (libm := libm_model) (ex_run_env ex_start) 5 (tlos 500) ex_voted_sys = Ok (tt, s') /\
    voters s' !! 5 = Some v /\ Voter.staked v = 1500 /\ Voter.producers v = [10].
Proof.
  destruct (stake_changes_whatever_is_voted (cdt := cdt_model) (libm := libm_model) (ex_run_env ex_start) 5 (tlos 500) ex_voted_sys
    ex_voted_ok eq_refl) as [Hok _].
  destruct Hok as (s' & v & H & Hv & Hs & Hp); [vm_compute; discriminate|]. exists s', v. by split_and!.
Defined.

Lemma vote_for_inactive_stops_blocks_witness :
  is_ok (onblock (cdt := cdt_model) (libm := libm_model) (host := ex_host) (ex_run_env ex_start) 1506630400 10 [0; 0; 0; 5] ex_voted_sys)
  = false.
Proof.
  apply (vote_for_inactive_stops_blocks (cdt := cdt_model) (libm := libm_model) (host := ex_host) (ex_run_env ex_start)
    1506630400 10 [0; 0; 0; 5] ex_voted_sys 5 ex_voter 10 (Votes.ex_producer 10 false) ex_voted_ok);
    first [reflexivity | vm_compute; reflexivity | vm_compute; discriminate | by left].
Defined.
