(* ===== verification/Chain.v ===== *)
(** * The system contract and the token contract together

    The system contract asks for transfers; the token contract performs them, or fails
    and takes the whole transaction with it. Here the two run together: a transaction is
    an action of the system contract with the token actions it sends, or a token action
    of somebody else. The theorems say that the balances the token contract records
    always cover what the tables of the system contract promise, and that what is
    promised is then really paid. *)
From S2P Require Import Prelude.
From S2P Require Import Cdt.
From S2P Require Import Float64.
From S2P Require Import SysState.
From S2P Require Import Token.
From S2P Require Import Votes.
From S2P Require Import Exchange.
From S2P Require Import RexPool.
From S2P Require Import Bandwidth.
From S2P Require Import Rex.
From S2P Require Import Solvency.
From S2P Require Import RamLedger.
From S2P Require Import RexLedger.
From S2P Require Import RexReturn.
From S2P Require Import RexVault.
From S2P Require Import Producers.
From S2P Require Import NameBid.
From S2P Require Import Pay.
From S2P Require Import NameLedger.
From S2P Require Import PayLedger.
From S2P Require Import Evm.
From S2P Require Import Books.
From S2P Require Import System.
From stdpp Require Import base gmap strings list sorting relations.
Open Scope Z_scope.

(** ** Transactions *)
Record chain := mkChain { contract : sys; ledger : token_state }.

Section chain.
Context `{cdt : Cdt}.

(** An inline action runs under the authority the sender gave it. *)
Definition inline_env (e : Env) (auth : list permission_level) : Env := mkEnv token_account auth (now_us e) (is_account e).

(** What the token contract does of what an action asks for. *)
Definition perform (e : Env) (x : effect) : M token_state unit :=
  match x with
  | TokenTransfer auth from to q memo => transfer (inline_env e auth) from to q memo
  | TokenIssue auth to q memo => issue (inline_env e auth) to q memo
  | TokenOpen auth owner y payer => open (inline_env e auth) owner y payer
  | _ => mret tt
  end.
Definition perform_all (e : Env) (l : list effect) : M token_state unit := for_each (perform e) l.

(** ** What an account holds after a token action *)
Context `{!CdtLaws cdt}.
Implicit Types t : token_state.

Lemma holding_sub_exact o v t t' o' c : sub_balance o v t = Ok (tt, t') ->
  holding t' o' c = holding t o' c - (if (o' =? o) && (c =? sym_code (asset_symbol v)) then amount v else 0).
Proof.
  intros (a & Ha & _ & _ & _ & ->)%sub_balance_Ok. unfold holding. cbn. rewrite lookup_insert. case_decide as Heq.
  - injection Heq as <- <-. rewrite Ha, !Z.eqb_refl. cbn. lia.
  - destruct (Z.eqb_spec o' o) as [->|]; [|cbn; lia]. destruct (Z.eqb_spec c (sym_code (asset_symbol v))) as [->|]; [done|cbn; lia].
Qed.
Lemma holding_add_exact o v p t t' o' c : add_balance o v p t = Ok (tt, t') ->
  holding t' o' c = holding t o' c + (if (o' =? o) && (c =? sym_code (asset_symbol v)) then amount v else 0).
Proof.
  intros H%add_balance_Ok. unfold holding. assert (o' = o /\ c = sym_code (asset_symbol v) \/
    (o', c) <> (o, sym_code (asset_symbol v)) /\ (o' =? o) && (c =? sym_code (asset_symbol v)) = false) as [[-> ->]|[Hne ->]].
  { destruct (Z.eqb_spec o' o), (Z.eqb_spec c (sym_code (asset_symbol v))); [by left|right..]; split; congruence || done. }
  - rewrite !Z.eqb_refl. destruct (accounts t !! (o, _)) as [a|]; [destruct H as (_ & _ & ->)|subst t'];
      cbn; rewrite lookup_insert_eq; cbn; lia.
  - destruct (accounts t !! (o, _)) as [a|]; [destruct H as (_ & _ & ->)|subst t'];
      cbn; rewrite lookup_insert_ne by congruence; lia.
Qed.

(** ** The core token *)

(** The token's row: its symbol, and an issuer that is not one of the contract's own
    accounts; no more of it will ever be than [rex_cap], 28 billion of four decimals. *)
Definition core_row (y : symbol) (t : token_state) : Prop :=
  exists st, stats t !! sym_code y = Some st /\ asset_symbol (supply st) = y /\
    amount (max_supply st) <= rex_cap /\ own (issuer st) = false.

Lemma row_symbol y t st : core_row y t -> stats t !! sym_code y = Some st -> asset_symbol (supply st) = y.
Proof. intros (st' & Hst' & Hy & _) Hst. congruence. Qed.

(** Every token action leaves the row's symbol, issuer and cap alone. *)
Lemma token_exec_core y e a t t' : token_exec e a t = Ok (tt, t') -> core_row y t -> core_row y t'.
Proof.
  intros H (st & Hst & Hy & Hm & Ho).
  assert (forall c st0 q, stats t !! c = Some st0 -> asset_symbol q = asset_symbol (supply st0) ->
    exists st', <[c := st0 <| supply := q |>]> (stats t) !! sym_code y = Some st' /\
    asset_symbol (supply st') = y /\ amount (max_supply st') <= rex_cap /\ own (issuer st') = false) as Hset.
  { intros c st0 q Hst0 Hq. destruct (decide (c = sym_code y)) as [->|Hne].
    - rewrite Hst in Hst0. injection Hst0 as <-. eexists. rewrite lookup_insert_eq. split; [done|]. cbn. split; [congruence|done].
    - exists st. rewrite lookup_insert_ne by done. done. }
  destruct a; cbn [token_exec] in H.
  - unfold create in H. minv H. apply negb_true_iff, is_found_false in Hchk2. exists st. cbn.
    rewrite lookup_insert_ne; [done|]. congruence.
  - unfold issue in H. minv H. apply asset_plus_Ok in Hres as (_ & _ & ->).
    apply add_balance_Ok in H. unfold core_row. destruct (accounts _ !! _); [destruct H as (_ & _ & ->)|subst t']; by apply Hset.
  - unfold retire in H. minv H. apply asset_minus_Ok in Hres as (_ & _ & ->).
    apply sub_balance_Ok in H as (b & _ & _ & _ & _ & ->). by apply Hset.
  - unfold transfer, require_recipient in H. minv H. apply add_balance_Ok in H. cbn in H.
    match goal with Hs : sub_balance _ _ _ = _ |- _ => apply sub_balance_Ok in Hs as (b & _ & _ & _ & _ & ->) end.
    exists st. destruct (accounts _ !! _); [destruct H as (_ & _ & ->)|subst t']; done.
  - unfold open in H. minv H. destruct (accounts t !! _); minv H; by exists st.
  - unfold close in H. minv H. by exists st.
Qed.

(** *** One effect, and all of them *)
Definition perform_action (x : effect) : option (list permission_level * token_action) :=
  match x with
  | TokenTransfer auth from to q memo => Some (auth, Transfer from to q memo)
  | TokenIssue auth to q memo => Some (auth, Issue to q memo)
  | TokenOpen auth owner y payer => Some (auth, Open owner y payer)
  | _ => None
  end.
Lemma perform_exec e x t t' : perform e x t = Ok (tt, t') ->
  match perform_action x with Some (auth, a) => token_exec (inline_env e auth) a t = Ok (tt, t') | None => t' = t end.
Proof. destruct x; cbn; try done; by intros [_ ->]%ret_Ok. Qed.

Lemma perform_holding y e x a t t' : core_row y t -> own a = true -> perform e x t = Ok (tt, t') ->
  holding t' a (sym_code y) = holding t a (sym_code y) + flow_of a y x.
Proof.
  intros Hrow Ha H. destruct x; cbn [perform flow_of] in *; try (apply ret_Ok in H as [_ ->]; lia).
  - unfold transfer, require_recipient in H. minv H. name_row st in Hfound.
    match goal with Hs : symbol_eqb _ _ = true |- _ => apply symbol_eqb_eq in Hs; rename Hs into Hsym end.
    match goal with Hs : sub_balance _ _ _ = _ |- _ => rename Hs into Hsub end.
    apply (holding_sub_exact _ _ _ _ a (sym_code y)) in Hsub. apply (holding_add_exact _ _ _ _ _ a (sym_code y)) in H.
    rewrite H, Hsub. change (holding (t <| notified ::= _ |> <| notified ::= _ |>) a (sym_code y)) with (holding t a (sym_code y)).
    rewrite !(Z.eqb_sym a). destruct (symbol_eqb (asset_symbol quantity) y) eqn:Hq.
    + apply symbol_eqb_eq in Hq. rewrite Hq, Z.eqb_refl, !andb_true_r. lia.
    + assert (sym_code y =? sym_code (asset_symbol quantity) = false) as ->; [|rewrite !andb_false_r; lia].
      apply Z.eqb_neq. intros Hc. rewrite <- Hc in Hfound. pose proof (row_symbol _ _ _ Hrow Hfound) as Hs.
      by rewrite Hsym, Hs, symbol_eqb_refl in Hq.
  - unfold issue in H. minv H. name_row st in Hfound.
    apply (holding_add_exact _ _ _ _ _ a (sym_code y)) in H. rewrite H.
    replace ((a =? issuer st) && _) with false; [unfold holding; cbn; lia|]. symmetry. apply andb_false_iff.
    destruct (Z.eqb_spec (sym_code y) (sym_code (asset_symbol quantity))) as [Hc|]; [left|by right].
    destruct Hrow as (st' & Hst' & _ & _ & Ho). rewrite Hc, Hfound in Hst'. injection Hst' as <-.
    apply Z.eqb_neq. intros ->. congruence.
  - rewrite Z.add_0_r. by eapply open_holding.
Qed.

Lemma perform_ok y e x t t' : ledger_ok t -> core_row y t -> perform e x t = Ok (tt, t') -> ledger_ok t' /\ core_row y t'.
Proof.
  intros Hl Hrow H. apply perform_exec in H. destruct (perform_action x) as [[auth a]|]; [|by subst].
  split; [by eapply token_exec_ledger|by eapply token_exec_core].
Qed.

(** Performed in order, the effects change the balances by their flow. *)
Lemma perform_all_ok y e l t t' : ledger_ok t -> core_row y t -> perform_all e l t = Ok (tt, t') ->
  ledger_ok t' /\ core_row y t' /\
  forall a, own a = true -> holding t' a (sym_code y) = holding t a (sym_code y) + flow a y l.
Proof.
  revert t. induction l as [|x l IH]; intros t Hl Hrow H.
  - apply ret_Ok in H as [_ ->]. split; [done|]. split; [done|]. intros a _. unfold flow. cbn. lia.
  - apply bind_Ok in H as ([] & t1 & H1 & H). destruct (perform_ok y e x t t1 Hl Hrow H1) as [Hl1 Hrow1].
    destruct (IH t1 Hl1 Hrow1 H) as (Hl' & Hrow' & Hh). split; [done|]. split; [done|]. intros a Ha.
    rewrite (Hh a Ha), (perform_holding y e x a t t1 Hrow Ha H1). unfold flow. cbn. lia.
Qed.

(** No account holds more than there may be. *)
Lemma holding_cap y t a : ledger_ok t -> core_row y t -> 0 <= holding t a (sym_code y) <= rex_cap.
Proof.
  intros Hl (st & Hst & Hy & Hm & _). assert (0 <= holding t a (sym_code y)) as Hpos.
  { unfold holding. case_match eqn:Ha; [|done]. by apply (ledger_accounts _ Hl _ _ Ha). }
  split; [done|]. destruct (ledger_stats _ Hl _ _ Hst) as (_ & _ & Hs & _).
  enough (holding t a (sym_code y) <= amount (supply st)) by lia.
  pose proof (ledger_sum _ Hl (sym_code y)) as Hsum. rewrite Hst in Hsum. rewrite <- Hsum.
  unfold holding in *. destruct (accounts t !! (a, sym_code y)) as [r|] eqn:Ha.
  - rewrite <- (in_code_same (sym_code y) r).
    + eapply msum_lookup_le; [|exact Ha]. intros k b Hk. unfold in_code. case_match; [|done]. by apply (ledger_accounts _ Hl _ _ Hk).
    + destruct (ledger_accounts _ Hl _ _ Ha) as (_ & st' & Hst' & ->). cbn in Hst'. rewrite Hst in Hst'. injection Hst' as <-. by rewrite Hy.
  - apply msum_nonneg. intros k b Hk. unfold in_code. case_match; [|done]. by apply (ledger_accounts _ Hl _ _ Hk).
Qed.
End chain.

(** ** Runs of the chain *)
Definition at_rest (s : sys) : sys := s <| effects := [] |>.

Section transactions.
Context `{cdt : Cdt} `{libm : Libm} `{host : Host} `{evm : EvmHost} (sha256 : list Z -> Z) (e : Env).

(** An action of the system contract, and then what it asked for. *)
Definition system_transaction (a : system_action) : M chain unit := fun c =>
  match system_exec sha256 e a (at_rest (contract c)) with
  | Err m => Err m
  | Ok (_, s') =>
    match perform_all e (effects s') (ledger c) with
    | Err m => Err m
    | Ok (_, t') => Ok (tt, mkChain s' t')
    end
  end.

(** A token action of anyone. *)
Definition token_transaction (a : token_action) : M chain unit := fun c =>
  match token_exec e a (ledger c) with
  | Err m => Err m
  | Ok (_, t') => Ok (tt, mkChain (contract c) t')
  end.
End transactions.

Section runs.
Context `{cdt : Cdt} `{!CdtLaws cdt} `{libm : Libm} `{!LibmLaws libm} (sha256 : list Z -> Z) (y : symbol).

Definition held (c : chain) (a : name) : Z := holding (ledger c) a (sym_code y).

(** The balances cover the tables. *)
Record chain_ok (e : Env) (c : chain) : Prop := {
  chain_ledger : ledger_ok (ledger c);
  chain_core : core_row y (ledger c);
  chain_books : solvent y (held c rex_account) (held c names_account) e (at_rest (contract c));
  chain_stakes : stake_due (contract c) <= held c stake_account;
}.

(** Each transaction sees the balances the token contract has at that time; the others'
    carry no authority of the contract's own accounts. *)
Inductive chain_step : relation (Env * chain) :=
| chain_system_tx (host : Host) (evm : EvmHost) e e' a c c' :
    OracleLaws host -> token_ledger = ledger c ->
    now_sec e <= now_sec e' -> clock_ok e' -> calm e' (contract c) -> system_env e' -> system_args y a ->
    system_transaction sha256 e' a c = Ok (tt, c') ->
    chain_step (e, c) (e', c')
| chain_token_tx e e1 a c c' :
    (forall n, own n = true -> has_auth e1 n = false) ->
    token_transaction e1 a c = Ok (tt, c') ->
    chain_step (e, c) (e, c').

(** Once its effects have been performed, what was sent is held. *)
Lemma solvent_rest hr hn e s : solvent y hr hn e s ->
  solvent y (hr + flow rex_account y (effects s)) (hn + flow names_account y (effects s)) e (at_rest s).
Proof.
  intros [Hst Hrex Hcov Hcap [Hn Hs] Hp Hram Hfee].
  assert (forall a, flow a y (effects (at_rest s)) = 0) as H0 by done.
  split; try done.
  - destruct Hst; by split.
  - destruct Hrex; split; assumption.
  - unfold vault_surplus, tokens in *. rewrite H0. change (vault_owed (at_rest s)) with (vault_owed s). lia.
  - unfold tokens in *. rewrite H0. lia.
  - split; [|done]. destruct Hn as [? ? ? ? Hc Hb]. unfold surplus in *.
    split; try done; unfold surplus; rewrite H0; [change (names_owed (at_rest s)) with (names_owed s)|]; lia.
Qed.

(** More tokens do no harm. *)
Lemma solvent_more hr hn hr' hn' e s : solvent y hr hn e (at_rest s) -> hr <= hr' -> hn <= hn' ->
  hr' <= rex_cap -> hn' <= max_amount -> solvent y hr' hn' e (at_rest s).
Proof.
  intros [Hst Hrex Hcov Hcap [Hn Hs] Hp Hram Hfee] Hr Hnn Hrc Hnc. assert (forall a, flow a y (effects (at_rest s)) = 0) as H0 by done.
  split; try done.
  - unfold vault_surplus, tokens in *. lia.
  - unfold tokens. rewrite H0. lia.
  - split; [|done]. destruct Hn. split; try done; [|rewrite H0]; lia.
Qed.

Lemma chain_step_kept e c e' c' : chain_ok e c -> chain_step (e, c) (e', c') -> chain_ok e' c'.
Proof.
  intros [Hl Hrow Hbooks Hst] Hstep. remember (e, c) as x eqn:Hx. remember (e', c') as x' eqn:Hx'.
  destruct Hstep as [host evm e0 e1 a c0 c1 Horacle _ Hle Hclock Hcalm He Ha H|e0 e1 a c0 c1 He H]; injection Hx as -> ->; injection Hx' as -> ->.
  - unfold system_transaction in H. destruct (system_exec sha256 e' a (at_rest (contract c))) as [[u s']|] eqn:Hexec; [|done].
    destruct (perform_all e' (effects s') (ledger c)) as [[[] t']|] eqn:Hperf; [|done]. injection H as <-.
    destruct (perform_all_ok y e' _ _ _ Hl Hrow Hperf) as (Hl' & Hrow' & Hheld).
    assert (forall b, own b = true -> held (mkChain s' t') b = held c b + flow b y (effects s')) as Hh by exact Hheld.
    pose proof (fun b => holding_cap y t' b Hl' Hrow') as Hcap'. unfold rex_cap in Hcap'.
    destruct (system_step_kept sha256 y (held c rex_account) (held c names_account) e (at_rest (contract c)) e' s' Hbooks) as [Hb' Hk].
    { eapply (system_step_intro sha256 y _ _ host evm e e' a _ u s'); try done.
      - unfold tokens. rewrite <- Hh by done. apply Hcap'.
      - rewrite <- Hh by done. unfold max_amount. specialize (Hcap' names_account). unfold held. cbn [ledger]. lia. }
    apply solvent_rest in Hb'. rewrite <- !Hh in Hb' by done. split; try done.
    rewrite Hh by done. pose proof (kept_stakes _ _ _ _ Hk) as Hd. change (flow stake_account y (effects (at_rest (contract c)))) with 0 in Hd.
    change (stake_due (at_rest (contract c))) with (stake_due (contract c)) in Hd. cbn [contract]. lia.
  - unfold token_transaction in H. destruct (token_exec e1 a (ledger c)) as [[[] t']|] eqn:Hexec; [|done]. injection H as <-.
    assert (forall b, own b = true -> held c b <= held (mkChain (contract c) t') b) as Hh.
    { intros b Hb. unfold held. cbn [ledger]. destruct (Z.le_gt_cases (holding (ledger c) b (sym_code y)) (holding t' b (sym_code y))); [done|].
      pose proof (He b Hb) as Hno. rewrite (token_exec_spends e1 a _ _ b (sym_code y) Hexec) in Hno; [done|lia]. }
    assert (ledger_ok t') as Hl' by (by eapply token_exec_ledger). assert (core_row y t') as Hrow' by (by eapply token_exec_core).
    pose proof (fun b => holding_cap y t' b Hl' Hrow') as Hcap'. unfold rex_cap in Hcap'.
    split; try done; cbn [contract].
    + eapply solvent_more; [exact Hbooks|by apply Hh..|apply Hcap'|].
      unfold max_amount. specialize (Hcap' names_account). unfold held. cbn [ledger]. lia.
    + etrans; [exact Hst|by apply Hh].
Qed.

Lemma chain_ok_covers e c : chain_ok e c ->
  stake_due (contract c) <= held c stake_account /\ vault_owed (contract c) <= held c rex_account /\
  names_owed (contract c) <= held c names_account.
Proof.
  intros [_ _ [_ _ Hcov _ [Hn _] _ _ _] Hst]. pose proof (names_covered _ _ _ Hn) as Hc. unfold vault_surplus, tokens, surplus in *.
  assert (forall a, flow a y (effects (at_rest (contract c))) = 0) as H0 by done. rewrite H0 in Hc, Hcov.
  change (names_owed (at_rest (contract c))) with (names_owed (contract c)) in Hc.
  change (vault_owed (at_rest (contract c))) with (vault_owed (contract c)) in Hcov. lia.
Qed.

Lemma chain_run_kept e c e' c' : chain_ok e c -> rtc chain_step (e, c) (e', c') -> chain_ok e' c'.
Proof.
  intros Hok Hrun. remember (e, c) as x eqn:Hx. remember (e', c') as x' eqn:Hx'. revert e c Hx Hok.
  induction Hrun as [x|x1 [e2 c2] x3 Hstep _ IH]; intros e c -> Hok; [by injection Hx' as -> ->|].
  apply (IH Hx' e2 c2 eq_refl). by eapply chain_step_kept.
Qed.

(** C1: Whatever transactions run, of the system contract and of the holders of the token,
    the balances in the token contract cover the tables of the system contract: eosio.stake
    holds the stakes and refunds, eosio.rex the funds and the pool of REX, eosio.names the
    bids and what bidders are owed. The transactions are those of [chain_step]: what TEDP
    distributes by [distviarex] is of the core token, the accounts of the contract sign
    nothing themselves, and the distributions of the return pool that are due stay in 64
    bits ([calm]); the maximum supply of the token is at most [rex_cap] ([core_row]). *)
Theorem chain_is_solvent e c e' c' :
  chain_ok e c -> rtc chain_step (e, c) (e', c') ->
  stake_due (contract c') <= held c' stake_account /\
  vault_owed (contract c') <= held c' rex_account /\
  names_owed (contract c') <= held c' names_account.
Proof.
  intros Hok Hrun. apply (chain_ok_covers e'). by eapply chain_run_kept.
Qed.
End runs.

(** ** Payments *)
Section payments.
Context `{cdt : Cdt} `{!CdtLaws cdt} `{libm : Libm} `{!LibmLaws libm} `{host : Host} `{!OracleLaws host} `{evm : EvmHost}.
Context (sha256 : list Z -> Z) (y : symbol) (e : Env).
Implicit Types (s : sys) (c : chain).

(** What withdrawals do before they pay sends nothing. *)
Lemma update_votes_sends n p l b : keeps effects (update_votes e n p l b).
Proof. intros s u s' H%update_votes_votes_only. by destruct H as (? & ? & ? & ? & ->). Qed.
Hint Resolve update_votes_sends : ledger.
Lemma update_voting_power_sends n q : keeps effects (update_voting_power e n q).
Proof. unfold update_voting_power. ledger. Qed.
Lemma transfer_to_fund_sends n q : keeps effects (transfer_to_fund n q).
Proof. unfold transfer_to_fund. ledger. Qed.
Lemma transfer_from_fund_sends n q : keeps effects (transfer_from_fund n q).
Proof. unfold transfer_from_fund. ledger. Qed.
Hint Resolve update_voting_power_sends transfer_to_fund_sends transfer_from_fund_sends : ledger.
Lemma update_rex_account_sends n p d b : keeps effects (update_rex_account e n p d b).
Proof. unfold update_rex_account. ledger. Qed.

Lemma withdraw_sends n q s s' : withdraw e n q s = Ok (tt, s') ->
  core_of s = Some (asset_symbol q) /\ 0 < amount q /\ has_auth e n = true /\
  effects s' = effects s ++ [TokenTransfer [active_of rex_account] rex_account n q "withdraw from REX fund"].
Proof.
  unfold withdraw. intros H.
  apply bind_Ok in H as ([] & s1 & [Ha ->]%check_Ok & H). apply bind_Ok in H as (core & s1 & [Hc ->]%core_symbol_Ok & H).
  apply bind_Ok in H as ([] & s1 & [<-%symbol_eqb_eq ->]%check_Ok & H). apply bind_Ok in H as ([] & s1 & [Hp%Z.ltb_lt ->]%check_Ok & H).
  apply bind_Ok in H as (z & s1 & Hz & H). apply bind_Ok in H as (r & s2 & Hu%update_rex_account_sends & H).
  apply bind_Ok in H as ([] & s3 & Hf%transfer_from_fund_sends & H).
  assert (effects s1 = effects s) as Hz'. { assert (keeps effects zero_core) as Hk by ledger. by eapply Hk. }
  apply modify_Ok in H as ->. do 3 (split; [done|]). cbn. congruence.
Qed.

(** A transfer that was asked for, out of an account that can pay. *)
Lemma perform_pays t from to q memo auth :
  ledger_ok t -> core_row y t -> symbol_is_valid y = true -> asset_symbol q = y -> own from = true -> own to = false ->
  In (active_of from) auth -> is_account e to = true -> 0 < amount q <= holding t from (sym_code y) ->
  Z.of_nat (String.length memo) <= 256 ->
  exists t', perform_all e [TokenTransfer auth from to q memo] t = Ok (tt, t') /\
    holding t' to (sym_code y) = holding t to (sym_code y) + amount q.
Proof.
  intros Hl Hrow Hv Hy Hfrom Hto Hauth Hacc [Hpos Hle] Hmemo. pose proof (holding_cap y t from Hl Hrow) as Hcap.
  destruct Hrow as (st & Hst & Hsym & _ & _). unfold rex_cap in Hcap. exists (transferred t from to q). split.
  - apply bind_Ok. eexists tt, _. split; [apply transfer_accepts; [done|]|reflexivity].
    assert (from <> to) by congruence. split_and!; try done.
    + unfold has_auth, inline_env. cbn. apply existsb_exists. exists (active_of from). split; [done|]. apply Z.eqb_refl.
    + apply asset_is_valid_iff. rewrite Hy. split; [|done]. unfold amount_in_range, max_amount. lia.
    + by rewrite Hy.
    + exists st. rewrite Hy. by split.
  - unfold transferred, holding at 1. cbn. rewrite Hy, lookup_insert_eq. reflexivity.
Qed.

Definition pays (a : system_action) (c c' : chain) (o : name) (z : Z) : Prop :=
  system_transaction sha256 e a c = Ok (tt, c') /\ held y c' o = held y c o + z.

Lemma pays_transfer e0 a c s' from to q memo auth :
  chain_ok y e0 c -> symbol_is_valid y = true ->
  system_exec sha256 e a (at_rest (contract c)) = Ok (tt, s') -> effects s' = [TokenTransfer auth from to q memo] ->
  asset_symbol q = y -> own from = true -> own to = false -> In (active_of from) auth -> is_account e to = true ->
  0 < amount q <= held y c from -> Z.of_nat (String.length memo) <= 256 ->
  exists c', pays a c c' to (amount q) /\ contract c' = s'.
Proof.
  intros [Hl Hrow _ _] Hv H Heff Hy Hfrom Hto Hauth Hacc Hq Hmemo.
  destruct (perform_pays (ledger c) from to q memo auth) as (t' & Hrun & Hh); [done..|].
  exists (mkChain s' t'). split; [|done]. split; [|exact Hh]. unfold system_transaction. by rewrite H, Heff, Hrun.
Qed.

(** *** The three ways out *)
Section ways_out.
Context (e0 : Env) (c : chain) (Hok : chain_ok y e0 c) (Hv : symbol_is_valid y = true) (He : system_env e).

Lemma refund_pays o r :
  refunds (contract c) !! o = Some r -> 0 < refund_sum r -> has_auth e o = true -> is_account e o = true ->
  (Refund.request_time r + refund_delay_sec) * 1000000 <= now_us e ->
  exists c', pays (Staking_action (RefundStake o)) c c' o (refund_sum r) /\ refunds (contract c') !! o = None.
Proof.
  intros Hr Hpos Hauth Hacc Hlate. pose proof Hok as [Hl Hrow [Hst _ _ _ _ _ _ _] Hheld].
  pose proof (holding_cap y _ stake_account Hl Hrow) as Hcap. fold (held y c stake_account) in Hcap. unfold rex_cap in Hcap.
  assert (refund_sum r <= stake_due (contract c)) as Hle by exact (refund_within y o r _ Hst Hr).
  edestruct (pays_transfer e0 (Staking_action (RefundStake o)) c) as (c' & Hp & Hc'); [exact Hok|exact Hv|..].
  - apply (refund_runs y e o r (at_rest (contract c)) Hst); [|done..]. unfold max_amount.
    change (stake_due (at_rest (contract c))) with (stake_due (contract c)). lia.
  - reflexivity.
  - done.
  - done.
  - by eapply auth_outside.
  - by left.
  - done.
  - cbn. lia.
  - done.
  - exists c'. split; [exact Hp|]. rewrite Hc'. apply lookup_delete_eq.
Qed.

Lemma bidrefund_pays bidder newname r :
  bidrefunds (contract c) !! (newname, bidder) = Some r -> 0 < amount r -> is_account e bidder = true ->
  exists c', pays (Account_action (Bid_refund bidder newname)) c c' bidder (amount r) /\
    bidrefunds (contract c') !! (newname, bidder) = None.
Proof.
  intros Hr Hpos Hacc. pose proof Hok as [Hl Hrow [_ _ _ _ [Hn [_ Hout]] _ _ _] _].
  destruct (chain_ok_covers y e0 c Hok) as (_ & _ & Hcov).
  pose proof (bidrefunds_ok _ _ _ Hn _ _ Hr) as [(_ & _ & Hy) _]. pose proof (Hout _ _ Hr) as Hstranger. cbn in Hstranger.
  assert (amount r <= names_owed (contract c)) as Hle by exact (bidrefund_within y _ (at_rest (contract c)) _ r Hn Hr).
  edestruct (pays_transfer e0 (Account_action (Bid_refund bidder newname)) c) as (c' & Hp & Hc'); [exact Hok|exact Hv|..].
  - cbn [system_exec account_exec]. unfold bidrefund, find_row. apply bind_Ok. do 2 eexists. split; [reflexivity|].
    change (bidrefunds (at_rest (contract c))) with (bidrefunds (contract c)). rewrite Hr. reflexivity.
  - reflexivity.
  - exact Hy.
  - done.
  - done.
  - by left.
  - done.
  - lia.
  - rewrite string_length_app. pose proof (name_to_string_length newname). cbn. lia.
  - exists c'. split; [exact Hp|]. rewrite Hc'. apply lookup_delete_eq.
Qed.

Lemma withdraw_pays o q s' :
  clock_ok e -> calm e (contract c) -> now_sec e0 <= now_sec e -> is_account e o = true ->
  withdraw e o q (at_rest (contract c)) = Ok (tt, s') ->
  exists c', pays (Rex_pool_action (Withdraw o q)) c c' o (amount q) /\ contract c' = s'.
Proof.
  intros Hclock Hcalm Hlate Hacc H. pose proof Hok as [Hl Hrow Hbooks _].
  pose proof H as (Hc & Hpos & Hauth & Heff)%withdraw_sends. cbn in Heff.
  assert (asset_symbol q = y) as Hy.
  { pose proof (core_ok _ _ (solvent_stakes _ _ _ _ _ Hbooks)) as Hy. congruence. }
  pose proof (auth_outside e o He Hauth) as Ho. pose proof Ho as (_ & Hor & Hon & _)%own_false.
  pose proof (fun a => holding_cap y _ a Hl Hrow) as Hcap.
  assert (flow rex_account y (effects s') = - amount q /\ flow names_account y (effects s') = 0) as [Hfr Hfn].
  { rewrite Heff. unfold flow. cbn. rewrite Hy, symbol_eqb_refl, (proj2 (Z.eqb_neq o rex_account) Hor),
      (proj2 (Z.eqb_neq o names_account) Hon). split; lia. }
  destruct (system_step_kept sha256 y (held y c rex_account) (held y c names_account) e0 (at_rest (contract c)) e s' Hbooks) as [Hb _].
  { apply (system_step_intro sha256 y _ _ host evm e0 e (Rex_pool_action (Withdraw o q)) _ tt s'); try done.
    - unfold tokens. rewrite Hfr. pose proof (Hcap rex_account). unfold held. lia.
    - rewrite Hfn. pose proof (Hcap names_account) as Hn. unfold rex_cap in Hn. unfold held, max_amount. lia. }
  pose proof (solvent_rex_covered _ _ _ _ _ Hb) as Hcov. pose proof (parts_nonneg _ _ _ _ _ (solvent_rex _ _ _ _ _ Hb)) as Hparts.
  unfold vault_surplus, vault_owed, tokens in Hcov. rewrite Hfr in Hcov.
  apply (pays_transfer e0 (Rex_pool_action (Withdraw o q)) c s' rex_account o q _ _ Hok Hv H Heff Hy eq_refl Ho); [by left|done|lia|done].
Qed.
End ways_out.

(** C2: Whatever ran before, what the tables promise is paid by the token contract: a refund
    whose delay is over and what an outbid account is owed, always and in full; a fund of REX,
    whenever the contract grants the withdrawal. The account then holds that much more, and
    is not promised it again. The transactions that ran before are those of [chain_step], so
    TEDP distributed only the core token. *)
Theorem promises_are_paid e1 c1 e0 c :
  chain_ok y e1 c1 -> rtc (chain_step sha256 y) (e1, c1) (e0, c) -> symbol_is_valid y = true -> system_env e ->
  (forall o r, refunds (contract c) !! o = Some r -> 0 < refund_sum r ->
    has_auth e o = true -> is_account e o = true -> (Refund.request_time r + refund_delay_sec) * 1000000 <= now_us e ->
    exists c', pays (Staking_action (RefundStake o)) c c' o (refund_sum r) /\ refunds (contract c') !! o = None) /\
  (forall bidder newname r, bidrefunds (contract c) !! (newname, bidder) = Some r -> 0 < amount r ->
    is_account e bidder = true ->
    exists c', pays (Account_action (Bid_refund bidder newname)) c c' bidder (amount r) /\
      bidrefunds (contract c') !! (newname, bidder) = None) /\
  (forall o q s', withdraw e o q (at_rest (contract c)) = Ok (tt, s') ->
    clock_ok e -> calm e (contract c) -> now_sec e0 <= now_sec e -> is_account e o = true ->
    exists c', pays (Rex_pool_action (Withdraw o q)) c c' o (amount q) /\ contract c' = s').
Proof.
  intros Hok Hrun Hv He. pose proof (chain_run_kept sha256 y _ _ _ _ Hok Hrun) as Hok0. split; [|split].
  - intros. by eapply refund_pays.
  - intros. by eapply bidrefund_pays.
  - intros. by eapply withdraw_pays.
Qed.
End payments.

(** ** An example: tokens issued, staked, bid and bought into REX, and paid back *)
Definition ex_token_run : list (name * token_action) :=
  [(token_account, Create eosio_account (tlos 100000000000)); (eosio_account, Issue eosio_account (tlos 20000000000) "supply");
   (eosio_account, Transfer eosio_account rex_account (tlos 10573397) "REX"); (eosio_account, Transfer eosio_account 5 (tlos 5000000) "");
   (eosio_account, Transfer eosio_account 6 (tlos 5000000) ""); (eosio_account, Transfer eosio_account 7 (tlos 5000000) "");
   (5, Open stake_account core 5); (5, Open names_account core 5)].
Definition ex_token_exec : M token_state unit :=
  for_each (fun x => token_exec (cdt := cdt_model) (mkEnv token_account [active_of x.1] 0 (fun _ => true)) x.2) ex_token_run.
Definition ex_ledger : token_state := match ex_token_exec token_init with Ok (_, t) => t | Err _ => token_init end.

Lemma ex_ledger_ok : ledger_ok ex_ledger.
Proof.
  assert (respects (fun t t' => ledger_ok t -> ledger_ok t') ex_token_exec) as H.
  { apply respects_for_each; [split; [by intros ?|by intros ????? ?; auto]|]. intros [n a] t u t' H Hl. destruct u.
    by eapply (token_exec_ledger (cdt := cdt_model)). }
  unfold ex_ledger. destruct (ex_token_exec token_init) as [[u t]|] eqn:Ht; [|apply ledger_ok_init].
  apply (H _ _ _ Ht), ledger_ok_init.
Qed.

(** A transaction has its time and one signer; the host answers with the balances there are. *)
Definition ex_host_of (t : token_state) : Host := {|
  set_proposed_producers _ := Ok None;
  get_active_producers := [];
  authority_is_valid _ := true;
  oracle_averages := [(2, 500)];
  tedp_payouts := [];
  token_ledger := t;
|}.
#[export] Instance ex_host_laws t : OracleLaws (ex_host_of t).
Proof. split. apply Forall_singleton. cbn. lia. Qed.

Definition ex_transaction (at_ : Z * name) (a : system_action) : M chain unit := fun c =>
  system_transaction (cdt := cdt_model) (libm := libm_model) (host := ex_host_of (ledger c)) (evm := ex_evm) (fun _ => 0) (ex_run_env at_) a c.
Fixpoint ex_chain_run (l : list (Z * name * (system_action + token_action))) (e : Env) (c : chain) : option (Env * chain) :=
  match l with
  | [] => Some (e, c)
  | (at_, inl a) :: l =>
    match ex_transaction at_ a c with
    | Ok (_, c') => if ex_env_next e at_ (contract c) then ex_chain_run l (ex_run_env at_) c' else None
    | Err _ => None
    end
  | (at_, inr a) :: l =>
    match token_transaction (cdt := cdt_model) (ex_run_env at_) a c with
    | Ok (_, c') => if own at_.2 then None else ex_chain_run l e c'
    | Err _ => None
    end
  end.
Lemma ex_chain_steps l e c e' c' :
  Forall (fun x => match x.2 with inl a => system_args core a | inr _ => True end) l -> ex_chain_run l e c = Some (e', c') ->
  rtc (chain_step (cdt := cdt_model) (libm := libm_model) (fun _ => 0) core) (e, c) (e', c').
Proof.
  intros Hargs. revert e c. induction Hargs as [|[at_ [a|a]] l Ha _ IH]; intros e c H; [injection H as -> ->; apply rtc_refl|..];
    cbn [ex_chain_run] in H.
  - destruct (ex_transaction at_ a c) as [[[] c1]|] eqn:H1; [|done]. destruct (ex_env_next _ _ _) eqn:Hnext; [|done].
    apply ex_env_next_ok in Hnext as (Hle & Hclock & Hcalm & He). eapply rtc_l; [|by apply IH].
    by apply (chain_system_tx (fun _ => 0) core (ex_host_of (ledger c)) ex_evm e (ex_run_env at_) a c c1 (ex_host_laws _)).
  - destruct (token_transaction _ a c) as [[[] c1]|] eqn:H1; [|done]. destruct (own at_.2) eqn:Hn; [done|].
    eapply rtc_l; [|by apply IH]. eapply chain_token_tx; [|exact H1]. apply (no_own_auth _ (signed_by_outsider at_ Hn)).
Qed.

Definition ex_chain : chain := mkChain ex_whole_sys ex_ledger.
Lemma ex_chain_ok : chain_ok (cdt := cdt_model) core (ex_run_env ex_start) ex_chain.
Proof.
  assert (held core ex_chain rex_account = 10573397 /\ held core ex_chain names_account = 0) as [Hr Hn] by (vm_compute; done).
  split.
  - exact ex_ledger_ok.
  - assert (match stats ex_ledger !! sym_code core with
      | Some st => symbol_eqb (asset_symbol (supply st)) core && (amount (max_supply st) <=? rex_cap) && negb (own (issuer st))
      | None => false end = true) as H by (vm_compute; reflexivity).
    unfold core_row. cbn [ledger ex_chain]. destruct (stats ex_ledger !! sym_code core) as [st|]; [|done].
    rewrite !andb_true_iff, Z.leb_le, negb_true_iff in H. destruct H as [[Hs%symbol_eqb_eq Hm] Ho]. exists st. exact (conj eq_refl (conj Hs (conj Hm Ho))).
  - rewrite Hr, Hn. exact ex_whole_solvent.
  - vm_compute. discriminate.
Qed.

Definition ex_chain_txs : list (Z * name * (system_action + token_action)) :=
  [((1700000000000000, 5), inl (Staking_action (Delegatebw 5 6 (tlos 30000) (tlos 70000) false)));
   ((1700000001000000, 6), inl (Account_action (Bid_name 6 ex_short_name (tlos 10000))));
   ((1700000002000000, 6), inr (Transfer 6 stake_account (tlos 1) "for nothing"));
   ((1700000003000000, 7), inl (Account_action (Bid_name 7 ex_short_name (tlos 12000))));
   ((1700000004000000, 7), inl (Rex_pool_action (Deposit 7 (tlos 20000))));
   ((1700000005000000, 5), inl (Staking_action (Undelegatebw 5 6 (tlos 0) (tlos 20000))))].

Lemma chain_is_solvent_witness :
  exists e' c', ex_chain_run ex_chain_txs (ex_run_env ex_start) ex_chain = Some (e', c') /\
    stake_due (contract c') = 100000 /\ stake_due (contract c') <= held core c' stake_account.
Proof.
  assert (match ex_chain_run ex_chain_txs (ex_run_env ex_start) ex_chain with
    | Some (_, c') => stake_due (contract c') =? 100000 | None => false end = true) as Hok by (vm_compute; reflexivity).
  destruct (ex_chain_run ex_chain_txs (ex_run_env ex_start) ex_chain) as [[e' c']|] eqn:H; [|discriminate].
  apply Z.eqb_eq in Hok. apply ex_chain_steps in H as Hrun; [|repeat constructor; vm_compute; discriminate].
  destruct (chain_is_solvent (cdt := cdt_model) (libm := libm_model) (fun _ => 0) core _ _ _ _ ex_chain_ok Hrun) as [Hs _].
  exists e', c'. split; [reflexivity|]. split; [exact Hok|exact Hs].
Defined.

Lemma promises_are_paid_witness :
  exists e0 c c1 c2 c3, ex_chain_run ex_chain_txs (ex_run_env ex_start) ex_chain = Some (e0, c) /\
    held core c1 5 = held core c 5 + 20000 /\ held core c2 6 = held core c 6 + 10000 /\ held core c3 7 = held core c 7 + 15000.
Proof.
  destruct (ex_chain_run ex_chain_txs (ex_run_env ex_start) ex_chain) as [[e0 c]|] eqn:H; [|vm_compute in H; discriminate].
  apply ex_chain_steps in H as Hrun; [|repeat constructor; vm_compute; discriminate].
  set (later := fun n => ex_run_env (1700259300000000, n)).
  assert (match ex_chain_run ex_chain_txs (ex_run_env ex_start) ex_chain with
    | Some (e, c) =>
      match refunds (contract c) !! 5, bidrefunds (contract c) !! (ex_short_name, 6) with
      | Some r, Some q => (refund_sum r =? 20000) && (amount q =? 10000) &&
          ((Refund.request_time r + refund_delay_sec) * 1000000 <=? now_us (later 5)) &&
          calm_now (later 7) (contract c) && (now_sec e <=? now_sec (later 7)) &&
          is_ok (withdraw (cdt := cdt_model) (libm := libm_model) (later 7) 7 (tlos 15000) (at_rest (contract c)))
      | _, _ => false
      end
    | None => false end = true) as Hok by (vm_compute; reflexivity).
  rewrite H in Hok. destruct (refunds (contract c) !! 5) as [r|] eqn:Hr; [|discriminate].
  destruct (bidrefunds (contract c) !! (ex_short_name, 6)) as [q|] eqn:Hq; [|discriminate].
  rewrite !andb_true_iff, !Z.eqb_eq, !Z.leb_le in Hok. destruct Hok as (((((H1 & H2) & H3) & H4) & H5) & H6).
  destruct (is_ok_run _ _ H6) as ([] & s' & Hw).
  assert (forall n, own n = false -> system_env (later n)) as Hsys by (intros n Hn; by apply (signed_by_outsider (_, n))).
  destruct (promises_are_paid (cdt := cdt_model) (libm := libm_model) (evm := ex_evm) (host := ex_host_of (ledger c))
    (fun _ => 0) core (later 5) _ _ e0 c ex_chain_ok Hrun eq_refl (Hsys 5 eq_refl)) as (Hp1 & _ & _).
  destruct (promises_are_paid (cdt := cdt_model) (libm := libm_model) (evm := ex_evm) (host := ex_host_of (ledger c))
    (fun _ => 0) core (later 7) _ _ e0 c ex_chain_ok Hrun eq_refl (Hsys 7 eq_refl)) as (_ & Hp2 & Hp3).
  destruct (Hp1 5 r Hr) as (c1 & [_ Hc1] & _); [lia|reflexivity|reflexivity|exact H3|].
  destruct (Hp2 6 ex_short_name q Hq) as (c2 & [_ Hc2] & _); [lia|reflexivity|].
  destruct (Hp3 7 (tlos 15000) s' Hw) as (c3 & [_ Hc3] & _); [by apply clock_now_ok|by apply calm_now_calm|exact H5|reflexivity|].
  exists e0, c, c1, c2, c3. split; [reflexivity|]. rewrite H1 in Hc1. rewrite H2 in Hc2. split; [exact Hc1|]. split; [exact Hc2|exact Hc3].
Defined.
