(* ===== verification/Rows.v ===== *)
(** * Rows as bytes (eosio.system.hpp: the stream operators of [producer_info] and [voter_info])

    The two tables of votes have operators of their own for writing rows to the database and
    reading them back, because rows of older versions of the contract end before the last
    field. The streams of the platform, which write and read single values, are a parameter
    ([Streams], their laws [StreamLaws]). The theorems say that the rows of the model are the
    rows of the tables, what happens to rows of the older versions, and which changes make a
    row longer. *)
From Stdlib Require Import SpecFloat Ascii.
From S2P Require Import Prelude.
From S2P Require Import Params.
From S2P Require Import Cdt.
From S2P Require Import Float64.
From S2P Require Import SysState.
From S2P Require Import Votes.
From S2P Require Import Producers.
From S2P Require Import Rotation.
From stdpp Require Import base strings list.
Open Scope Z_scope.

(** ** Streams *)

(** How values of a type are written, and read from the front of what is left. *)
Record codec (A : Type) := Codec { put : A -> list Z; get : M (list Z) A }.
Arguments put {A}. Arguments get {A}.

(** What the platform writes: names and times as their numbers, a public key, a [double], a
    string and a list with their lengths, a [binary_extension] with its value if it has one. *)
Class Streams := {
  name_codec : codec name; bool_codec : codec bool; u16_codec : codec Z; u32_codec : codec Z; u64_codec : codec Z;
  i64_codec : codec Z; f64_codec : codec double; string_codec : codec string; names_codec : codec (list name);
  asset_codec : codec asset; key_codec : codec Z; authority_codec : codec block_signing_authority;
  put_extension : forall {A}, codec A -> option A -> list Z;
  (** [operator>>] of an extension that holds [o]. *)
  get_extension : forall {A}, codec A -> option A -> M (list Z) (option A);
  (** What has a representation, where not every value of the model does. *)
  f64_fits : double -> Prop; string_fits : string -> Prop; names_fit : list name -> Prop; asset_fits : asset -> Prop;
  key_fits : Z -> Prop; authority_fits : block_signing_authority -> Prop;
}.

Definition reads_back {A} (c : codec A) (P : A -> Prop) : Prop := forall x l, P x -> get c (put c x ++ l) = Ok (x, l).
Definition of_size {A} (c : codec A) (n : nat) : Prop := forall x, length (put c x) = n.

(** What the streams promise: a value is read back from its bytes, whatever follows them;
    numbers have their width, a short string one byte more than its characters; an extension
    keeps what it holds when nothing is left to read, and is read like its value otherwise. *)
Class StreamLaws (St : Streams) := {
  name_reads : reads_back name_codec in_u64; bool_reads : reads_back bool_codec (fun _ => True);
  u16_reads : reads_back u16_codec (fun z => 0 <= z < 2 ^ 16); u32_reads : reads_back u32_codec in_u32;
  u64_reads : reads_back u64_codec in_u64; i64_reads : reads_back i64_codec in_i64;
  f64_reads : reads_back f64_codec f64_fits; string_reads : reads_back string_codec string_fits;
  names_read : reads_back names_codec names_fit; asset_reads : reads_back asset_codec asset_fits;
  key_reads : reads_back key_codec key_fits; authority_reads : reads_back authority_codec authority_fits;
  name_size : of_size name_codec 8; bool_size : of_size bool_codec 1; u16_size : of_size u16_codec 2;
  u32_size : of_size u32_codec 4; u64_size : of_size u64_codec 8; i64_size : of_size i64_codec 8; f64_size : of_size f64_codec 8;
  string_size : forall s, (String.length s < 128)%nat -> length (put string_codec s) = S (String.length s);
  extension_put : forall A (c : codec A) x, put_extension c (Some x) = put c x;
  extension_absent : forall A (c : codec A) o, get_extension c o [] = Ok (o, []);
  extension_present : forall A (c : codec A) o l x l', l <> [] -> get c l = Ok (x, l') -> get_extension c o l = Ok (Some x, l');
}.

(** ** The operators *)
Section operators.
Context `{St : Streams}.

(** [operator<<] of [producer_info]. *)
Definition write_producer_info (t : producer_info) : list Z :=
  put name_codec (Producer.owner t) ++ put f64_codec (Producer.total_votes t) ++ put key_codec (Producer.producer_key t) ++
  put bool_codec (Producer.is_active t) ++ put string_codec (Producer.unreg_reason t) ++ put string_codec (Producer.url t) ++
  put u32_codec (Producer.unpaid_blocks t) ++ put u32_codec (Producer.lifetime_produced_blocks t) ++
  put u32_codec (Producer.missed_blocks_per_rotation t) ++ put u32_codec (Producer.lifetime_missed_blocks t) ++
  put i64_codec (Producer.last_claim_time t) ++ put u16_codec (Producer.location t) ++
  put u32_codec (Producer.kick_reason_id t) ++ put string_codec (Producer.kick_reason t) ++ put u32_codec (Producer.times_kicked t) ++
  put u32_codec (Producer.kick_penalty_hours t) ++ put u32_codec (Producer.last_time_kicked t) ++
  match Producer.producer_authority t with
  | None => []
  | Some _ => put_extension authority_codec (Producer.producer_authority t)
  end.

(** [operator>>] into [t]. *)
Definition read_producer_info (t : producer_info) : M (list Z) producer_info :=
  owner ← get name_codec; total_votes ← get f64_codec; producer_key ← get key_codec; is_active ← get bool_codec;
  unreg_reason ← get string_codec; url ← get string_codec; unpaid_blocks ← get u32_codec;
  lifetime_produced_blocks ← get u32_codec; missed_blocks_per_rotation ← get u32_codec; lifetime_missed_blocks ← get u32_codec;
  last_claim_time ← get i64_codec; location ← get u16_codec; kick_reason_id ← get u32_codec; kick_reason ← get string_codec;
  times_kicked ← get u32_codec; kick_penalty_hours ← get u32_codec; last_time_kicked ← get u32_codec;
  producer_authority ← get_extension authority_codec (Producer.producer_authority t);
  mret (Producer.mk owner total_votes producer_key is_active unreg_reason url unpaid_blocks lifetime_produced_blocks
    missed_blocks_per_rotation lifetime_missed_blocks last_claim_time location kick_reason_id kick_reason times_kicked
    kick_penalty_hours last_time_kicked producer_authority).

(** [voter_info]. The code leaves [reserved2] and [reserved3] as they start out, 0 and an
    [asset] of nothing, and never reads them: they are not in the rows of the model. *)
Definition reserved3 : asset := Asset 0 (Symbol 0 0).
Definition write_voter_info (v : voter_info) : list Z :=
  put name_codec (Voter.owner v) ++ put name_codec (Voter.proxy v) ++ put names_codec (Voter.producers v) ++
  put i64_codec (Voter.staked v) ++ put i64_codec (Voter.last_stake v) ++ put f64_codec (Voter.last_vote_weight v) ++
  put f64_codec (Voter.proxied_vote_weight v) ++ put bool_codec (Voter.is_proxy v) ++ put u32_codec (Voter.flags1 v) ++
  put u32_codec 0 ++ put asset_codec reserved3 ++
  match Voter.self_stake_boost v with
  | None => []
  | Some _ => put_extension u64_codec (Voter.self_stake_boost v)
  end.
Definition read_voter_info (v : voter_info) : M (list Z) voter_info :=
  owner ← get name_codec; proxy ← get name_codec; producers ← get names_codec; staked ← get i64_codec;
  last_stake ← get i64_codec; last_vote_weight ← get f64_codec; proxied_vote_weight ← get f64_codec; is_proxy ← get bool_codec;
  flags1 ← get u32_codec; reserved2 ← get u32_codec; reserved3 ← get asset_codec;
  self_stake_boost ← get_extension u64_codec (Voter.self_stake_boost v);
  mret (Voter.mk owner proxy producers staked last_stake last_vote_weight proxied_vote_weight is_proxy flags1 self_stake_boost).

(** The objects rows are read into: members with the values they start with. An extension of
    a producer starts absent, the one of a voter as 0. *)
Definition default_producer : producer_info := Producer.mk 0 dzero no_key true "" "" 0 0 0 0 0 0 0 "" 0 0 0 None.
Definition default_voter : voter_info := new_voter 0.
End operators.

(** ** What fits a row *)
Section rows.
Context `{St : Streams} `{!StreamLaws St}.

Record producer_fits (p : producer_info) : Prop := {
  p_owner : in_u64 (Producer.owner p); p_votes : f64_fits (Producer.total_votes p); p_key : key_fits (Producer.producer_key p);
  p_unreg : string_fits (Producer.unreg_reason p); p_url : string_fits (Producer.url p);
  p_unpaid : in_u32 (Producer.unpaid_blocks p); p_produced : in_u32 (Producer.lifetime_produced_blocks p);
  p_missed : in_u32 (Producer.missed_blocks_per_rotation p); p_lifetime : in_u32 (Producer.lifetime_missed_blocks p);
  p_claim : in_i64 (Producer.last_claim_time p); p_location : 0 <= Producer.location p < 2 ^ 16;
  p_reason_id : in_u32 (Producer.kick_reason_id p); p_reason : string_fits (Producer.kick_reason p);
  p_times : in_u32 (Producer.times_kicked p); p_hours : in_u32 (Producer.kick_penalty_hours p);
  p_last : in_u32 (Producer.last_time_kicked p); p_authority : forall a, Producer.producer_authority p = Some a ->
    authority_fits a /\ put authority_codec a <> [];
}.
Record voter_fits (v : voter_info) : Prop := {
  v_owner : in_u64 (Voter.owner v); v_proxy : in_u64 (Voter.proxy v); v_producers : names_fit (Voter.producers v);
  v_staked : in_i64 (Voter.staked v); v_last : in_i64 (Voter.last_stake v); v_weight : f64_fits (Voter.last_vote_weight v);
  v_proxied : f64_fits (Voter.proxied_vote_weight v); v_flags : in_u32 (Voter.flags1 v); v_reserved : asset_fits reserved3;
  v_boost : forall b, Voter.self_stake_boost v = Some b -> in_u64 b;
}.

Lemma get_put {A B} (c : codec A) P x l (f : A -> M (list Z) B) : reads_back c P -> P x ->
  (a ← get c; f a) (put c x ++ l) = f x l.
Proof. intros Hc Hx. by apply bind_run_Ok, Hc. Qed.

Lemma get_extension_Some {A B} (c : codec A) P x o (f : option A -> M (list Z) B) : reads_back c P -> P x -> put c x <> [] ->
  (a ← get_extension c o; f a) (put_extension c (Some x)) = f (Some x) [].
Proof.
  intros Hc Hx Hne. apply bind_run_Ok. rewrite extension_put. apply extension_present; [done|].
  rewrite <- (app_nil_r (put c x)). by apply Hc.
Qed.
Lemma get_extension_None {A B} (c : codec A) o (f : option A -> M (list Z) B) : (a ← get_extension c o; f a) [] = f o [].
Proof. apply bind_run_Ok, extension_absent. Qed.

Lemma read_producer p : producer_fits p -> read_producer_info default_producer (write_producer_info p) = Ok (p, []).
Proof.
  intros []. unfold read_producer_info, write_producer_info.
  repeat (erewrite get_put; [|first [apply name_reads | apply f64_reads | apply key_reads | apply bool_reads | apply string_reads |
    apply u32_reads | apply i64_reads | apply u16_reads]|done]).
  destruct p as [? ? ? ? ? ? ? ? ? ? ? ? ? ? ? ? ? [a|]]; cbn [Producer.producer_authority] in *.
  - destruct (p_authority0 a eq_refl) as [Ha Hne]. by rewrite (get_extension_Some _ _ _ _ _ authority_reads Ha Hne).
  - by rewrite get_extension_None.
Qed.

Lemma read_voter v : voter_fits v ->
  read_voter_info default_voter (write_voter_info v) = Ok (v <| Voter.self_stake_boost := Some (default 0 (Voter.self_stake_boost v)) |>, []).
Proof.
  intros []. unfold read_voter_info, write_voter_info.
  repeat (erewrite get_put; [|first [apply name_reads | apply f64_reads | apply names_read | apply bool_reads |
    apply u32_reads | apply i64_reads | apply asset_reads]|done || (unfold in_u32; lia)]).
  destruct v as [? ? ? ? ? ? ? ? ? [b|]]; cbn [Voter.self_stake_boost] in *.
  - rewrite (get_extension_Some _ _ _ _ _ u64_reads (v_boost0 b eq_refl)); [done|].
    intros H. apply (f_equal length) in H. rewrite u64_size in H. done.
  - by rewrite get_extension_None.
Qed.

(** ** Sizes *)

(** The fields whose size is not fixed. *)
Definition variable_size (p : producer_info) : nat :=
  length (put key_codec (Producer.producer_key p)) + length (put string_codec (Producer.unreg_reason p)) +
  length (put string_codec (Producer.url p)) + length (put string_codec (Producer.kick_reason p)) +
  from_option (fun a => length (put authority_codec a)) 0%nat (Producer.producer_authority p).
Lemma producer_size p : length (write_producer_info p) = (59 + variable_size p)%nat.
Proof.
  unfold write_producer_info, variable_size. rewrite !length_app, name_size, f64_size, bool_size, !u32_size, i64_size, u16_size.
  destruct (Producer.producer_authority p) as [a|]; [rewrite extension_put|]; cbn; lia.
Qed.
Lemma voter_size v : length (write_voter_info v) =
  (57 + length (put names_codec (Voter.producers v)) + length (put asset_codec reserved3) +
   match Voter.self_stake_boost v with Some _ => 8 | None => 0 end)%nat.
Proof.
  unfold write_voter_info. rewrite !length_app, !name_size, !i64_size, !f64_size, bool_size, !u32_size.
  destruct (Voter.self_stake_boost v) as [b|]; [rewrite extension_put, u64_size|]; cbn; lia.
Qed.
End rows.

(** ** The theorems *)
Section theorems.
Context `{St : Streams} `{!StreamLaws St} `{cdt : Cdt} `{libm : Libm} (e : Env).

(** What is written is read back. Every row of a producer, of the present version of the
    contract or an older one, comes back as it was; a row of a voter too, but that an absent
    boost comes back as a boost of 0, which no action tells apart, so that rewriting a row of
    an older version makes it eight bytes longer although nothing in it changed. *)
Theorem rows_are_read_back p v : producer_fits p -> voter_fits v ->
  read_producer_info default_producer (write_producer_info p) = Ok (p, []) /\
  exists v', read_voter_info default_voter (write_voter_info v) = Ok (v', []) /\
    v' = v <| Voter.self_stake_boost := Some (default 0 (Voter.self_stake_boost v)) |> /\
    length (write_voter_info v') = (length (write_voter_info v) + if is_found (Voter.self_stake_boost v) then 0 else 8)%nat.
Proof.
  intros Hp Hv. split; [by apply read_producer|]. eexists. split; [by apply read_voter|]. split; [done|].
  rewrite !voter_size. cbn. destruct (Voter.self_stake_boost v); cbn; lia.
Qed.

(** Which changes of a block make the row of a producer longer: counting blocks and missed
    blocks does not, and a deactivation never does; kicking a producer does, by the reason it
    writes into the row. *)
Theorem kicks_lengthen_rows p p' : Producer.producer_authority p = None -> Producer.kick_reason p = "" ->
  length (put key_codec (Producer.producer_key p)) = length (put key_codec no_key) ->
  kick e REACHED_TRESHOLD 0 p = Ok p' ->
  (forall a b c, length (write_producer_info (p <| Producer.unpaid_blocks := a |> <| Producer.lifetime_produced_blocks := b |>
    <| Producer.missed_blocks_per_rotation := c |>)) = length (write_producer_info p)) /\
  length (write_producer_info (deactivate p)) = length (write_producer_info p) /\
  length (write_producer_info p') = (length (write_producer_info p) + 105)%nat.
Proof.
  intros Ha Hr Hk H. split; [intros a b c; by rewrite !producer_size|]. rewrite !producer_size. unfold variable_size.
  split; [cbn; rewrite Ha, Hk; done|]. unfold kick in H. change (0 =? 0) with true in H. cbv iota zeta in H.
  destruct (dto_u32 _) as [hours|] in H; [|done]. injection H as <-. unfold deactivate.
  cbn [Producer.producer_key Producer.unreg_reason Producer.url Producer.kick_reason Producer.producer_authority update_field from_option].
  rewrite Ha, Hr, Hk. rewrite (string_size "") by (cbn; lia).
  rewrite (string_size "Producer account was deactivated because it reached the maximum missed blocks in this rotation timeframe.") by (cbn; lia).
  cbn [String.length from_option]. lia.
Qed.
End theorems.

(** ** Streams that keep the laws *)

(** [k] bytes, the least significant first. *)
Definition le_codec (k : nat) : codec Z := Codec Z (le_bytes k) (fun l =>
  if (k <=? length l)%nat then Ok (le_value (take k l), drop k l) else Err "datastream attempted to read past the end").
Lemma le_codec_reads k : reads_back (le_codec k) (fun z => 0 <= z < 256 ^ Z.of_nat k).
Proof.
  intros x l Hx. cbn [put get le_codec]. rewrite length_app, le_bytes_length, (proj2 (Nat.leb_le _ _)) by lia.
  rewrite take_app_length', drop_app_length', le_value_bytes by (done || by rewrite le_bytes_length). done.
Qed.

(** Another type with the numbers of [c]: [from] after [to] is the identity where it fits. *)
Definition map_codec {A B} (to : B -> A) (from : A -> B) (c : codec A) : codec B :=
  Codec B (fun x => put c (to x)) (x ← get c; mret (from x)).
Lemma map_codec_reads {A B} (to : B -> A) (from : A -> B) c P Q : reads_back c P -> (forall x, Q x -> P (to x) /\ from (to x) = x) ->
  reads_back (map_codec to from c) Q.
Proof.
  intros Hc HQ x l Hx. destruct (HQ x Hx) as [Hp Hback]. cbn [put get map_codec].
  erewrite get_put; [|exact Hc|exact Hp]. by rewrite Hback.
Qed.

Definition pair_codec {A B} (c : codec A) (d : codec B) : codec (A * B) :=
  Codec (A * B) (fun x => put c x.1 ++ put d x.2) (a ← get c; b ← get d; mret (a, b)).
Lemma pair_codec_reads {A B} (c : codec A) (d : codec B) P Q : reads_back c P -> reads_back d Q ->
  reads_back (pair_codec c d) (fun x => P x.1 /\ Q x.2).
Proof.
  intros Hc Hd [a b] l [Ha Hb]. cbn [put get pair_codec fst snd]. rewrite <- app_assoc.
  erewrite get_put; [|exact Hc|exact Ha]. erewrite get_put; [|exact Hd|exact Hb]. done.
Qed.

(** A list: how many, seven bits to a byte, and each. *)
Fixpoint put_varuint (fuel : nat) (n : Z) : list Z :=
  match fuel with
  | O => []
  | S f => if n <? 128 then [n] else 128 + n mod 128 :: put_varuint f (n / 128)
  end.
Fixpoint get_varuint (fuel : nat) : M (list Z) Z := fun l =>
  match fuel, l with
  | S f, b :: l' => if b <? 128 then Ok (b, l')
    else match get_varuint f l' with Ok (n, l'') => Ok (b - 128 + 128 * n, l'') | Err m => Err m end
  | _, _ => Err "datastream attempted to read past the end"
  end.
Lemma varuint_reads fuel : forall n l, (0 < fuel)%nat -> 0 <= n < 128 ^ Z.of_nat fuel -> get_varuint fuel (put_varuint fuel n ++ l) = Ok (n, l).
Proof.
  induction fuel as [|f IH]; intros n l Hf Hn; [lia|]. rewrite Nat2Z.inj_succ, Z.pow_succ_r in Hn by lia.
  cbn [put_varuint get_varuint]. destruct (Z.ltb_spec n 128) as [Hs|Hb]; cbn [app].
  - by rewrite (proj2 (Z.ltb_lt _ _)).
  - pose proof (Z.mod_pos_bound n 128) as Hm. rewrite (proj2 (Z.ltb_ge _ _)) by lia. rewrite IH.
    + do 2 f_equal. pose proof (Z.div_mod n 128). lia.
    + destruct f; [cbn in Hn; lia|lia].
    + split; [apply Z.div_pos; lia|apply Z.div_lt_upper_bound; lia].
Qed.
Fixpoint get_many {A} (c : codec A) (n : nat) : M (list Z) (list A) :=
  match n with O => mret [] | S n' => x ← get c; xs ← get_many c n'; mret (x :: xs) end.
Definition list_codec {A} (c : codec A) : codec (list A) := Codec (list A)
  (fun xs => put_varuint 5 (Z.of_nat (length xs)) ++ flat_map (put c) xs) (n ← get_varuint 5; get_many c (Z.to_nat n)).
Lemma list_codec_reads {A} (c : codec A) P : reads_back c P ->
  reads_back (list_codec c) (fun xs => Forall P xs /\ Z.of_nat (length xs) < 2 ^ 32).
Proof.
  intros Hc xs l [Hxs Hlen]. cbn [put get list_codec]. rewrite <- app_assoc.
  erewrite bind_run_Ok by (apply varuint_reads; [lia|]; change (128 ^ Z.of_nat 5) with (2 ^ 35); lia). rewrite Nat2Z.id. clear Hlen.
  induction Hxs as [|x xs Hx _ IH]; [done|]. cbn [length get_many flat_map]. rewrite <- app_assoc.
  erewrite get_put; [|exact Hc|exact Hx]. by erewrite bind_run_Ok by exact IH.
Qed.

(** The bits of a [double], with one pattern for what is not a number. *)
Definition f64_bits (d : double) : Z :=
  match d with
  | S754_zero s => if s then 2 ^ 63 else 0
  | S754_infinity s => (if s then 2 ^ 63 else 0) + 2047 * 2 ^ 52
  | S754_nan => 4095 * 2 ^ 51
  | S754_finite s m e => (if s then 2 ^ 63 else 0) + (if (Z.pos m <? 2 ^ 52)%Z then Z.pos m else (e + 1074) * 2 ^ 52 + Z.pos m)
  end.
Definition f64_of_bits (z : Z) : double :=
  let s := 2 ^ 63 <=? z in
  let e := z / 2 ^ 52 mod 2 ^ 11 in
  let m := z mod 2 ^ 52 in
  if e =? 2047 then (if m =? 0 then S754_infinity s else S754_nan)
  else if e =? 0 then match m with Z.pos p => S754_finite s p (-1074) | _ => S754_zero s end
  else match m + 2 ^ 52 with Z.pos p => S754_finite s p (e - 1075) | _ => S754_zero s end.

Definition streams_model : Streams := {|
  name_codec := le_codec 8; bool_codec := map_codec Z.b2z (fun z => negb (z =? 0)) (le_codec 1); u16_codec := le_codec 2;
  u32_codec := le_codec 4; u64_codec := le_codec 8; i64_codec := map_codec u64 i64 (le_codec 8);
  f64_codec := map_codec f64_bits f64_of_bits (le_codec 8);
  string_codec := map_codec String.list_ascii_of_string String.string_of_list_ascii
    (list_codec (map_codec (fun c => Z.of_N (N_of_ascii c)) (fun z => ascii_of_N (Z.to_N z)) (le_codec 1)));
  names_codec := list_codec (le_codec 8);
  asset_codec := map_codec (fun a => (u64 (amount a), sym_code (asset_symbol a) * 256 + sym_precision (asset_symbol a)))
    (fun x => Asset (i64 x.1) (Symbol (x.2 / 256) (x.2 mod 256))) (pair_codec (le_codec 8) (le_codec 8));
  key_codec := le_codec 34;
  authority_codec := map_codec (fun a => (0, (threshold a, keys a))) (fun x => SigningAuthority x.2.1 x.2.2)
    (pair_codec (le_codec 1) (pair_codec (le_codec 4) (list_codec (pair_codec (le_codec 34) (le_codec 2)))));
  put_extension A c o := match o with Some x => put c x | None => [] end;
  get_extension A c o := fun l => match l with [] => Ok (o, []) | _ => match get c l with Ok (x, l') => Ok (Some x, l') | Err m => Err m end end;
  f64_fits d := 0 <= f64_bits d < 2 ^ 64 /\ f64_of_bits (f64_bits d) = d;
  string_fits s := Z.of_nat (String.length s) < 2 ^ 32;
  names_fit l := Forall in_u64 l /\ Z.of_nat (length l) < 2 ^ 32;
  asset_fits a := in_i64 (amount a) /\ 0 <= sym_code (asset_symbol a) < 2 ^ 56 /\ 0 <= sym_precision (asset_symbol a) < 256;
  key_fits k := 0 <= k < 256 ^ 34;
  authority_fits a := in_u32 (threshold a) /\
    Forall (fun kw => 0 <= kw.1 < 256 ^ 34 /\ 0 <= kw.2 < 2 ^ 16) (keys a) /\ Z.of_nat (length (keys a)) < 2 ^ 32;
|}.

Lemma u64_of_i64 z : in_i64 z -> 0 <= u64 z < 256 ^ Z.of_nat 8 /\ i64 (u64 z) = z.
Proof.
  intros Hz. split; [apply u64_range|]. rewrite <- (i64_small z Hz) at 2. unfold i64, iwrap, u64, uwrap. change (64 - 1) with 63. f_equal.
  apply Zplus_mod_idemp_l.
Qed.
Lemma ascii_fits (c : Ascii.ascii) : True -> 0 <= Z.of_N (N_of_ascii c) < 256 ^ Z.of_nat 1 /\ ascii_of_N (Z.to_N (Z.of_N (N_of_ascii c))) = c.
Proof.
  intros _. rewrite N2Z.id, ascii_N_embedding. split; [|done]. pose proof (N_ascii_bounded c). change (256 ^ Z.of_nat 1) with 256. lia.
Qed.
Lemma bool_fits (b : bool) : True -> 0 <= Z.b2z b < 256 ^ Z.of_nat 1 /\ negb (Z.b2z b =? 0) = b.
Proof. destruct b; cbn; lia || (intros; split; [lia|done]). Qed.
Lemma length_chars s : length (String.list_ascii_of_string s) = String.length s.
Proof. induction s as [|c s IH]; [done|]. cbn. by rewrite IH. Qed.
Lemma chars_size s : length (flat_map (put (map_codec (fun c => Z.of_N (N_of_ascii c)) (fun z => ascii_of_N (Z.to_N z)) (le_codec 1)))
  (String.list_ascii_of_string s)) = String.length s.
Proof. induction s as [|c s IH]; [done|]. cbn [String.list_ascii_of_string flat_map String.length]. rewrite length_app, IH. done. Qed.

#[export] Instance streams_model_laws : StreamLaws streams_model.
Proof.
  split; try (intros x; cbn [put le_codec map_codec name_codec u16_codec u32_codec u64_codec i64_codec f64_codec bool_codec streams_model]; apply le_bytes_length).
  - exact (le_codec_reads 8).
  - exact (map_codec_reads _ _ _ _ _ (le_codec_reads 1) bool_fits).
  - exact (le_codec_reads 2).
  - exact (le_codec_reads 4).
  - exact (le_codec_reads 8).
  - exact (map_codec_reads _ _ _ _ _ (le_codec_reads 8) u64_of_i64).
  - exact (map_codec_reads _ _ _ _ _ (le_codec_reads 8) (fun d H => H)).
  - refine (map_codec_reads _ _ _ _ _ (list_codec_reads _ _ (map_codec_reads _ _ _ _ _ (le_codec_reads 1) ascii_fits)) _).
    intros s Hs. rewrite length_chars, String.string_of_list_ascii_of_string. split; [split; [by apply Forall_true|done]|done].
  - exact (list_codec_reads _ _ (le_codec_reads 8)).
  - refine (map_codec_reads _ _ _ _ _ (pair_codec_reads _ _ _ _ (le_codec_reads 8) (le_codec_reads 8)) _).
    intros [a [c p]] (Ha & Hc & Hp). cbn [amount asset_symbol sym_code sym_precision fst snd] in *.
    destruct (u64_of_i64 a Ha) as [Hr Hb]. split; [split; [done|change (256 ^ Z.of_nat 8) with (2 ^ 64); lia]|].
    rewrite Hb, Z.div_add_l, Z.div_small, Z.add_0_r, Z.add_comm, Z.mod_add, Z.mod_small by lia. done.
  - exact (le_codec_reads 34).
  - refine (map_codec_reads _ _ _ _ _ (pair_codec_reads _ _ _ _ (le_codec_reads 1) (pair_codec_reads _ _ _ _ (le_codec_reads 4)
      (list_codec_reads _ _ (pair_codec_reads _ _ _ _ (le_codec_reads 34) (le_codec_reads 2))))) _).
    intros [t ks] (Ht & Hk & Hl). split; [|done]. split; [cbn; lia|]. split; [exact Ht|]. split; [exact Hk|exact Hl].
  - intros s Hs. cbn [put string_codec streams_model map_codec list_codec]. rewrite length_app, chars_size, length_chars.
    cbn [put_varuint]. rewrite (proj2 (Z.ltb_lt _ _)) by lia. done.
  - done.
  - done.
  - intros A c o l x l' Hl Hg. cbn [get_extension streams_model]. destruct l; [done|]. by rewrite Hg.
Qed.

(** ** Examples *)
Definition ex_row : producer_info :=
  Producer.mk 7 (S754_finite false 4503599627370496 (-52)) 5 true "" "https://telos" 12 1000 3 40 1700000000000000 840 0 "" 0 0 0 None.
Definition ex_old_voter : voter_info := Voter.mk 9 0 [7; 8] 1000000 1000000 dzero dzero false 0 None.
Lemma in_range (a z b : Z) : (a <=? z) && (z <? b) = true -> a <= z < b.
Proof. intros [H1%Z.leb_le H2%Z.ltb_lt]%andb_true_iff. lia. Qed.
Lemma ex_row_fits : producer_fits (St := streams_model) ex_row.
Proof.
  split; [..|by intros a]; try (apply in_range; vm_compute; reflexivity); try (vm_compute; reflexivity).
  split; [apply in_range; vm_compute; reflexivity|vm_compute; reflexivity].
Qed.
Lemma ex_old_voter_fits : voter_fits (St := streams_model) ex_old_voter.
Proof.
  split; [..|by intros b]; try (apply in_range; vm_compute; reflexivity).
  - split; [|vm_compute; reflexivity]. repeat (apply Forall_cons; split; [apply in_range; vm_compute; reflexivity|]). apply Forall_nil_2.
  - split; [apply in_range; vm_compute; reflexivity|vm_compute; reflexivity].
  - split; [apply in_range; vm_compute; reflexivity|vm_compute; reflexivity].
  - split; [apply in_range; vm_compute; reflexivity|]. split; apply in_range; vm_compute; reflexivity.
Qed.

Lemma rows_are_read_back_witness :
  read_producer_info (St := streams_model) default_producer (write_producer_info (St := streams_model) ex_row) = Ok (ex_row, []) /\
  length (write_producer_info (St := streams_model) ex_row) = 109%nat /\
  exists v', read_voter_info (St := streams_model) default_voter (write_voter_info (St := streams_model) ex_old_voter) = Ok (v', []) /\
    length (write_voter_info (St := streams_model) v') = (length (write_voter_info (St := streams_model) ex_old_voter) + 8)%nat.
Proof.
  destruct (rows_are_read_back (St := streams_model) ex_row ex_old_voter ex_row_fits ex_old_voter_fits) as (Hp & v' & Hv & _ & Hl).
  split; [exact Hp|]. split; [vm_compute; reflexivity|]. exists v'. split; [exact Hv|exact Hl].
Defined.

Lemma kicks_lengthen_rows_witness :
  exists p', kick (cdt := cdt_model) (libm := libm_model) ex_env REACHED_TRESHOLD 0 ex_row = Ok p' /\
    length (write_producer_info (St := streams_model) p') = (length (write_producer_info (St := streams_model) ex_row) + 105)%nat.
Proof.
  destruct (kick (cdt := cdt_model) (libm := libm_model) ex_env REACHED_TRESHOLD 0 ex_row) as [p'|] eqn:H; [|vm_compute in H; discriminate].
  exists p'. split; [reflexivity|].
  exact (proj2 (proj2 (kicks_lengthen_rows (St := streams_model) (cdt := cdt_model) (libm := libm_model) ex_env ex_row p' eq_refl eq_refl eq_refl H))).
Defined.
