(* ===== verification/Msig.v ===== *)
(** * Multi-signature proposals (eosio.msig)

    A proposal is a transaction, the permissions it asks for and those that approved it.
    Approvals given before their account's last invalidation do not count; once enough
    are given the delay of the transaction starts to run, and after it [exec] sends the
    transaction's actions. Serialization is left out: a packed transaction is the
    transaction, its hash and the chain's authorization check are parameters. *)
From S2P Require Import Prelude.
From S2P Require Import Cdt.
From stdpp Require Import base gmap strings list.
Open Scope Z_scope.

(** The header fields the contract reads, and the actions, as numbers. *)
Record transaction := Transaction {
  trx_expiration : Z;
  trx_delay_sec : Z;
  context_free_actions : list Z;
  trx_actions : list Z;
}.

Class MsigHost := {
  (** [check_transaction_authorization] with these permissions *)
  trx_is_authorized : list permission_level -> transaction -> bool;
  trx_sha256 : transaction -> Z;
}.

(** [earliest_exec_time] is a binary extension of an optional: the outer option is absent
    in rows of the old format. *)
Record proposal := Proposal { packed_transaction : transaction; earliest_exec_time : option (option Z) }.
Record approval := Approval { level : permission_level; time : Z }.
Record approvals_info := Approvals { requested_approvals : list approval; provided_approvals : list approval }.
Record old_approvals_info := OldApprovals {
  old_requested : list permission_level;
  old_provided : list permission_level;
}.
#[export] Instance eta_proposal : EtaRecord proposal := fun r => Proposal (packed_transaction r) (earliest_exec_time r).
#[export] Instance eta_approvals : EtaRecord approvals_info := fun r =>
  Approvals (requested_approvals r) (provided_approvals r).

(** The tables, by proposer and proposal name; and the actions sent. *)
Record msig := Msig {
  proposals : gmap (name * name) proposal;
  approvals : gmap (name * name) approvals_info;
  old_approvals : gmap (name * name) old_approvals_info;
  invalidations : gmap name Z;
  sent : list Z;
}.
#[export] Instance eta_msig : EtaRecord msig := fun r =>
  Msig (proposals r) (approvals r) (old_approvals r) (invalidations r) (sent r).

Definition level_eqb (x y : permission_level) : bool := (actor x =? actor y) && (permission x =? permission y).

(** Erasing the first element the test accepts. *)
Fixpoint erase_first {A} (test : A -> bool) (l : list A) : list A :=
  match l with
  | [] => []
  | x :: l' => if test x then l' else x :: erase_first test l'
  end.

Section msig.
Context `{cdt : Cdt} `{host : MsigHost} (e : Env).

(** The approvals that count. *)
Definition still_valid (inv : gmap name Z) (a : approval) : bool :=
  match inv !! actor (level a) with None => true | Some t => t <? time a end.

Definition approvals_vector (s : msig) (key : name * name) : result (list permission_level) :=
  match approvals s !! key with
  | Some a => Ok (map level (List.filter (still_valid (invalidations s)) (provided_approvals a)))
  | None =>
    match old_approvals s !! key with
    | Some o => Ok (List.filter (fun p => negb (is_found (invalidations s !! actor p))) (old_provided o))
    | None => Err "proposal not found"
    end
  end.

(** [get_approvals_and_adjust_table]: [erase] is the table operation of [exec], and no
    operation that of [approve] and [unapprove]. *)
Definition get_approvals_and_adjust_table (key : name * name) (erase : bool) : M msig (list permission_level) :=
  v ← gets (fun s => approvals_vector s key);
  l ← lift v;
  when erase (modify (fun s => match approvals s !! key with
    | Some _ => s <| approvals ::= delete key |>
    | None => s <| old_approvals ::= delete key |>
    end)) ;;
  mret l.

Definition get_proposal (key : name * name) : M msig proposal :=
  p ← gets (fun s => proposals s !! key); require_found p "proposal not found".

Definition propose (proposer proposal_name : name) (requested : list permission_level) (trx : transaction)
  : M msig unit :=
  require_auth e proposer ;;
  check (sec_of_us (now_us e) <=? trx_expiration trx) "transaction expired" ;;
  check (bool_decide (context_free_actions trx = []))
    "not allowed to `propose` a transaction with context-free actions" ;;
  let key := (proposer, proposal_name) in
  p ← gets (fun s => proposals s !! key);
  check (negb (is_found p)) "proposal with the same name exists" ;;
  check (trx_is_authorized requested trx) "transaction authorization failed" ;;
  a ← gets (fun s => approvals s !! key);
  check (negb (is_found a)) "could not insert object, most likely a uniqueness constraint was violated" ;;
  modify (fun s => s <| proposals ::= insert key (Proposal trx (Some None)) |>
    <| approvals ::= insert key (Approvals (map (fun l => Approval l 0) requested) []) |>).

(** Moving an approval between the two lists of its row. *)
Definition move_approval (l : permission_level) (from : list approval) : list approval * approval :=
  (erase_first (fun a => level_eqb (level a) l) from, Approval l (now_us e)).

Definition provide (key : name * name) (l : permission_level) : M msig unit :=
  apps ← gets (fun s => approvals s !! key);
  match apps with
  | Some a =>
    check (existsb (fun x => level_eqb (level x) l) (requested_approvals a))
      "approval is not on the list of requested approvals" ;;
    let '(requested, given) := move_approval l (requested_approvals a) in
    modify (fun s => s <| approvals ::= insert key (Approvals requested (provided_approvals a ++ [given])) |>)
  | None =>
    old ← gets (fun s => old_approvals s !! key);
    o ← require_found old "proposal not found";
    check (existsb (fun x => level_eqb x l) (old_requested o))
      "approval is not on the list of requested approvals" ;;
    modify (fun s => s <| old_approvals ::= insert key
      (OldApprovals (erase_first (fun x => level_eqb x l) (old_requested o)) (old_provided o ++ [l])) |>)
  end.

Definition withdraw (key : name * name) (l : permission_level) : M msig unit :=
  apps ← gets (fun s => approvals s !! key);
  match apps with
  | Some a =>
    check (existsb (fun x => level_eqb (level x) l) (provided_approvals a)) "no approval previously granted" ;;
    let '(provided, asked) := move_approval l (provided_approvals a) in
    modify (fun s => s <| approvals ::= insert key (Approvals (requested_approvals a ++ [asked]) provided) |>)
  | None =>
    old ← gets (fun s => old_approvals s !! key);
    o ← require_found old "proposal not found";
    check (existsb (fun x => level_eqb x l) (old_provided o)) "no approval previously granted" ;;
    modify (fun s => s <| old_approvals ::= insert key
      (OldApprovals (old_requested o ++ [l]) (erase_first (fun x => level_eqb x l) (old_provided o))) |>)
  end.

Definition set_earliest (key : name * name) (t : option Z) : M msig unit :=
  modify (fun s => s <| proposals ::= alter (fun p => p <| earliest_exec_time := Some t |>) key |>).

Definition no_delay_check (trx : transaction) : M msig unit :=
  check (trx_delay_sec trx =? 0)
    "old proposals are not allowed to have non-zero `delay_sec`; cancel and retry".

Definition approve (proposer proposal_name : name) (l : permission_level) (proposal_hash : option Z) : M msig unit :=
  require_permission e l ;;
  let key := (proposer, proposal_name) in
  prop ← get_proposal key;
  check (match proposal_hash with Some h => h =? trx_sha256 (packed_transaction prop) | None => true end)
    "hash mismatch" ;;
  provide key l ;;
  let trx := packed_transaction prop in
  match earliest_exec_time prop with
  | Some None =>
    levels ← get_approvals_and_adjust_table key false;
    when (trx_is_authorized levels trx) (set_earliest key (Some (now_us e + trx_delay_sec trx * 1000000)))
  | Some (Some _) => mret tt
  | None => no_delay_check trx
  end.

Definition unapprove (proposer proposal_name : name) (l : permission_level) : M msig unit :=
  require_permission e l ;;
  let key := (proposer, proposal_name) in
  withdraw key l ;;
  prop ← get_proposal key;
  let trx := packed_transaction prop in
  match earliest_exec_time prop with
  | Some (Some _) =>
    levels ← get_approvals_and_adjust_table key false;
    when (negb (trx_is_authorized levels trx)) (set_earliest key None)
  | Some None => mret tt
  | None => no_delay_check trx
  end.

Definition cancel (proposer proposal_name canceler : name) : M msig unit :=
  require_auth e canceler ;;
  let key := (proposer, proposal_name) in
  prop ← get_proposal key;
  check ((canceler =? proposer) || (trx_expiration (packed_transaction prop) <? sec_of_us (now_us e)))
    "cannot cancel until expiration" ;;
  modify (fun s => s <| proposals ::= delete key |>) ;;
  apps ← gets (fun s => approvals s !! key);
  match apps with
  | Some _ => modify (fun s => s <| approvals ::= delete key |>)
  | None =>
    old ← gets (fun s => old_approvals s !! key);
    check (is_found old) "proposal not found" ;;
    modify (fun s => s <| old_approvals ::= delete key |>)
  end.

Definition exec (proposer proposal_name executer : name) : M msig unit :=
  require_auth e executer ;;
  let key := (proposer, proposal_name) in
  prop ← get_proposal key;
  let trx := packed_transaction prop in
  check (sec_of_us (now_us e) <=? trx_expiration trx) "transaction expired" ;;
  check (bool_decide (context_free_actions trx = []))
    "not allowed to `exec` a transaction with context-free actions" ;;
  levels ← get_approvals_and_adjust_table key true;
  check (trx_is_authorized levels trx) "transaction authorization failed" ;;
  match earliest_exec_time prop with
  | Some (Some t) => check (t <=? now_us e) "too early to execute"
  | _ => no_delay_check trx
  end ;;
  modify (fun s => s <| sent ::= fun l => l ++ trx_actions trx |>) ;;
  modify (fun s => s <| proposals ::= delete key |>).

Definition invalidate (account : name) : M msig unit :=
  require_auth e account ;;
  modify (fun s => s <| invalidations ::= insert account (now_us e) |>).
End msig.
