(* ===== verification/MsigSpec.v ===== *)
(** * What eosio.msig promises

    An abstract board of motions: each names its transaction, the permissions asked, and
    when each permission that approved did so. Nothing keeps a proposal from asking the
    same permission twice, so what is asked is a multiset and a permission can approve as
    often as it is asked. The contract keeps instead two lists per
    proposal, in a table of its own, and moves entries between them. The theorems show
    that the contract implements the board, and that a proposal with enough approvals is
    executed once its delay has passed. *)
From S2P Require Import Prelude.
From S2P Require Import Cdt.
From S2P Require Import Msig.
From stdpp Require Import base gmap gmultiset strings list.
Open Scope Z_scope.

#[export] Instance permission_level_eq_dec : EqDecision permission_level.
Proof. solve_decision. Defined.
#[export] Instance permission_level_countable : Countable permission_level.
Proof.
  refine (inj_countable' (fun l => (actor l, permission l)) (fun p => PermissionLevel p.1 p.2) _). by intros [].
Defined.

(** ** The board *)
Record motion := Motion {
  m_trx : transaction;
  asked : gmultiset permission_level;
  (** the times of the approvals of each permission that stand, oldest first *)
  given : gmap permission_level (list Z);
  ready : option Z;
}.
#[export] Instance eta_motion : EtaRecord motion := fun r => Motion (m_trx r) (asked r) (given r) (ready r).

Record board := Board {
  motions : gmap (name * name) motion;
  revoked : gmap name Z;
  executed : list Z;
}.
#[export] Instance eta_board : EtaRecord board := fun r => Board (motions r) (revoked r) (executed r).

(** The actions, and the contract's dispatch. *)
Inductive msig_action :=
| Propose (proposer proposal_name : name) (requested : list permission_level) (trx : transaction)
| Approve (proposer proposal_name : name) (l : permission_level) (proposal_hash : option Z)
| Unapprove (proposer proposal_name : name) (l : permission_level)
| Cancel (proposer proposal_name canceler : name)
| Exec (proposer proposal_name executer : name)
| Invalidate (account : name).

Section board.
Context `{cdt : Cdt} `{host : MsigHost} (e : Env).

Definition msig_exec (a : msig_action) : M msig unit :=
  match a with
  | Propose p n r t => propose e p n r t
  | Approve p n l h => Msig.approve e p n l h
  | Unapprove p n l => unapprove e p n l
  | Cancel p n c => Msig.cancel e p n c
  | Exec p n x => exec e p n x
  | Invalidate a => invalidate e a
  end.

(** An approval stands if its account revoked nothing at its time or later. *)
Definition stands (r : gmap name Z) (x : permission_level * Z) : bool :=
  match r !! actor x.1 with None => true | Some t => t <? x.2 end.
Definition spread (g : gmap permission_level (list Z)) : list (permission_level * Z) :=
  flat_map (fun x => map (pair x.1) x.2) (map_to_list g).
Definition voices (r : gmap name Z) (m : motion) : list permission_level :=
  map fst (List.filter (stands r) (spread (given m))).
Definition enough (r : gmap name Z) (m : motion) : bool := trx_is_authorized (voices r m) (m_trx m).

Definition if_true (b : bool) {A} (x : option A) : option A := if b then x else None.
Definition expired (t : transaction) : bool := trx_expiration t <? sec_of_us (now_us e).

Definition board_step (a : msig_action) (b : board) : option board :=
  match a with
  | Propose p n r t =>
    if_true (has_auth e p && negb (expired t) && bool_decide (context_free_actions t = []) &&
             negb (is_found (motions b !! (p, n))) && trx_is_authorized r t)
      (Some (b <| motions ::= insert (p, n) (Motion t (list_to_set_disj r) ∅ None) |>))
  | Approve p n l h =>
    m ← motions b !! (p, n);
    if_true (has_permission e l && match h with Some x => x =? trx_sha256 (m_trx m) | None => true end &&
             (length (given m !!! l) <? multiplicity l (asked m))%nat)
      (let m1 := m <| given ::= insert l (given m !!! l ++ [now_us e]) |> in
       let m2 := if negb (is_found (ready m)) && enough (revoked b) m1
         then m1 <| ready := Some (now_us e + trx_delay_sec (m_trx m) * 1000000) |> else m1 in
       Some (b <| motions ::= insert (p, n) m2 |>))
  | Unapprove p n l =>
    m ← motions b !! (p, n);
    if_true (has_permission e l && (0 <? length (given m !!! l))%nat)
      (let m1 := m <| given ::= insert l (tail (given m !!! l)) |> in
       let m2 := if enough (revoked b) m1 then m1 else m1 <| ready := None |> in
       Some (b <| motions ::= insert (p, n) m2 |>))
  | Cancel p n c =>
    m ← motions b !! (p, n);
    if_true (has_auth e c && ((c =? p) || expired (m_trx m))) (Some (b <| motions ::= delete (p, n) |>))
  | Exec p n x =>
    m ← motions b !! (p, n);
    if_true (has_auth e x && negb (expired (m_trx m)) && enough (revoked b) m &&
             match ready m with Some t => t <=? now_us e | None => trx_delay_sec (m_trx m) =? 0 end)
      (Some (b <| motions ::= delete (p, n) |> <| executed ::= fun l => l ++ trx_actions (m_trx m) |>))
  | Invalidate a => if_true (has_auth e a) (Some (b <| revoked ::= insert a (now_us e) |>))
  end.
End board.

(** ** The abstraction *)

(** When permission [l] approved, by the list of those given. *)
Definition times (l : permission_level) (apps : list approval) : list Z :=
  map time (List.filter (fun x => level_eqb (level x) l) apps).
Arguments times : simpl never.

(** The two lists of a row hold the permissions asked, as often as they are, and those given
    are on the second with their times. *)
Record row_matches (a : approvals_info) (m : motion) : Prop := {
  row_asked : asked m = list_to_set_disj (map level (requested_approvals a) ++ map level (provided_approvals a));
  row_given : forall l, given m !!! l = times l (provided_approvals a);
}.

(** A proposal of the current format with its row of approvals. *)
Definition motion_of (p : option proposal) (a : option approvals_info) (m : option motion) : Prop :=
  match p, a, m with
  | None, None, None => True
  | Some p, Some a, Some m =>
    packed_transaction p = m_trx m /\ earliest_exec_time p = Some (ready m) /\
    context_free_actions (m_trx m) = [] /\ row_matches a m
  | _, _, _ => False
  end.

Record represents (s : msig) (b : board) : Prop := {
  rep_motions : forall k, motion_of (proposals s !! k) (approvals s !! k) (motions b !! k);
  rep_old : old_approvals s = ∅;
  rep_revoked : invalidations s = revoked b;
  rep_sent : sent s = executed b;
}.

(** The host takes the permissions as a set. *)
Class MsigLaws (host : MsigHost) := {
  trx_is_authorized_perm l l' t : l ≡ₚ l' -> trx_is_authorized l t = trx_is_authorized l' t;
}.

Definition blank_msig : msig := Msig ∅ ∅ ∅ ∅ [].
Definition blank_board : board := Board ∅ ∅ [].

(** ** Lists *)
Section lists.
Context {A : Type} (test : A -> bool).
Implicit Types l : list A.

Lemma erase_first_perm l : existsb test l = true -> exists x, test x = true /\ l ≡ₚ x :: erase_first test l.
Proof.
  induction l as [|x l IH]; cbn; [done|]. destruct (test x) eqn:Hx; [by exists x|].
  intros (y & Hy & Hp)%IH. exists y. split; [done|]. rewrite Hp at 1. by constructor.
Qed.

Lemma filter_bool_perm l l' : l ≡ₚ l' -> List.filter test l ≡ₚ List.filter test l'.
Proof.
  induction 1 as [|x l l' _ IH|x y l|l1 l2 l3 _ IH1 _ IH2]; cbn; [done| | |by etrans].
  - destruct (test x); [by constructor|done].
  - destruct (test x), (test y); try done. apply Permutation_swap.
Qed.
End lists.

Lemma level_eqb_eq x y : level_eqb x y = true <-> x = y.
Proof. unfold level_eqb. rewrite andb_true_iff, !Z.eqb_eq. destruct x, y; cbn; naive_solver. Qed.

(** ** Moving approvals between the lists of a row *)
Section rows.
Implicit Types (a : approvals_info) (m : motion).

Definition pairs (apps : list approval) : list (permission_level * Z) := map (fun x => (level x, time x)) apps.

Lemma spread_given g v t : In (v, t) (spread g) -> t ∈ g !!! v.
Proof.
  unfold spread. rewrite in_flat_map. intros ([l ts] & Hl & Ht). apply in_map_iff in Ht as (t' & [= -> ->] & Ht).
  apply list_elem_of_In, elem_of_map_to_list in Hl. apply list_elem_of_In in Ht. by rewrite (lookup_total_correct _ _ _ Hl).
Qed.
Lemma multiplicity_cons (l x : permission_level) (ls : list permission_level) :
  multiplicity l (list_to_set_disj (x :: ls)) = ((if bool_decide (l = x) then 1 else 0) + multiplicity l (list_to_set_disj ls))%nat.
Proof.
  change (list_to_set_disj (x :: ls) : gmultiset permission_level) with ({[+ x +]} ⊎ list_to_set_disj ls : gmultiset permission_level).
  rewrite multiplicity_disj_union. f_equal. rewrite multiplicity_singleton. case_bool_decide; by case_decide.
Qed.
Lemma level_eqb_decide x y : level_eqb x y = bool_decide (y = x).
Proof. apply eq_bool_prop_intro. rewrite !Is_true_true, level_eqb_eq, bool_decide_eq_true. split; congruence. Qed.
Lemma times_cons l x apps : times l (x :: apps) = if bool_decide (l = level x) then time x :: times l apps else times l apps.
Proof.
  unfold times. cbn [List.filter]. rewrite level_eqb_decide. by destruct (bool_decide _).
Qed.
Lemma times_app l apps apps' : times l (apps ++ apps') = times l apps ++ times l apps'.
Proof. unfold times. by rewrite List.filter_app, map_app. Qed.
Lemma times_length l apps : length (times l apps) = multiplicity l (list_to_set_disj (map level apps)).
Proof.
  induction apps as [|x apps IH]; [done|]. cbn [map]. rewrite times_cons, multiplicity_cons. case_bool_decide; cbn; by rewrite IH.
Qed.
Lemma times_some l apps : existsb (fun x => level_eqb (level x) l) apps = (0 <? length (times l apps))%nat.
Proof.
  induction apps as [|x apps IH]; [done|]. cbn [existsb]. rewrite times_cons, level_eqb_decide.
  by case_bool_decide.
Qed.
Lemma asked_times l a m : row_matches a m ->
  multiplicity l (asked m) = (length (times l (requested_approvals a)) + length (given m !!! l))%nat.
Proof.
  intros [Ha Hg]. rewrite Ha, Hg, !times_length, list_to_set_disj_app, multiplicity_disj_union. done.
Qed.

Lemma given_some a m l :
  row_matches a m -> existsb (fun x => level_eqb (level x) l) (provided_approvals a) = (0 <? length (given m !!! l))%nat.
Proof. intros [_ Hg]. by rewrite times_some, Hg. Qed.
Lemma asked_open a m l :
  row_matches a m -> existsb (fun x => level_eqb (level x) l) (requested_approvals a) = (length (given m !!! l) <? multiplicity l (asked m))%nat.
Proof.
  intros Hm. rewrite times_some, (asked_times l a m Hm).
  destruct (Nat.ltb_spec 0 (length (times l (requested_approvals a)))), (Nat.ltb_spec (length (given m !!! l))
    (length (times l (requested_approvals a)) + length (given m !!! l))); done || lia.
Qed.

Lemma erase_level l apps : existsb (fun x => level_eqb (level x) l) apps = true ->
  map level apps ≡ₚ l :: map level (erase_first (fun x => level_eqb (level x) l) apps).
Proof. intros (x & Hx%level_eqb_eq & Hp)%erase_first_perm. rewrite Hp at 1. cbn. by rewrite Hx. Qed.
Lemma erase_times l k apps :
  times k (erase_first (fun x => level_eqb (level x) l) apps) = if bool_decide (k = l) then tail (times k apps) else times k apps.
Proof.
  induction apps as [|x apps IH]; cbn [erase_first]; [by case_bool_decide|]. rewrite level_eqb_decide, (times_cons k x apps).
  destruct (decide (l = level x)) as [->|Hne]; [rewrite (bool_decide_true (level x = level x)) by done; by case_bool_decide|].
  rewrite (bool_decide_false (l = level x)), times_cons, IH by done. repeat case_bool_decide; congruence.
Qed.

(** Moving an approval leaves what is asked. *)
Lemma asked_perm (l l' : list permission_level) : l ≡ₚ l' -> list_to_set_disj l = (list_to_set_disj l' : gmultiset permission_level).
Proof. by intros ->. Qed.

Lemma row_give a m l now :
  row_matches a m -> existsb (fun x => level_eqb (level x) l) (requested_approvals a) = true ->
  row_matches
    (Approvals (erase_first (fun x => level_eqb (level x) l) (requested_approvals a)) (provided_approvals a ++ [Approval l now]))
    (m <| given ::= insert l (given m !!! l ++ [now]) |>).
Proof.
  intros Hm Hin. split; cbn.
  - rewrite (row_asked _ _ Hm). apply asked_perm. rewrite (erase_level _ _ Hin), map_app. cbn. rewrite app_assoc. apply Permutation_cons_append.
  - intros k. rewrite times_app, times_cons. cbn [level time]. destruct (decide (k = l)) as [->|Hne].
    + by rewrite lookup_total_insert_eq, bool_decide_true, (row_given _ _ Hm).
    + by rewrite lookup_total_insert_ne, bool_decide_false, (row_given _ _ Hm), app_nil_r by done.
Qed.

Lemma row_take a m l now :
  row_matches a m -> existsb (fun x => level_eqb (level x) l) (provided_approvals a) = true ->
  row_matches
    (Approvals (requested_approvals a ++ [Approval l now]) (erase_first (fun x => level_eqb (level x) l) (provided_approvals a)))
    (m <| given ::= insert l (tail (given m !!! l)) |>).
Proof.
  intros Hm Hin. split; cbn.
  - rewrite (row_asked _ _ Hm). apply asked_perm. by rewrite (erase_level _ _ Hin), map_app, <- app_assoc.
  - intros k. rewrite erase_times. destruct (decide (k = l)) as [->|Hne].
    + by rewrite lookup_total_insert_eq, bool_decide_true, (row_given _ _ Hm).
    + by rewrite lookup_total_insert_ne, bool_decide_false, (row_given _ _ Hm) by done.
Qed.

(** The approvals by permission are those of the list. *)
Lemma times_pairs l apps : map (pair l) (times l apps) = List.filter (fun x => level_eqb x.1 l) (pairs apps).
Proof.
  induction apps as [|x apps IH]; [done|]. rewrite times_cons. cbn [pairs map List.filter fst]. rewrite level_eqb_decide.
  fold (pairs apps). rewrite <- IH. case_bool_decide as Hx; [cbn; by rewrite Hx|done].
Qed.
Lemma filter_complement {A} (f : A -> bool) (l : list A) : l ≡ₚ List.filter f l ++ List.filter (fun x => negb (f x)) l.
Proof.
  induction l as [|x l IH]; [done|]. cbn [List.filter]. destruct (f x); cbn [negb app]; [by constructor|].
  rewrite IH at 1. apply Permutation_middle.
Qed.
Lemma spread_times g : forall apps, (forall l, g !!! l = times l apps) -> spread g ≡ₚ pairs apps.
Proof.
  induction g as [|l ts g Hl IH] using map_ind; intros apps Hg.
  - destruct apps as [|x apps]; [done|]. specialize (Hg (level x)). rewrite times_cons, bool_decide_true in Hg by done.
    by rewrite lookup_total_empty in Hg.
  - unfold spread. rewrite (map_to_list_insert g l ts Hl). cbn [flat_map fst snd]. fold (spread g).
    pose proof (Hg l) as Hts. rewrite lookup_total_insert_eq in Hts. rewrite Hts, times_pairs.
    set (rest := List.filter (fun x => negb (level_eqb (level x) l)) apps).
    assert (List.filter (fun x => negb (level_eqb x.1 l)) (pairs apps) = pairs rest) as Hrest.
    { unfold rest. clear. induction apps as [|x apps IH]; [done|]. cbn [pairs map List.filter fst]. destruct (level_eqb _ _); cbn [negb]; [done|].
      cbn [pairs map]. by f_equal. }
    etransitivity; [|symmetry; apply (filter_complement (fun x => level_eqb x.1 l) (pairs apps))]. rewrite Hrest.
    apply Permutation_app_head, IH. intros k.
    destruct (decide (k = l)) as [->|Hne].
    + assert (times l rest = []) as ->; [|by rewrite lookup_total_alt, Hl].
      unfold rest, times. clear. induction apps as [|x apps IH]; [done|]. cbn [List.filter].
      destruct (level_eqb (level x) l) eqn:Hx; cbn [negb List.filter]; [done|]. by rewrite Hx.
    + specialize (Hg k). rewrite lookup_total_insert_ne in Hg by done. rewrite Hg.
      unfold rest. clear - Hne. induction apps as [|x apps IH]; [done|]. cbn [List.filter]. rewrite level_eqb_decide.
      rewrite (times_cons k x apps). destruct (decide (l = level x)) as [->|Hx].
      * by rewrite (bool_decide_true (level x = level x)), (bool_decide_false (k = level x)) by done.
      * rewrite (bool_decide_false (l = level x)) by done. cbn [negb]. by rewrite times_cons, IH.
Qed.

Lemma levels_voices r a m :
  row_matches a m -> map level (List.filter (still_valid r) (provided_approvals a)) ≡ₚ voices r m.
Proof.
  intros Hm. unfold voices. rewrite (filter_bool_perm _ _ _ (spread_times (given m) (provided_approvals a) (row_given _ _ Hm))).
  induction (provided_approvals a) as [|x l IH]; cbn; [done|].
  change (still_valid r x) with (stands r (level x, time x)). destruct (stands r _); cbn; [by constructor|done].
Qed.
End rows.

(** ** The contract implements the board *)
Section simulation.
Context `{cdt : Cdt} `{host : MsigHost} `{!MsigLaws host} (e : Env).
Implicit Types (s : msig) (b : board).

(** A run of the contract against a step of the board. *)
Definition simulates (r : result (unit * msig)) (o : option board) : Prop :=
  match r, o with
  | Ok (_, s'), Some b' => represents s' b'
  | Err _, None => True
  | _, _ => False
  end.

Lemma simulates_check (c : bool) msg (k : M msig unit) s o :
  (c = true -> simulates (k s) o) -> simulates ((check c msg ;; k) s) (if_true c o).
Proof. intros H. unfold check, mbind, M_bind. destruct c; [by apply H|done]. Qed.

Lemma if_true_and {A} (b c : bool) (o : option A) : if_true (b && c) o = if_true b (if_true c o).
Proof. by destruct b. Qed.

(** What the tables say of a proposal is what the board says of its motion. *)
Lemma represents_motion s b k :
  represents s b ->
  match proposals s !! k, motions b !! k with
  | Some p, Some m => exists a, approvals s !! k = Some a /\ packed_transaction p = m_trx m /\
      earliest_exec_time p = Some (ready m) /\ context_free_actions (m_trx m) = [] /\ row_matches a m
  | None, None => approvals s !! k = None
  | _, _ => False
  end.
Proof.
  intros Hr. pose proof (rep_motions _ _ Hr k) as Hm. unfold motion_of in Hm.
  destruct (proposals s !! k), (approvals s !! k), (motions b !! k); try done. eauto.
Qed.

(** Writing one proposal, its approvals and its motion. *)
Lemma represents_update s b k p a m s' b' :
  represents s b -> motion_of p a m ->
  proposals s' = partial_alter (fun _ => p) k (proposals s) ->
  approvals s' = partial_alter (fun _ => a) k (approvals s) ->
  motions b' = partial_alter (fun _ => m) k (motions b) ->
  old_approvals s' = ∅ -> invalidations s' = revoked b' -> sent s' = executed b' ->
  represents s' b'.
Proof.
  intros Hr Hm Hp Ha Hb Ho Hi Hs. split; [|done..]. intros k'. rewrite Hp, Ha, Hb.
  destruct (decide (k' = k)) as [->|Hne]; [by rewrite !lookup_partial_alter_eq|].
  rewrite !lookup_partial_alter_ne by done. apply Hr.
Qed.

Lemma propose_simulates p n r t s b :
  represents s b -> simulates (propose e p n r t s) (board_step e (Propose p n r t) b).
Proof.
  intros Hr. unfold propose, board_step, expired. rewrite !if_true_and.
  apply simulates_check; intros _. rewrite <- Z.leb_antisym. apply simulates_check; intros _.
  apply simulates_check; intros Hcf%bool_decide_eq_true_1.
  pose proof (represents_motion s b (p, n) Hr) as Hk. cbv zeta. rewrite (bind_run_Ok (gets _) _ s _ s eq_refl).
  destruct (proposals s !! (p, n)) as [pr|], (motions b !! (p, n)) as [m|]; try done.
  cbn [is_found negb if_true]. apply (simulates_check true); intros _. apply simulates_check; intros _.
  rewrite (bind_run_Ok (gets _) _ s _ s eq_refl), Hk. apply (simulates_check true); intros _.
  cbn. eapply (represents_update s b (p, n) (Some _) (Some _) (Some _)); try reflexivity; try apply Hr.
  split; [reflexivity|]. split; [reflexivity|]. split; [exact Hcf|].
  assert (map level (map (fun l => Approval l 0) r) = r) as Hlev by (rewrite map_map; apply map_id).
  split; cbn; [by rewrite Hlev, app_nil_r|done].
Qed.

(** The steps of the contract on a proposal whose rows are known. *)
Lemma get_proposal_run {B} k (f : proposal -> M msig B) s :
  (get_proposal k ≫= f) s = match proposals s !! k with Some p => f p s | None => Err "proposal not found" end.
Proof.
  unfold get_proposal, gets, require_found, mbind, M_bind, mret, M_ret, throw. by destruct (proposals s !! k).
Qed.

Lemma provide_run k l (f : M msig unit) s a :
  approvals s !! k = Some a ->
  (provide e k l ;; f) s =
  (check (existsb (fun x => level_eqb (level x) l) (requested_approvals a)) "approval is not on the list of requested approvals" ;;
   modify (fun s => s <| approvals ::= insert k (Approvals (erase_first (fun x => level_eqb (level x) l) (requested_approvals a))
     (provided_approvals a ++ [Approval l (now_us e)])) |>) ;; f) s.
Proof.
  intros Ha. unfold provide, gets, mbind, M_bind. rewrite Ha. cbn [move_approval]. unfold check. by destruct (existsb _ _).
Qed.

Lemma withdraw_run k l (f : M msig unit) s a :
  approvals s !! k = Some a ->
  (withdraw e k l ;; f) s =
  (check (existsb (fun x => level_eqb (level x) l) (provided_approvals a)) "no approval previously granted" ;;
   modify (fun s => s <| approvals ::= insert k (Approvals (requested_approvals a ++ [Approval l (now_us e)])
     (erase_first (fun x => level_eqb (level x) l) (provided_approvals a))) |>) ;; f) s.
Proof.
  intros Ha. unfold withdraw, gets, mbind, M_bind. rewrite Ha. cbn [move_approval]. unfold check. by destruct (existsb _ _).
Qed.

Lemma levels_run {B} k (f : list permission_level -> M msig B) s a :
  approvals s !! k = Some a ->
  (get_approvals_and_adjust_table k false ≫= f) s =
    f (map level (List.filter (still_valid (invalidations s)) (provided_approvals a))) s.
Proof.
  intros Ha. unfold get_approvals_and_adjust_table, gets, mbind, M_bind, approvals_vector. by rewrite Ha.
Qed.

Lemma enough_levels s b a m t :
  represents s b -> row_matches a m -> t = m_trx m ->
  trx_is_authorized (map level (List.filter (still_valid (invalidations s)) (provided_approvals a))) t = enough (revoked b) m.
Proof.
  intros Hr Hm ->. unfold enough. rewrite (rep_revoked _ _ Hr). apply trx_is_authorized_perm. by apply levels_voices.
Qed.

Lemma set_earliest_run k t s p :
  proposals s !! k = Some p ->
  set_earliest k t s = Ok (tt, s <| proposals ::= insert k (p <| earliest_exec_time := Some t |>) |>).
Proof.
  intros Hp. unfold set_earliest, modify.
  assert (forall f g : gmap (name * name) proposal -> gmap (name * name) proposal,
    f (proposals s) = g (proposals s) -> s <| proposals ::= f |> = s <| proposals ::= g |>) as Hext
    by (intros f g Hfg; cbn; by rewrite Hfg).
  do 2 f_equal. apply Hext. apply map_eq. intros i.
  destruct (decide (i = k)) as [->|Hne];
    [by rewrite lookup_alter_eq, lookup_insert_eq, Hp|by rewrite lookup_alter_ne, lookup_insert_ne].
Qed.

(** A row and its proposal written together. *)
Lemma represents_row s b k p a m t :
  represents s b -> proposals s !! k = Some p -> packed_transaction p = m_trx m -> context_free_actions (m_trx m) = [] ->
  row_matches a m -> t = ready m ->
  represents (s <| approvals ::= insert k a |> <| proposals ::= insert k (p <| earliest_exec_time := Some t |>) |>)
    (b <| motions ::= insert k m |>).
Proof.
  intros Hr Hp Htrx Hcf Hrow ->.
  eapply (represents_update s b k (Some _) (Some _) (Some _)); try reflexivity; try apply Hr. by split.
Qed.

Lemma represents_same_time s b k p a m :
  represents s b -> proposals s !! k = Some p -> packed_transaction p = m_trx m -> earliest_exec_time p = Some (ready m) ->
  context_free_actions (m_trx m) = [] -> row_matches a m ->
  represents (s <| approvals ::= insert k a |>) (b <| motions ::= insert k m |>).
Proof.
  intros Hr Hp Htrx Ht Hcf Hrow.
  eapply (represents_update s b k (Some p) (Some _) (Some _)); try reflexivity; try apply Hr; [by split|].
  exact (eq_sym (insert_id (proposals s) k p Hp)).
Qed.

Lemma approve_simulates p n l h s b :
  represents s b -> simulates (Msig.approve e p n l h s) (board_step e (Approve p n l h) b).
Proof.
  intros Hr. unfold Msig.approve, board_step. pose proof (represents_motion s b (p, n) Hr) as Hk.
  destruct (proposals s !! (p, n)) as [pr|] eqn:Hpr, (motions b !! (p, n)) as [m|]; try done.
  2:{ cbn [mbind option_bind]. unfold check, mbind at 1, M_bind at 1. destruct (has_permission e l); [|done].
      cbv zeta. by rewrite get_proposal_run, Hpr. }
  destruct Hk as (a & Ha & Htrx & Hready & Hcf & Hrow). cbn [mbind option_bind]. rewrite !if_true_and.
  apply simulates_check; intros _. cbv zeta. rewrite get_proposal_run, Hpr, Htrx. apply simulates_check; intros _.
  rewrite (provide_run _ _ _ _ _ Ha).
  rewrite <- (asked_open a m l Hrow).
  apply simulates_check; intros Hin. pose proof (row_give a m l (now_us e) Hrow Hin) as Hrow'.
  rewrite (bind_run_Ok (modify _) _ s tt _ eq_refl), Hready.
  set (a' := Approvals _ _) in *. set (m1 := m <| given ::= insert l (given m !!! l ++ [now_us e]) |>) in *. cbv zeta.
  set (s1 := s <| approvals ::= insert (p, n) a' |>).
  assert (represents s1 (b <| motions ::= insert (p, n) m1 |>)) as Hr1 by by eapply represents_same_time.
  destruct (ready m) as [t|] eqn:Ht; cbn [is_found negb andb]; [exact Hr1|].
  rewrite (levels_run _ _ s1 a') by apply lookup_insert_eq.
  rewrite (enough_levels s1 _ a' m1 (m_trx m) Hr1 Hrow' eq_refl).
  change (revoked (b <| motions ::= insert (p, n) m1 |>)) with (revoked b).
  destruct (enough (revoked b) m1); [|exact Hr1]. cbn [when].
  rewrite (set_earliest_run (p, n) _ s1 pr Hpr). cbn [simulates].
  eapply (represents_row s b (p, n) pr a' (m1 <| ready := Some _ |>)); try eassumption; [|reflexivity].
  destruct Hrow' as [? ? ?]. by split.
Qed.

Lemma unapprove_simulates p n l s b :
  represents s b -> simulates (unapprove e p n l s) (board_step e (Unapprove p n l) b).
Proof.
  intros Hr. unfold unapprove, board_step. pose proof (represents_motion s b (p, n) Hr) as Hk. cbv zeta.
  destruct (proposals s !! (p, n)) as [pr|] eqn:Hpr, (motions b !! (p, n)) as [m|]; try done.
  2:{ cbn [mbind option_bind]. unfold check, mbind at 1, M_bind at 1. destruct (has_permission e l); [|done].
      unfold withdraw, gets, mbind, M_bind. rewrite Hk, (rep_old _ _ Hr). done. }
  destruct Hk as (a & Ha & Htrx & Hready & Hcf & Hrow). cbn [mbind option_bind]. rewrite !if_true_and.
  apply simulates_check; intros _. rewrite (withdraw_run _ _ _ _ _ Ha).
  rewrite <- (given_some a m l Hrow).
  apply simulates_check; intros Hin. pose proof (row_take a m l (now_us e) Hrow Hin) as Hrow'.
  rewrite (bind_run_Ok (modify _) _ s tt _ eq_refl), get_proposal_run.
  set (a' := Approvals _ _) in *. set (m1 := m <| given ::= insert l (tail (given m !!! l)) |>) in *.
  set (s1 := s <| approvals ::= insert (p, n) a' |>). change (proposals s1) with (proposals s). rewrite Hpr, Hready, Htrx.
  assert (represents s1 (b <| motions ::= insert (p, n) m1 |>)) as Hr1 by by eapply represents_same_time.
  assert (represents (s1 <| proposals ::= insert (p, n) (pr <| earliest_exec_time := Some None |>) |>)
    (b <| motions ::= insert (p, n) (m1 <| ready := None |>) |>)) as Hreset.
  { eapply (represents_row s b (p, n) pr a' (m1 <| ready := None |>)); try eassumption; [|reflexivity].
    destruct Hrow' as [? ? ?]. by split. }
  destruct (ready m) as [t|] eqn:Ht.
  - rewrite (levels_run _ _ s1 a') by apply lookup_insert_eq.
    rewrite (enough_levels s1 _ a' m1 (m_trx m) Hr1 Hrow' eq_refl).
    change (revoked (b <| motions ::= insert (p, n) m1 |>)) with (revoked b).
    destruct (enough (revoked b) m1); [exact Hr1|]. cbn [when negb].
    rewrite (set_earliest_run (p, n) _ s1 pr Hpr). exact Hreset.
  - assert (m1 <| ready := None |> = m1) as Hm1 by (unfold m1; destruct m; cbn in *; by subst).
    rewrite Hm1. cbn [if_true]. by destruct (enough (revoked b) m1).
Qed.

Lemma represents_delete s b k b' s' :
  represents s b -> proposals s' = delete k (proposals s) -> approvals s' = delete k (approvals s) ->
  motions b' = delete k (motions b) -> old_approvals s' = ∅ -> invalidations s' = revoked b' -> sent s' = executed b' ->
  represents s' b'.
Proof. intros Hr Hp Ha Hb Ho Hi Hs. by apply (represents_update s b k None None None). Qed.

Lemma cancel_simulates p n c s b :
  represents s b -> simulates (Msig.cancel e p n c s) (board_step e (Cancel p n c) b).
Proof.
  intros Hr. unfold Msig.cancel, board_step. pose proof (represents_motion s b (p, n) Hr) as Hk. cbv zeta.
  destruct (proposals s !! (p, n)) as [pr|] eqn:Hpr, (motions b !! (p, n)) as [m|]; try done.
  2:{ cbn [mbind option_bind]. unfold check, mbind at 1, M_bind at 1. destruct (has_auth e c); [|done].
      by rewrite get_proposal_run, Hpr. }
  destruct Hk as (a & Ha & Htrx & _). cbn [mbind option_bind]. rewrite !if_true_and.
  apply simulates_check; intros _. rewrite get_proposal_run, Hpr, Htrx. apply simulates_check; intros _.
  rewrite (bind_run_Ok (modify _) _ s tt _ eq_refl).
  rewrite (bind_run_Ok (gets _) _ _ (Some a) (s <| proposals ::= delete (p, n) |>)) by (unfold gets; cbn; by rewrite Ha).
  cbn [simulates modify]. by eapply represents_delete; [exact Hr| | | |apply Hr..].
Qed.

Lemma exec_simulates p n x s b :
  represents s b -> simulates (exec e p n x s) (board_step e (Exec p n x) b).
Proof.
  intros Hr. unfold exec, board_step. pose proof (represents_motion s b (p, n) Hr) as Hk. cbv zeta.
  destruct (proposals s !! (p, n)) as [pr|] eqn:Hpr, (motions b !! (p, n)) as [m|]; try done.
  2:{ cbn [mbind option_bind]. unfold check, mbind at 1, M_bind at 1. destruct (has_auth e x); [|done].
      by rewrite get_proposal_run, Hpr. }
  destruct Hk as (a & Ha & Htrx & Hready & Hcf & Hrow). cbn [mbind option_bind]. rewrite !if_true_and.
  apply simulates_check; intros _. rewrite get_proposal_run, Hpr, Htrx. unfold expired. rewrite <- Z.leb_antisym.
  apply simulates_check; intros _. rewrite Hcf. apply (simulates_check true); intros _.
  set (s1 := s <| approvals ::= delete (p, n) |>).
  rewrite (bind_run_Ok (get_approvals_and_adjust_table (p, n) true) _ s
    (map level (List.filter (still_valid (invalidations s)) (provided_approvals a))) s1).
  2:{ unfold get_approvals_and_adjust_table, gets, mbind, M_bind, approvals_vector. rewrite Ha.
      unfold lift, when, modify, mret, M_ret. by rewrite Ha. }
  rewrite (enough_levels s b a m (m_trx m) Hr Hrow eq_refl). apply simulates_check; intros _.
  assert (represents (s1 <| sent ::= fun l => l ++ trx_actions (m_trx m) |> <| proposals ::= delete (p, n) |>)
    (b <| motions ::= delete (p, n) |> <| executed ::= fun l => l ++ trx_actions (m_trx m) |>)) as Hfinal.
  { eapply represents_delete; [exact Hr| | | |apply Hr..|]; try reflexivity. cbn. by rewrite (rep_sent _ _ Hr). }
  rewrite Hready. unfold no_delay_check. destruct (ready m); apply simulates_check; intros _; exact Hfinal.
Qed.

Lemma msig_simulates a s b :
  represents s b -> simulates (msig_exec e a s) (board_step e a b).
Proof.
  intros Hr. destruct a; cbn [msig_exec].
  - by apply propose_simulates.
  - by apply approve_simulates.
  - by apply unapprove_simulates.
  - by apply cancel_simulates.
  - by apply exec_simulates.
  - unfold invalidate, board_step. apply simulates_check; intros _. destruct Hr as [Hm Ho Hi Hs].
    split; cbn; [exact Hm|exact Ho|by rewrite Hi|exact Hs].
Qed.
End simulation.

(** ** The promises *)
Section promises.
Context `{cdt : Cdt} `{host : MsigHost} `{!MsigLaws host}.
Implicit Types (s : msig) (b : board).

(** Actions one after the other: a failed one has no effect. The list says which succeeded. *)
Fixpoint run_contract (l : list (Env * msig_action)) (s : msig) : list bool * msig :=
  match l with
  | [] => ([], s)
  | (e, a) :: l' =>
    match msig_exec e a s with
    | Ok (_, s') => let r := run_contract l' s' in (true :: r.1, r.2)
    | Err _ => let r := run_contract l' s in (false :: r.1, r.2)
    end
  end.
Fixpoint run_board (l : list (Env * msig_action)) (b : board) : list bool * board :=
  match l with
  | [] => ([], b)
  | (e, a) :: l' =>
    match board_step e a b with
    | Some b' => let r := run_board l' b' in (true :: r.1, r.2)
    | None => let r := run_board l' b in (false :: r.1, r.2)
    end
  end.

Lemma blank_represents : represents blank_msig blank_board.
Proof. split; try done. Qed.

Lemma runs_agree (l : list (Env * msig_action)) : forall s b, represents s b ->
  (run_contract l s).1 = (run_board l b).1 /\ represents (run_contract l s).2 (run_board l b).2.
Proof.
  induction l as [|[e a] l IH]; intros s b Hr; [done|]. cbn.
  pose proof (msig_simulates e a s b Hr) as Hsim. unfold simulates in Hsim.
  destruct (msig_exec e a s) as [[u s']|msg], (board_step e a b) as [b'|]; try done; cbn;
    [destruct (IH s' b' Hsim) as [-> ?]|destruct (IH s b Hr) as [-> ?]]; done.
Qed.

(** C8: The multi-signature contract refines the board of motions: over any sequence of
    actions, with any environments, the same actions succeed on both, and the tables of
    the contract represent the board throughout - also of proposals that ask the same
    permission more than once, which the contract does not refuse. *)
Theorem msig_implements_board (l : list (Env * msig_action)) (s : msig) (b : board) :
  represents s b ->
  (run_contract l s).1 = (run_board l b).1 /\ represents (run_contract l s).2 (run_board l b).2.
Proof. apply runs_agree. Qed.

(** C27: When an approval completes what a transaction needs, the proposal can be executed
    from its delay on until it expires, by anyone; then its actions are sent and it is
    gone. Before that moment it cannot. *)
Theorem approval_leads_to_execution (e1 e2 : Env) (p n x : name) (l : permission_level) (s : msig) (b : board) (m : motion) :
  represents s b -> motions b !! (p, n) = Some m ->
  has_permission e1 l = true -> (length (given m !!! l) < multiplicity l (asked m))%nat -> ready m = None ->
  enough (revoked b) (m <| given ::= insert l (given m !!! l ++ [now_us e1]) |>) = true ->
  has_auth e2 x = true -> expired e2 (m_trx m) = false ->
  exists u1 s1, approve e1 p n l None s = Ok (u1, s1) /\
    if now_us e1 + trx_delay_sec (m_trx m) * 1000000 <=? now_us e2
    then exists u2 s2, exec e2 p n x s1 = Ok (u2, s2) /\ sent s2 = sent s ++ trx_actions (m_trx m) /\ proposals s2 !! (p, n) = None
    else is_ok (exec e2 p n x s1) = false.
Proof.
  intros Hr Hm Hperm Hask Hready Hen Hx Hexp.
  pose proof (approve_simulates e1 p n l None s b Hr) as Hsim. unfold board_step in Hsim. rewrite Hm in Hsim.
  cbn [mbind option_bind] in Hsim. rewrite Hperm, Hready, Hen, (proj2 (Nat.ltb_lt _ _) Hask) in Hsim.
  cbn [is_found negb andb if_true] in Hsim. set (m2 := _ <| ready := Some _ |>) in Hsim.
  set (b1 := b <| motions ::= insert (p, n) m2 |>) in Hsim. unfold simulates in Hsim.
  destruct (approve e1 p n l None s) as [[u1 s1]|] eqn:H1; [|done]. exists u1, s1. split; [done|].
  assert (sent s1 = sent s) as Hs1 by (rewrite (rep_sent _ _ Hsim), (rep_sent _ _ Hr); done).
  pose proof (exec_simulates e2 p n x s1 b1 Hsim) as Hex. unfold board_step in Hex.
  assert (motions b1 !! (p, n) = Some m2) as Hm2 by apply lookup_insert_eq. rewrite Hm2 in Hex. cbn [mbind option_bind] in Hex.
  change (m_trx m2) with (m_trx m) in Hex. change (enough (revoked b1) m2) with (enough (revoked b) (m <| given ::= insert l (given m !!! l ++ [now_us e1]) |>)) in Hex.
  rewrite Hx, Hexp, Hen in Hex. cbn [negb andb] in Hex.
  change (ready m2) with (Some (now_us e1 + trx_delay_sec (m_trx m) * 1000000)) in Hex. cbn match in Hex.
  destruct (_ <=? now_us e2); cbn [if_true] in Hex; unfold simulates in Hex;
    destruct (exec e2 p n x s1) as [[u2 s2]|]; try done.
  exists u2, s2. split; [done|]. split; [by rewrite (rep_sent _ _ Hex), <- Hs1, (rep_sent _ _ Hsim)|].
  pose proof (represents_motion s2 _ (p, n) Hex) as Hk. cbn in Hk. rewrite lookup_delete_eq in Hk.
  by destruct (proposals s2 !! (p, n)).
Qed.

(** ** What an execution rests on *)

(** The successful actions since the contract was empty, with the clock never going back. *)
Inductive history : list (Env * msig_action) -> msig -> Prop :=
| history_nil : history [] blank_msig
| history_snoc h s e a u s' :
    history h s -> Forall (fun x => now_us x.1 <= now_us e) h ->
    msig_exec e a s = Ok (u, s') -> history (h ++ [(e, a)]) s'.

(** Each motion was proposed, each approval on it was given, each revocation is remembered. *)
Record witnessed (h : list (Env * msig_action)) (b : board) : Prop := {
  proposed : forall p n m, motions b !! (p, n) = Some m ->
    exists e r, (e, Propose p n r (m_trx m)) ∈ h /\ asked m = list_to_set_disj r;
  approved : forall p n m v t, motions b !! (p, n) = Some m -> t ∈ given m !!! v ->
    v ∈ asked m /\ exists e hash, (e, Approve p n v hash) ∈ h /\ has_permission e v = true /\ now_us e = t;
  remembered : forall e a, (e, Invalidate a) ∈ h -> exists t, revoked b !! a = Some t /\ now_us e <= t;
}.

(** A board that changes one motion, or none. *)
Lemma witnessed_same h b b' e a :
  witnessed h b -> (forall k m, motions b' !! k = Some m -> motions b !! k = Some m) -> revoked b' = revoked b ->
  (forall x, a <> Invalidate x) -> witnessed (h ++ [(e, a)]) b'.
Proof.
  intros [Hp Ha Hr] Hm Hv Hna. split.
  - intros p n m H. destruct (Hp p n m (Hm _ _ H)) as (e0 & r & Hin & Hask). exists e0, r. rewrite elem_of_app. auto.
  - intros p n m v t H Hg. destruct (Ha p n m v t (Hm _ _ H) Hg) as (Hin & e0 & hash & Hin' & Hperm & Ht).
    split; [done|]. exists e0, hash. rewrite elem_of_app. auto.
  - intros e0 x Hin. rewrite Hv. apply elem_of_app in Hin as [Hin|Hin%list_elem_of_singleton]; [by apply (Hr e0)|].
    injection Hin as _ Heq. by destruct (Hna x).
Qed.

Lemma witnessed_change h b p n m m' e a b' :
  witnessed h b -> motions b !! (p, n) = Some m -> m_trx m' = m_trx m -> asked m' = asked m ->
  (forall v t, t ∈ given m' !!! v -> t ∈ given m !!! v \/
     v ∈ asked m /\ has_permission e v = true /\ now_us e = t /\ exists hash, a = Approve p n v hash) ->
  motions b' = <[(p, n) := m']> (motions b) -> revoked b' = revoked b -> (forall x, a <> Invalidate x) ->
  witnessed (h ++ [(e, a)]) b'.
Proof.
  intros Hw Hm Htrx Hask Hgiven Hb Hv Hna.
  destruct (witnessed_same h b b e a Hw) as [Hp Ha Hr]; [done..|]. split; [| |by rewrite Hv].
  - intros p' n' m0. rewrite Hb. intros [[[= <- <-] <-]|[_ H]]%lookup_insert_Some; [|by apply Hp].
    rewrite Htrx, Hask. by apply Hp.
  - intros p' n' m0 v t. rewrite Hb. intros [[[= <- <-] <-]|[_ H]]%lookup_insert_Some Hg; [|by eapply Ha].
    rewrite Hask. destruct (Hgiven v t Hg) as [Hold|(Hin & Hperm & Ht & hash & ->)]; [by apply (Ha p n m v t)|].
    split; [done|]. exists e, hash. rewrite elem_of_app, list_elem_of_singleton. auto.
Qed.

Lemma board_step_witnessed h b e a b' :
  witnessed h b -> Forall (fun x => now_us x.1 <= now_us e) h ->
  board_step e a b = Some b' -> witnessed (h ++ [(e, a)]) b'.
Proof.
  intros Hw Htime H. destruct a as [p n r t|p n l hash|p n l|p n c|p n x|acc]; cbn in H;
    try (destruct (motions b !! (p, n)) as [m|] eqn:Hm; [cbn in H|done]);
    (unfold if_true in H; case_match; [|done]); injection H as <-.
  - destruct (witnessed_same h b b e (Propose p n r t) Hw) as [Hp Ha Hr]; [done..|]. split; cbn; [| |done].
    + intros p' n' m' [[[= <- <-] <-]|[_ Hm]]%lookup_insert_Some; [|by apply Hp].
      exists e, r. rewrite elem_of_app, list_elem_of_singleton. auto.
    + intros p' n' m' v t' [[[= <- <-] <-]|[_ Hm]]%lookup_insert_Some Hg; [|by eapply Ha].
      cbn in Hg. rewrite lookup_total_empty in Hg. by apply elem_of_nil in Hg.
  - rewrite !andb_true_iff in *. destruct_and!.
    eapply (witnessed_change h b p n m _ e _ _ Hw Hm); [| | |reflexivity|reflexivity|done].
    1-2: by destruct (_ && _).
    intros v t0 Hg. assert (t0 ∈ <[l := given m !!! l ++ [now_us e]]> (given m) !!! v) as Hi by (by destruct (_ && _)).
    destruct (decide (v = l)) as [->|Hne]; [|left; by rewrite lookup_total_insert_ne in Hi].
    rewrite lookup_total_insert_eq in Hi. apply elem_of_app in Hi as [?| ->%list_elem_of_singleton]; [by left|right].
    split; [apply elem_of_multiplicity; destruct (multiplicity l (asked m)); [done|lia]|]. eauto.
  - eapply (witnessed_change h b p n m _ e _ _ Hw Hm); [| | |reflexivity|reflexivity|done].
    1-2: by destruct (enough _ _).
    intros v t0 Hg. left. assert (t0 ∈ <[l := tail (given m !!! l)]> (given m) !!! v) as Hd by (by destruct (enough _ _)).
    destruct (decide (v = l)) as [->|Hne]; [|by rewrite lookup_total_insert_ne in Hd].
    rewrite lookup_total_insert_eq in Hd. destruct (given m !!! l); [done|]. by right.
  - eapply witnessed_same; [exact Hw| |done|done]. cbn. by intros k m' [_ ?]%lookup_delete_Some.
  - eapply witnessed_same; [exact Hw| |done|done]. cbn. by intros k m' [_ ?]%lookup_delete_Some.
  - destruct (witnessed_same h b b e (Cancel 0 0 0) Hw) as [Hp Ha Hr]; [done..|]. split.
    + intros p n m Hm. destruct Hw as [Hp' _ _]. destruct (Hp' p n m Hm) as (e0 & r & Hin & ?). exists e0, r.
      rewrite elem_of_app. auto.
    + intros p n m v t Hm Hg. destruct Hw as [_ Ha' _]. destruct (Ha' p n m v t Hm Hg) as (? & e0 & hash & ? & ?).
      split; [done|]. exists e0, hash. rewrite elem_of_app. auto.
    + cbn. intros e0 a Hin. destruct (decide (a = acc)) as [->|Hne].
      * exists (now_us e). rewrite lookup_insert_eq. split; [done|].
        apply elem_of_app in Hin as [Hin|Hin%list_elem_of_singleton]; [|by injection Hin as ->].
        rewrite Forall_forall in Htime. by apply (Htime _ Hin).
      * rewrite lookup_insert_ne by done. apply elem_of_app in Hin as [Hin|Hin%list_elem_of_singleton]; [|by injection Hin].
        by apply (remembered _ _ Hw e0).
Qed.

Lemma history_witnessed h s : history h s -> exists b, represents s b /\ witnessed h b.
Proof.
  induction 1 as [|h s e a u s' _ (b & Hr & Hw) Htime H].
  - exists blank_board. split; [apply blank_represents|]. split; [done..|]. by intros e a Hin%elem_of_nil.
  - pose proof (msig_simulates e a s b Hr) as Hsim. rewrite H in Hsim. cbn in Hsim.
    destruct (board_step e a b) as [b'|] eqn:Hb; [|done]. exists b'. split; [done|]. by eapply board_step_witnessed.
Qed.

(** C15: If a proposal executes, its actions are those of a transaction that was proposed
    under its name, and the host accepted that transaction on permissions each of which
    was asked for and approved it, with its authority, after the last time its account
    invalidated its approvals. *)
Theorem execution_rests_on_approvals (h : list (Env * msig_action)) (s s' : msig) (e : Env) (p n x : name) (u : unit) :
  history h s -> exec e p n x s = Ok (u, s') ->
  exists e0 requested trx levels,
    (e0, Propose p n requested trx) ∈ h /\ sent s' = sent s ++ trx_actions trx /\
    trx_is_authorized levels trx = true /\
    forall v, v ∈ levels -> v ∈ requested /\ exists e1 hash, (e1, Approve p n v hash) ∈ h /\ has_permission e1 v = true /\
      forall e2, (e2, Invalidate (actor v)) ∈ h -> now_us e2 < now_us e1.
Proof.
  intros (b & Hr & Hw)%history_witnessed Hex. pose proof (exec_simulates e p n x s b Hr) as Hsim. rewrite Hex in Hsim.
  unfold simulates, board_step in Hsim. destruct (motions b !! (p, n)) as [m|] eqn:Hm; [|done]. cbn [mbind option_bind] in Hsim.
  match type of Hsim with context [if_true ?c _] => destruct c eqn:Hc; cbn [if_true] in Hsim; [|done] end.
  rewrite !andb_true_iff in Hc. destruct Hc as [[[_ _] Hen] _].
  destruct (proposed _ _ Hw p n m Hm) as (e0 & r & Hin & Hask). exists e0, r, (m_trx m), (voices (revoked b) m).
  split; [done|]. split; [by rewrite (rep_sent _ _ Hsim), (rep_sent _ _ Hr)|]. split; [done|].
  intros v Hv. unfold voices in Hv. apply list_elem_of_In, in_map_iff in Hv as ([v' t] & Hv' & Hf). cbn in Hv'. subst v'.
  apply filter_In in Hf as [Hmem Hst]. apply spread_given in Hmem.
  destruct (approved _ _ Hw p n m v t Hm Hmem) as (Hva & e1 & hash & Hin1 & Hperm & <-).
  split; [by rewrite Hask, elem_of_list_to_set_disj in Hva|]. exists e1, hash. split; [done|]. split; [done|].
  intros e2 Hinv. destruct (remembered _ _ Hw e2 (actor v) Hinv) as (t' & Hrev & Hle).
  unfold stands in Hst. cbn in Hst. rewrite Hrev in Hst. apply Z.ltb_lt in Hst. lia.
Qed.
End promises.

(** ** An example: two must approve, and wait an hour *)
Definition msig_model : MsigHost := {|
  trx_is_authorized l t := (2 <=? size (list_to_set l : gset permission_level))%nat;
  trx_sha256 t := trx_expiration t;
|}.
#[export] Instance msig_model_laws : MsigLaws msig_model.
Proof. split. intros l l' t Hp. cbn. assert (list_to_set l = (list_to_set l' : gset permission_level)) as -> by (apply leibniz_equiv; by rewrite Hp). done. Qed.

(** The permission [active]. *)
Definition ex_level (n : name) : permission_level := PermissionLevel n 3617214756542218240.
Definition ex_trx : transaction := Transaction 2000000000 3600 [] [42].
Definition ex_msig_env (n : name) (t : Z) : Env := mkEnv 1 [ex_level n] (1700000000000000 + t * 1000000) (fun _ => true).
(** One permission is asked twice: it approves twice, a third time it cannot, and counts once. *)
Definition ex_script : list (Env * msig_action) :=
  [ (ex_msig_env 5 0, Propose 5 100 [ex_level 6; ex_level 6; ex_level 7] ex_trx);
    (ex_msig_env 6 1, Approve 5 100 (ex_level 6) None);
    (ex_msig_env 6 2, Approve 5 100 (ex_level 6) None);
    (ex_msig_env 6 2, Approve 5 100 (ex_level 6) None);
    (ex_msig_env 6 2, Exec 5 100 6);
    (ex_msig_env 7 3, Approve 5 100 (ex_level 7) None);
    (ex_msig_env 6 4, Exec 5 100 6);
    (ex_msig_env 6 3603, Exec 5 100 6);
    (ex_msig_env 6 3604, Exec 5 100 6) ].
Definition ex_outcomes : list bool := [true; true; true; false; false; true; false; true; false].

Lemma msig_implements_board_witness :
  (run_board (cdt := cdt_model) (host := msig_model) ex_script blank_board).1 = ex_outcomes /\
  (run_contract (cdt := cdt_model) (host := msig_model) ex_script blank_msig).1 = ex_outcomes /\
  executed (run_board (cdt := cdt_model) (host := msig_model) ex_script blank_board).2 = [42].
Proof.
  destruct (msig_implements_board (cdt := cdt_model) (host := msig_model) ex_script blank_msig blank_board
    blank_represents) as [Heq _].
  assert ((run_board (cdt := cdt_model) (host := msig_model) ex_script blank_board).1 = ex_outcomes) as Hb
    by (vm_compute; reflexivity).
  split; [exact Hb|]. split; [rewrite Heq; exact Hb|vm_compute; reflexivity].
Defined.

Definition ex_msig : msig := (run_contract (cdt := cdt_model) (host := msig_model) (firstn 2 ex_script) blank_msig).2.
Definition ex_board : board := (run_board (cdt := cdt_model) (host := msig_model) (firstn 2 ex_script) blank_board).2.

Lemma ex_msig_represents : represents ex_msig ex_board.
Proof.
  apply runs_agree, blank_represents.
Qed.

Lemma approval_leads_to_execution_witness :
  exists u1 s1 u2 s2, approve (host := msig_model) (ex_msig_env 7 3) 5 100 (ex_level 7) None ex_msig = Ok (u1, s1) /\
    exec (cdt := cdt_model) (host := msig_model) (ex_msig_env 6 3603) 5 100 6 s1 = Ok (u2, s2) /\ sent s2 = [42].
Proof.
  destruct (motions ex_board !! (5, 100)) as [m|] eqn:Hm; [|vm_compute in Hm; discriminate].
  assert (ready m = None /\ (length (given m !!! ex_level 7) <? multiplicity (ex_level 7) (asked m))%nat = true /\ m_trx m = ex_trx /\
    enough (host := msig_model) (revoked ex_board) (m <| given ::= insert (ex_level 7) (given m !!! ex_level 7 ++ [now_us (ex_msig_env 7 3)]) |>) = true)
    as (Hready & Hask & Htrx & Hen).
  { vm_compute in Hm. injection Hm as <-. vm_compute. done. }
  destruct (approval_leads_to_execution (cdt := cdt_model) (host := msig_model) (ex_msig_env 7 3) (ex_msig_env 6 3603) 5 100 6 (ex_level 7)
    ex_msig ex_board m ex_msig_represents Hm) as (u1 & s1 & H1 & H2).
  - vm_compute. reflexivity.
  - exact (proj1 (Nat.ltb_lt _ _) Hask).
  - exact Hready.
  - exact Hen.
  - vm_compute. reflexivity.
  - rewrite Htrx. vm_compute. reflexivity.
  - rewrite Htrx in H2. change (now_us (ex_msig_env 7 3) + trx_delay_sec ex_trx * 1000000 <=? now_us (ex_msig_env 6 3603)) with true in H2.
    destruct H2 as (u2 & s2 & H2 & Hs & _). exists u1, s1, u2, s2. split; [exact H1|]. split; [exact H2|exact Hs].
Defined.

Lemma execution_rests_on_approvals_witness :
  exists h s, history (cdt := cdt_model) (host := msig_model) h s /\
    is_ok (exec (cdt := cdt_model) (host := msig_model) (ex_msig_env 6 3603) 5 100 6 s) = true /\
    exists levels requested, (2 <=? size (list_to_set levels : gset permission_level))%nat = true /\
      (forall v, v ∈ levels -> v ∈ requested) /\ (exists e0 trx, (e0, Propose 5 100 requested trx) ∈ h).
Proof.
  set (ex := fun e a => msig_exec (cdt := cdt_model) (host := msig_model) e a).
  set (e1 := ex_msig_env 5 0). set (e2 := ex_msig_env 6 1). set (e3 := ex_msig_env 7 3). set (e4 := ex_msig_env 6 3603).
  set (a1 := Propose 5 100 [ex_level 5; ex_level 6; ex_level 7] ex_trx).
  set (a2 := Approve 5 100 (ex_level 6) None). set (a3 := Approve 5 100 (ex_level 7) None). set (a4 := Exec 5 100 6).
  assert (is_ok ((ex e1 a1 ;; ex e2 a2 ;; ex e3 a3 ;; ex e4 a4) blank_msig) = true) as Hok by (vm_compute; reflexivity).
  apply is_ok_run in Hok as (u & s4 & H). apply bind_Ok in H as (u1 & s1 & H1 & H).
  apply bind_Ok in H as (u2 & s2 & H2 & H). apply bind_Ok in H as (u3 & s3 & H3 & H4).
  assert (history (cdt := cdt_model) (host := msig_model) [(e1, a1); (e2, a2); (e3, a3)] s3) as Hh.
  { apply (history_snoc [(e1, a1); (e2, a2)] s2 e3 a3 u3); [| |exact H3].
    2:{ repeat (apply Forall_cons; split); [vm_compute; discriminate..|apply Forall_nil_2]. }
    apply (history_snoc [(e1, a1)] s1 e2 a2 u2); [| |exact H2].
    2:{ repeat (apply Forall_cons; split); [vm_compute; discriminate..|apply Forall_nil_2]. }
    apply (history_snoc [] blank_msig e1 a1 u1); [constructor|apply Forall_nil_2|exact H1]. }
  exists [(e1, a1); (e2, a2); (e3, a3)], s3. split; [exact Hh|]. split.
  { change (is_ok (ex e4 a4 s3) = true). unfold ex in H4 |- *. rewrite H4. reflexivity. }
  destruct (execution_rests_on_approvals (cdt := cdt_model) (host := msig_model) _ s3 s4 e4 5 100 6 u Hh H4)
    as (e0 & r & trx & levels & Hin & _ & Hauth & Hall).
  exists levels, r. split; [exact Hauth|]. split; [|exists e0, trx; exact Hin].
  intros v Hv. exact (proj1 (Hall v Hv)).
Defined.
