(* ===== verification/Bios.v ===== *)
(** * The small contracts: eosio.wrap, eosio.bios and eosio.boot

    They pass requests to the host, which is recorded here as a list of calls. *)
From S2P Require Import Prelude.
From S2P Require Import Cdt.
From S2P Require Import SysState.
From S2P Require Import Msig.
From stdpp Require Import base gmap strings list.
Open Scope Z_scope.

Inductive host_call :=
| SendActions (actions : list Z)
| CallSetPrivileged (account : name) (is_priv : Z)
| CallSetLimits (account : name) (ram net cpu : Z)
| CallProposeSchedule (schedule : list (name * block_signing_authority))
| CallSetParams (params : Z)
| CallPreactivate (digest : Z).

Record small := Small { abi_hashes : gmap name Z; calls : list host_call }.
#[export] Instance eta_small : EtaRecord small := fun r => Small (abi_hashes r) (calls r).

Section bios.
Context (e : Env) (sha256 : list Z -> Z) (is_feature_activated : Z -> bool).

Definition call (c : host_call) : M small unit := modify (fun s => s <| calls ::= fun l => l ++ [c] |>).


Definition wrap_exec (executer : name) (trx : transaction) : M small unit :=
  require_auth e (self e) ;;
  require_auth e executer ;;
  check (bool_decide (context_free_actions trx = []))
    "not allowed to `exec` a transaction with context-free actions" ;;
  call (SendActions (trx_actions trx)).


Definition bios_setabi (account : name) (abi : list Z) : M small unit :=
  modify (fun s => s <| abi_hashes ::= insert account (sha256 abi) |>).
Definition bios_onerror : M small unit := throw "the onerror action cannot be called directly".
Definition bios_setpriv (account : name) (is_priv : Z) : M small unit :=
  require_auth e (self e) ;; call (CallSetPrivileged account is_priv).
Definition bios_setalimits (account : name) (ram_bytes net_weight cpu_weight : Z) : M small unit :=
  require_auth e (self e) ;; call (CallSetLimits account ram_bytes net_weight cpu_weight).
Definition bios_setprods (schedule : list (name * block_signing_authority)) : M small unit :=
  require_auth e (self e) ;; call (CallProposeSchedule schedule).
Definition bios_setparams (params : Z) : M small unit := require_auth e (self e) ;; call (CallSetParams params).
Definition bios_reqauth (from : name) : M small unit := require_auth e from.
Definition bios_activate (feature_digest : Z) : M small unit :=
  require_auth e (self e) ;; call (CallPreactivate feature_digest).
Definition bios_reqactivated (feature_digest : Z) : M small unit :=
  check (is_feature_activated feature_digest) "protocol feature is not activated".
Definition boot_onerror : M small unit := throw "the onerror action cannot be called directly".
Definition boot_activate (feature_digest : Z) : M small unit :=
  require_auth e (self e) ;; call (CallPreactivate feature_digest).
Definition boot_reqactivated (feature_digest : Z) : M small unit :=
  check (is_feature_activated feature_digest) "protocol feature is not activated".
End bios.
